(** * UniversalVolumetric player: prefetch scheduler, clock, eviction, ABR

    A shallow embedding of the volumetric-video [Player] class and the
    properties of its scheduling core.

    Two generations of the class are embedded:
    - [Player]        the multi-target player (ManyKeysMap stores, per-target
                      high-water marks, adaptive texture target, fallback
                      search in [processFrame]);
    - [SegmentPlayer] the earlier single-target player (plain [Map] stores
                      keyed by frame / texture segment number).

    Conventions of the embedding
    - JavaScript numbers that hold frame numbers, frame rates, frame counts,
      whole seconds and [Date.now()] milliseconds are [Z]; numbers that hold
      seconds ([currentTime]) and ratios (the ABR samples) are exact
      rationals [Q], so rounding error of IEEE doubles is not modelled.
    - [Math.round x] is [floor (x + 1/2)].
    - A property access on [undefined] throws a [TypeError]; the [Js] monad
      below keeps the state reached and the calls made before the throw.
    - Calls into collaborators (decoders, renderer, callbacks, the media
      element) are recorded, in order, in a trace of [Event]s. *)

From Stdlib Require Import ZArith QArith Qround Lia Lqa.
From stdpp Require Import base option list gmap strings.

Open Scope Z_scope.

(** ** Decoded objects and the call trace *)

Inductive BufferGeometry : Type := Geometry (id : N).
Inductive Texture : Type := Tex (id : N).

#[global] Instance BufferGeometry_eq_dec : EqDecision BufferGeometry.
Proof. solve_decision. Defined.
#[global] Instance Texture_eq_dec : EqDecision Texture.
Proof. solve_decision. Defined.

(** Key of the geometry store: (Target, FrameNo). *)
Definition MeshKey : Type := string * Z.
(** Key of the texture store: (Type, Tag, Target, FrameNo).  The tag comes
    from [currentTextureTag[type]], which may be [undefined]. *)
Definition TextureKey : Type := string * option string * string * Z.

Inductive Event : Type :=
| EFetchGeometry (gTarget : string) (frameNo : Z)
| EFetchTexture (textureType : string) (tag : option string) (target : string) (frameNo : Z)
| EFetchSegmentGeometry (frameNo : Z)
| EFetchSegmentTexture (segmentNo : Z)
| EDisposeGeometry (b : BufferGeometry)
| EDisposeTexture (b : Texture)
| EMeshMapDelete (key : MeshKey)
| ETextureMapDelete (key : TextureKey)
| ESegmentMeshDelete (key : Z)
| ESegmentTextureDelete (key : Z)
| EOnMeshBuffering (progress : Q)
| EOnFrameShow (frameNo : Z)
| EOnTrackEnd
| EClearInterval
| EUpdateGeometry (b : BufferGeometry)
| EUpdateTexture (b : Texture)
| EFailMaterial
| EShowSegment (segmentNo : Z) (offSet : Z)
| EAudioPlay
| EAudioPause
| EDisposeLoaders.

(** ** JavaScript [Map] with insertion order

    [Map] and [ManyKeysMap] iterate in insertion order; [set] on a present
    key keeps its position. *)

Module JsMap.
Section ops.
Context {K V : Type} `{EqDecision K}.

Fixpoint get (k : K) (m : list (K * V)) : option V :=
  match m with
  | [] => None
  | (k', v) :: r => if decide (k = k') then Some v else get k r
  end.

Definition has (k : K) (m : list (K * V)) : bool :=
  match get k m with Some _ => true | None => false end.

Fixpoint set (k : K) (v : V) (m : list (K * V)) : list (K * V) :=
  match m with
  | [] => [(k, v)]
  | (k', v') :: r => if decide (k = k') then (k, v) :: r else (k', v') :: set k v r
  end.

Fixpoint delete (k : K) (m : list (K * V)) : list (K * V) :=
  match m with
  | [] => []
  | (k', v) :: r => if decide (k = k') then delete k r else (k', v) :: delete k r
  end.

Definition size (m : list (K * V)) : Z := Z.of_nat (length m).

Definition keys (m : list (K * V)) : list K := m.*1.

End ops.
End JsMap.

(** ** The [Js] monad: state, call trace and [TypeError] *)

Inductive Completion (A : Type) : Type :=
| Normal (a : A)
| TypeError.
Arguments Normal {A} a.
Arguments TypeError {A}.

Definition Js (S A : Type) : Type := S -> Completion A * S * list Event.

Definition ret {S A} (a : A) : Js S A := fun s => (Normal a, s, []).

Definition bind {S A B} (m : Js S A) (f : A -> Js S B) : Js S B :=
  fun s =>
    match m s with
    | (Normal a, s1, e1) =>
        match f a s1 with
        | (r, s2, e2) => (r, s2, e1 ++ e2)
        end
    | (TypeError, s1, e1) => (TypeError, s1, e1)
    end.

Definition get {S} : Js S S := fun s => (Normal s, s, []).
Definition modify {S} (f : S -> S) : Js S unit := fun s => (Normal tt, f s, []).
Definition emit {S} (e : Event) : Js S unit := fun s => (Normal tt, s, [e]).
Definition throw {S A} : Js S A := fun s => (TypeError, s, []).

(** A computation that only completes. *)
Definition complete {S A} (c : Completion A) : Js S A := fun s => (c, s, []).

(** [m] is a pure read in state [s]: it throws or returns a value that
    satisfies [P], changes nothing and calls nothing. *)
Definition reads {S A} (m : Js S A) (s : S) (P : A -> Prop) : Prop :=
  exists c, m s = (c, s, []) /\ forall v, c = Normal v -> P v.

(** Reading a property of [o]: a [TypeError] when [o] is [undefined]. *)
Definition deref {S A} (o : option A) : Js S A :=
  match o with Some a => ret a | None => throw end.

Declare Scope js_scope.
Delimit Scope js_scope with js.
Notation "x ← m ; k" := (bind m (fun x => k))
  (at level 20, m at level 100, k at level 200, only parsing) : js_scope.
Notation "m ;; k" := (bind m (fun _ => k))
  (at level 100, k at level 200, only parsing, right associativity) : js_scope.

(** [l.forEach(f)] and [for (const x of l) f(x)]. *)
Fixpoint forEach {S A} (l : list A) (f : A -> Js S unit) : Js S unit :=
  match l with
  | [] => ret tt
  | x :: r => (f x ;; forEach r f)%js
  end.

(** [for (let i = 0; i < n; i++) body(i)]. *)
Definition forRange {S} (n : Z) (body : Z -> Js S unit) : Js S unit :=
  forEach (seqZ 0 n) body.

(** The three components of a run. *)
Definition completion {S A} (r : Completion A * S * list Event) : Completion A := r.1.1.
Definition state {S A} (r : Completion A * S * list Event) : S := r.1.2.
Definition trace {S A} (r : Completion A * S * list Event) : list Event := r.2.

(** [Math.round]. *)
Definition Math_round (x : Q) : Z := Qfloor (x + (1 # 2)).

(** ** The media element used as audio clock (external collaborator) *)

Record HTMLMediaElement : Type := {
  media_paused : bool;
  media_ended : bool;
  media_currentTime : Q
}.

Definition media_play (a : HTMLMediaElement) : HTMLMediaElement :=
  {| media_paused := false; media_ended := media_ended a;
     media_currentTime := media_currentTime a |}.

Definition media_pause (a : HTMLMediaElement) : HTMLMediaElement :=
  {| media_paused := true; media_ended := media_ended a;
     media_currentTime := media_currentTime a |}.

(** ** Manifest *)

(** Per-target attributes read by the player core. *)
Record TargetData : Type := {
  frameRate : Z;
  frameCount : Z
}.

(** [geometry m !! g] is [manifest.geometry.targets[g]];
    [texture m !! ty] is [manifest.texture[ty].targets];
    [input_texture m !! ty] lists the [tag] field of every entry of
    [manifest.input.texture[ty]]. *)
Record V2Schema : Type := {
  geometry : gmap string TargetData;
  texture : gmap string (gmap string TargetData);
  input_texture : gmap string (list (option string));
  audio_path : option string
}.

(** *** Frame index mapper ([./utils]) *)

(** Modelled from the spec: [calculateGeometryFrame] of [./utils], which is
    not among the sources; spec 4.2 gives
    [frameNumber(target, time) = round(time * targetFrameRate)], and the
    private method of the same name in [src/V2/player.ts] computes
    [Math.round(currentTime * frameRate)] on
    [manifest.geometry.targets[gTarget]]. *)
Definition calculateGeometryFrame (m : V2Schema) (gTarget : string) (currentTime : Q)
  : option Z :=
  td ← geometry m !! gTarget;
  Some (Math_round (currentTime * inject_Z (frameRate td))).

(** Modelled from the spec: [GeometryFrameCount] of [./utils]; spec 4.2 gives
    [frameCount(target) = manifest frameCount for target]. *)
Definition utils_GeometryFrameCount (m : V2Schema) (gTarget : string) : option Z :=
  td ← geometry m !! gTarget;
  Some (frameCount td).

(** Modelled from the spec: [calculateTextureFrame] of [./utils], as
    [calculateGeometryFrame] on [manifest.texture[type].targets[target]]. *)
Definition calculateTextureFrame (m : V2Schema) (textureType target : string)
  (currentTime : Q) : option Z :=
  targets ← texture m !! textureType;
  td ← targets !! target;
  Some (Math_round (currentTime * inject_Z (frameRate td))).

(** [TextureFrameCount] of [./utils] is not among the sources.  It is
    embedded from the method of the same name in [src/V2/player.ts], whose
    docstring, "Only consider 'baseColor' for frameCount", the multi-target
    player keeps on its own wrapper: whatever the texture type, the count is
    [manifest.texture.baseColor.targets[target].frameCount]. *)
Definition utils_TextureFrameCount (m : V2Schema) (textureType target : string)
  : option Z :=
  targets ← texture m !! "baseColor";
  td ← targets !! target;
  Some (frameCount td).

(** [manifest.texture[type].targets[target].frameRate]. *)
Definition textureFrameRate (m : V2Schema) (textureType target : string) : option Z :=
  targets ← texture m !! textureType;
  td ← targets !! target;
  Some (frameRate td).

(** [arr.indexOf(x)]: first position of [x], or [-1]. *)
Fixpoint indexOf (l : list string) (x : string) : Z :=
  match l with
  | [] => -1
  | y :: r =>
      if decide (y = x) then 0
      else let i := indexOf r x in if i <? 0 then -1 else i + 1
  end.

(** [arr[i]] for a number [i]. *)
Definition nth_Z (l : list string) (i : Z) : option string :=
  if i <? 0 then None else l !! Z.to_nat i.

(** [stats.reduce((a, b) => a + b, 0) / stats.length]. *)
Definition mean (stats : list Q) : Q :=
  fold_left Qplus stats 0%Q / inject_Z (Z.of_nat (length stats)).

(** ** The multi-target player *)

Module Player.

Record TrackData : Type := {
  manifest : V2Schema;
  hasAudio : bool;
  lastRequestedGeometryFrame : gmap string Z;
  lastRequestedTextureFrame : gmap string (gmap string Z);
  geometryTargets : list string;
  currentGeometryTarget : option string;
  textureTypes : list string;
  textureTargets : gmap string (list string);
  textureTags : gmap string (list string);
  currentTextureTarget : gmap string string;
  currentTextureTag : gmap string string;
  stats : list Q
}.

Record TimeData : Type := {
  currentTime : Q;
  startTime : Z;
  pausedTime : Z;
  totalPausedDuration : Z;
  isClockPaused : bool
}.

Record Player : Type := {
  bufferDuration : Z;
  intervalDuration : Z;
  audio : HTMLMediaElement;
  meshMap : list (MeshKey * BufferGeometry);
  textureMap : list (TextureKey * Texture);
  trackData : option TrackData;
  timeData : option TimeData
}.

(** *** Field updates *)

Definition set_lastRequestedGeometryFrame (v : gmap string Z) (t : TrackData) : TrackData :=
  {| manifest := manifest t; hasAudio := hasAudio t;
     lastRequestedGeometryFrame := v;
     lastRequestedTextureFrame := lastRequestedTextureFrame t;
     geometryTargets := geometryTargets t;
     currentGeometryTarget := currentGeometryTarget t;
     textureTypes := textureTypes t; textureTargets := textureTargets t;
     textureTags := textureTags t;
     currentTextureTarget := currentTextureTarget t;
     currentTextureTag := currentTextureTag t; stats := stats t |}.

Definition set_lastRequestedTextureFrame (v : gmap string (gmap string Z)) (t : TrackData)
  : TrackData :=
  {| manifest := manifest t; hasAudio := hasAudio t;
     lastRequestedGeometryFrame := lastRequestedGeometryFrame t;
     lastRequestedTextureFrame := v;
     geometryTargets := geometryTargets t;
     currentGeometryTarget := currentGeometryTarget t;
     textureTypes := textureTypes t; textureTargets := textureTargets t;
     textureTags := textureTags t;
     currentTextureTarget := currentTextureTarget t;
     currentTextureTag := currentTextureTag t; stats := stats t |}.

Definition set_currentTextureTarget (v : gmap string string) (t : TrackData) : TrackData :=
  {| manifest := manifest t; hasAudio := hasAudio t;
     lastRequestedGeometryFrame := lastRequestedGeometryFrame t;
     lastRequestedTextureFrame := lastRequestedTextureFrame t;
     geometryTargets := geometryTargets t;
     currentGeometryTarget := currentGeometryTarget t;
     textureTypes := textureTypes t; textureTargets := textureTargets t;
     textureTags := textureTags t;
     currentTextureTarget := v;
     currentTextureTag := currentTextureTag t; stats := stats t |}.

Definition set_stats (v : list Q) (t : TrackData) : TrackData :=
  {| manifest := manifest t; hasAudio := hasAudio t;
     lastRequestedGeometryFrame := lastRequestedGeometryFrame t;
     lastRequestedTextureFrame := lastRequestedTextureFrame t;
     geometryTargets := geometryTargets t;
     currentGeometryTarget := currentGeometryTarget t;
     textureTypes := textureTypes t; textureTargets := textureTargets t;
     textureTags := textureTags t;
     currentTextureTarget := currentTextureTarget t;
     currentTextureTag := currentTextureTag t; stats := v |}.

Definition set_hasAudio (v : bool) (t : TrackData) : TrackData :=
  {| manifest := manifest t; hasAudio := v;
     lastRequestedGeometryFrame := lastRequestedGeometryFrame t;
     lastRequestedTextureFrame := lastRequestedTextureFrame t;
     geometryTargets := geometryTargets t;
     currentGeometryTarget := currentGeometryTarget t;
     textureTypes := textureTypes t; textureTargets := textureTargets t;
     textureTags := textureTags t;
     currentTextureTarget := currentTextureTarget t;
     currentTextureTag := currentTextureTag t; stats := stats t |}.

Definition set_currentTime (v : Q) (tm : TimeData) : TimeData :=
  {| currentTime := v; startTime := startTime tm; pausedTime := pausedTime tm;
     totalPausedDuration := totalPausedDuration tm; isClockPaused := isClockPaused tm |}.

Definition set_startTime (v : Z) (tm : TimeData) : TimeData :=
  {| currentTime := currentTime tm; startTime := v; pausedTime := pausedTime tm;
     totalPausedDuration := totalPausedDuration tm; isClockPaused := isClockPaused tm |}.

Definition set_pausedTime (v : Z) (tm : TimeData) : TimeData :=
  {| currentTime := currentTime tm; startTime := startTime tm; pausedTime := v;
     totalPausedDuration := totalPausedDuration tm; isClockPaused := isClockPaused tm |}.

Definition set_totalPausedDuration (v : Z) (tm : TimeData) : TimeData :=
  {| currentTime := currentTime tm; startTime := startTime tm; pausedTime := pausedTime tm;
     totalPausedDuration := v; isClockPaused := isClockPaused tm |}.

Definition set_isClockPaused (v : bool) (tm : TimeData) : TimeData :=
  {| currentTime := currentTime tm; startTime := startTime tm; pausedTime := pausedTime tm;
     totalPausedDuration := totalPausedDuration tm; isClockPaused := v |}.

Definition with_trackData (v : option TrackData) (p : Player) : Player :=
  {| bufferDuration := bufferDuration p; intervalDuration := intervalDuration p;
     audio := audio p; meshMap := meshMap p; textureMap := textureMap p;
     trackData := v; timeData := timeData p |}.

Definition with_timeData (v : option TimeData) (p : Player) : Player :=
  {| bufferDuration := bufferDuration p; intervalDuration := intervalDuration p;
     audio := audio p; meshMap := meshMap p; textureMap := textureMap p;
     trackData := trackData p; timeData := v |}.

Definition with_audio (v : HTMLMediaElement) (p : Player) : Player :=
  {| bufferDuration := bufferDuration p; intervalDuration := intervalDuration p;
     audio := v; meshMap := meshMap p; textureMap := textureMap p;
     trackData := trackData p; timeData := timeData p |}.

Definition with_meshMap (v : list (MeshKey * BufferGeometry)) (p : Player) : Player :=
  {| bufferDuration := bufferDuration p; intervalDuration := intervalDuration p;
     audio := audio p; meshMap := v; textureMap := textureMap p;
     trackData := trackData p; timeData := timeData p |}.

Definition with_textureMap (v : list (TextureKey * Texture)) (p : Player) : Player :=
  {| bufferDuration := bufferDuration p; intervalDuration := intervalDuration p;
     audio := audio p; meshMap := meshMap p; textureMap := v;
     trackData := trackData p; timeData := timeData p |}.

Definition with_durations (b i : Z) (p : Player) : Player :=
  {| bufferDuration := b; intervalDuration := i;
     audio := audio p; meshMap := meshMap p; textureMap := textureMap p;
     trackData := trackData p; timeData := timeData p |}.

(** [this.trackData] / [this.timeData] followed by a property access. *)
Definition getTrack : Js Player TrackData := (p ← get; deref (trackData p))%js.
Definition getTime : Js Player TimeData := (p ← get; deref (timeData p))%js.

(** [this.trackData.f = ...] and [this.timeData.f = ...]. *)
Definition modifyTrack (f : TrackData -> TrackData) : Js Player unit :=
  (_ ← getTrack; modify (fun p => with_trackData (f <$> trackData p) p))%js.
Definition modifyTime (f : TimeData -> TimeData) : Js Player unit :=
  (_ ← getTime; modify (fun p => with_timeData (f <$> timeData p) p))%js.

(** *** Getters *)

(** [get paused()]. *)
Definition paused (p : Player) : bool :=
  match trackData p, timeData p with
  | Some t, Some tm =>
      if hasAudio t then media_paused (audio p) else isClockPaused tm
  | _, _ => true
  end.

(** [currentGeometryFrame()]. *)
Definition currentGeometryFrame : Js Player Z :=
  (t ← getTrack;
   tm ← getTime;
   deref (currentGeometryTarget t ≫= fun currentTarget =>
          calculateGeometryFrame (manifest t) currentTarget (currentTime tm)))%js.

(** [GeometryFrameCount()]. *)
Definition GeometryFrameCount : Js Player Z :=
  (t ← getTrack;
   deref (currentGeometryTarget t ≫= fun currentTarget =>
          utils_GeometryFrameCount (manifest t) currentTarget))%js.

(** [currentTextureFrame(textureType)]. *)
Definition currentTextureFrame (textureType : string) : Js Player Z :=
  (t ← getTrack;
   tm ← getTime;
   deref (currentTextureTarget t !! textureType ≫= fun target =>
          calculateTextureFrame (manifest t) textureType target (currentTime tm)))%js.

(** [TextureFrameCount(textureType)]. *)
Definition TextureFrameCount (textureType : string) : Js Player Z :=
  (t ← getTrack;
   deref (currentTextureTarget t !! textureType ≫= fun target =>
          utils_TextureFrameCount (manifest t) textureType target))%js.

(** *** Decode requests *)

(** The part of [fetchGeometry] that runs after [await decodeGeometry(...)]:
    the decoded buffer is stored under (Target, FrameNo). *)
Definition fetchGeometry_resolved (gTarget : string) (frameNo : Z) (geometry : BufferGeometry)
  : Js Player unit :=
  (_ ← getTrack;
   modify (fun p => with_meshMap (JsMap.set (gTarget, frameNo) geometry (meshMap p)) p))%js.

(** The part of [fetchTexture] that runs after [await decodeTexture(...)]. *)
Definition fetchTexture_resolved (textureType : string) (textureTag : option string)
  (textureTarget : string) (frameNo : Z) (texture : Texture) : Js Player unit :=
  modify (fun p =>
    with_textureMap
      (JsMap.set (textureType, textureTag, textureTarget, frameNo) texture (textureMap p)) p).

(** [obj[k] = v] where [v] may be [undefined]. *)
Definition assign {V} (k : string) (v : option V) (m : gmap string V) : gmap string V :=
  match v with Some x => <[k := x]> m | None => delete k m end.

(** Builds [{ [x]: f(x) }] over [l.forEach]. *)
Fixpoint collect {S V} (l : list string) (f : string -> Js S V) (acc : gmap string V)
  : Js S (gmap string V) :=
  match l with
  | [] => ret acc
  | x :: r => (v ← f x; collect r f (<[x := v]> acc))%js
  end.

(** *** Adaptive quality controller *)

(** [targets.indexOf(current)] where [current] may be [undefined]. *)
Definition indexOf_current (targets : list string) (current : option string) : Z :=
  match current with Some c => indexOf targets c | None => -1 end.

Definition adjustTextureTarget : Js Player unit :=
  (t ← getTrack;
   if Z.of_nat (length (stats t)) <? 3 then ret tt
   else
     let mean := mean (stats t) in
     (if Qle_bool 0 mean && Qle_bool mean (3 # 10) then
        targets ← deref (textureTargets t !! "baseColor");
        let currentTargetIndex :=
          indexOf_current targets (currentTextureTarget t !! "baseColor") in
        if currentTargetIndex <? Z.of_nat (length targets) - 1 then
          modifyTrack (fun t =>
            set_currentTextureTarget
              (assign "baseColor" (nth_Z targets (currentTargetIndex + 1))
                 (currentTextureTarget t)) t)
        else ret tt
      else if Qle_bool (3 # 10) mean && Qle_bool mean (6 # 10) then ret tt
      else
        targets ← deref (textureTargets t !! "baseColor");
        let currentTargetIndex :=
          indexOf_current targets (currentTextureTarget t !! "baseColor") in
        if 0 <? currentTargetIndex then
          modifyTrack (fun t =>
            set_currentTextureTarget
              (assign "baseColor" (nth_Z targets (currentTargetIndex - 1))
                 (currentTextureTarget t)) t)
        else ret tt);;
     modifyTrack (set_stats []))%js.

(** *** Clock *)

Definition startVideo (now : Z) : Js Player unit :=
  (t ← getTrack;
   if hasAudio t then
     emit EAudioPlay;; modify (fun p => with_audio (media_play (audio p)) p)
   else
     modifyTime (set_startTime now);;
     modifyTime (set_isClockPaused false))%js.

Definition pause (now : Z) : Js Player unit :=
  (t ← getTrack;
   if hasAudio t then
     emit EAudioPause;; modify (fun p => with_audio (media_pause (audio p)) p)
   else
     modifyTime (set_isClockPaused true);;
     modifyTime (set_pausedTime now))%js.

Definition play (now : Z) : Js Player unit :=
  (t ← getTrack;
   if hasAudio t then
     emit EAudioPlay;; modify (fun p => with_audio (media_play (audio p)) p)
   else
     tm ← getTime;
     if isClockPaused tm then
       modifyTime (fun tm =>
         set_totalPausedDuration (totalPausedDuration tm + (now - pausedTime tm)) tm);;
       modifyTime (set_isClockPaused false)
     else ret tt)%js.

(** *** Prefetch scheduler *)

(** What the [Promise.all(promises).then(...)] closure of [fetchBuffers]
    captures. *)
Record FetchContinuation : Type := {
  k_gTarget : string;
  k_oldLastGeometryFrame : option Z;
  k_startTime : Z;
  k_gFramesPerSecond : Z;
  k_callback : bool
}.

(** Geometry part of the body of the lookahead loop, for loop index [i]. *)
Definition requestGeometry (gTarget : string) (currentGFrame gFramesPerSecond i : Z)
  : Js Player unit :=
  (frameCount ← GeometryFrameCount;
   let geometryRequestEnd :=
     Z.min (currentGFrame + (i + 1) * gFramesPerSecond) (frameCount - 1) in
   t ← getTrack;
   match lastRequestedGeometryFrame t !! gTarget with
   | Some last =>
       if negb (last =? frameCount - 1) && (last <? geometryRequestEnd) then
         let currentRequestingFrame := last + 1 in
         modifyTrack (fun t =>
           set_lastRequestedGeometryFrame
             (<[gTarget := geometryRequestEnd]> (lastRequestedGeometryFrame t)) t);;
         forEach (seqZ currentRequestingFrame (geometryRequestEnd - last))
           (fun frameNo => emit (EFetchGeometry gTarget frameNo))
       else ret tt
   | None => ret tt
   end)%js.

(** Texture part of the body of the lookahead loop, for loop index [i] and
    one texture type. *)
Definition requestTexture (tTarget : gmap string string)
  (currentTFrame tFramesPerSecond : gmap string Z) (i : Z) (textureType : string)
  : Js Player unit :=
  (currentTarget ← deref (tTarget !! textureType);
   t ← getTrack;
   let currentTag := currentTextureTag t !! textureType in
   cf ← deref (currentTFrame !! textureType);
   fps ← deref (tFramesPerSecond !! textureType);
   frameCount ← TextureFrameCount textureType;
   let textureRequestEnd := Z.min (cf + (i + 1) * fps) (frameCount - 1) in
   marks ← deref (lastRequestedTextureFrame t !! textureType);
   match marks !! currentTarget with
   | Some last =>
       if negb (last =? frameCount - 1) && (last <? textureRequestEnd) then
         let currentRequestingFrame := last + 1 in
         modifyTrack (fun t =>
           set_lastRequestedTextureFrame
             (<[textureType := <[currentTarget := textureRequestEnd]> marks]>
                (lastRequestedTextureFrame t)) t);;
         forEach (seqZ currentRequestingFrame (textureRequestEnd - last))
           (fun frameNo => emit (EFetchTexture textureType currentTag currentTarget frameNo))
       else ret tt
   | None => ret tt
   end)%js.

(** [fetchBuffers(callback)] up to [Promise.all]: the synchronous scheduling
    pass.  [now] is the value of [Date.now()]. *)
Definition fetchBuffers (now : Z) (callback : bool) : Js Player FetchContinuation :=
  (t ← getTrack;
   gTarget ← deref (currentGeometryTarget t);
   let oldLastGeometryFrame := lastRequestedGeometryFrame t !! gTarget in
   let startTime := now in
   currentGFrame ← currentGeometryFrame;
   gFramesPerSecond ← deref (frameRate <$> geometry (manifest t) !! gTarget);
   let tTarget := currentTextureTarget t in
   currentTFrame ← collect (textureTypes t) currentTextureFrame ∅;
   tFramesPerSecond ←
     collect (textureTypes t)
       (fun textureType =>
          deref (currentTextureTarget t !! textureType ≫= fun target =>
                 textureFrameRate (manifest t) textureType target)) ∅;
   p ← get;
   forRange (bufferDuration p) (fun i =>
     requestGeometry gTarget currentGFrame gFramesPerSecond i;;
     forEach (textureTypes t)
       (requestTexture tTarget currentTFrame tFramesPerSecond i));;
   ret {| k_gTarget := gTarget; k_oldLastGeometryFrame := oldLastGeometryFrame;
          k_startTime := startTime; k_gFramesPerSecond := gFramesPerSecond;
          k_callback := callback |})%js.

(** The [.then] closure of [fetchBuffers], run once every request of the pass
    has settled.  [endTime] is [Date.now()] in the closure, [callbackNow] the
    one read by [startVideo].  [x / 0] is [Infinity] for [x > 0] and [NaN]
    for [x = 0]: with a zero frame rate a positive gain gives the sample
    [fetchTime / Infinity = 0]. *)
Definition fetchBuffers_then (k : FetchContinuation) (endTime callbackNow : Z)
  : Js Player unit :=
  (t ← getTrack;
   match lastRequestedGeometryFrame t !! k_gTarget k, k_oldLastGeometryFrame k with
   | Some last, Some old =>
       let fetchedFrames := last - old in
       let playTime := (inject_Z fetchedFrames / inject_Z (k_gFramesPerSecond k))%Q in
       let fetchTime := (inject_Z (endTime - k_startTime k) / 1000)%Q in
       if k_gFramesPerSecond k =? 0 then
         if 0 <? fetchedFrames then
           modifyTrack (fun t => set_stats (stats t ++ [0%Q]) t);;
           adjustTextureTarget
         else ret tt
       else if negb (Qle_bool playTime 0) then
         modifyTrack (fun t => set_stats (stats t ++ [(fetchTime / playTime)%Q]) t);;
         adjustTextureTarget
       else ret tt
   | _, _ => ret tt
   end;;
   if k_callback k then startVideo callbackNow else ret tt)%js.

(** *** Eviction and teardown *)

Definition removePlayedGeometryBuffer (key : MeshKey) : Js Player unit :=
  (p ← get;
   match JsMap.get key (meshMap p) with
   | Some buffer =>
       emit (EDisposeGeometry buffer);;
       emit (EMeshMapDelete key);;
       modify (fun p => with_meshMap (JsMap.delete key (meshMap p)) p)
   | None => ret tt
   end)%js.

Definition removePlayedTextureBuffer (key : TextureKey) : Js Player unit :=
  (p ← get;
   match JsMap.get key (textureMap p) with
   | Some buffer =>
       emit (EDisposeTexture buffer);;
       emit (ETextureMapDelete key);;
       modify (fun p => with_textureMap (JsMap.delete key (textureMap p)) p)
   | None => ret tt
   end)%js.

Definition dispose (disposeLoaders : bool) : Js Player unit :=
  (p ← get;
   forEach (meshMap p) (fun '(key, buffer) =>
     emit (EMeshMapDelete key);;
     modify (fun p => with_meshMap (JsMap.delete key (meshMap p)) p);;
     emit (EDisposeGeometry buffer));;
   modify (with_meshMap []);;
   p ← get;
   forEach (textureMap p) (fun '(key, buffer) =>
     emit (ETextureMapDelete key);;
     modify (fun p => with_textureMap (JsMap.delete key (textureMap p)) p);;
     emit (EDisposeTexture buffer));;
   modify (with_textureMap []);;
   if disposeLoaders then emit EDisposeLoaders else ret tt)%js.

(** *** Presentation tick *)

(** The fallback search of [processFrame]: the first target of
    [textureTargets.baseColor] that has a texture under the tag ['default']
    at the frame number computed for that target. *)
Fixpoint fallbackSearch (m : V2Schema) (currentTime : Q)
  (store : list (TextureKey * Texture)) (targets : list string)
  : Completion (option Texture) :=
  match targets with
  | [] => Normal None
  | target :: rest =>
      match calculateTextureFrame m "baseColor" target currentTime with
      | None => TypeError
      | Some failCurrentTextureFrame =>
          match JsMap.get ("baseColor", Some "default", target, failCurrentTextureFrame) store with
          | Some texture => Normal (Some texture)
          | None => fallbackSearch m currentTime store rest
          end
      end
  end.

(** [processFrame()]; [now] is the value of [Date.now()]. *)
Definition processFrame (now : Z) : Js Player unit :=
  (p ← get;
   if paused p then emit (EOnMeshBuffering 0)
   else
     t ← getTrack;
     if hasAudio t && media_ended (audio p) then
       emit EClearInterval;;
       dispose false;;
       emit EOnTrackEnd
     else
       (if hasAudio t then modifyTime (set_currentTime (media_currentTime (audio p)))
        else
          tm ← getTime;
          let currentTimeMS := now - startTime tm - totalPausedDuration tm in
          modifyTime (set_currentTime (inject_Z currentTimeMS / 1000)%Q));;
       geometryFrame ← currentGeometryFrame;
       textureFrame ← currentTextureFrame "baseColor";
       textureTarget ← deref (currentTextureTarget t !! "baseColor");
       let textureTag := currentTextureTag t !! "baseColor" in
       gTarget ← deref (currentGeometryTarget t);
       removePlayedGeometryBuffer (gTarget, geometryFrame - 1);;
       removePlayedTextureBuffer ("baseColor", textureTag, textureTarget, textureFrame - 1);;
       frameCount ← GeometryFrameCount;
       if frameCount - 1 <=? geometryFrame then
         emit EClearInterval;;
         dispose false;;
         modifyTime (set_isClockPaused true);;
         emit EOnTrackEnd
       else
         p ← get;
         match JsMap.get (gTarget, geometryFrame) (meshMap p) with
         | None => ret tt
         | Some geometry =>
             match JsMap.get ("baseColor", textureTag, textureTarget, textureFrame)
                     (textureMap p) with
             | None =>
                 emit (EUpdateGeometry geometry);;
                 targets ← deref (textureTargets t !! "baseColor");
                 tm ← getTime;
                 found ← complete
                   (fallbackSearch (manifest t) (currentTime tm) (textureMap p) targets);
                 match found with
                 | Some texture =>
                     emit (EUpdateTexture texture);;
                     emit (EOnFrameShow geometryFrame)
                 | None =>
                     emit EFailMaterial;;
                     emit (EOnFrameShow geometryFrame)
                 end
             | Some texture =>
                 emit (EUpdateGeometry geometry);;
                 emit (EUpdateTexture texture);;
                 emit (EOnFrameShow geometryFrame)
             end
         end)%js.

(** [update()]. *)
Definition update (now : Z) : Js Player unit :=
  (p ← get;
   match trackData p with
   | None => ret tt
   | Some _ => processFrame now
   end)%js.

(** *** Track start *)

(** [textureTags[type]] as [playTrack] computes it from the [tag] fields of
    [manifest.input.texture[type]]. *)
Definition tagsOf (inputs : list (option string)) : list string :=
  let tags := omap id inputs in
  if decide (tags = []) then ["default"] else tags.

(** [playTrack] up to its call of [fetchBuffers]: the new track session.
    The comparators and the support test of the source use
    [GEOMETRY_FORMAT_PRIORITY], [TEXTURE_FORMAT_PRIORITY] and
    [isTextureFormatSupported], declared outside the sources, so their results
    are parameters: [_geometryTargets] is [Object.keys(manifest.geometry.targets)]
    after the sort, [_textureTypes] the keys of [manifest.texture] other than
    ['path'], [supportedTargets ty] the supported targets of [ty] after the
    sort, and [audioSupported] tells whether some audio format can be played. *)
Definition playTrack_init (_manifest : V2Schema) (_geometryTargets _textureTypes : list string)
  (supportedTargets : string -> list string) (audioSupported : bool)
  (_bufferDuration _intervalDuration : Z) : Js Player unit :=
  (let hasAudio :=
     match audio_path _manifest with
     | Some path => negb (String.length path =? 0)%nat
     | None => false
     end in
   let textureTargets : gmap string (list string) :=
     foldl (fun acc ty => <[ty := supportedTargets ty]> acc) ∅ _textureTypes in
   let currentTextureTarget : gmap string string :=
     foldl (fun acc ty => assign ty (head (supportedTargets ty)) acc) ∅ _textureTypes in
   inputs ← collect _textureTypes (fun ty => deref (input_texture _manifest !! ty)) ∅;
   let textureTags : gmap string (list string) := tagsOf <$> inputs in
   let currentTextureTag : gmap string string :=
     omap (fun tags => head tags) textureTags in
   let lastRequestedGeometryFrame : gmap string Z :=
     foldl (fun acc target => <[target := -1]> acc) ∅ _geometryTargets in
   let lastRequestedTextureFrame : gmap string (gmap string Z) :=
     (fun targets => foldl (fun acc target => <[target := -1]> acc) ∅ targets)
       <$> textureTargets in
   modify (fun p =>
     with_durations _bufferDuration _intervalDuration
       (with_timeData
          (Some {| currentTime := 0; startTime := -1; pausedTime := 0;
                   totalPausedDuration := 0; isClockPaused := true |})
          (with_trackData
             (Some {| manifest := _manifest;
                      hasAudio := hasAudio && audioSupported;
                      lastRequestedGeometryFrame := lastRequestedGeometryFrame;
                      lastRequestedTextureFrame := lastRequestedTextureFrame;
                      geometryTargets := _geometryTargets;
                      currentGeometryTarget := head _geometryTargets;
                      textureTypes := _textureTypes;
                      textureTargets := textureTargets;
                      textureTags := textureTags;
                      currentTextureTarget := currentTextureTarget;
                      currentTextureTag := currentTextureTag;
                      stats := [] |}) p))))%js.

(** [playTrack]: the new session, then the first scheduling pass with
    [startVideo] as its callback.  [now] is [Date.now()] in that pass. *)
Definition playTrack (_manifest : V2Schema) (_geometryTargets _textureTypes : list string)
  (supportedTargets : string -> list string) (audioSupported : bool)
  (_bufferDuration _intervalDuration : Z) (now : Z) : Js Player FetchContinuation :=
  (playTrack_init _manifest _geometryTargets _textureTypes supportedTargets audioSupported
     _bufferDuration _intervalDuration;;
   fetchBuffers now true)%js.

End Player.

(** ** The single-target segment player

    The earlier [Player] class: one geometry target and one texture target,
    stores keyed by frame number and by texture segment number.  Its clock
    fields are [undefined] until [playTrack] and [startVideo] have run; the
    embedding describes the player from then on, where each holds a number.
    The texture target attributes [sequenceSize] (batch size) and
    [sequenceCount] come with the frame rate; the batch size divides, so it
    is taken non-zero. *)

Module SegmentPlayer.

Record KTX2TextureTarget : Type := {
  t_frameRate : Z;
  sequenceSize : Z;
  sequenceCount : Z
}.

(** [header.output]: geometry targets, texture targets, and the audio path
    with its extension filled in ([None] when [output.audio] is absent). *)
Record V2FileHeader : Type := {
  h_geometry : gmap string TargetData;
  h_texture : gmap string KTX2TextureTarget;
  h_audio : option string
}.

Record Player : Type := {
  bufferDuration : Z;
  intervalDuration : Z;
  startTime : Z;
  pausedTime : Z;
  totalPausedDuration : Z;
  isClockPaused : bool;
  currentTime : Q;
  meshMap : list (Z * BufferGeometry);
  textureMap : list (Z * Texture);
  lastRequestedGeometryFrame : Z;
  lastRequestedTextureSegment : Z;
  audio : HTMLMediaElement;
  header : option V2FileHeader;
  geometryTarget : string;
  textureTarget : string
}.

Definition with_clock (st pt tpd : Z) (icp : bool) (ct : Q) (p : Player) : Player :=
  {| bufferDuration := bufferDuration p; intervalDuration := intervalDuration p;
     startTime := st; pausedTime := pt; totalPausedDuration := tpd;
     isClockPaused := icp; currentTime := ct;
     meshMap := meshMap p; textureMap := textureMap p;
     lastRequestedGeometryFrame := lastRequestedGeometryFrame p;
     lastRequestedTextureSegment := lastRequestedTextureSegment p;
     audio := audio p; header := header p;
     geometryTarget := geometryTarget p; textureTarget := textureTarget p |}.

Definition with_stores (mm : list (Z * BufferGeometry)) (tmap : list (Z * Texture))
  (p : Player) : Player :=
  {| bufferDuration := bufferDuration p; intervalDuration := intervalDuration p;
     startTime := startTime p; pausedTime := pausedTime p;
     totalPausedDuration := totalPausedDuration p;
     isClockPaused := isClockPaused p; currentTime := currentTime p;
     meshMap := mm; textureMap := tmap;
     lastRequestedGeometryFrame := lastRequestedGeometryFrame p;
     lastRequestedTextureSegment := lastRequestedTextureSegment p;
     audio := audio p; header := header p;
     geometryTarget := geometryTarget p; textureTarget := textureTarget p |}.

Definition with_marks (g s : Z) (p : Player) : Player :=
  {| bufferDuration := bufferDuration p; intervalDuration := intervalDuration p;
     startTime := startTime p; pausedTime := pausedTime p;
     totalPausedDuration := totalPausedDuration p;
     isClockPaused := isClockPaused p; currentTime := currentTime p;
     meshMap := meshMap p; textureMap := textureMap p;
     lastRequestedGeometryFrame := g;
     lastRequestedTextureSegment := s;
     audio := audio p; header := header p;
     geometryTarget := geometryTarget p; textureTarget := textureTarget p |}.

Definition with_audio (a : HTMLMediaElement) (p : Player) : Player :=
  {| bufferDuration := bufferDuration p; intervalDuration := intervalDuration p;
     startTime := startTime p; pausedTime := pausedTime p;
     totalPausedDuration := totalPausedDuration p;
     isClockPaused := isClockPaused p; currentTime := currentTime p;
     meshMap := meshMap p; textureMap := textureMap p;
     lastRequestedGeometryFrame := lastRequestedGeometryFrame p;
     lastRequestedTextureSegment := lastRequestedTextureSegment p;
     audio := a; header := header p;
     geometryTarget := geometryTarget p; textureTarget := textureTarget p |}.

(** Truthiness of a string. *)
Definition truthy (s : string) : bool := negb (String.length s =? 0)%nat.

(** [getCurrentFrame(targetData, currentTime)]. *)
Definition getCurrentFrame (frameRate : Z) (currentTime : Q) : Z :=
  Math_round (inject_Z frameRate * currentTime).

(** Truthiness of [get AudioURL()]. *)
Definition AudioURL (p : Player) : bool :=
  match header p with
  | Some h => match h_audio h with Some path => truthy path | None => false end
  | None => false
  end.

(** [get paused()]. *)
Definition paused (p : Player) : bool :=
  if AudioURL p then media_paused (audio p) else isClockPaused p.

(** [this.header.output.geometry.targets[this.geometryTarget]]. *)
Definition geometryTargetData : Js Player TargetData :=
  (p ← get;
   h ← deref (header p);
   deref (h_geometry h !! geometryTarget p))%js.

(** [this.header.output.texture.targets[this.textureTarget]]. *)
Definition textureTargetData : Js Player KTX2TextureTarget :=
  (p ← get;
   h ← deref (header p);
   deref (h_texture h !! textureTarget p))%js.

(** [get GeometryFrameCount()]. *)
Definition GeometryFrameCount : Js Player Z :=
  (p ← get;
   match header p with
   | None => ret 0
   | Some _ =>
       if truthy (geometryTarget p) then td ← geometryTargetData; ret (frameCount td)
       else ret 0
   end)%js.

(** [get BatchSize()]. *)
Definition BatchSize : Js Player Z :=
  (p ← get;
   match header p with
   | None => ret 0
   | Some _ =>
       if truthy (textureTarget p) then td ← textureTargetData; ret (sequenceSize td)
       else ret 0
   end)%js.

(** [get TextureSegmentCount()]. *)
Definition TextureSegmentCount : Js Player Z :=
  (p ← get;
   match header p with
   | None => ret 0
   | Some _ =>
       if truthy (textureTarget p) then td ← textureTargetData; ret (sequenceCount td)
       else ret 0
   end)%js.

Definition startVideo (now : Z) : Js Player unit :=
  (p ← get;
   if AudioURL p then
     emit EAudioPlay;; modify (fun p => with_audio (media_play (audio p)) p)
   else
     modify (fun p =>
       with_clock now (pausedTime p) (totalPausedDuration p) false (currentTime p) p))%js.

Definition pause (now : Z) : Js Player unit :=
  (p ← get;
   if AudioURL p then
     emit EAudioPause;; modify (fun p => with_audio (media_pause (audio p)) p)
   else
     modify (fun p =>
       with_clock (startTime p) now (totalPausedDuration p) true (currentTime p) p))%js.

Definition play (now : Z) : Js Player unit :=
  (p ← get;
   if AudioURL p then
     emit EAudioPlay;; modify (fun p => with_audio (media_play (audio p)) p)
   else if isClockPaused p then
     modify (fun p =>
       with_clock (startTime p) (pausedTime p)
         (totalPausedDuration p + (now - pausedTime p)) false (currentTime p) p)
   else ret tt)%js.

(** Geometry part of one iteration of the lookahead loop; the result tells
    whether the iteration goes on ([false] after [continue]). *)
Definition requestGeometry (currentGeometryFrame geometryBufferSize i : Z)
  : Js Player bool :=
  (p ← get;
   frameCount ← GeometryFrameCount;
   if (lastRequestedGeometryFrame p - currentGeometryFrame
         <? bufferDuration p * geometryBufferSize)
      && negb (lastRequestedGeometryFrame p =? frameCount - 1) then
     let currentRequestingFrame := lastRequestedGeometryFrame p + 1 in
     let currentRequestEnd :=
       Z.min (currentGeometryFrame + (i + 1) * geometryBufferSize) (frameCount - 1) in
     if currentRequestEnd <? currentRequestingFrame then ret false
     else
       modify (fun p => with_marks currentRequestEnd (lastRequestedTextureSegment p) p);;
       forEach (seqZ currentRequestingFrame (currentRequestEnd - lastRequestedGeometryFrame p))
         (fun frameNo => emit (EFetchSegmentGeometry frameNo));;
       ret true
   else ret true)%js.

(** Texture part of one iteration of the lookahead loop. *)
Definition requestTexture (currentTextureSegment textureBufferSize i : Z)
  : Js Player unit :=
  (p ← get;
   segmentCount ← TextureSegmentCount;
   if (lastRequestedTextureSegment p - currentTextureSegment
         <? bufferDuration p * textureBufferSize)
      && negb (lastRequestedTextureSegment p =? segmentCount - 1) then
     let currentRequestingTextureSegment := lastRequestedTextureSegment p + 1 in
     let currentRequestEnd :=
       Z.min (currentTextureSegment + (i + 1) * textureBufferSize) (segmentCount - 1) in
     if currentRequestEnd <? currentRequestingTextureSegment then ret tt
     else
       modify (fun p => with_marks (lastRequestedGeometryFrame p) currentRequestEnd p);;
       forEach (seqZ currentRequestingTextureSegment
                  (currentRequestEnd - lastRequestedTextureSegment p))
         (fun segmentNo => emit (EFetchSegmentTexture segmentNo))
   else ret tt)%js.

(** [fetchBuffers(callback)], the synchronous scheduling pass. *)
Definition fetchBuffers : Js Player unit :=
  (p ← get;
   gTarget ← geometryTargetData;
   let geometryBufferSize := frameRate gTarget in
   let currentGeometryFrame := getCurrentFrame (frameRate gTarget) (currentTime p) in
   tTarget ← textureTargetData;
   batchSize ← BatchSize;
   let textureBufferSize := Qceiling (inject_Z (t_frameRate tTarget) / inject_Z batchSize) in
   let currentTextureFrame := getCurrentFrame (t_frameRate tTarget) (currentTime p) in
   let currentTextureSegment := currentTextureFrame / batchSize in
   forRange (bufferDuration p) (fun i =>
     goOn ← requestGeometry currentGeometryFrame geometryBufferSize i;
     if goOn then requestTexture currentTextureSegment textureBufferSize i
     else ret tt))%js.

(** [decodeDraco] / [decodeKTX2] once the loader calls back. *)
Definition decodeDraco_loaded (frameNo : Z) (geometry : BufferGeometry) : Js Player unit :=
  modify (fun p => with_stores (JsMap.set frameNo geometry (meshMap p)) (textureMap p) p).

Definition decodeKTX2_loaded (segmentNo : Z) (texture : Texture) : Js Player unit :=
  modify (fun p => with_stores (meshMap p) (JsMap.set segmentNo texture (textureMap p)) p).

(** [dispose(disposeShader)]: for [i] below the size of each store, the
    buffer stored under key [i] (if any) is disposed; then the store is
    cleared. *)
Definition dispose : Js Player unit :=
  (p ← get;
   forEach (seqZ 0 (JsMap.size (meshMap p))) (fun i =>
     match JsMap.get i (meshMap p) with
     | Some buffer => emit (EDisposeGeometry buffer)
     | None => ret tt
     end);;
   forEach (seqZ 0 (JsMap.size (textureMap p))) (fun i =>
     match JsMap.get i (textureMap p) with
     | Some buffer => emit (EDisposeTexture buffer)
     | None => ret tt
     end);;
   modify (with_stores [] []))%js.

(** [processFrame()].  After the texture segment is found the source only
    decides which [ShaderMaterial] object carries the uniforms; that is one
    [EShowSegment] call here. *)
Definition processFrame (now : Z) : Js Player unit :=
  (p ← get;
   match header p with
   | None => ret tt
   | Some _ =>
       gTarget ← geometryTargetData;
       let gFrameRate := frameRate gTarget in
       if AudioURL p && media_ended (audio p) then
         emit EClearInterval;; dispose;; emit EOnTrackEnd
       else if paused p then
         emit (EOnMeshBuffering
                 (inject_Z (JsMap.size (meshMap p))
                  / inject_Z (gFrameRate * bufferDuration p))%Q)
       else
         (if AudioURL p then
            modify (fun p =>
              with_clock (startTime p) (pausedTime p) (totalPausedDuration p)
                (isClockPaused p) (media_currentTime (audio p)) p)
          else
            let currentTimeMS := now - startTime p - totalPausedDuration p in
            modify (fun p =>
              with_clock (startTime p) (pausedTime p) (totalPausedDuration p)
                (isClockPaused p) (inject_Z currentTimeMS / 1000)%Q p));;
         p ← get;
         let currentGeometryFrame := getCurrentFrame (frameRate gTarget) (currentTime p) in
         tTarget ← textureTargetData;
         let currentTextureFrame := getCurrentFrame (t_frameRate tTarget) (currentTime p) in
         batchSize ← BatchSize;
         let currentTextureSegment := currentTextureFrame / batchSize in
         frameCount ← GeometryFrameCount;
         if frameCount <=? currentGeometryFrame then
           emit EClearInterval;; dispose;; emit EOnTrackEnd
         else
           match JsMap.get currentGeometryFrame (meshMap p) with
           | None => ret tt
           | Some geometry =>
               match JsMap.get currentTextureSegment (textureMap p) with
               | None =>
                   emit (EUpdateGeometry geometry);;
                   emit EFailMaterial;;
                   emit (EOnFrameShow currentGeometryFrame)
               | Some _ =>
                   let offSet := Z.rem currentTextureFrame batchSize in
                   emit (EOnFrameShow currentGeometryFrame);;
                   emit (EShowSegment currentTextureSegment offSet);;
                   emit (EUpdateGeometry geometry)
               end
           end
   end)%js.

(** One store of [removePlayedBuffer]: every entry whose key is below the
    threshold is disposed, then deleted, in iteration order. *)
Fixpoint evictBelow {V} (disposed : V -> Event) (deleted : Z -> Event) (threshold : Z)
  (entries : list (Z * V)) : list (Z * V) * list Event :=
  match entries with
  | [] => ([], [])
  | (key, buffer) :: rest =>
      let '(kept, calls) := evictBelow disposed deleted threshold rest in
      if key <? threshold then (kept, disposed buffer :: deleted key :: calls)
      else ((key, buffer) :: kept, calls)
  end.

(** [removePlayedBuffer(frameNo, segmentNo)]. *)
Definition removePlayedBuffer (frameNo segmentNo : Z) : Js Player unit :=
  (p ← get;
   let '(meshes, calls) :=
     evictBelow EDisposeGeometry ESegmentMeshDelete frameNo (meshMap p) in
   forEach calls emit;;
   modify (fun p => with_stores meshes (textureMap p) p);;
   p ← get;
   let '(textures, calls) :=
     evictBelow EDisposeTexture ESegmentTextureDelete segmentNo (textureMap p) in
   forEach calls emit;;
   modify (fun p => with_stores (meshMap p) textures p))%js.

(** [update()]. *)
Definition update (now : Z) : Js Player unit :=
  (p ← get;
   match header p with
   | None => ret tt
   | Some _ =>
       processFrame now;;
       p ← get;
       gTarget ← geometryTargetData;
       let currentGeometryFrame := getCurrentFrame (frameRate gTarget) (currentTime p) in
       tTarget ← textureTargetData;
       let currentTextureFrame := getCurrentFrame (t_frameRate tTarget) (currentTime p) in
       batchSize ← BatchSize;
       let currentTextureSegment := currentTextureFrame / batchSize in
       removePlayedBuffer (currentGeometryFrame - 5) (currentTextureSegment - 1)
   end)%js.

End SegmentPlayer.

Import Player.

(** ** Vocabulary of the scheduler properties *)

(** A stream with its own high-water mark: the geometry stream of a target,
    or the texture stream of a (type, target). *)
Inductive Stream : Type :=
| GeometryStream (target : string)
| TextureStream (textureType target : string).

#[global] Instance Stream_eq_dec : EqDecision Stream.
Proof. solve_decision. Defined.

(** [lastRequestedGeometryFrame[target]] and
    [lastRequestedTextureFrame[type][target]]. *)
Definition trackMark (t : TrackData) (s : Stream) : option Z :=
  match s with
  | GeometryStream g => lastRequestedGeometryFrame t !! g
  | TextureStream ty target => lastRequestedTextureFrame t !! ty ≫= fun marks => marks !! target
  end.

Definition mark (p : Player) (s : Stream) : option Z :=
  trackData p ≫= fun t => trackMark t s.

(** The manifest entry of a stream. *)
Definition streamData (m : V2Schema) (s : Stream) : option TargetData :=
  match s with
  | GeometryStream g => geometry m !! g
  | TextureStream ty target => texture m !! ty ≫= fun targets => targets !! target
  end.

(** The manifest entry whose [frameCount] bounds the requests of a stream:
    its own for a geometry stream, the 'baseColor' target of the same name
    for a texture stream of any type. *)
Definition capData (m : V2Schema) (s : Stream) : option TargetData :=
  match s with
  | GeometryStream g => geometry m !! g
  | TextureStream _ target => texture m !! "baseColor" ≫= fun targets => targets !! target
  end.

(** The decode request a call stands for. *)
Definition request_of (e : Event) : option (Stream * Z) :=
  match e with
  | EFetchGeometry g frameNo => Some (GeometryStream g, frameNo)
  | EFetchTexture ty _ target frameNo => Some (TextureStream ty target, frameNo)
  | _ => None
  end.

Definition requests (evs : list Event) : list (Stream * Z) := omap request_of evs.

(** The geometry decode requests: (target, frame number). *)
Definition geometryRequests (evs : list Event) : list (string * Z) :=
  omap (fun e =>
          match e with
          | EFetchGeometry g frameNo => Some (g, frameNo)
          | _ => None
          end) evs.

(** A player with its high-water marks erased: what a scheduling pass leaves
    untouched. *)
Definition scrubTrack (t : TrackData) : TrackData :=
  set_lastRequestedTextureFrame ∅ (set_lastRequestedGeometryFrame ∅ t).

Definition scrub (p : Player) : Player :=
  with_trackData (scrubTrack <$> trackData p) p.

(** What the rest of the player may do between two scheduling passes of a
    track session: anything that keeps the marks, the manifest and the
    buffer duration. *)
Definition between (p p' : Player) : Prop :=
  (forall s, mark p' s = mark p s) /\
  manifest <$> trackData p' = manifest <$> trackData p /\
  bufferDuration p' = bufferDuration p.

(** The presentation time does not go back. *)
Definition clock_le (p p' : Player) : Prop :=
  option_Forall2 Qle (currentTime <$> timeData p) (currentTime <$> timeData p').

Definition advance (p p' : Player) : Prop := between p p' /\ clock_le p p'.

(** A track session seen from the scheduler: scheduling passes interleaved
    with steps of the environment [R]; the list collects the decode requests
    in the order they are issued. *)
Inductive session (R : Player -> Player -> Prop)
  : Player -> list (Stream * Z) -> Player -> Prop :=
| session_nil p : session R p [] p
| session_pass p reqs p1 now callback :
    session R p reqs p1 ->
    session R p (reqs ++ requests (trace (fetchBuffers now callback p1)))
      (state (fetchBuffers now callback p1))
| session_env p reqs p1 p2 :
    session R p reqs p1 -> R p1 p2 -> session R p reqs p2.

(** Every mark is at most [frameCount - 1] of the entry that bounds its
    stream. *)
Definition capped (p : Player) : Prop :=
  forall t s td m,
    trackData p = Some t -> capData (manifest t) s = Some td ->
    trackMark t s = Some m -> m <= frameCount td - 1.

(** Every mark is within the bucket capacity of the playhead frame. *)
Definition bucket_ok (p : Player) : Prop :=
  forall t tm s td m,
    trackData p = Some t -> timeData p = Some tm ->
    streamData (manifest t) s = Some td -> trackMark t s = Some m ->
    m - Math_round (currentTime tm * inject_Z (frameRate td))
      <= bufferDuration p * frameRate td.

Definition rates_nonneg (p : Player) : Prop :=
  forall t s td,
    trackData p = Some t -> streamData (manifest t) s = Some td -> 0 <= frameRate td.

(** A new track session: every mark is [-1], the clock is not negative and
    the buffer duration is a number of seconds. *)
Definition fresh (p : Player) : Prop :=
  (forall s m, mark p s = Some m -> m = -1) /\
  (forall tm, timeData p = Some tm -> (0 <= currentTime tm)%Q) /\
  0 <= bufferDuration p.

(** No assumption on the state. *)
Definition anywhere : Player -> Prop := fun _ => True.

(** What an operation other than the scheduling pass does, as the scheduler
    sees it: it keeps the marks, the manifest and the buffer duration, and
    issues no decode request. *)
Definition env_rel (p : Player) (evs : list Event) (p' : Player) : Prop :=
  between p p' /\ requests evs = [].

(** What one scheduling pass does to the marks, for the pass entered in state
    [p0]: marks only grow; a request is for a frame above the old mark and at
    most the new one; a mark that moved respects the cap and the bucket of
    the playhead; nothing but the marks changes. *)
Record pass_rel (p0 p : Player) (evs : list Event) (p' : Player) : Prop := {
  pass_scrub : scrub p' = scrub p;
  pass_mono : forall s, option_Forall2 Z.le (mark p s) (mark p' s);
  pass_fresh : forall s f, (s, f) ∈ requests evs ->
    exists m m', mark p s = Some m /\ mark p' s = Some m' /\ m < f <= m';
  pass_nodup : NoDup (requests evs);
  pass_moved : forall s, mark p' s = mark p s \/
    exists t tm td cd m', trackData p0 = Some t /\ timeData p0 = Some tm /\
      streamData (manifest t) s = Some td /\ capData (manifest t) s = Some cd /\
      mark p' s = Some m' /\
      m' <= frameCount cd - 1 /\
      (0 <= frameRate td ->
       m' - Math_round (currentTime tm * inject_Z (frameRate td))
         <= bufferDuration p0 * frameRate td)
}.

(** The values [fetchBuffers] captures before its loop: [currentTFrame] holds
    the playhead frame of each type's current target, [tFramesPerSecond] its
    frame rate. *)
Definition frames_of (t : TrackData) (tm : TimeData) (currentTFrame : gmap string Z) : Prop :=
  forall ty v, currentTFrame !! ty = Some v ->
    exists target td, currentTextureTarget t !! ty = Some target /\
      streamData (manifest t) (TextureStream ty target) = Some td /\
      v = Math_round (currentTime tm * inject_Z (frameRate td)).

Definition rates_of (t : TrackData) (tFramesPerSecond : gmap string Z) : Prop :=
  forall ty v, tFramesPerSecond !! ty = Some v ->
    exists target td, currentTextureTarget t !! ty = Some target /\
      streamData (manifest t) (TextureStream ty target) = Some td /\
      v = frameRate td.

(** What the texture half of the lookahead loop does to the geometry stream
    of [g]: nothing. *)
Definition geometry_untouched (g : string) (p : Player) (evs : list Event) (p' : Player)
  : Prop :=
  scrub p' = scrub p /\
  mark p' (GeometryStream g) = mark p (GeometryStream g) /\
  geometryRequests evs = [].

(** The geometry marks and requests of the lookahead loop, computed on the
    loop indices. *)
Fixpoint geometryPass (currentGFrame gFramesPerSecond frameCount last : Z) (indices : list Z)
  : Z * list Z :=
  match indices with
  | [] => (last, [])
  | i :: rest =>
      let geometryRequestEnd :=
        Z.min (currentGFrame + (i + 1) * gFramesPerSecond) (frameCount - 1) in
      if negb (last =? frameCount - 1) && (last <? geometryRequestEnd) then
        let '(final, frames) :=
          geometryPass currentGFrame gFramesPerSecond frameCount geometryRequestEnd rest in
        (final, seqZ (last + 1) (geometryRequestEnd - last) ++ frames)
      else geometryPass currentGFrame gFramesPerSecond frameCount last rest
  end.

(** An operation that leaves [timeData.currentTime] as it is. *)
Definition time_kept (p : Player) (evs : list Event) (p' : Player) : Prop :=
  currentTime <$> timeData p' = currentTime <$> timeData p.

(** An operation that keeps the samples of the statistics window
    non-negative. *)
Definition samples_kept (p : Player) (evs : list Event) (p' : Player) : Prop :=
  (forall t, trackData p = Some t -> Forall (Qle 0) (stats t)) ->
  forall t', trackData p' = Some t' -> Forall (Qle 0) (stats t').

(** The segment player: an operation that leaves the clock, the header, the
    targets and [bufferDuration] as they are, and keeps the gap between the
    geometry mark and the frame [currentFrame] within [bufferDuration]
    seconds of [size] frames. *)
Definition segment_gap_kept (currentFrame size : Z)
  (p : SegmentPlayer.Player) (evs : list Event) (p' : SegmentPlayer.Player) : Prop :=
  SegmentPlayer.bufferDuration p' = SegmentPlayer.bufferDuration p /\
  SegmentPlayer.currentTime p' = SegmentPlayer.currentTime p /\
  SegmentPlayer.header p' = SegmentPlayer.header p /\
  SegmentPlayer.geometryTarget p' = SegmentPlayer.geometryTarget p /\
  (SegmentPlayer.lastRequestedGeometryFrame p - currentFrame
     <= SegmentPlayer.bufferDuration p * size ->
   SegmentPlayer.lastRequestedGeometryFrame p' - currentFrame
     <= SegmentPlayer.bufferDuration p' * size).

(** The calls eviction makes: a buffer is disposed, a key is deleted. *)
Definition is_eviction (e : Event) : bool :=
  match e with
  | EDisposeGeometry _ | EDisposeTexture _ | EMeshMapDelete _ | ETextureMapDelete _ => true
  | _ => false
  end.

(** The presentation time [processFrame] works with: the position of the
    media element, or the wall clock less the start and the pauses. *)
Definition presentationTime (p : Player) (t : TrackData) (tm : TimeData) (now : Z) : Q :=
  if hasAudio t then media_currentTime (audio p)
  else (inject_Z (now - startTime tm - totalPausedDuration tm) / 1000)%Q.

(** The texture stored for a 'baseColor' target under the tag ['default'] at
    the frame number that target has at time [time]. *)
Definition defaultTexture (m : V2Schema) (time : Q) (store : list (TextureKey * Texture))
  (target : string) : option Texture :=
  calculateTextureFrame m "baseColor" target time ≫= fun frameNo =>
  JsMap.get ("baseColor", Some "default", target, frameNo) store.

(** ** Example data *)

(** [new Player(...)]: no track session yet. *)
Definition newPlayer : Player :=
  {| bufferDuration := 4; intervalDuration := 2;
     audio := {| media_paused := true; media_ended := false; media_currentTime := 0 |};
     meshMap := []; textureMap := [];
     trackData := None; timeData := None |}.

(** Geometry at 30 fps, 300 frames; base colour in two tiers. *)
Definition demoManifest : V2Schema :=
  {| geometry := {[ "g" := {| frameRate := 30; frameCount := 300 |} ]};
     texture := {[ "baseColor" :=
                   {[ "low" := {| frameRate := 15; frameCount := 150 |};
                      "high" := {| frameRate := 30; frameCount := 300 |} ]} ]};
     input_texture := {[ "baseColor" := [None] ]};
     audio_path := None |}.

Definition demoTargets (ty : string) : list string :=
  if decide (ty = "baseColor") then ["low"; "high"] else [].

(** The session [playTrack(demoManifest, path, 4, 2)] sets up on a new
    player, before its first scheduling pass. *)
Definition demoFresh : Player :=
  state (playTrack_init demoManifest ["g"] ["baseColor"] demoTargets false 4 2 newPlayer).

(** [playTrack(demoManifest, path, 4, 2)] on a new player at [Date.now() = 1000]. *)
Definition demoStart : Completion FetchContinuation * Player * list Event :=
  playTrack demoManifest ["g"] ["baseColor"] demoTargets false 4 2 1000 newPlayer.

(** The same session step by step: the first scheduling pass at 1000 ms;
    the initial buffers have settled at 1200 ms and [startVideo] runs; a
    presentation tick at 2900 ms; the next scheduling pass at 3000 ms. *)
Definition demoFirst : Completion FetchContinuation * Player * list Event :=
  fetchBuffers 1000 true demoFresh.
Definition demoStarted : Player := state (startVideo 1200 (state demoFirst)).
Definition demoFrame : Player := state (processFrame 2900 demoStarted).
Definition demoSecond : Completion FetchContinuation * Player * list Event :=
  fetchBuffers 3000 false demoFrame.

(** A manifest with a second texture type: the 'normal' target "low" has
    150 frames, the 'baseColor' target of the same name 300.  The session
    on it: the first scheduling pass at 1000 ms, [startVideo] at 1200 ms, a
    presentation tick at 4200 ms (3 s, frame 90) and the next scheduling
    pass at 4300 ms. *)
Definition demoTypesManifest : V2Schema :=
  {| geometry := {[ "g" := {| frameRate := 30; frameCount := 300 |} ]};
     texture := {[ "baseColor" := {[ "low" := {| frameRate := 30; frameCount := 300 |} ]};
                   "normal" := {[ "low" := {| frameRate := 30; frameCount := 150 |} ]} ]};
     input_texture := {[ "baseColor" := [None]; "normal" := [None] ]};
     audio_path := None |}.

Definition demoTypesFresh : Player :=
  state (playTrack_init demoTypesManifest ["g"] ["baseColor"; "normal"]
           (fun _ => ["low"]) false 4 2 newPlayer).
Definition demoTypesFirst : Completion FetchContinuation * Player * list Event :=
  fetchBuffers 1000 true demoTypesFresh.
Definition demoTypesStarted : Player := state (startVideo 1200 (state demoTypesFirst)).
Definition demoTypesFrame : Player := state (processFrame 4200 demoTypesStarted).
Definition demoTypesSecond : Completion FetchContinuation * Player * list Event :=
  fetchBuffers 4300 false demoTypesFrame.

(** The ABR scenario: the window holds three samples of 0.1; later the high
    tier is active and the window holds three samples of 0.8. *)
Definition demoAhead : Player :=
  with_trackData (set_stats [1 # 10; 1 # 10; 1 # 10]%Q <$> trackData (state demoFirst))
    (state demoFirst).
Definition demoBehind : Player :=
  with_trackData
    (set_stats [8 # 10; 8 # 10; 8 # 10]%Q <$> trackData (state (adjustTextureTarget demoAhead)))
    (state (adjustTextureTarget demoAhead)).

(** The session after its first scheduling pass, written out, with a given
    active 'baseColor' target and a given statistics window. *)
Definition demoWindow (current : string) (samples : list Q) : TrackData :=
  {| manifest := demoManifest; hasAudio := false;
     lastRequestedGeometryFrame := {[ "g" := 120 ]};
     lastRequestedTextureFrame := {[ "baseColor" := {[ "low" := 60; "high" := -1 ]} ]};
     geometryTargets := ["g"]; currentGeometryTarget := Some "g";
     textureTypes := ["baseColor"];
     textureTargets := {[ "baseColor" := ["low"; "high"] ]};
     textureTags := {[ "baseColor" := ["default"] ]};
     currentTextureTarget := {[ "baseColor" := current ]};
     currentTextureTag := {[ "baseColor" := "default" ]};
     stats := samples |}.

Definition demoControl (current : string) (samples : list Q) : Player :=
  {| bufferDuration := 4; intervalDuration := 2;
     audio := {| media_paused := true; media_ended := false; media_currentTime := 0 |};
     meshMap := []; textureMap := [];
     trackData := Some (demoWindow current samples);
     timeData := Some {| currentTime := 0; startTime := -1; pausedTime := 0;
                         totalPausedDuration := 0; isClockPaused := true |} |}.

(** Windows of three equal samples: 0.1, 0.5, 0.8, and -0.1, as a system
    clock set back during the fetches leaves them. *)
Definition demoComfort : list Q := [1 # 10; 1 # 10; 1 # 10]%Q.
Definition demoAtEdge : list Q := [5 # 10; 5 # 10; 5 # 10]%Q.
Definition demoStruggle : list Q := [8 # 10; 8 # 10; 8 # 10]%Q.
Definition demoSetBack : list Q := [-1 # 10; -1 # 10; -1 # 10]%Q.

(** [play()] called at 1100 ms, before the first pass has settled: a tick at
    1150 ms, [startVideo] at 1200 ms when the pass settles, a tick at 1400 ms
    and the next scheduling pass at 3000 ms. *)
Definition demoEarlyPlay : Player := state (play 1100 (state demoFirst)).
Definition demoEarlyTick : Player := state (processFrame 1150 demoEarlyPlay).
Definition demoRestarted : Player := state (startVideo 1200 demoEarlyTick).
Definition demoBackTick : Player := state (processFrame 1400 demoRestarted).
Definition demoBackPass : Completion FetchContinuation * Player * list Event :=
  fetchBuffers 3000 false demoBackTick.

(** The fallback scenario: the high tier is active; geometry frame 50 is
    decoded, texture frame 50 of the high tier is not, frame 25 of the low
    tier is. *)
Definition demoFallback : Player :=
  with_textureMap [(("baseColor", Some "default", "low", 25), Tex 25)]
    (with_meshMap [(("g", 50), Geometry 50)]
       (with_trackData
          (set_currentTextureTarget {[ "baseColor" := "high" ]} <$> trackData demoStarted)
          demoStarted)).

(** The buffering scenario: the first pass has been issued, 60 geometry
    frames are decoded, playback has not started yet. *)
Definition demoBuffering : Player :=
  with_meshMap ((fun f => (("g", f), Geometry (Z.to_N f))) <$> seqZ 0 60) (state demoFirst).

(** The eviction scenario: playback runs since 1200 ms and the store holds
    geometry frames 5, 8 and 9; the tick at 1533 ms has playhead frame 10. *)
Definition demoStale : Player :=
  with_meshMap [(("g", 5), Geometry 5); (("g", 8), Geometry 8); (("g", 9), Geometry 9)]
    demoStarted.

(** The same two scenarios on the segment player: 30 fps geometry, texture
    segments of 5 frames. *)
Definition demoHeader : SegmentPlayer.V2FileHeader :=
  {| SegmentPlayer.h_geometry := {[ "g" := {| frameRate := 30; frameCount := 300 |} ]};
     SegmentPlayer.h_texture :=
       {[ "t" := {| SegmentPlayer.t_frameRate := 30; SegmentPlayer.sequenceSize := 5;
                    SegmentPlayer.sequenceCount := 60 |} ]};
     SegmentPlayer.h_audio := None |}.

Definition demoSegmentPlayer (isClockPaused : bool)
  (meshes : list (Z * BufferGeometry)) (textures : list (Z * Texture))
  : SegmentPlayer.Player :=
  {| SegmentPlayer.bufferDuration := 4; SegmentPlayer.intervalDuration := 2;
     SegmentPlayer.startTime := 1200; SegmentPlayer.pausedTime := 0;
     SegmentPlayer.totalPausedDuration := 0;
     SegmentPlayer.isClockPaused := isClockPaused;
     SegmentPlayer.currentTime := 0;
     SegmentPlayer.meshMap := meshes; SegmentPlayer.textureMap := textures;
     SegmentPlayer.lastRequestedGeometryFrame := 120;
     SegmentPlayer.lastRequestedTextureSegment := 24;
     SegmentPlayer.audio :=
       {| media_paused := true; media_ended := false; media_currentTime := 0 |};
     SegmentPlayer.header := Some demoHeader;
     SegmentPlayer.geometryTarget := "g"; SegmentPlayer.textureTarget := "t" |}.

Definition demoSegmentBuffering : SegmentPlayer.Player :=
  demoSegmentPlayer true ((fun f => (f, Geometry (Z.to_N f))) <$> seqZ 0 60) [].

Definition demoSegmentStale : SegmentPlayer.Player :=
  demoSegmentPlayer false
    [(2, Geometry 2); (5, Geometry 5); (12, Geometry 12); (3, Geometry 3); (20, Geometry 20)]
    [(0, Tex 0); (2, Tex 2); (4, Tex 4)].

(** ** Vocabulary of the teardown and end-of-track properties *)

(** The calls [removePlayedGeometryBuffer(key)] makes on a store: the buffer
    found under the key is released, then the key is deleted. *)
Definition evictGeometryCalls (key : MeshKey) (store : list (MeshKey * BufferGeometry))
  : list Event :=
  match JsMap.get key store with
  | Some buffer => [EDisposeGeometry buffer; EMeshMapDelete key]
  | None => []
  end.

Definition evictTextureCalls (key : TextureKey) (store : list (TextureKey * Texture))
  : list Event :=
  match JsMap.get key store with
  | Some buffer => [EDisposeTexture buffer; ETextureMapDelete key]
  | None => []
  end.

(** The calls [dispose] makes on a store: every entry is deleted, then its
    buffer released, in iteration order. *)
Definition releaseGeometryCalls (store : list (MeshKey * BufferGeometry)) : list Event :=
  store ≫= fun kb => [EMeshMapDelete kb.1; EDisposeGeometry kb.2].

Definition releaseTextureCalls (store : list (TextureKey * Texture)) : list Event :=
  store ≫= fun kb => [ETextureMapDelete kb.1; EDisposeTexture kb.2].

(** ** Example data of the further properties

    The session of the examples written out: the track data after the first
    scheduling pass, the wall clock started at 1200 ms. *)
Definition demoSession (m : V2Schema) (hasAudio : bool) : TrackData :=
  {| manifest := m; hasAudio := hasAudio;
     lastRequestedGeometryFrame := {[ "g" := 120 ]};
     lastRequestedTextureFrame := {[ "baseColor" := {[ "low" := 60; "high" := -1 ]} ]};
     geometryTargets := ["g"]; currentGeometryTarget := Some "g";
     textureTypes := ["baseColor"];
     textureTargets := {[ "baseColor" := ["low"; "high"] ]};
     textureTags := {[ "baseColor" := ["default"] ]};
     currentTextureTarget := {[ "baseColor" := "low" ]};
     currentTextureTag := {[ "baseColor" := "default" ]};
     stats := [] |}.

Definition demoClock : TimeData :=
  {| currentTime := 0; startTime := 1200; pausedTime := 0; totalPausedDuration := 0;
     isClockPaused := false |}.

Definition demoRunning (meshes : list (MeshKey * BufferGeometry))
  (textures : list (TextureKey * Texture)) : Player :=
  {| bufferDuration := 4; intervalDuration := 2;
     audio := {| media_paused := true; media_ended := false; media_currentTime := 0 |};
     meshMap := meshes; textureMap := textures;
     trackData := Some (demoSession demoManifest false);
     timeData := Some demoClock |}.

(** Geometry frames 5, 8 and 9 are left in the store. *)
Definition demoLeftover : Player :=
  demoRunning [(("g", 5), Geometry 5); (("g", 8), Geometry 8); (("g", 9), Geometry 9)] [].

(** Geometry frames 49 and 50 and texture frames 24 and 25 of the low tier
    are decoded; the tick at 2867 ms has geometry frame 50 and texture
    frame 25. *)
Definition demoDecoded : Player :=
  demoRunning [(("g", 49), Geometry 49); (("g", 50), Geometry 50)]
    [(("baseColor", Some "default", "low", 24), Tex 24);
     (("baseColor", Some "default", "low", 25), Tex 25)].

(** A session with audio: the manifest of the examples with an audio path,
    the media element playing at 10 s, past the last frame. *)
Definition demoAudioManifest : V2Schema :=
  {| geometry := geometry demoManifest; texture := texture demoManifest;
     input_texture := input_texture demoManifest;
     audio_path := Some "audio.[ext]" |}.

Definition demoAudioClock : TimeData :=
  {| currentTime := 0; startTime := -1; pausedTime := 0; totalPausedDuration := 0;
     isClockPaused := true |}.

Definition demoAudioPlaying : Player :=
  {| bufferDuration := 4; intervalDuration := 2;
     audio := {| media_paused := false; media_ended := false; media_currentTime := 10 |};
     meshMap := []; textureMap := [];
     trackData := Some (demoSession demoAudioManifest true);
     timeData := Some demoAudioClock |}.

(** What the first scheduling pass of the examples hands to its completion:
    the pass started at 1000 ms from the mark [-1] at 30 frames per second,
    with [startVideo] as callback. *)
Definition demoContinuation : FetchContinuation :=
  {| k_gTarget := "g"; k_oldLastGeometryFrame := Some (-1); k_startTime := 1000;
     k_gFramesPerSecond := 30; k_callback := true |}.

(** The session of the examples before its clock is started. *)
Definition demoWaiting : Player :=
  {| bufferDuration := 4; intervalDuration := 2;
     audio := {| media_paused := true; media_ended := false; media_currentTime := 0 |};
     meshMap := []; textureMap := [];
     trackData := Some (demoSession demoManifest false);
     timeData := Some {| currentTime := 0; startTime := -1; pausedTime := 0;
                         totalPausedDuration := 0; isClockPaused := true |} |}.

(** ** Vocabulary of the segment player properties *)

(** The presentation time a tick of the segment player works with. *)
Definition segmentTime (p : SegmentPlayer.Player) (now : Z) : Q :=
  if SegmentPlayer.AudioURL p then media_currentTime (SegmentPlayer.audio p)
  else (inject_Z (now - SegmentPlayer.startTime p - SegmentPlayer.totalPausedDuration p)
        / 1000)%Q.

(** The player after the clock update of a tick. *)
Definition segmentTicked (p : SegmentPlayer.Player) (now : Z) : SegmentPlayer.Player :=
  SegmentPlayer.with_clock (SegmentPlayer.startTime p) (SegmentPlayer.pausedTime p)
    (SegmentPlayer.totalPausedDuration p) (SegmentPlayer.isClockPaused p)
    (segmentTime p now) p.

(** The calls [dispose] of the segment player makes: the buffers found under
    the indices below the size of each store are released. *)
Definition segmentReleaseCalls (p : SegmentPlayer.Player) : list Event :=
  omap (fun i => EDisposeGeometry <$> JsMap.get i (SegmentPlayer.meshMap p))
    (seqZ 0 (JsMap.size (SegmentPlayer.meshMap p))) ++
  omap (fun i => EDisposeTexture <$> JsMap.get i (SegmentPlayer.textureMap p))
    (seqZ 0 (JsMap.size (SegmentPlayer.textureMap p))).

(** ** URL templates of the segment player

    The helpers [pad] and [countHashChar] and the methods [getGeometryURL]
    and [getTextureURL] that expand [header.output.geometry.path] and
    [header.output.texture.path].  Strings are strings of 8-bit characters. *)

From Stdlib Require DecimalString DecimalPos DecimalZ.

Module Template.
Import Stdlib.Strings.Ascii.

(** [n.toString()] for an integer [n] below [10^21] in magnitude: its decimal
    digits, after a ['-'] when it is negative. *)
Definition Number_toString (n : Z) : string :=
  DecimalString.NilZero.string_of_int (Z.to_int n).

(** [c.repeat(k)]. *)
Fixpoint String_repeat (c : Ascii.ascii) (k : nat) : string :=
  match k with
  | O => EmptyString
  | S k' => String c (String_repeat c k')
  end.

(** [new Array(len).join(c)]: [len] empty slots with [c] between them. *)
Definition Array_join (len : Z) (c : Ascii.ascii) : string :=
  String_repeat c (Z.to_nat (len - 1)).

Definition pad (n width : Z) : string :=
  let paddedN := Number_toString n in
  if Z.of_nat (String.length paddedN) >=? width then paddedN
  else Array_join (width - Z.of_nat (String.length paddedN) + 1) "0"%char +:+ paddedN.

Fixpoint countHashChar (URL : string) : Z :=
  match URL with
  | EmptyString => 0
  | String c rest => (if Ascii.eqb c "#"%char then 1 else 0) + countHashChar rest
  end.

(** [GetSubstitution] of [String.prototype.replace] for a string pattern,
    which has no captures: ["$$"] gives a dollar, ["$&"] the matched text,
    a dollar and a backquote the text before the match, ["$'"] the text
    after it; any other dollar stays. *)
Fixpoint GetSubstitution (matched before after replacement : string) : string :=
  match replacement with
  | EmptyString => EmptyString
  | String c rest =>
      if Ascii.eqb c "$"%char then
        match rest with
        | EmptyString => String c EmptyString
        | String d rest' =>
            if Ascii.eqb d "$"%char then String "$"%char (GetSubstitution matched before after rest')
            else if Ascii.eqb d "&"%char then
              matched +:+ GetSubstitution matched before after rest'
            else if Ascii.eqb d "`"%char then
              before +:+ GetSubstitution matched before after rest'
            else if Ascii.eqb d "'"%char then
              after +:+ GetSubstitution matched before after rest'
            else String c (GetSubstitution matched before after rest)
        end
      else String c (GetSubstitution matched before after rest)
  end.

(** [str.replace(searchString, replaceValue)] with two strings: the first
    occurrence of [searchString] is replaced, a string without it is
    returned as it is. *)
Definition String_replace (str searchString replaceValue : string) : string :=
  match String.index 0 searchString str with
  | None => str
  | Some pos =>
      let before := String.substring 0 pos str in
      let tailPos := (pos + String.length searchString)%nat in
      let after := String.substring tailPos (String.length str - tailPos) str in
      before +:+ GetSubstitution searchString before after replaceValue +:+ after
  end.

(** A value of [INPUTS] used as replacement text: [undefined] prints as
    ["undefined"]. *)
Definition ToString (v : option string) : string := default "undefined"%string v.

(** [Object.keys(INPUTS).forEach((key) => { path = path.replace(key, INPUTS[key]) })];
    the keys of [INPUTS] are distinct strings that start with a bracket, so
    they are visited in the order they were set. *)
Definition expand (INPUTS : list (string * option string)) (path : string) : string :=
  foldl (fun path kv => String_replace path kv.1 (ToString kv.2)) path INPUTS.

(** ['#'.repeat(padWidth)], and the key of the frame number made of it. *)
Definition hashes (padWidth : Z) : string := String_repeat "#"%char (Z.to_nat padWidth).

Definition hashKey (padWidth : Z) : string :=
  "["%string +:+ hashes padWidth +:+ "]"%string.

(** [header.output.geometry] and [header.output.texture] as the URL methods
    read them: the path template and the [format] of each target. *)
Record Output : Type := {
  path : string;
  targets : gmap string string
}.

Section urls.

(** The table [FORMATS_TO_EXT] of [../Interfaces], from format to file
    extension. *)
Variable FORMATS_TO_EXT : string -> option string.

(** [getGeometryURL(frameNo)] on [header.output.geometry] and
    [this.geometryTarget]. *)
Definition getGeometryURL (geometry : Output) (geometryTarget : string) (frameNo : Z)
  : Completion string :=
  match targets geometry !! geometryTarget with
  | None => TypeError
  | Some format =>
      let padWidth := countHashChar (path geometry) in
      let INPUTS :=
        [("[target]"%string, Some geometryTarget);
         ("[ext]"%string, FORMATS_TO_EXT format);
         (hashKey padWidth, Some (pad frameNo padWidth))] in
      Normal (expand INPUTS (path geometry))
  end.

(** The fields [textureType] and [textureTag]. *)
Definition textureType : string := "baseColor".
Definition textureTag : string := "default".

(** [getTextureURL(segmentNo)] on [header.output.texture] and
    [this.textureTarget]. *)
Definition getTextureURL (texture : Output) (textureTarget : string) (segmentNo : Z)
  : Completion string :=
  match targets texture !! textureTarget with
  | None => TypeError
  | Some format =>
      let padWidth := countHashChar (path texture) in
      let INPUTS :=
        [("[target]"%string, Some textureTarget);
         ("[type]"%string, Some textureType);
         ("[tag]"%string, Some textureTag);
         ("[ext]"%string, FORMATS_TO_EXT format);
         (hashKey padWidth, Some (pad segmentNo padWidth))] in
      Normal (expand INPUTS (path texture))
  end.

End urls.

(** *** Vocabulary of the template properties *)

(** The number a string of decimal digits stands for, if it is one. *)
Definition decimal (s : string) : option Z :=
  Z.of_int <$> DecimalString.NilZero.int_of_string s.

(** A path template as pieces: literal text, and placeholders written in
    brackets. *)
Inductive Piece : Type :=
| Text (s : string)
| Hole (name : string).

(** A placeholder as it is written in the path. *)
Definition key (name : string) : string := "["%string +:+ name +:+ "]"%string.

Definition render_piece (pc : Piece) : string :=
  match pc with
  | Text s => s
  | Hole name => key name
  end.

Fixpoint render (t : list Piece) : string :=
  match t with
  | [] => EmptyString
  | pc :: r => render_piece pc +:+ render r
  end.

(** The first placeholder called [name] filled with [value]. *)
Fixpoint fill (name value : string) (t : list Piece) : list Piece :=
  match t with
  | [] => []
  | Text s :: r => Text s :: fill name value r
  | Hole m :: r =>
      if String.eqb m name then Text value :: r else Hole m :: fill name value r
  end.

(** The names of the placeholders of a template. *)
Definition holes (t : list Piece) : list string :=
  omap (fun pc => match pc with Text _ => None | Hole name => Some name end) t.

(** [has c s]: the character occurs in the string. *)
Fixpoint has (c : Ascii.ascii) (s : string) : bool :=
  match s with
  | EmptyString => false
  | String d r => Ascii.eqb d c || has c r
  end.

(** Literal text has no opening bracket, a placeholder name no bracket. *)
Definition well_formed_piece (pc : Piece) : bool :=
  match pc with
  | Text s => negb (has "["%char s)
  | Hole name => negb (has "["%char name) && negb (has "]"%char name)
  end.

Definition well_formed (t : list Piece) : bool := forallb well_formed_piece t.

(** Replacement text that [replace] inserts as it is. *)
Definition plain (s : string) : bool := negb (has "["%char s) && negb (has "$"%char s).

(** *** Example data of the template properties *)

Definition demoExt (format : string) : option string :=
  if decide (format = "draco") then Some "drc"%string else None.

Definition demoOutput : Output :=
  {| path := "geometry/[target]/frame_[####].[ext]";
     targets := {[ "high"%string := "draco"%string ]} |}.

Definition demoTemplate : list Piece :=
  [Text "geometry/"; Hole "target"; Text "/frame_"; Hole "####"; Text "."; Hole "ext"].

End Template.

(** ** Target selection of the reduce-based player

    [playTrack] of [src/V2/player.ts] chooses its geometry target and one
    texture target per type by [reduce] over the target names.  The lists of
    names are [Object.keys(...)] of the manifest objects, in their order. *)

Module V2Player.

(** [arr.reduce(callback)] without an initial value: the first element
    starts the accumulator, and an empty array throws a [TypeError]. *)
Definition Array_reduce {A : Type} (callback : A -> A -> Completion A) (arr : list A)
  : Completion A :=
  match arr with
  | [] => TypeError
  | first :: rest =>
      foldl (fun acc curr =>
               match acc with
               | Normal prev => callback prev curr
               | TypeError => TypeError
               end) (Normal first) rest
  end.

(** The callback of the geometry [reduce]. *)
Definition lowerFrameRate (_manifest : V2Schema) (prev curr : string) : Completion string :=
  match geometry _manifest !! prev, geometry _manifest !! curr with
  | Some prevData, Some currData =>
      let prevFrameRate := frameRate prevData in
      let currFrameRate := frameRate currData in
      Normal (if prevFrameRate <? currFrameRate then prev else curr)
  | _, _ => TypeError
  end.

(** [const currentGeometryTarget = geometryTargets.reduce(...)]. *)
Definition currentGeometryTarget (_manifest : V2Schema) (geometryTargets : list string)
  : Completion string :=
  Array_reduce (lowerFrameRate _manifest) geometryTargets.

(** A texture target as the selection reads it: [format],
    [settings.resolution] ([None] when undefined) as width and height, and
    [frameRate]. *)
Record TextureTargetData : Type := {
  format : string;
  resolution : option (Z * Z);
  textureFrameRate : Z
}.

(** A property key made of a value that may be [undefined]. *)
Definition ToPropertyKey (v : option string) : string := default "undefined"%string v.

Section selection.

(** [isTextureFormatSupported(this.renderer, format)] of [../utils] and the
    table [TEXTURE_FORMAT_PRIORITY] of [../Interfaces]. *)
Variable isTextureFormatSupported : string -> bool.
Variable TEXTURE_FORMAT_PRIORITY : string -> option Z.

(** [_manifest.texture[textureType].targets]. *)
Variable targets : gmap string TextureTargetData.

(** The callback of the texture [reduce]; it returns [undefined] ([None])
    when no branch returns, which happens when a priority is missing. *)
Definition preferredTarget (prev curr : option string) : Completion (option string) :=
  match targets !! ToPropertyKey prev, targets !! ToPropertyKey curr with
  | Some prevData, Some currData =>
      let prevFormat := format prevData in
      let currFormat := format currData in
      let isPrevSupported := isTextureFormatSupported prevFormat in
      let isCurrSupported := isTextureFormatSupported currFormat in
      if negb isPrevSupported && negb isCurrSupported then Normal prev
      else if isPrevSupported && negb isCurrSupported then Normal prev
      else if negb isPrevSupported && isCurrSupported then Normal curr
      else
        let prevResolution := resolution prevData in
        let currResolution := resolution prevData in
        let byPixels :=
          match prevResolution, currResolution with
          | Some (prevWidth, prevHeight), Some (currWidth, currHeight) =>
              let prevPixels := prevWidth * prevHeight in
              let currPixels := currWidth * currHeight in
              if prevPixels <? currPixels then Some prev
              else if currPixels <? prevPixels then Some curr
              else None
          | _, _ => None
          end in
        match byPixels with
        | Some chosen => Normal chosen
        | None =>
            let prevFrameRate := textureFrameRate prevData in
            let currFrameRate := textureFrameRate currData in
            if prevFrameRate <? currFrameRate then Normal prev
            else if prevFrameRate >? currFrameRate then Normal curr
            else
              match TEXTURE_FORMAT_PRIORITY prevFormat, TEXTURE_FORMAT_PRIORITY currFormat with
              | Some prevPriority, Some currPriority =>
                  if prevPriority >=? currPriority then Normal prev
                  else if currPriority >? prevPriority then Normal curr
                  else Normal None
              | _, _ => Normal None
              end
        end
  | _, _ => TypeError
  end.

(** [const currentTarget = textureTargets[textureType].reduce(...)]. *)
Definition currentTextureTarget (textureTargets : list string) : Completion (option string) :=
  Array_reduce preferredTarget (Some <$> textureTargets).

(** [wins currData prevData]: for two targets whose formats have a
    priority, the callback returns [curr] rather than [prev]. *)
Definition wins (currData prevData : TextureTargetData) : bool :=
  let isPrevSupported := isTextureFormatSupported (format prevData) in
  let isCurrSupported := isTextureFormatSupported (format currData) in
  let prevPriority := default 0 (TEXTURE_FORMAT_PRIORITY (format prevData)) in
  let currPriority := default 0 (TEXTURE_FORMAT_PRIORITY (format currData)) in
  negb isPrevSupported && isCurrSupported
  || isPrevSupported && isCurrSupported
     && ((textureFrameRate currData <? textureFrameRate prevData)
         || (textureFrameRate currData =? textureFrameRate prevData)
            && (prevPriority <? currPriority)).

End selection.

(** The targets with other resolutions: [settings.resolution] of every
    target replaced by [f] of the target. *)
Definition with_resolutions (f : TextureTargetData -> option (Z * Z))
  (targets : gmap string TextureTargetData) : gmap string TextureTargetData :=
  (fun td => {| format := format td; resolution := f td;
                textureFrameRate := textureFrameRate td |}) <$> targets.

(** *** Example data of the selection properties *)

Definition demoGeometryManifest : V2Schema :=
  {| geometry := {[ "full"%string := {| frameRate := 30; frameCount := 300 |};
                    "half"%string := {| frameRate := 15; frameCount := 150 |};
                    "draft"%string := {| frameRate := 15; frameCount := 150 |} ]};
     texture := ∅; input_texture := ∅; audio_path := None |}.

Definition demoGeometryTargets : list string := ["full"; "half"; "draft"]%string.

Definition demoSupported (format : string) : bool :=
  bool_decide (format = "ktx2"%string).

Definition demoPriority (format : string) : option Z :=
  if decide (format = "ktx2"%string) then Some 1
  else if decide (format = "astc/ktx"%string) then Some 2 else None.

Definition demoTextureData : gmap string TextureTargetData :=
  {[ "astc"%string := {| format := "astc/ktx"; resolution := Some (512, 512);
                         textureFrameRate := 15 |};
     "high"%string := {| format := "ktx2"; resolution := Some (2048, 2048);
                         textureFrameRate := 30 |};
     "low"%string := {| format := "ktx2"; resolution := Some (1024, 1024);
                        textureFrameRate := 15 |} ]}.

Definition demoTextureTargets : list string := ["astc"; "high"; "low"]%string.

End V2Player.

(** ** Target order of the multi-target player

    [playTrack] of the multi-target player sorts the geometry targets, and
    for each texture type the targets whose format the renderer supports;
    the first of each list is the target the session starts with, and
    [adjustTextureTarget] steps through the texture list.  The texture
    targets are read as in the reduce-based player, from
    [V2Player.TextureTargetData]. *)

Module PlayerTargets.

(** [arr.sort(comparefn)]: a stable sort; a comparison that gives [NaN]
    ([None]) counts as [0], and a [TypeError] of [comparefn] ends the sort.
    The order of the result is fixed by the language for a consistent
    [comparefn] only; the function inserts each element, from the last to
    the first, before the first element it does not come after. *)
Section sort.

Context {A : Type}.
Variable comparefn : A -> A -> Completion (option Q).

Definition SortCompare (x y : A) : Completion Q :=
  match comparefn x y with
  | Normal (Some v) => Normal v
  | Normal None => Normal 0%Q
  | TypeError => TypeError
  end.

Fixpoint insert (x : A) (sorted : list A) : Completion (list A) :=
  match sorted with
  | [] => Normal [x]
  | y :: rest =>
      match SortCompare x y with
      | Normal v =>
          if Qle_bool v 0 then Normal (x :: sorted)
          else match insert x rest with
               | Normal rest' => Normal (y :: rest')
               | TypeError => TypeError
               end
      | TypeError => TypeError
      end
  end.

Fixpoint Array_sort (arr : list A) : Completion (list A) :=
  match arr with
  | [] => Normal []
  | x :: rest =>
      match Array_sort rest with
      | Normal sorted => insert x sorted
      | TypeError => TypeError
      end
  end.

End sort.

(** A list in the order [before]: an element stands before another only
    if [before] allows it. *)
Definition ordered {A : Type} (before : A -> A -> Prop) (l : list A) : Prop :=
  forall (i j : nat) (a b : A),
    (i < j)%nat -> l !! i = Some a -> l !! j = Some b -> before a b.

(** [b - a] for two table entries that may be [undefined]. *)
Definition minus (b a : option Z) : option Q :=
  match b, a with
  | Some y, Some x => Some (inject_Z (y - x))
  | _, _ => None
  end.

(** A geometry target as the comparator reads it: [format], [settings]
    with its [simplificationRatio] (each [None] when undefined), and
    [frameRate]. *)
Record GeometryTargetData : Type := {
  format : string;
  settings : option (option Q);
  frameRate : Z
}.

Section geometry.

(** The table [GEOMETRY_FORMAT_PRIORITY] of [../Interfaces] and
    [_manifest.geometry.targets]. *)
Variable GEOMETRY_FORMAT_PRIORITY : string -> option Z.
Variable targets : gmap string GeometryTargetData.

(** The comparator of [geometryTargets.sort]. *)
Definition compareGeometry (a b : string) : Completion (option Q) :=
  match targets !! a, targets !! b with
  | Some aData, Some bData =>
      let aFormat := format aData in
      let bFormat := format bData in
      let aPriority := GEOMETRY_FORMAT_PRIORITY aFormat in
      let bPriority := GEOMETRY_FORMAT_PRIORITY bFormat in
      if bool_decide (aPriority <> bPriority) then Normal (minus bPriority aPriority)
      else
        let byFrameRate := Normal (Some (inject_Z (frameRate aData - frameRate bData))) in
        if bool_decide (aFormat = "glb"%string) && bool_decide (bFormat = "glb"%string) then
          match settings aData, settings bData with
          | Some aSetting, Some bSetting =>
              let aRatio := default 1%Q aSetting in
              let bRatio := default 1%Q bSetting in
              if negb (Qeq_bool aRatio bRatio) then Normal (Some (bRatio - aRatio)%Q)
              else byFrameRate
          | _, _ => TypeError
          end
        else byFrameRate
  | _, _ => TypeError
  end.

(** [geometryTargets.sort(...)] on [Object.keys(_manifest.geometry.targets)]. *)
Definition sortedGeometryTargets (geometryTargets : list string) : Completion (list string) :=
  Array_sort compareGeometry geometryTargets.

End geometry.

Section texture.

(** [isTextureFormatSupported(this.renderer, format)] of [./utils], the
    table [TEXTURE_FORMAT_PRIORITY] of [../Interfaces] and
    [_manifest.texture[textureType].targets]. *)
Variable isTextureFormatSupported : string -> bool.
Variable TEXTURE_FORMAT_PRIORITY : string -> option Z.
Variable targets : gmap string V2Player.TextureTargetData.

(** The loop that pushes the supported targets. *)
Fixpoint supportedOf (allTargets : list string) : Completion (list string) :=
  match allTargets with
  | [] => Normal []
  | target :: rest =>
      match targets !! target with
      | Some data =>
          match supportedOf rest with
          | Normal others =>
              Normal (if isTextureFormatSupported (V2Player.format data)
                      then target :: others else others)
          | TypeError => TypeError
          end
      | None => TypeError
      end
  end.

(** The comparator of [supportedTargets.sort]. *)
Definition compareTexture (a b : string) : Completion (option Q) :=
  match targets !! a, targets !! b with
  | Some aData, Some bData =>
      match V2Player.resolution aData, V2Player.resolution bData with
      | Some (aWidth, aHeight), Some (bWidth, bHeight) =>
          let aFrameRate := V2Player.textureFrameRate aData in
          let bFrameRate := V2Player.textureFrameRate bData in
          let aPriority := TEXTURE_FORMAT_PRIORITY (V2Player.format aData) in
          let bPriority := TEXTURE_FORMAT_PRIORITY (V2Player.format bData) in
          let aPixelPerSecond := aWidth * aHeight * aFrameRate in
          let bPixelPerSecond := bWidth * bHeight * bFrameRate in
          if bool_decide (aPriority <> bPriority) then Normal (minus bPriority aPriority)
          else Normal (Some (inject_Z (aPixelPerSecond - bPixelPerSecond)))
      | _, _ => TypeError
      end
  | _, _ => TypeError
  end.

(** [textureTargets[textureType]]: the supported targets, sorted. *)
Definition supportedTargets (allTargets : list string) : Completion (list string) :=
  match supportedOf allTargets with
  | Normal supported => Array_sort compareTexture supported
  | TypeError => TypeError
  end.

(** *** Vocabulary of the order properties *)

(** The target is in the manifest and its format is supported. *)
Definition supportedKey (target : string) : bool :=
  match targets !! target with
  | Some data => isTextureFormatSupported (V2Player.format data)
  | None => false
  end.

(** The target is in the manifest with a resolution, and its format has a
    priority. *)
Definition textureKnown (target : string) : Prop :=
  exists data,
    targets !! target = Some data /\
    is_Some (V2Player.resolution data) /\
    is_Some (TEXTURE_FORMAT_PRIORITY (V2Player.format data)).

(** The pixel rate of a target, [0] without a resolution. *)
Definition pixelPerSecond (data : V2Player.TextureTargetData) : Z :=
  match V2Player.resolution data with
  | Some (width, height) => width * height * V2Player.textureFrameRate data
  | None => 0
  end.

(** [a] may stand before [b] in the sorted list: a higher priority, or the
    same priority and at most the pixel rate. *)
Definition textureBefore (a b : V2Player.TextureTargetData) : Prop :=
  match TEXTURE_FORMAT_PRIORITY (V2Player.format a),
        TEXTURE_FORMAT_PRIORITY (V2Player.format b) with
  | Some aPriority, Some bPriority =>
      bPriority < aPriority \/
      (aPriority = bPriority /\ pixelPerSecond a <= pixelPerSecond b)
  | _, _ => False
  end.

(** The same for two target names. *)
Definition textureKeyBefore (a b : string) : Prop :=
  exists aData bData,
    targets !! a = Some aData /\ targets !! b = Some bData /\ textureBefore aData bData.

End texture.

Section geometry_order.

Variable GEOMETRY_FORMAT_PRIORITY : string -> option Z.
Variable targets : gmap string GeometryTargetData.

(** The target is in the manifest with its settings, and its format has a
    priority. *)
Definition geometryKnown (target : string) : Prop :=
  exists data,
    targets !! target = Some data /\
    is_Some (settings data) /\
    is_Some (GEOMETRY_FORMAT_PRIORITY (format data)).

(** [simplificationRatio ?? 1]. *)
Definition ratio (data : GeometryTargetData) : Q :=
  match settings data with
  | Some setting => default 1%Q setting
  | None => 1%Q
  end.

(** [a] may stand before [b] in the sorted geometry list: a higher
    priority; or the same priority and, for two ['glb'] targets, a higher
    simplification ratio or the same ratio and at most the frame rate, for
    others at most the frame rate. *)
Definition geometryBefore (a b : GeometryTargetData) : Prop :=
  match GEOMETRY_FORMAT_PRIORITY (format a), GEOMETRY_FORMAT_PRIORITY (format b) with
  | Some aPriority, Some bPriority =>
      bPriority < aPriority \/
      (aPriority = bPriority /\
       if bool_decide (format a = "glb"%string) && bool_decide (format b = "glb"%string)
       then (ratio b < ratio a)%Q \/ ((ratio a == ratio b)%Q /\ frameRate a <= frameRate b)
       else frameRate a <= frameRate b)
  | _, _ => False
  end.

Definition geometryKeyBefore (a b : string) : Prop :=
  exists aData bData,
    targets !! a = Some aData /\ targets !! b = Some bData /\ geometryBefore aData bData.

End geometry_order.

(** *** Example data of the order properties *)

Definition demoGeometryPriority (format : string) : option Z :=
  if decide (format = "glb"%string) then Some 2
  else if decide (format = "draco"%string) then Some 1 else None.

Definition demoGeometryData : gmap string GeometryTargetData :=
  {[ "draco"%string := {| format := "draco"; settings := Some None; frameRate := 15 |};
     "glb-half"%string := {| format := "glb"; settings := Some (Some (1 # 2)%Q);
                             frameRate := 30 |};
     "glb-full"%string := {| format := "glb"; settings := Some None; frameRate := 30 |} ]}.

Definition demoGeometryTargets : list string := ["draco"; "glb-half"; "glb-full"]%string.

End PlayerTargets.
(** * Properties *)

(** ** Running [Js] computations *)

Section JsRun.
Context {S : Type}.
Implicit Types (s : S) (R : S -> list Event -> S -> Prop) (I : S -> Prop).

Lemma bind_normal {A B} (m : Js S A) (f : A -> Js S B) s a s1 e1 :
  m s = (Normal a, s1, e1) ->
  bind m f s = (completion (f a s1), state (f a s1), e1 ++ trace (f a s1)).
Proof.
  unfold bind, completion, state, trace. intros ->.
  by destruct (f a s1) as [[c s2] e2].
Qed.

Lemma bind_throw {A B} (m : Js S A) (f : A -> Js S B) s s1 e1 :
  m s = (TypeError, s1, e1) -> bind m f s = (TypeError, s1, e1).
Proof. unfold bind. by intros ->. Qed.

(** A computation that ran to completion ran both halves. *)
Lemma bind_inv_normal {A B} (m : Js S A) (f : A -> Js S B) s b :
  completion (bind m f s) = Normal b ->
  exists a, completion (m s) = Normal a /\
    completion (f a (state (m s))) = Normal b /\
    state (bind m f s) = state (f a (state (m s))) /\
    trace (bind m f s) = trace (m s) ++ trace (f a (state (m s))).
Proof.
  unfold bind, completion, state, trace.
  destruct (m s) as [[[a|] s1] e1]; simpl; [|done].
  destruct (f a s1) as [[c s2] e2] eqn:Hf; simpl. intros ->.
  exists a. by rewrite Hf.
Qed.

Lemma forEach_emit (l : list Event) s :
  forEach l emit s = (Normal tt, s, l).
Proof.
  induction l as [|e l IH]; [done|]. simpl.
  rewrite (bind_normal _ _ s tt s [e]) by done. by rewrite IH.
Qed.

Lemma forEach_emit_map {A} (l : list A) (f : A -> Event) s :
  forEach l (fun x => emit (f x)) s = (Normal tt, s, f <$> l).
Proof.
  induction l as [|x l IH]; [done|]. simpl.
  rewrite (bind_normal _ _ s tt s [f x]) by done. by rewrite IH.
Qed.

(** Relations between the state before, the calls made and the state after
    that compose along sequencing. *)
Class TraceRel R : Prop := {
  rel_refl s : R s [] s;
  rel_trans s e1 s1 e2 s2 : R s e1 s1 -> R s1 e2 s2 -> R s (e1 ++ e2) s2
}.

(** [m] establishes [R] from every state that satisfies [I], however it
    completes. *)
Definition keeps {A} I R (m : Js S A) : Prop :=
  forall s, I s -> R s (trace (m s)) (state (m s)).

Definition stable I R : Prop := forall s e s', I s -> R s e s' -> I s'.

Lemma keeps_ret {A} I R `{!TraceRel R} (a : A) : keeps I R (ret a).
Proof. intros s _. apply rel_refl. Qed.

Lemma keeps_throw {A} I R `{!TraceRel R} : keeps I R (@throw S A).
Proof. intros s _. apply rel_refl. Qed.

Lemma keeps_bind {A B} I R `{!TraceRel R} (m : Js S A) (f : A -> Js S B) :
  stable I R -> keeps I R m -> (forall a, keeps I R (f a)) -> keeps I R (bind m f).
Proof.
  intros Hst Hm Hf s HI. specialize (Hm s HI).
  unfold bind, state, trace in *.
  destruct (m s) as [[[a|] s1] e1] eqn:Hms; simpl in *; [|done].
  specialize (Hf a s1 (Hst _ _ _ HI Hm)). unfold state, trace in Hf.
  destruct (f a s1) as [[c s2] e2]; simpl in *. by eapply rel_trans.
Qed.

Lemma keeps_forEach {A} I R `{!TraceRel R} (l : list A) (f : A -> Js S unit) :
  stable I R -> (forall x, x ∈ l -> keeps I R (f x)) -> keeps I R (forEach l f).
Proof.
  intros Hst. induction l as [|x l IH]; intros Hf; simpl.
  - by apply keeps_ret.
  - apply (keeps_bind I R (f x) (fun _ => forEach l f) Hst).
    + apply Hf. by left.
    + intros _. apply IH. intros y Hy. apply Hf. by right.
Qed.

(** A loop that ran to completion ran every iteration. *)
Lemma forEach_inv_normal {A} (l : list A) (f : A -> Js S unit) x s :
  completion (forEach (x :: l) f s) = Normal tt ->
  completion (f x s) = Normal tt /\
  completion (forEach l f (state (f x s))) = Normal tt /\
  state (forEach (x :: l) f s) = state (forEach l f (state (f x s))) /\
  trace (forEach (x :: l) f s) = trace (f x s) ++ trace (forEach l f (state (f x s))).
Proof.
  simpl. intros H. apply bind_inv_normal in H as ([] & H1 & H2 & H3 & H4). done.
Qed.

End JsRun.

(** ** What a scheduling pass does to the marks *)


Lemma scrub_fields s p0 :
  scrub s = scrub p0 ->
  bufferDuration s = bufferDuration p0 /\ timeData s = timeData p0 /\
  meshMap s = meshMap p0 /\ textureMap s = textureMap p0 /\ audio s = audio p0 /\
  scrubTrack <$> trackData s = scrubTrack <$> trackData p0.
Proof.
  unfold scrub, with_trackData. intros H.
  repeat split.
  - exact (f_equal bufferDuration H).
  - exact (f_equal timeData H).
  - exact (f_equal meshMap H).
  - exact (f_equal textureMap H).
  - exact (f_equal audio H).
  - exact (f_equal trackData H).
Qed.

Lemma scrub_track s p0 t :
  scrub s = scrub p0 -> trackData p0 = Some t ->
  exists ts, trackData s = Some ts /\ manifest ts = manifest t /\
    currentGeometryTarget ts = currentGeometryTarget t /\
    currentTextureTarget ts = currentTextureTarget t /\
    currentTextureTag ts = currentTextureTag t /\
    textureTypes ts = textureTypes t.
Proof.
  intros H Ht. apply scrub_fields in H as (_ & _ & _ & _ & _ & H).
  rewrite Ht in H. destruct (trackData s) as [ts|]; [|done].
  exists ts. simpl in H. injection H as H. intros. done.
Qed.

Lemma requests_app e1 e2 : requests (e1 ++ e2) = requests e1 ++ requests e2.
Proof. apply omap_app. Qed.

#[global] Instance pass_rel_TraceRel p0 : TraceRel (pass_rel p0).
Proof.
  split.
  - intros s. split.
    + done.
    + intros st. destruct (mark s st); [apply Some_Forall2; lia | apply None_Forall2].
    + intros st f H. inversion H.
    + constructor.
    + by left.
  - intros s e1 s1 e2 s2 [Ha1 Hb1 Hc1 Hd1 He1] [Ha2 Hb2 Hc2 Hd2 He2]. split.
    + congruence.
    + intros st. specialize (Hb1 st). specialize (Hb2 st).
      destruct Hb1; inversion Hb2; subst; constructor. lia.
    + intros st f. rewrite requests_app, elem_of_app. intros [H|H].
      * destruct (Hc1 _ _ H) as (m & m' & Hm & Hm' & Hf).
        specialize (Hb2 st). rewrite Hm' in Hb2. inversion Hb2; subst.
        eexists _, _. repeat split; eauto; lia.
      * destruct (Hc2 _ _ H) as (m & m' & Hm & Hm' & Hf).
        specialize (Hb1 st). rewrite Hm in Hb1. inversion Hb1; subst.
        eexists _, _. repeat split; eauto; lia.
    + rewrite requests_app. apply NoDup_app. repeat split; try done.
      intros [st f] H1 H2.
      destruct (Hc1 _ _ H1) as (m & m' & Hm & Hm' & Hf).
      destruct (Hc2 _ _ H2) as (n & n' & Hn & Hn' & Hg).
      rewrite Hm' in Hn. injection Hn as <-. lia.
    + intros st. destruct (He2 st) as [Heq|Hmv]; [|by right].
      rewrite Heq. apply He1.
Qed.

(** ** Stepping through straight-line code *)

Section JsSteps.
Context {S : Type}.
Implicit Types (s : S).

Lemma run_eta {A} (r : Completion A * S * list Event) :
  (completion r, state r, trace r) = r.
Proof. by destruct r as [[c s] e]. Qed.

Lemma run_bind_ret {A B} (a : A) (f : A -> Js S B) s : bind (ret a) f s = f a s.
Proof. unfold bind, ret. by destruct (f a s) as [[c s2] e2]. Qed.

Lemma run_bind_get {B} (f : S -> Js S B) s : bind get f s = f s s.
Proof. unfold bind, get. by destruct (f s s) as [[c s2] e2]. Qed.

Lemma run_bind_modify {B} (g : S -> S) (f : unit -> Js S B) s :
  bind (modify g) f s = f tt (g s).
Proof. unfold bind, modify. by destruct (f tt (g s)) as [[c s2] e2]. Qed.

Lemma run_bind_emit {B} (e : Event) (f : unit -> Js S B) s :
  bind (emit e) f s = (completion (f tt s), state (f tt s), e :: trace (f tt s)).
Proof. unfold bind, emit. by destruct (f tt s) as [[c s2] e2]. Qed.

Lemma run_bind_pure {A B} (m : Js S A) (f : A -> Js S B) s a :
  m s = (Normal a, s, []) -> bind m f s = f a s.
Proof. unfold bind. intros ->. by destruct (f a s) as [[c s2] e2]. Qed.

Lemma run_bind_pure_throw {A B} (m : Js S A) (f : A -> Js S B) s :
  m s = (TypeError, s, []) -> bind m f s = (TypeError, s, []).
Proof. unfold bind. by intros ->. Qed.

Lemma run_bind_deref_Some {A B} (a : A) (f : A -> Js S B) s :
  bind (deref (Some a)) f s = f a s.
Proof. apply run_bind_ret. Qed.

Lemma run_bind_deref_None {A B} (f : A -> Js S B) s :
  bind (deref None) f s = (TypeError, s, []).
Proof. done. Qed.

Lemma run_bind_throw {A B} (f : A -> Js S B) s :
  bind throw f s = (TypeError, s, []).
Proof. done. Qed.

Lemma run_bind_complete_Normal {A B} (a : A) (f : A -> Js S B) s :
  bind (complete (Normal a)) f s = f a s.
Proof. apply run_bind_ret. Qed.

Lemma run_bind_assoc {A B C} (m : Js S A) (f : A -> Js S B) (g : B -> Js S C) s :
  bind (bind m f) g s = bind m (fun a => bind (f a) g) s.
Proof.
  unfold bind. destruct (m s) as [[[a|] s1] e1]; [|done].
  destruct (f a s1) as [[[b|] s2] e2]; [|done].
  destruct (g b s2) as [[c s3] e3]. by rewrite app_assoc.
Qed.

Lemma run_bind_forEach_emit {A B} (l : list A) (e : A -> Event) (f : unit -> Js S B) s :
  bind (forEach l (fun x => emit (e x))) f s
  = (completion (f tt s), state (f tt s), (e <$> l) ++ trace (f tt s)).
Proof. apply bind_normal, forEach_emit_map. Qed.

End JsSteps.

Lemma run_bind_getTrack {B} (f : TrackData -> Js Player B) p t :
  trackData p = Some t -> bind getTrack f p = f t p.
Proof.
  intros H. unfold getTrack. rewrite run_bind_assoc, run_bind_get, H.
  apply run_bind_deref_Some.
Qed.

Lemma run_bind_getTime {B} (f : TimeData -> Js Player B) p tm :
  timeData p = Some tm -> bind getTime f p = f tm p.
Proof.
  intros H. unfold getTime. rewrite run_bind_assoc, run_bind_get, H.
  apply run_bind_deref_Some.
Qed.

Lemma run_getTrack p t : trackData p = Some t -> getTrack p = (Normal t, p, []).
Proof. intros H. unfold getTrack. by rewrite run_bind_get, H. Qed.

Lemma run_bind_modifyTrack {B} (g : TrackData -> TrackData) (f : unit -> Js Player B) p t :
  trackData p = Some t ->
  bind (modifyTrack g) f p = f tt (with_trackData (Some (g t)) p).
Proof.
  intros H. unfold modifyTrack.
  rewrite run_bind_assoc, (run_bind_getTrack _ _ _ H), run_bind_modify. by rewrite H.
Qed.

Lemma run_modifyTrack (g : TrackData -> TrackData) p t :
  trackData p = Some t ->
  modifyTrack g p = (Normal tt, with_trackData (Some (g t)) p, []).
Proof.
  intros H. unfold modifyTrack.
  rewrite (run_bind_getTrack _ _ _ H). unfold modify. by rewrite H.
Qed.

Lemma run_bind_modifyTime {B} (g : TimeData -> TimeData) (f : unit -> Js Player B) p tm :
  timeData p = Some tm ->
  bind (modifyTime g) f p = f tt (with_timeData (Some (g tm)) p).
Proof.
  intros H. unfold modifyTime.
  rewrite run_bind_assoc, (run_bind_getTime _ _ _ H), run_bind_modify. by rewrite H.
Qed.

Lemma run_modifyTime (g : TimeData -> TimeData) p tm :
  timeData p = Some tm ->
  modifyTime g p = (Normal tt, with_timeData (Some (g tm)) p, []).
Proof.
  intros H. unfold modifyTime.
  rewrite (run_bind_getTime _ _ _ H). unfold modify. by rewrite H.
Qed.

Lemma run_GeometryFrameCount p t g td :
  trackData p = Some t -> currentGeometryTarget t = Some g ->
  geometry (manifest t) !! g = Some td ->
  GeometryFrameCount p = (Normal (frameCount td), p, []).
Proof.
  intros Ht Hg Htd. unfold GeometryFrameCount.
  rewrite (run_bind_getTrack _ _ _ Ht), Hg. simpl.
  unfold utils_GeometryFrameCount. by rewrite Htd.
Qed.

Lemma run_currentGeometryFrame p t tm g td :
  trackData p = Some t -> timeData p = Some tm ->
  currentGeometryTarget t = Some g -> geometry (manifest t) !! g = Some td ->
  currentGeometryFrame p
  = (Normal (Math_round (currentTime tm * inject_Z (frameRate td))), p, []).
Proof.
  intros Ht Htm Hg Htd. unfold currentGeometryFrame.
  rewrite (run_bind_getTrack _ _ _ Ht), (run_bind_getTime _ _ _ Htm), Hg. simpl.
  unfold calculateGeometryFrame. by rewrite Htd.
Qed.

Lemma run_TextureFrameCount p t ty target td :
  trackData p = Some t -> currentTextureTarget t !! ty = Some target ->
  capData (manifest t) (TextureStream ty target) = Some td ->
  TextureFrameCount ty p = (Normal (frameCount td), p, []).
Proof.
  intros Ht Hg Htd. unfold TextureFrameCount.
  rewrite (run_bind_getTrack _ _ _ Ht), Hg. simpl.
  unfold utils_TextureFrameCount. simpl in Htd.
  destruct (texture (manifest t) !! "baseColor") as [targets|]; [|done]. simpl in *.
  by rewrite Htd.
Qed.

Lemma run_TextureFrameCount_None p t ty target :
  trackData p = Some t -> currentTextureTarget t !! ty = Some target ->
  capData (manifest t) (TextureStream ty target) = None ->
  TextureFrameCount ty p = (TypeError, p, []).
Proof.
  intros Ht Hg Htd. unfold TextureFrameCount.
  rewrite (run_bind_getTrack _ _ _ Ht), Hg. simpl.
  unfold utils_TextureFrameCount. simpl in Htd.
  destruct (texture (manifest t) !! "baseColor") as [targets|]; [|done]. simpl in *.
  by rewrite Htd.
Qed.

Lemma run_currentTextureFrame p t tm ty target td :
  trackData p = Some t -> timeData p = Some tm ->
  currentTextureTarget t !! ty = Some target ->
  streamData (manifest t) (TextureStream ty target) = Some td ->
  currentTextureFrame ty p
  = (Normal (Math_round (currentTime tm * inject_Z (frameRate td))), p, []).
Proof.
  intros Ht Htm Hg Htd. unfold currentTextureFrame.
  rewrite (run_bind_getTrack _ _ _ Ht), (run_bind_getTime _ _ _ Htm), Hg. simpl.
  unfold calculateTextureFrame. simpl in Htd.
  destruct (texture (manifest t) !! ty) as [targets|]; [|done]. simpl in *.
  by rewrite Htd.
Qed.

(** Rewrites the head of a run with the stepping lemmas. *)
Ltac js_step :=
  first
    [ rewrite run_bind_assoc
    | rewrite run_bind_ret
    | rewrite run_bind_get
    | rewrite run_bind_modify
    | rewrite run_bind_emit
    | rewrite run_bind_deref_Some
    | rewrite run_bind_deref_None
    | rewrite run_bind_throw
    | rewrite run_bind_complete_Normal
    | rewrite run_bind_forEach_emit
    | erewrite run_bind_getTrack by eassumption
    | erewrite run_bind_getTime by eassumption
    | erewrite run_bind_modifyTrack by eassumption
    | erewrite run_bind_modifyTime by eassumption ];
  cbv beta.

Ltac js_run := repeat js_step.


Lemma requests_fetchGeometry g (l : list Z) :
  requests (EFetchGeometry g <$> l) = (fun f => (GeometryStream g, f)) <$> l.
Proof. induction l as [|x l IH]; [done|]. unfold requests in *. simpl. f_equal. exact IH. Qed.

Lemma requests_fetchTexture ty tag target (l : list Z) :
  requests (EFetchTexture ty tag target <$> l) = (fun f => (TextureStream ty target, f)) <$> l.
Proof. induction l as [|x l IH]; [done|]. unfold requests in *. simpl. f_equal. exact IH. Qed.

Lemma requestGeometry_pass p0 t tm g cgf gfps i :
  trackData p0 = Some t -> timeData p0 = Some tm ->
  currentGeometryTarget t = Some g ->
  calculateGeometryFrame (manifest t) g (currentTime tm) = Some cgf ->
  frameRate <$> geometry (manifest t) !! g = Some gfps ->
  0 <= i < bufferDuration p0 ->
  keeps (fun s => scrub s = scrub p0) (pass_rel p0) (requestGeometry g cgf gfps i).
Proof.
  intros Ht Htm Hg Hcgf Hfps Hi s Hs.
  destruct (scrub_track _ _ _ Hs Ht) as (ts & Hts & Hman & Hcg & _).
  unfold calculateGeometryFrame in Hcgf.
  destruct (geometry (manifest t) !! g) as [td|] eqn:Htd; [|done].
  simpl in Hcgf, Hfps. injection Hcgf as <-. injection Hfps as <-.
  rewrite <- Hman in Htd. rewrite <- Hcg in Hg.
  unfold requestGeometry.
  rewrite (run_bind_pure _ _ _ _ (run_GeometryFrameCount _ _ _ _ Hts Hg Htd)).
  js_run.
  destruct (lastRequestedGeometryFrame ts !! g) as [last|] eqn:Hlast.
  2: { apply rel_refl. }
  set (e := Z.min _ _) in *.
  destruct (negb (last =? frameCount td - 1) && (last <? e)) eqn:Hc.
  2: { apply rel_refl. }
  js_run. rewrite forEach_emit_map. unfold state, trace. simpl.
  apply andb_true_iff in Hc as [Hc1 Hc2]. apply Z.ltb_lt in Hc2.
  split.
  - unfold scrub. simpl. by rewrite Hts.
  - intros st. unfold mark. simpl. rewrite Hts. simpl.
    destruct st as [g'|ty target]; simpl.
    + destruct (decide (g = g')) as [<-|Hne].
      * rewrite lookup_insert_eq, Hlast. constructor. lia.
      * rewrite lookup_insert_ne by done.
        destruct (_ !! g'); constructor. lia.
    + destruct (_ ≫= _); constructor. lia.
  - intros st f. rewrite requests_fetchGeometry. intros Hin.
    apply list_elem_of_fmap in Hin as (f' & [= -> ->] & Hin).
    apply elem_of_seqZ in Hin.
    exists last, e. unfold mark. simpl. rewrite Hts. simpl.
    rewrite lookup_insert_eq. repeat split; try done; lia.
  - rewrite requests_fetchGeometry. apply NoDup_fmap_2; [|apply NoDup_seqZ].
    intros x y [=]. done.
  - intros st. unfold mark. simpl. rewrite Hts. simpl.
    destruct st as [g'|ty target]; simpl; [|by left].
    destruct (decide (g = g')) as [<-|Hne].
    + right. exists t, tm, td, td, e. rewrite lookup_insert_eq. rewrite <- Hman.
      repeat split; try done.
      * subst e. lia.
      * intros Hfr. subst e. nia.
    + left. by rewrite lookup_insert_ne.
Qed.

Lemma requestTexture_pass p0 t tm ctf tfps i ty :
  trackData p0 = Some t -> timeData p0 = Some tm ->
  frames_of t tm ctf -> rates_of t tfps ->
  0 <= i < bufferDuration p0 ->
  keeps (fun s => scrub s = scrub p0) (pass_rel p0)
    (requestTexture (currentTextureTarget t) ctf tfps i ty).
Proof.
  intros Ht Htm Hctf Htfps Hi s Hs.
  destruct (scrub_track _ _ _ Hs Ht) as (ts & Hts & Hman & _ & Hct & Htag & _).
  unfold requestTexture.
  destruct (currentTextureTarget t !! ty) as [target|] eqn:Htarget.
  2: { js_run. apply rel_refl. }
  js_run.
  destruct (ctf !! ty) as [cf|] eqn:Hcf.
  2: { js_run. apply rel_refl. }
  destruct (Hctf _ _ Hcf) as (target' & td & Htarget' & Htd & ->).
  rewrite Htarget in Htarget'. injection Htarget' as <-.
  js_run.
  destruct (tfps !! ty) as [fps|] eqn:Hfps.
  2: { js_run. apply rel_refl. }
  destruct (Htfps _ _ Hfps) as (target' & td' & Htarget' & Htd' & ->).
  rewrite Htarget in Htarget'. injection Htarget' as <-.
  rewrite Htd in Htd'. injection Htd' as <-.
  js_run.
  rewrite <- Hman in Htd. rewrite <- Hct in Htarget.
  destruct (capData (manifest ts) (TextureStream ty target)) as [cd|] eqn:Hcd.
  2: { rewrite (run_bind_pure_throw _ _ _ (run_TextureFrameCount_None _ _ _ _ Hts Htarget Hcd)).
       apply rel_refl. }
  rewrite (run_bind_pure _ _ _ _ (run_TextureFrameCount _ _ _ _ _ Hts Htarget Hcd)).
  destruct (lastRequestedTextureFrame ts !! ty) as [marks|] eqn:Hmarks.
  2: { js_run. apply rel_refl. }
  js_run.
  destruct (marks !! target) as [last|] eqn:Hlast.
  2: { apply rel_refl. }
  set (e := Z.min _ _) in *.
  destruct (negb (last =? frameCount cd - 1) && (last <? e)) eqn:Hc.
  2: { apply rel_refl. }
  js_run. rewrite forEach_emit_map. unfold state, trace. simpl.
  apply andb_true_iff in Hc as [Hc1 Hc2]. apply Z.ltb_lt in Hc2.
  assert (Hmk : forall st,
    mark (with_trackData
            (Some (set_lastRequestedTextureFrame
                     (<[ty := <[target := e]> marks]> (lastRequestedTextureFrame ts)) ts)) s) st
    = if decide (st = TextureStream ty target) then Some e else mark s st).
  { intros st. destruct (decide (st = TextureStream ty target)) as [->|Hst];
      unfold mark; simpl; rewrite ?Hts; simpl.
    - rewrite lookup_insert_eq. simpl. by rewrite lookup_insert_eq.
    - destruct st as [g'|ty' target']; simpl; [done|].
      destruct (decide (ty = ty')) as [<-|Hne].
      + rewrite lookup_insert_eq, Hmarks. simpl.
        rewrite lookup_insert_ne; [done|congruence].
      + by rewrite lookup_insert_ne. }
  assert (Hold : mark s (TextureStream ty target) = Some last).
  { unfold mark. rewrite Hts. simpl. rewrite Hmarks. done. }
  split.
  - unfold scrub. simpl. by rewrite Hts.
  - intros st. rewrite Hmk. case_decide as Hst.
    + subst st. rewrite Hold. constructor. lia.
    + destruct (mark s st); constructor. lia.
  - intros st f. rewrite requests_fetchTexture. intros Hin.
    apply list_elem_of_fmap in Hin as (f' & [= -> ->] & Hin).
    apply elem_of_seqZ in Hin.
    exists last, e. rewrite Hmk, decide_True by done.
    repeat split; try done; lia.
  - rewrite requests_fetchTexture. apply NoDup_fmap_2; [|apply NoDup_seqZ].
    intros x y [=]. done.
  - intros st. rewrite Hmk. case_decide as Hst; [|by left].
    subst st. right. exists t, tm, td, cd, e. rewrite <- Hman.
    repeat split; try done.
    + subst e. lia.
    + intros Hfr. subst e. nia.
Qed.

Lemma run_bind_getTrack_None {B} (f : TrackData -> Js Player B) p :
  trackData p = None -> bind getTrack f p = (TypeError, p, []).
Proof.
  intros H. unfold getTrack. rewrite run_bind_assoc, run_bind_get, H.
  apply run_bind_deref_None.
Qed.

Lemma run_bind_getTime_None {B} (f : TimeData -> Js Player B) p :
  timeData p = None -> bind getTime f p = (TypeError, p, []).
Proof.
  intros H. unfold getTime. rewrite run_bind_assoc, run_bind_get, H.
  apply run_bind_deref_None.
Qed.

Lemma bind_ret_state_trace {S A B} (m : Js S A) (k : A -> B) s :
  state (bind m (fun a => ret (k a)) s) = state (m s) /\
  trace (bind m (fun a => ret (k a)) s) = trace (m s).
Proof.
  unfold bind, ret, state, trace. destruct (m s) as [[[a|] s1] e1]; simpl; [|done].
  by rewrite app_nil_r.
Qed.

Lemma reads_deref {S A} (o : option A) (s : S) : reads (deref o) s (fun v => o = Some v).
Proof.
  destruct o as [a|].
  - exists (Normal a). split; [done|]. by intros v [= ->].
  - exists TypeError. by split.
Qed.

Lemma reads_currentGeometryFrame p :
  reads currentGeometryFrame p (fun v =>
    exists t tm g td, trackData p = Some t /\ timeData p = Some tm /\
      currentGeometryTarget t = Some g /\ geometry (manifest t) !! g = Some td /\
      v = Math_round (currentTime tm * inject_Z (frameRate td))).
Proof.
  unfold reads, currentGeometryFrame.
  destruct (trackData p) as [t|] eqn:Ht.
  2: { exists TypeError. by rewrite run_bind_getTrack_None. }
  destruct (timeData p) as [tm|] eqn:Htm.
  2: { exists TypeError. rewrite (run_bind_getTrack _ _ _ Ht).
       by rewrite run_bind_getTime_None. }
  rewrite (run_bind_getTrack _ _ _ Ht), (run_bind_getTime _ _ _ Htm).
  destruct (reads_deref (S:=Player)
    (currentGeometryTarget t ≫= fun g => calculateGeometryFrame (manifest t) g (currentTime tm)) p)
    as (c & Hc & HP).
  exists c. split; [done|]. intros v Hv. specialize (HP v Hv).
  destruct (currentGeometryTarget t) as [g|] eqn:Hg; [|done]. simpl in HP.
  unfold calculateGeometryFrame in HP.
  destruct (geometry (manifest t) !! g) as [td|] eqn:Htd; [|done].
  simpl in HP. injection HP as <-. by exists t, tm, g, td.
Qed.

Lemma reads_currentTextureFrame p ty t tm :
  trackData p = Some t -> timeData p = Some tm ->
  reads (currentTextureFrame ty) p (fun v =>
    exists target td, currentTextureTarget t !! ty = Some target /\
      streamData (manifest t) (TextureStream ty target) = Some td /\
      v = Math_round (currentTime tm * inject_Z (frameRate td))).
Proof.
  intros Ht Htm. unfold reads, currentTextureFrame.
  rewrite (run_bind_getTrack _ _ _ Ht), (run_bind_getTime _ _ _ Htm).
  destruct (reads_deref (S:=Player)
    (currentTextureTarget t !! ty ≫= fun target =>
       calculateTextureFrame (manifest t) ty target (currentTime tm)) p)
    as (c & Hc & HP).
  exists c. split; [done|]. intros v Hv. specialize (HP v Hv).
  destruct (currentTextureTarget t !! ty) as [target|] eqn:Hg; [|done]. simpl in HP.
  unfold calculateTextureFrame in HP. simpl.
  destruct (texture (manifest t) !! ty) as [targets|] eqn:Hty; [|done]. simpl in HP.
  destruct (targets !! target) as [td|] eqn:Htd; [|done].
  simpl in HP. injection HP as <-. exists target, td.
  by simpl.
Qed.

Lemma reads_textureFrameRate (p : Player) ty t :
  reads (deref (currentTextureTarget t !! ty ≫= fun target =>
                  textureFrameRate (manifest t) ty target)) p (fun v =>
    exists target td, currentTextureTarget t !! ty = Some target /\
      streamData (manifest t) (TextureStream ty target) = Some td /\
      v = frameRate td).
Proof.
  destruct (reads_deref (S:=Player)
    (currentTextureTarget t !! ty ≫= fun target =>
       textureFrameRate (manifest t) ty target) p)
    as (c & Hc & HP).
  exists c. split; [done|]. intros v Hv. specialize (HP v Hv).
  destruct (currentTextureTarget t !! ty) as [target|] eqn:Hg; [|done]. simpl in HP.
  unfold textureFrameRate in HP. simpl.
  destruct (texture (manifest t) !! ty) as [targets|] eqn:Hty; [|done]. simpl in HP.
  destruct (targets !! target) as [td|] eqn:Htd; [|done].
  simpl in HP. injection HP as <-. exists target, td.
  by simpl.
Qed.

Lemma reads_collect {S V} (f : string -> Js S V) (P : string -> V -> Prop) (s : S) l :
  (forall x, reads (f x) s (P x)) ->
  forall acc, (forall x v, acc !! x = Some v -> P x v) ->
  reads (collect l f acc) s (fun m => forall x v, m !! x = Some v -> P x v).
Proof.
  intros Hf. unfold reads in *. induction l as [|x l IH]; intros acc Hacc; simpl.
  - exists (Normal acc). split; [done|]. by intros m [= <-].
  - destruct (Hf x) as ([v|] & Hc & HP).
    + rewrite (run_bind_pure _ _ _ _ Hc). apply IH.
      intros y w. destruct (decide (x = y)) as [<-|Hne].
      * rewrite lookup_insert_eq. intros [= <-]. by apply HP.
      * rewrite lookup_insert_ne by done. apply Hacc.
    + exists TypeError. split; [|done]. by apply run_bind_pure_throw.
Qed.

Lemma pass_rel_stable p0 : stable (fun s => scrub s = scrub p0) (pass_rel p0).
Proof. intros s e s' Hs [H _ _ _ _]. congruence. Qed.

(** One scheduling pass, however it completes. *)
Lemma fetchBuffers_pass now callback p :
  pass_rel p p (trace (fetchBuffers now callback p)) (state (fetchBuffers now callback p)).
Proof.
  unfold fetchBuffers.
  destruct (trackData p) as [t|] eqn:Ht.
  2: { rewrite run_bind_getTrack_None by done. apply rel_refl. }
  rewrite (run_bind_getTrack _ _ _ Ht).
  destruct (currentGeometryTarget t) as [g|] eqn:Hg.
  2: { js_run. apply rel_refl. }
  js_run.
  destruct (reads_currentGeometryFrame p) as ([cgf|] & Hc & HP).
  2: { rewrite (run_bind_pure_throw _ _ _ Hc). apply rel_refl. }
  rewrite (run_bind_pure _ _ _ _ Hc).
  destruct (HP _ eq_refl) as (t' & tm & g' & td & Ht' & Htm & Hg' & Htd & ->).
  rewrite Ht in Ht'. injection Ht' as <-. rewrite Hg in Hg'. injection Hg' as <-.
  rewrite Htd. simpl. js_run.
  destruct (reads_collect currentTextureFrame _ p (textureTypes t)
              (fun ty => reads_currentTextureFrame p ty t tm Ht Htm) ∅)
    as ([ctf|] & Hctf & Hfr).
  { intros x v. by rewrite lookup_empty. }
  2: { rewrite (run_bind_pure_throw _ _ _ Hctf). apply rel_refl. }
  rewrite (run_bind_pure _ _ _ _ Hctf). specialize (Hfr _ eq_refl).
  destruct (reads_collect _ _ p (textureTypes t)
              (fun ty => reads_textureFrameRate p ty t) ∅)
    as ([tfps|] & Htfps & Hrt).
  { intros x v. by rewrite lookup_empty. }
  2: { rewrite (run_bind_pure_throw _ _ _ Htfps). apply rel_refl. }
  rewrite (run_bind_pure _ _ _ _ Htfps). specialize (Hrt _ eq_refl).
  js_run.
  match goal with |- pass_rel _ _ (trace (bind ?m _ _)) _ =>
    destruct (bind_ret_state_trace m
      (fun _ => {| k_gTarget := g; k_oldLastGeometryFrame := lastRequestedGeometryFrame t !! g;
                   k_startTime := now; k_gFramesPerSecond := frameRate td;
                   k_callback := callback |}) p) as [-> ->]
  end.
  apply (keeps_forEach (fun s => scrub s = scrub p) (pass_rel p)); [apply pass_rel_stable| |done].
  intros i Hi%elem_of_seqZ.
  apply keeps_bind; [apply _|apply pass_rel_stable| |].
  - apply (requestGeometry_pass p t tm g _ _ i Ht Htm Hg);
      [unfold calculateGeometryFrame; by rewrite Htd | by rewrite Htd | lia].
  - intros _. apply keeps_forEach; [apply _|apply pass_rel_stable|].
    intros ty _. apply (requestTexture_pass p t tm ctf tfps i ty Ht Htm Hfr Hrt). lia.
Qed.
(** ** Track sessions *)

Lemma Math_round_le (x y : Q) : (x <= y)%Q -> Math_round x <= Math_round y.
Proof.
  intros H. unfold Math_round. apply Qfloor_resp_le.
  apply Qplus_le_compat; [done|]. apply Qle_refl.
Qed.

Lemma frame_le (x y : Q) (fr : Z) :
  (x <= y)%Q -> 0 <= fr ->
  Math_round (x * inject_Z fr) <= Math_round (y * inject_Z fr).
Proof.
  intros H Hfr. apply Math_round_le. apply Qmult_le_compat_r; [done|].
  change 0%Q with (inject_Z 0). by rewrite <- Zle_Qle.
Qed.

Lemma option_le_trans (a b c : option Z) :
  option_Forall2 Z.le a b -> option_Forall2 Z.le b c -> option_Forall2 Z.le a c.
Proof.
  intros [x y Hxy|] Hbc; inversion Hbc; subst; constructor. lia.
Qed.

Lemma option_le_refl (a : option Z) : option_Forall2 Z.le a a.
Proof. destruct a; constructor. lia. Qed.

Lemma mark_trackMark p t s : trackData p = Some t -> mark p s = trackMark t s.
Proof. unfold mark. by intros ->. Qed.

Lemma session_requests_below R p reqs p' :
  (forall a b, R a b -> between a b) ->
  session R p reqs p' ->
  NoDup reqs /\ forall s f, (s, f) ∈ reqs -> exists m, mark p' s = Some m /\ f <= m.
Proof.
  intros HR. induction 1 as [p|p reqs p1 now cb Hs [IH1 IH2]|p reqs p1 p2 Hs [IH1 IH2] Hb].
  - split; [constructor|]. intros s f H. inversion H.
  - destruct (fetchBuffers_pass now cb p1) as [_ Hmono Hfresh Hnd _]. split.
    + apply NoDup_app. repeat split; try done.
      intros [s f] H1 H2.
      destruct (IH2 _ _ H1) as (m & Hm & Hf).
      destruct (Hfresh _ _ H2) as (n & n' & Hn & Hn' & Hg).
      rewrite Hm in Hn. injection Hn as <-. lia.
    + intros s f [H|H]%elem_of_app.
      * destruct (IH2 _ _ H) as (m & Hm & Hf).
        specialize (Hmono s). rewrite Hm in Hmono. inversion Hmono; subst.
        eexists. split; [done|lia].
      * destruct (Hfresh _ _ H) as (n & n' & Hn & Hn' & Hg).
        exists n'. split; [done|lia].
  - split; [done|]. intros s f H. destruct (HR _ _ Hb) as (Hmk & _).
    rewrite Hmk. by apply IH2.
Qed.

Lemma session_marks R p reqs p' :
  (forall a b, R a b -> between a b) ->
  session R p reqs p' -> capped p ->
  (forall s, option_Forall2 Z.le (mark p s) (mark p' s)) /\ capped p'.
Proof.
  intros HR Hs Hcap.
  induction Hs as [p|p reqs p1 now cb Hs IH|p reqs p1 p2 Hs IH Hb].
  - split; [|done]. intros s. apply option_le_refl.
  - destruct (IH Hcap) as [IH1 IH2].
    pose proof (fetchBuffers_pass now cb p1) as Hpass.
    destruct Hpass as [Hscrub Hmono Hfresh Hnd Hmoved]. split.
    + intros s. eapply option_le_trans; [apply IH1|apply Hmono].
    + intros t' s td m Ht' Htd Hm.
      rewrite <- (mark_trackMark _ _ s Ht') in Hm.
      destruct (Hmoved s)
        as [Heq|(t & tm & td' & cd & m' & Ht & Htm & Htd' & Hcd & Hm' & Hle & _)].
      * rewrite Heq in Hm.
        destruct (trackData p1) as [t|] eqn:Ht; [|by unfold mark in Hm; rewrite Ht in Hm].
        assert (manifest t' = manifest t) as Hman.
        { destruct (scrub_track _ _ _ (eq_sym Hscrub) Ht') as (t1 & Ht1 & Hm1 & _).
          rewrite Ht in Ht1. by injection Ht1 as <-. }
        rewrite (mark_trackMark _ _ s Ht) in Hm. rewrite Hman in Htd. eauto.
      * assert (manifest t' = manifest t) as Hman.
        { destruct (scrub_track _ _ _ (eq_sym Hscrub) Ht') as (t1 & Ht1 & Hm1 & _).
          rewrite Ht in Ht1. by injection Ht1 as <-. }
        rewrite Hman, Hcd in Htd. injection Htd as <-.
        rewrite Hm' in Hm. injection Hm as <-. done.
  - destruct (IH Hcap) as [IH1 IH2]. destruct (HR _ _ Hb) as (Hmk & Hman & _). split.
    + intros s. rewrite Hmk. apply IH1.
    + intros t' s td m Ht' Htd Hm.
      rewrite <- (mark_trackMark _ _ s Ht'), Hmk in Hm.
      rewrite Ht' in Hman. destruct (trackData p1) as [t|] eqn:Ht; [|done].
      simpl in Hman. injection Hman as Hman. rewrite Hman in Htd.
      rewrite (mark_trackMark _ _ s Ht) in Hm. eauto.
Qed.

Lemma session_bucket p reqs p' :
  session advance p reqs p' -> rates_nonneg p -> bucket_ok p ->
  rates_nonneg p' /\ bucket_ok p'.
Proof.
  intros Hs Hr Hb.
  induction Hs as [p|p reqs p1 now cb Hs IH|p reqs p1 p2 Hs IH Hadv].
  - done.
  - destruct (IH Hr Hb) as [IH1 IH2].
    destruct (fetchBuffers_pass now cb p1) as [Hscrub _ _ _ Hmoved].
    pose proof (scrub_fields _ _ Hscrub) as (Hbd & Htime & _).
    assert (Hman : forall t', trackData (state (fetchBuffers now cb p1)) = Some t' ->
              exists t, trackData p1 = Some t /\ manifest t = manifest t').
    { intros t' Ht'.
      destruct (scrub_track _ _ _ (eq_sym Hscrub) Ht') as (t & Ht & Hm & _). eauto. }
    split.
    + intros t' s td Ht' Htd. destruct (Hman _ Ht') as (t & Ht & Hm).
      rewrite <- Hm in Htd. eauto.
    + intros t' tm' s td m Ht' Htm' Htd Hm.
      destruct (Hman _ Ht') as (t & Ht & Hmn). rewrite <- Hmn in Htd.
      rewrite Htime in Htm'. rewrite Hbd.
      rewrite <- (mark_trackMark _ _ s Ht') in Hm.
      destruct (Hmoved s)
        as [Heq|(t0 & tm0 & td' & cd & m' & Ht0 & Htm0 & Htd' & Hcd & Hm' & _ & Hle)].
      * rewrite Heq, (mark_trackMark _ _ s Ht) in Hm. eauto.
      * rewrite Ht in Ht0. injection Ht0 as <-. rewrite Htm' in Htm0. injection Htm0 as <-.
        rewrite Htd in Htd'. injection Htd' as <-. rewrite Hm in Hm'. injection Hm' as <-.
        apply Hle. eauto.
  - destruct (IH Hr Hb) as [IH1 IH2]. destruct Hadv as [(Hmk & Hman & Hbd) Hclk].
    assert (Hman' : forall t', trackData p2 = Some t' ->
              exists t, trackData p1 = Some t /\ manifest t = manifest t').
    { intros t' Ht'. rewrite Ht' in Hman.
      destruct (trackData p1) as [t|]; [|done]. injection Hman as Hman. eauto. }
    split.
    + intros t' s td Ht' Htd. destruct (Hman' _ Ht') as (t & Ht & Hm).
      rewrite <- Hm in Htd. eauto.
    + intros t' tm' s td m Ht' Htm' Htd Hm.
      destruct (Hman' _ Ht') as (t & Ht & Hmn). rewrite <- Hmn in Htd.
      rewrite <- (mark_trackMark _ _ s Ht'), Hmk, (mark_trackMark _ _ s Ht) in Hm.
      unfold clock_le in Hclk. rewrite Htm' in Hclk.
      destruct (timeData p1) as [tm|] eqn:Htm; [|inversion Hclk].
      simpl in Hclk. inversion Hclk as [x y Hxy|]; subst.
      pose proof (IH2 _ _ _ _ _ Ht Htm Htd Hm) as Hle.
      pose proof (frame_le _ _ (frameRate td) Hxy (IH1 _ _ _ Ht Htd)).
      rewrite Hbd. lia.
Qed.

Lemma Math_round_nonneg (x : Q) : (0 <= x)%Q -> 0 <= Math_round x.
Proof.
  intros H. unfold Math_round. change 0 with (Qfloor 0). apply Qfloor_resp_le.
  apply Qle_trans with x; [done|]. rewrite <- (Qplus_0_r x) at 1.
  apply Qplus_le_compat; [apply Qle_refl|done].
Qed.

Lemma fresh_bucket_ok p : fresh p -> rates_nonneg p -> bucket_ok p.
Proof.
  intros (Hm & Ht & Hbd) Hr t tm s td m Htr Htm Htd Hmk.
  rewrite <- (mark_trackMark _ _ s Htr) in Hmk. rewrite (Hm _ _ Hmk).
  pose proof (Hr _ _ _ Htr Htd) as Hfr.
  assert (0 <= Math_round (currentTime tm * inject_Z (frameRate td))).
  { apply Math_round_nonneg. apply Qmult_le_0_compat; [by apply Ht|].
    change 0%Q with (inject_Z 0). by rewrite <- Zle_Qle. }
  nia.
Qed.

Lemma fresh_capped p :
  (forall s m, mark p s = Some m -> m = -1) ->
  (forall t s td, trackData p = Some t -> capData (manifest t) s = Some td ->
     0 <= frameCount td) ->
  capped p.
Proof.
  intros Hm Hfc t s td m Ht Htd Hmk.
  rewrite <- (mark_trackMark _ _ s Ht) in Hmk. rewrite (Hm _ _ Hmk).
  specialize (Hfc _ _ _ Ht Htd). lia.
Qed.

(** ** Relations that every operation of a kind keeps *)

Lemma anywhere_stable R : stable anywhere R.
Proof. done. Qed.

Section KeepsPrimitives.
Context (R : Player -> list Event -> Player -> Prop) `{!TraceRel R}.

Lemma keeps_get : keeps anywhere R get.
Proof. intros s _. apply rel_refl. Qed.

Lemma keeps_deref {A} (o : option A) : keeps anywhere R (deref o).
Proof. intros s _. destruct o; apply rel_refl. Qed.

Lemma keeps_complete {A} (c : Completion A) : keeps anywhere R (complete c).
Proof. intros s _. apply rel_refl. Qed.

Lemma keeps_emit e : (forall s, R s [e] s) -> keeps anywhere R (emit e).
Proof. intros H s _. apply H. Qed.

Lemma keeps_modify (g : Player -> Player) :
  (forall s, R s [] (g s)) -> keeps anywhere R (modify g).
Proof. intros H s _. apply H. Qed.

Lemma keeps_getTrack : keeps anywhere R getTrack.
Proof.
  intros s _. unfold getTrack. rewrite run_bind_get.
  destruct (trackData s); apply rel_refl.
Qed.

Lemma keeps_getTime : keeps anywhere R getTime.
Proof.
  intros s _. unfold getTime. rewrite run_bind_get.
  destruct (timeData s); apply rel_refl.
Qed.

Lemma keeps_modifyTime g :
  (forall s tm, timeData s = Some tm -> R s [] (with_timeData (Some (g tm)) s)) ->
  keeps anywhere R (modifyTime g).
Proof.
  intros H s _. destruct (timeData s) as [tm|] eqn:Htm.
  - rewrite (run_modifyTime _ _ _ Htm). by apply H.
  - unfold modifyTime. rewrite run_bind_getTime_None by done. apply rel_refl.
Qed.

Lemma keeps_modifyTrack g :
  (forall s t, trackData s = Some t -> R s [] (with_trackData (Some (g t)) s)) ->
  keeps anywhere R (modifyTrack g).
Proof.
  intros H s _. destruct (trackData s) as [t|] eqn:Ht.
  - rewrite (run_modifyTrack _ _ _ Ht). by apply H.
  - unfold modifyTrack. rewrite run_bind_getTrack_None by done. apply rel_refl.
Qed.

Lemma keeps_forEach_anywhere {A} (l : list A) (f : A -> Js Player unit) :
  (forall x, keeps anywhere R (f x)) -> keeps anywhere R (forEach l f).
Proof. intros H. apply keeps_forEach; [apply _|done|]. intros x _. apply H. Qed.

End KeepsPrimitives.

(** Splits a computation along its binds and branches down to the primitive
    operations; [side] proves that a primitive update or call is in the
    relation. *)
Ltac keeps_steps side :=
  repeat first
    [ apply keeps_ret; apply _
    | apply keeps_get; apply _
    | apply keeps_getTrack; apply _
    | apply keeps_getTime; apply _
    | apply keeps_deref; apply _
    | apply keeps_complete; apply _
    | apply keeps_emit; intros ?; side
    | apply keeps_modify; intros ?; side
    | apply keeps_modifyTime; try apply _; intros ? ? ?; side
    | apply keeps_modifyTrack; try apply _; intros ? ? ?; side
    | apply keeps_forEach_anywhere; try apply _; intros ?
    | apply keeps_bind; [apply _ | apply anywhere_stable | | intros ?]
    | match goal with
      | |- keeps _ _ (if ?b then _ else _) => destruct b
      | |- keeps _ _ (match ?x with _ => _ end) => destruct x
      | |- keeps _ _ (let '(_, _) := ?x in _) => destruct x
      end
    | progress cbv zeta ].

(** ** The other operations leave the scheduler alone *)

Lemma between_refl p : between p p.
Proof. by repeat split. Qed.

Lemma between_trans p1 p2 p3 : between p1 p2 -> between p2 p3 -> between p1 p3.
Proof.
  intros (H1 & H2 & H3) (H4 & H5 & H6). split; [|split; congruence].
  intros s. by rewrite H4, H1.
Qed.

#[global] Instance env_rel_TraceRel : TraceRel env_rel.
Proof.
  split.
  - intros s. split; [apply between_refl|done].
  - intros s e1 s1 e2 s2 [H1 H2] [H3 H4]. split; [by eapply between_trans|].
    by rewrite requests_app, H2, H4.
Qed.

(** A primitive step is an environment step: it touches neither the marks
    nor the manifest nor the buffer duration, and it is not a decode
    request. *)
Ltac env_side :=
  split; [|reflexivity];
  split; [|split];
  [ intros ?; unfold mark; simpl;
    repeat match goal with H : trackData _ = Some _ |- _ => rewrite H; clear H end;
    simpl; try reflexivity;
    match goal with |- trackMark _ ?s = _ => by destruct s end
  | simpl;
    repeat match goal with H : trackData _ = Some _ |- _ => rewrite H; clear H end;
    reflexivity
  | reflexivity ].

Ltac env_steps := keeps_steps env_side.

Lemma env_currentGeometryFrame : keeps anywhere env_rel currentGeometryFrame.
Proof. unfold currentGeometryFrame. env_steps. Qed.

Lemma env_GeometryFrameCount : keeps anywhere env_rel GeometryFrameCount.
Proof. unfold GeometryFrameCount. env_steps. Qed.

Lemma env_currentTextureFrame ty : keeps anywhere env_rel (currentTextureFrame ty).
Proof. unfold currentTextureFrame. env_steps. Qed.

Lemma env_removePlayedGeometryBuffer key :
  keeps anywhere env_rel (removePlayedGeometryBuffer key).
Proof. unfold removePlayedGeometryBuffer. env_steps. Qed.

Lemma env_removePlayedTextureBuffer key :
  keeps anywhere env_rel (removePlayedTextureBuffer key).
Proof. unfold removePlayedTextureBuffer. env_steps. Qed.

Lemma env_dispose b : keeps anywhere env_rel (dispose b).
Proof. unfold dispose. env_steps. Qed.

Lemma env_adjustTextureTarget : keeps anywhere env_rel adjustTextureTarget.
Proof. unfold adjustTextureTarget. env_steps. Qed.

Lemma env_startVideo now : keeps anywhere env_rel (startVideo now).
Proof. unfold startVideo. env_steps. Qed.

Lemma env_pause now : keeps anywhere env_rel (pause now).
Proof. unfold pause. env_steps. Qed.

Lemma env_play now : keeps anywhere env_rel (play now).
Proof. unfold play. env_steps. Qed.

Lemma env_fetchGeometry_resolved g f b : keeps anywhere env_rel (fetchGeometry_resolved g f b).
Proof. unfold fetchGeometry_resolved. env_steps. Qed.

Lemma env_fetchTexture_resolved ty tag target f b :
  keeps anywhere env_rel (fetchTexture_resolved ty tag target f b).
Proof. unfold fetchTexture_resolved. env_steps. Qed.

Lemma env_fetchBuffers_then k endTime callbackNow :
  keeps anywhere env_rel (fetchBuffers_then k endTime callbackNow).
Proof. unfold fetchBuffers_then. env_steps. Qed.

Lemma env_processFrame now : keeps anywhere env_rel (processFrame now).
Proof. unfold processFrame. env_steps. Qed.

Lemma env_update now : keeps anywhere env_rel (update now).
Proof. unfold update. env_steps. Qed.

(** ** A new session *)

Lemma foldl_insert_const (l : list string) (acc : gmap string Z) g m :
  foldl (fun acc target => <[target := -1]> acc) acc l !! g = Some m ->
  m = -1 \/ acc !! g = Some m.
Proof.
  revert acc. induction l as [|x l IH]; intros acc; simpl; [by right|].
  intros H. destruct (IH _ H) as [?|H']; [by left|].
  destruct (decide (x = g)) as [->|Hne].
  - rewrite lookup_insert_eq in H'. left. congruence.
  - rewrite lookup_insert_ne in H' by done. by right.
Qed.

Lemma reads_weaken {S A} (m : Js S A) (s : S) (P Q : A -> Prop) :
  reads m s P -> (forall v, P v -> Q v) -> reads m s Q.
Proof. intros (c & Hc & HP) HPQ. exists c. split; [done|]. eauto. Qed.

(** [playTrack] starts every high-water mark at [-1] and the clock at 0. *)
Lemma playTrack_init_fresh m gts tys sup au bd iv p :
  0 <= bd ->
  completion (playTrack_init m gts tys sup au bd iv p) = Normal tt ->
  fresh (state (playTrack_init m gts tys sup au bd iv p)).
Proof.
  intros Hbd. unfold playTrack_init.
  destruct (reads_collect (fun ty => deref (input_texture m !! ty)) (fun _ _ => True) p tys
              (fun ty => reads_weaken _ _ _ _ (reads_deref _ _) (fun _ _ => I))
              ∅ (fun _ _ _ => I)) as ([inputs|] & Hc & _).
  2: { rewrite (run_bind_pure_throw _ _ _ Hc). done. }
  rewrite (run_bind_pure _ _ _ _ Hc). intros _. unfold modify, state. simpl.
  split; [|split].
  - intros s v. unfold mark. simpl. destruct s as [g|ty target]; simpl.
    + intros H. destruct (foldl_insert_const _ _ _ _ H) as [?|H']; [done|].
      by rewrite lookup_empty in H'.
    + rewrite lookup_fmap.
      destruct (foldl _ _ tys !! ty) as [targets|]; [|done]. simpl.
      intros H. destruct (foldl_insert_const _ _ _ _ H) as [?|H']; [done|].
      by rewrite lookup_empty in H'.
  - simpl. intros tm [= <-]. simpl. apply Qle_refl.
  - simpl. done.
Qed.
(** ** The demo session *)

Lemma demoManifest_data s td :
  streamData demoManifest s = Some td -> 0 <= frameRate td /\ 0 <= frameCount td.
Proof.
  destruct s as [g|ty target]; simpl.
  - intros [_ <-]%lookup_singleton_Some. simpl. lia.
  - destruct (_ !! ty) as [targets|] eqn:Hty; [|done]. simpl.
    apply lookup_singleton_Some in Hty as [_ <-].
    intros [[_ <-]|[_ [_ <-]%lookup_singleton_Some]]%lookup_insert_Some; simpl; lia.
Qed.

Lemma demoManifest_cap s td :
  capData demoManifest s = Some td -> 0 <= frameCount td.
Proof.
  destruct s as [g|ty target]; simpl.
  - intros [_ <-]%lookup_singleton_Some. simpl. lia.
  - destruct (_ !! "baseColor") as [targets|] eqn:Hty; [|done]. simpl.
    apply lookup_singleton_Some in Hty as [_ <-].
    intros [[_ <-]|[_ [_ <-]%lookup_singleton_Some]]%lookup_insert_Some; simpl; lia.
Qed.

Lemma demoFresh_manifest : manifest <$> trackData demoFresh = Some demoManifest.
Proof. vm_compute. reflexivity. Qed.

Lemma demoFresh_fresh : fresh demoFresh.
Proof. apply playTrack_init_fresh; [lia|]. vm_compute. reflexivity. Qed.

Lemma demoFresh_rates : rates_nonneg demoFresh.
Proof.
  intros t s td Ht Htd. pose proof demoFresh_manifest as H. rewrite Ht in H.
  injection H as H. rewrite H in Htd. by apply demoManifest_data in Htd as [? _].
Qed.

Lemma demoFresh_capped : capped demoFresh.
Proof.
  apply fresh_capped; [apply demoFresh_fresh|].
  intros t s td Ht Htd. pose proof demoFresh_manifest as H. rewrite Ht in H.
  injection H as H. rewrite H in Htd. by apply demoManifest_cap in Htd.
Qed.

Lemma demo_session :
  session advance demoFresh
    (requests (trace demoFirst) ++ requests (trace demoSecond)) (state demoSecond).
Proof.
  unfold demoSecond. apply session_pass.
  apply session_env with demoStarted.
  - apply session_env with (state demoFirst).
    + apply (session_pass advance demoFresh [] demoFresh 1000 true), session_nil.
    + split; [apply (env_startVideo 1200 _ I)|].
      vm_compute. apply Some_Forall2. vm_compute. discriminate.
  - split; [apply (env_processFrame 2900 _ I)|].
    vm_compute. apply Some_Forall2. vm_compute. discriminate.
Qed.

Lemma session_weaken (R R' : Player -> Player -> Prop) p reqs p' :
  (forall a b, R a b -> R' a b) -> session R p reqs p' -> session R' p reqs p'.
Proof.
  intros HR. induction 1; [apply session_nil|by apply session_pass|].
  eapply session_env; eauto.
Qed.

(** ** The scheduler claims *)

(** C2. Across any track session (scheduling passes interleaved with anything
    that keeps the marks and the manifest), the high-water mark
    [lastRequestedFrame] of every stream, the geometry stream of a target or
    the texture stream of a (type, target), never decreases; and it never
    exceeds [frameCount - 1] of the entry [TextureFrameCount] and
    [GeometryFrameCount] read for it, the geometry target itself or the
    'baseColor' target of the same name, once that holds at the start, as it
    does in a new session. *)
Theorem marks_monotone_and_capped (p p' : Player) (reqs : list (Stream * Z)) :
  capped p ->
  session between p reqs p' ->
  (forall s m, mark p s = Some m -> exists m', mark p' s = Some m' /\ m <= m') /\
  (forall t' g td m',
     trackData p' = Some t' -> geometry (manifest t') !! g = Some td ->
     mark p' (GeometryStream g) = Some m' -> m' <= frameCount td - 1) /\
  (forall t' ty target targets td m',
     trackData p' = Some t' -> texture (manifest t') !! "baseColor" = Some targets ->
     targets !! target = Some td ->
     mark p' (TextureStream ty target) = Some m' -> m' <= frameCount td - 1).
Proof.
  intros Hcap Hs.
  destruct (session_marks between p reqs p' (fun _ _ H => H) Hs Hcap) as [Hmono Hcap'].
  split_and!.
  - intros s m Hm. specialize (Hmono s). rewrite Hm in Hmono.
    inversion Hmono; subst. eauto.
  - intros t' g td m' Ht' Htd Hm'. rewrite (mark_trackMark _ _ _ Ht') in Hm'.
    by apply (Hcap' t' (GeometryStream g) td m').
  - intros t' ty target targets td m' Ht' Hbase Htd Hm'.
    rewrite (mark_trackMark _ _ _ Ht') in Hm'.
    apply (Hcap' t' (TextureStream ty target) td m'); [done| |done].
    simpl. by rewrite Hbase.
Qed.

Lemma demoTypes_session :
  session between demoTypesFresh
    (requests (trace demoTypesFirst) ++ requests (trace demoTypesSecond))
    (state demoTypesSecond).
Proof.
  unfold demoTypesSecond. apply session_pass.
  apply session_env with demoTypesStarted.
  - apply session_env with (state demoTypesFirst).
    + apply (session_pass between demoTypesFresh [] demoTypesFresh 1000 true), session_nil.
    + apply (env_startVideo 1200 _ I).
  - apply (env_processFrame 4200 _ I).
Qed.

Lemma demoTypesFresh_capped : capped demoTypesFresh.
Proof.
  apply fresh_capped.
  - apply playTrack_init_fresh; [lia|]. vm_compute. reflexivity.
  - intros t s td Ht Htd.
    assert (manifest <$> trackData demoTypesFresh = Some demoTypesManifest) as H
      by (vm_compute; reflexivity).
    rewrite Ht in H. injection H as H. rewrite H in Htd.
    destruct s as [g|ty target]; simpl in Htd.
    + apply lookup_singleton_Some in Htd as [_ <-]. simpl. lia.
    + destruct (_ !! "baseColor") as [targets|] eqn:Hty; [|done]. simpl in Htd.
      apply lookup_insert_Some in Hty as [[_ <-]|[Hne _]]; [|done].
      apply lookup_singleton_Some in Htd as [_ <-]. simpl. lia.
Qed.

Lemma marks_monotone_and_capped_witness :
  (forall s m, mark demoTypesFresh s = Some m ->
     exists m', mark (state demoTypesSecond) s = Some m' /\ m <= m') /\
  (forall t' g td m',
     trackData (state demoTypesSecond) = Some t' -> geometry (manifest t') !! g = Some td ->
     mark (state demoTypesSecond) (GeometryStream g) = Some m' -> m' <= frameCount td - 1) /\
  (forall t' ty target targets td m',
     trackData (state demoTypesSecond) = Some t' ->
     texture (manifest t') !! "baseColor" = Some targets ->
     targets !! target = Some td ->
     mark (state demoTypesSecond) (TextureStream ty target) = Some m' ->
     m' <= frameCount td - 1).
Proof.
  apply (marks_monotone_and_capped demoTypesFresh (state demoTypesSecond)
           (requests (trace demoTypesFirst) ++ requests (trace demoTypesSecond))).
  - apply demoTypesFresh_capped.
  - apply demoTypes_session.
Defined.

(** C2 as it is written fails on a second texture type: in the session on
    [demoTypesManifest], started with every mark at [-1], the second pass
    takes the mark of the 'normal' target "low", which has 150 frames, to
    210, the bound being [frameCount - 1] of the 'baseColor' target "low". *)
Lemma texture_mark_passes_own_frameCount :
  session between demoTypesFresh
    (requests (trace demoTypesFirst) ++ requests (trace demoTypesSecond))
    (state demoTypesSecond) /\
  mark demoTypesFresh (TextureStream "normal" "low") = Some (-1) /\
  (exists t', trackData (state demoTypesSecond) = Some t' /\
     streamData (manifest t') (TextureStream "normal" "low")
     = Some {| frameRate := 30; frameCount := 150 |}) /\
  mark (state demoTypesSecond) (TextureStream "normal" "low") = Some 210 /\
  150 - 1 < 210.
Proof.
  split; [apply demoTypes_session|].
  split; [by vm_compute|].
  split; [eexists; split; by vm_compute|].
  split; [by vm_compute|lia].
Qed.

(** C3. In a track session whose presentation time does not go back, started
    from a new session (marks at [-1], time not negative) over streams with
    non-negative frame rates, every stream satisfies
    [lastRequestedFrame - currentFrame <= bufferDuration * frameRate] at every
    point, in particular at the end of every scheduling pass, with
    [currentFrame] the playhead frame computed from the time of that point. *)
Theorem leaky_bucket_bound (p p' : Player) (reqs : list (Stream * Z)) :
  fresh p -> rates_nonneg p ->
  session advance p reqs p' ->
  forall t' tm' s td m',
    trackData p' = Some t' -> timeData p' = Some tm' ->
    streamData (manifest t') s = Some td -> mark p' s = Some m' ->
    m' - Math_round (currentTime tm' * inject_Z (frameRate td))
      <= bufferDuration p' * frameRate td.
Proof.
  intros Hf Hr Hs t' tm' s td m' Ht' Htm' Htd Hm'.
  destruct (session_bucket p reqs p' Hs Hr (fresh_bucket_ok p Hf Hr)) as [_ Hb].
  rewrite (mark_trackMark _ _ s Ht') in Hm'. by eapply Hb.
Qed.

Lemma leaky_bucket_bound_witness :
  exists m tm,
    mark (state demoSecond) (GeometryStream "g") = Some m /\
    timeData (state demoSecond) = Some tm /\
    m - Math_round (currentTime tm * inject_Z 30) <= bufferDuration (state demoSecond) * 30.
Proof.
  assert (exists t, trackData (state demoSecond) = Some t /\
            streamData (manifest t) (GeometryStream "g")
            = Some {| frameRate := 30; frameCount := 300 |}) as (t & Ht & Htd)
    by (eexists; split; vm_compute; reflexivity).
  assert (exists tm, timeData (state demoSecond) = Some tm) as [tm Htm]
    by (eexists; vm_compute; reflexivity).
  assert (exists m, mark (state demoSecond) (GeometryStream "g") = Some m) as [m Hm]
    by (eexists; vm_compute; reflexivity).
  exists m, tm. split; [exact Hm|]. split; [exact Htm|].
  exact (leaky_bucket_bound demoFresh (state demoSecond)
           (requests (trace demoFirst) ++ requests (trace demoSecond))
           demoFresh_fresh demoFresh_rates demo_session
           t tm (GeometryStream "g") {| frameRate := 30; frameCount := 300 |} m
           Ht Htm Htd Hm).
Defined.

(** C4. In a track session no frame number is requested twice on the same
    stream: the decode requests issued by all scheduling passes, in and across
    passes, are pairwise distinct (stream, frame) pairs.  The environment of
    the passes includes decodes that resolve late, in any order or never: the
    mark moves when the request is issued. *)
Theorem no_duplicate_requests (p p' : Player) (reqs : list (Stream * Z)) :
  session between p reqs p' -> NoDup reqs.
Proof.
  intros Hs. by destruct (session_requests_below between p reqs p' (fun _ _ H => H) Hs).
Qed.

Lemma no_duplicate_requests_witness :
  NoDup (requests (trace demoFirst) ++ requests (trace demoSecond)).
Proof.
  apply (no_duplicate_requests demoFresh (state demoSecond)).
  apply (session_weaken advance between); [by intros a b []|apply demo_session].
Defined.
(** ** The first scheduling pass *)

Lemma geometryRequests_app e1 e2 :
  geometryRequests (e1 ++ e2) = geometryRequests e1 ++ geometryRequests e2.
Proof. apply omap_app. Qed.

Lemma geometryRequests_fetchGeometry g (l : list Z) :
  geometryRequests (EFetchGeometry g <$> l) = pair g <$> l.
Proof.
  induction l as [|x l IH]; [done|]. unfold geometryRequests in *. simpl.
  f_equal. exact IH.
Qed.

Lemma geometryRequests_fetchTexture ty tag target (l : list Z) :
  geometryRequests (EFetchTexture ty tag target <$> l) = [].
Proof. induction l as [|x l IH]; [done|]. unfold geometryRequests in *. simpl. exact IH. Qed.

#[global] Instance geometry_untouched_TraceRel g : TraceRel (geometry_untouched g).
Proof.
  split.
  - by intros s.
  - intros s e1 s1 e2 s2 (H1 & H2 & H3) (H4 & H5 & H6). repeat split.
    + congruence.
    + congruence.
    + by rewrite geometryRequests_app, H3, H6.
Qed.

Lemma reads_getTrack_bind {A} (p : Player) (f : TrackData -> option A) :
  reads (bind getTrack (fun t => deref (f t))) p (fun _ => True).
Proof.
  destruct (trackData p) as [t|] eqn:Ht.
  - destruct (reads_deref (f t) p) as (c & Hc & _).
    exists c. by rewrite (run_bind_getTrack _ _ _ Ht).
  - exists TypeError. by rewrite run_bind_getTrack_None.
Qed.

Lemma requestTexture_untouched g tTarget ctf tfps i ty :
  keeps anywhere (geometry_untouched g) (requestTexture tTarget ctf tfps i ty).
Proof.
  intros s _. unfold requestTexture.
  destruct (tTarget !! ty) as [target|]; js_run; [|apply rel_refl].
  destruct (trackData s) as [ts|] eqn:Hts.
  2: { rewrite run_bind_getTrack_None by done. apply rel_refl. }
  js_run.
  destruct (ctf !! ty) as [cf|]; js_run; [|apply rel_refl].
  destruct (tfps !! ty) as [fps|]; js_run; [|apply rel_refl].
  destruct (reads_getTrack_bind s (fun t => currentTextureTarget t !! ty ≫= fun target =>
              utils_TextureFrameCount (manifest t) ty target)) as ([fc|] & Hc & _);
    fold (TextureFrameCount ty) in Hc.
  2: { rewrite (run_bind_pure_throw _ _ _ Hc). apply rel_refl. }
  rewrite (run_bind_pure _ _ _ _ Hc).
  destruct (lastRequestedTextureFrame ts !! ty) as [marks|]; js_run; [|apply rel_refl].
  destruct (marks !! target) as [last|]; [|apply rel_refl].
  destruct (negb _ && _); [|apply rel_refl].
  js_run. rewrite forEach_emit_map. unfold state, trace. simpl.
  repeat split.
  - unfold scrub. simpl. by rewrite Hts.
  - unfold mark. simpl. by rewrite Hts.
  - apply geometryRequests_fetchTexture.
Qed.

(** The geometry half of one iteration, exactly. *)
Lemma requestGeometry_exact g cgf gfps i s ts td last :
  trackData s = Some ts -> currentGeometryTarget ts = Some g ->
  geometry (manifest ts) !! g = Some td ->
  mark s (GeometryStream g) = Some last ->
  completion (requestGeometry g cgf gfps i s) = Normal tt /\
  scrub (state (requestGeometry g cgf gfps i s)) = scrub s /\
  (mark (state (requestGeometry g cgf gfps i s)) (GeometryStream g),
   geometryRequests (trace (requestGeometry g cgf gfps i s)))
  = (let geometryRequestEnd := Z.min (cgf + (i + 1) * gfps) (frameCount td - 1) in
     if negb (last =? frameCount td - 1) && (last <? geometryRequestEnd)
     then (Some geometryRequestEnd, pair g <$> seqZ (last + 1) (geometryRequestEnd - last))
     else (Some last, [])).
Proof.
  intros Hts Hg Htd Hlast. pose proof Hlast as Hmark.
  unfold mark in Hlast. rewrite Hts in Hlast. simpl in Hlast.
  unfold requestGeometry.
  rewrite (run_bind_pure _ _ _ _ (run_GeometryFrameCount _ _ _ _ Hts Hg Htd)).
  js_run. rewrite Hlast. cbv zeta.
  destruct (negb _ && _).
  - js_run. rewrite forEach_emit_map. unfold completion, state, trace. simpl.
    repeat split.
    + unfold scrub. simpl. by rewrite Hts.
    + rewrite geometryRequests_fetchGeometry. unfold mark. simpl.
      by rewrite lookup_insert_eq.
  - unfold completion, state, trace, ret. simpl. by rewrite Hmark.
Qed.

(** The lookahead loop refines [geometryPass] on the geometry stream. *)
Lemma lookahead_geometry g cgf gfps tTarget ctf tfps types indices :
  forall s ts td last,
    trackData s = Some ts -> currentGeometryTarget ts = Some g ->
    geometry (manifest ts) !! g = Some td ->
    mark s (GeometryStream g) = Some last ->
    let loop :=
      forEach indices (fun i =>
        bind (requestGeometry g cgf gfps i)
          (fun _ => forEach types (requestTexture tTarget ctf tfps i))) s in
    completion loop = Normal tt ->
    (mark (state loop) (GeometryStream g), geometryRequests (trace loop))
    = (Some (geometryPass cgf gfps (frameCount td) last indices).1,
       pair g <$> (geometryPass cgf gfps (frameCount td) last indices).2).
Proof.
  induction indices as [|i indices IH]; intros s ts td last Hts Hg Htd Hlast loop Hloop.
  - subst loop. unfold state, trace. simpl. by rewrite Hlast.
  - subst loop.
    apply forEach_inv_normal in Hloop as (Hbody & Hrest & -> & ->).
    apply bind_inv_normal in Hbody as ([] & _ & _ & Hst & Htr).
    rewrite Hst in Hrest |- *. rewrite Htr. clear Hst Htr.
    destruct (requestGeometry_exact g cgf gfps i s ts td last Hts Hg Htd Hlast)
      as (_ & Hscrub & Hexact).
    set (s1 := state (requestGeometry g cgf gfps i s)) in *.
    set (e1 := trace (requestGeometry g cgf gfps i s)) in *.
    pose proof (keeps_forEach anywhere (geometry_untouched g) types
                  (requestTexture tTarget ctf tfps i) (anywhere_stable _)
                  (fun ty _ => requestTexture_untouched g tTarget ctf tfps i ty) s1 I)
      as (Hscrub2 & Hmark2 & Hreq2).
    set (s2 := state (forEach types (requestTexture tTarget ctf tfps i) s1)) in *.
    set (e2 := trace (forEach types (requestTexture tTarget ctf tfps i) s1)) in *.
    assert (Hs2 : scrub s2 = scrub s) by congruence.
    destruct (scrub_track _ _ _ Hs2 Hts) as (ts2 & Hts2 & Hman2 & Hcg2 & _).
    rewrite <- Hman2 in Htd. rewrite <- Hcg2 in Hg.
    simpl geometryPass. cbv zeta in Hexact.
    destruct (negb _ && _) eqn:Hc; injection Hexact as Hm1 He1.
    + rewrite <- Hmark2 in Hm1.
      specialize (IH s2 ts2 td _ Hts2 Hg Htd Hm1 Hrest).
      injection IH as IHm IHr.
      destruct (geometryPass _ _ _ _ indices) as [final frames]. simpl in *.
      rewrite IHm. rewrite !geometryRequests_app, He1, Hreq2, IHr.
      by rewrite fmap_app, ?app_nil_r.
    + rewrite <- Hmark2 in Hm1.
      specialize (IH s2 ts2 td _ Hts2 Hg Htd Hm1 Hrest).
      injection IH as IHm IHr.
      rewrite IHm. rewrite !geometryRequests_app, He1, Hreq2, IHr. by rewrite ?app_nil_r.
Qed.

(** On the geometry stream a scheduling pass that completes refines
    [geometryPass]. *)
Lemma fetchBuffers_geometry now callback p t tm g td last k :
  trackData p = Some t -> timeData p = Some tm ->
  currentGeometryTarget t = Some g -> geometry (manifest t) !! g = Some td ->
  lastRequestedGeometryFrame t !! g = Some last ->
  completion (fetchBuffers now callback p) = Normal k ->
  let pass :=
    geometryPass (Math_round (currentTime tm * inject_Z (frameRate td))) (frameRate td)
      (frameCount td) last (seqZ 0 (bufferDuration p)) in
  mark (state (fetchBuffers now callback p)) (GeometryStream g) = Some pass.1 /\
  geometryRequests (trace (fetchBuffers now callback p)) = pair g <$> pass.2.
Proof.
  intros Ht Htm Hg Htd Hlast. unfold fetchBuffers.
  rewrite (run_bind_getTrack _ _ _ Ht), Hg. js_run.
  rewrite (run_bind_pure _ _ _ _ (run_currentGeometryFrame _ _ _ _ _ Ht Htm Hg Htd)).
  rewrite Htd. simpl. js_run.
  destruct (reads_collect currentTextureFrame _ p (textureTypes t)
              (fun ty => reads_currentTextureFrame p ty t tm Ht Htm) ∅)
    as ([ctf|] & Hctf & _).
  { intros x v. by rewrite lookup_empty. }
  2: { by rewrite (run_bind_pure_throw _ _ _ Hctf). }
  rewrite (run_bind_pure _ _ _ _ Hctf).
  destruct (reads_collect _ _ p (textureTypes t)
              (fun ty => reads_textureFrameRate p ty t) ∅)
    as ([tfps|] & Htfps & _).
  { intros x v. by rewrite lookup_empty. }
  2: { by rewrite (run_bind_pure_throw _ _ _ Htfps). }
  rewrite (run_bind_pure _ _ _ _ Htfps). js_run.
  intros Hk.
  apply bind_inv_normal in Hk as ([] & Hloop & _).
  match goal with |- context [trace (bind ?m _ _)] =>
    destruct (bind_ret_state_trace m
      (fun _ => {| k_gTarget := g; k_oldLastGeometryFrame := lastRequestedGeometryFrame t !! g;
                   k_startTime := now; k_gFramesPerSecond := frameRate td;
                   k_callback := callback |}) p) as [-> ->]
  end.
  unfold forRange in *.
  assert (Hmark : mark p (GeometryStream g) = Some last).
  { unfold mark. by rewrite Ht. }
  pose proof (lookahead_geometry g _ (frameRate td) (currentTextureTarget t) ctf tfps
                (textureTypes t) (seqZ 0 (bufferDuration p)) p t td last
                Ht Hg Htd Hmark Hloop) as H.
  by injection H as -> ->.
Qed.
Lemma Math_round_zero (q : Q) (fr : Z) : (q == 0)%Q -> Math_round (q * inject_Z fr) = 0.
Proof.
  intros H. unfold Math_round.
  assert (Heq : (q * inject_Z fr + (1 # 2) == 1 # 2)%Q) by (rewrite H; ring).
  by rewrite (Qfloor_comp _ _ Heq).
Qed.

(** C1, as the code has it.  For a track whose geometry target has
    [frameRate = 30] and [frameCount = 300], with [bufferDuration = 4], a
    scheduling pass at [currentTime = 0] that starts from the initial mark
    [-1] and runs to completion issues geometry decode requests for exactly
    the frame numbers 0 through 120 of that target, in this order, and leaves
    the high-water mark at 120: the horizon [currentFrame + 4 * 30] is itself
    requested. *)
Theorem first_pass_requests_0_to_120 (p : Player) (t : TrackData) (tm : TimeData)
  (g : string) (td : TargetData) (now : Z) (callback : bool) (k : FetchContinuation) :
  trackData p = Some t -> timeData p = Some tm ->
  currentGeometryTarget t = Some g -> geometry (manifest t) !! g = Some td ->
  frameRate td = 30 -> frameCount td = 300 ->
  bufferDuration p = 4 -> (currentTime tm == 0)%Q ->
  lastRequestedGeometryFrame t !! g = Some (-1) ->
  completion (fetchBuffers now callback p) = Normal k ->
  geometryRequests (trace (fetchBuffers now callback p)) = pair g <$> seqZ 0 121 /\
  mark (state (fetchBuffers now callback p)) (GeometryStream g) = Some 120.
Proof.
  intros Ht Htm Hg Htd Hfr Hfc Hbd Htime Hlast Hk.
  destruct (fetchBuffers_geometry now callback p t tm g td (-1) k Ht Htm Hg Htd Hlast Hk)
    as [Hmark Hreq].
  rewrite Hfr, Hfc, Hbd, (Math_round_zero _ _ Htime) in Hmark, Hreq.
  split; [exact Hreq|exact Hmark].
Qed.

Lemma first_pass_requests_0_to_120_witness :
  geometryRequests (trace demoFirst) = pair "g" <$> seqZ 0 121 /\
  mark (state demoFirst) (GeometryStream "g") = Some 120.
Proof.
  unfold demoFirst.
  refine (first_pass_requests_0_to_120 demoFresh _ _ "g" _ 1000 true _ _ _ _ _ _ _ _ _ _ _);
    [vm_compute; reflexivity | vm_compute; reflexivity | reflexivity | reflexivity
    | reflexivity | reflexivity | reflexivity | reflexivity | reflexivity
    | vm_compute; reflexivity].
Defined.

(** C1 as stated fails: in the scenario of the claim the first scheduling
    pass of [playTrack] does not stop at frame 119: frame 120 is requested
    and the mark is 120. *)
Lemma first_pass_not_0_to_119 :
  geometryRequests (trace demoStart) <> pair "g" <$> seqZ 0 120 /\
  mark (state demoStart) (GeometryStream "g") <> Some 119 /\
  ("g", 120) ∈ geometryRequests (trace demoStart).
Proof.
  split; [|split].
  - vm_compute. discriminate.
  - vm_compute. discriminate.
  - apply (bool_decide_unpack _). vm_compute. exact I.
Qed.
(** ** Adaptive quality controller *)

Lemma indexOf_range (l : list string) x :
  -1 <= indexOf l x < Z.of_nat (length l).
Proof.
  induction l as [|y l IH]; simpl; [lia|].
  destruct (decide (y = x)); [lia|].
  destruct (indexOf l x <? 0) eqn:E; [lia|]. apply Z.ltb_ge in E. lia.
Qed.

Lemma indexOf_elem (l : list string) x : x ∈ l -> 0 <= indexOf l x.
Proof.
  induction l as [|y l IH]; simpl; [by intros ?%elem_of_nil|].
  intros H. destruct (decide (y = x)); [lia|].
  apply elem_of_cons in H as [->|H]; [done|]. specialize (IH H).
  destruct (indexOf l x <? 0) eqn:E; [apply Z.ltb_lt in E; lia|lia].
Qed.

Lemma nth_Z_indexOf (l : list string) j x :
  NoDup l -> nth_Z l j = Some x -> indexOf l x = j.
Proof.
  unfold nth_Z. destruct (j <? 0) eqn:Hj; [done|]. apply Z.ltb_ge in Hj.
  intros Hnd Hl. rewrite <- (Z2Nat.id j Hj). generalize dependent (Z.to_nat j).
  clear j Hj. induction l as [|y l IH]; intros n Hl; [done|].
  apply NoDup_cons in Hnd as [Hy Hnd]. simpl.
  destruct n as [|n]; simpl in Hl.
  - injection Hl as ->. by rewrite decide_True.
  - rewrite decide_False.
    + rewrite (IH Hnd n Hl). destruct (Z.of_nat n <? 0) eqn:E; [apply Z.ltb_lt in E|]; lia.
    + intros ->. apply Hy. by eapply list_elem_of_lookup_2.
Qed.

Lemma nth_Z_is_Some (l : list string) j :
  0 <= j < Z.of_nat (length l) -> exists x, nth_Z l j = Some x /\ x ∈ l.
Proof.
  intros Hj. unfold nth_Z. destruct (j <? 0) eqn:E; [apply Z.ltb_lt in E; lia|].
  destruct (lookup_lt_is_Some_2 l (Z.to_nat j)) as [x Hx]; [lia|].
  exists x. split; [done|]. by eapply list_elem_of_lookup_2.
Qed.

Lemma fold_left_Qplus_nonneg (l : list Q) (a : Q) :
  (0 <= a)%Q -> Forall (Qle 0) l -> (0 <= fold_left Qplus l a)%Q.
Proof.
  revert a. induction l as [|x l IH]; intros a Ha Hl; simpl; [done|].
  apply Forall_cons in Hl as [Hx Hl]. apply IH; [|done].
  change 0%Q with (0 + 0)%Q. by apply Qplus_le_compat.
Qed.

Lemma mean_nonneg (l : list Q) : Forall (Qle 0) l -> (0 <= mean l)%Q.
Proof.
  intros Hl. unfold mean. destruct l as [|x l]; [by vm_compute|].
  apply Qle_shift_div_l.
  - change 0%Q with (inject_Z 0). rewrite <- Zlt_Qlt. simpl. lia.
  - rewrite Qmult_0_l. by apply fold_left_Qplus_nonneg.
Qed.

Lemma Qle_bool_false (x y : Q) : Qle_bool x y = false -> (y < x)%Q.
Proof. intros H. apply Qnot_le_lt. intros H'%Qle_bool_iff. congruence. Qed.

(** The controller in closed form, for a window of at least 3 samples. *)
Lemma adjustTextureTarget_result (p : Player) (t : TrackData) (targets : list string)
  (current : string) :
  trackData p = Some t ->
  textureTargets t !! "baseColor" = Some targets ->
  currentTextureTarget t !! "baseColor" = Some current ->
  (3 <= length (stats t))%nat ->
  let i := indexOf targets current in
  let n := Z.of_nat (length targets) in
  let mu := mean (stats t) in
  let moved c :=
    with_trackData
      (Some (set_stats []
               (set_currentTextureTarget
                  (assign "baseColor" c (currentTextureTarget t)) t))) p in
  let stay := with_trackData (Some (set_stats [] t)) p in
  adjustTextureTarget p
  = (Normal tt,
     (if Qle_bool 0 mu && Qle_bool mu (3 # 10) then
        if i <? n - 1 then moved (nth_Z targets (i + 1)) else stay
      else if Qle_bool (3 # 10) mu && Qle_bool mu (6 # 10) then stay
      else if 0 <? i then moved (nth_Z targets (i - 1)) else stay),
     []).
Proof.
  intros Ht Htargets Hcur Hlen i n mu moved stay.
  unfold adjustTextureTarget. rewrite (run_bind_getTrack _ _ _ Ht).
  destruct (Z.of_nat (length (stats t)) <? 3) eqn:Hl; [apply Z.ltb_lt in Hl; lia|].
  cbv zeta. fold mu.
  assert (Hmove : forall c : option string,
    bind (modifyTrack (fun t0 =>
            set_currentTextureTarget
              (assign "baseColor" c (currentTextureTarget t0)) t0))
      (fun _ => modifyTrack (set_stats [])) p = (Normal tt, moved c, [])).
  { intros c. erewrite run_bind_modifyTrack by eassumption.
    by erewrite run_modifyTrack. }
  assert (Hstay :
    bind (ret tt) (fun _ => modifyTrack (set_stats [])) p = (Normal tt, stay, [])).
  { rewrite run_bind_ret. by erewrite run_modifyTrack. }
  destruct (Qle_bool 0 mu && Qle_bool mu (3 # 10)).
  - rewrite run_bind_assoc, Htargets, run_bind_deref_Some.
    rewrite Hcur. simpl indexOf_current. fold i n.
    destruct (i <? n - 1); [apply Hmove|apply Hstay].
  - destruct (Qle_bool (3 # 10) mu && Qle_bool mu (6 # 10)); [apply Hstay|].
    rewrite run_bind_assoc, Htargets, run_bind_deref_Some.
    rewrite Hcur. simpl indexOf_current. fold i.
    destruct (0 <? i); [apply Hmove|apply Hstay].
Qed.

(** C5. The controller acts only when the window holds at least 3 samples;
    it then empties the window, and with [mu] the arithmetic mean of the
    samples, their sum divided by their number, the index of the active
    'baseColor' target in the target list goes up by one when
    [0 <= mu <= 0.3] unless it is the last, stays when [0.3 < mu <= 0.6],
    and goes down by one when [mu > 0.6] or [mu < 0] unless it is 0; it
    never moves by more than one.  The samples may have any sign. *)
Theorem adjustTextureTarget_one_step (p : Player) (t : TrackData)
  (targets : list string) (current : string) :
  trackData p = Some t ->
  textureTargets t !! "baseColor" = Some targets -> NoDup targets ->
  currentTextureTarget t !! "baseColor" = Some current -> current ∈ targets ->
  let r := adjustTextureTarget p in
  let i := indexOf targets current in
  let n := Z.of_nat (length targets) in
  let sum := fold_left Qplus (stats t) 0%Q in
  let mu := (sum / inject_Z (Z.of_nat (length (stats t))))%Q in
  completion r = Normal tt /\
  ((length (stats t) < 3)%nat -> state r = p) /\
  ((3 <= length (stats t))%nat ->
   exists t' current',
     trackData (state r) = Some t' /\ stats t' = [] /\
     currentTextureTarget t' !! "baseColor" = Some current' /\ current' ∈ targets /\
     let i' := indexOf targets current' in
     ((0 <= mu)%Q /\ (mu <= 3 # 10)%Q -> i' = if i <? n - 1 then i + 1 else i) /\
     ((3 # 10 < mu)%Q /\ (mu <= 6 # 10)%Q -> i' = i) /\
     ((mu < 0)%Q \/ (6 # 10 < mu)%Q -> i' = if 0 <? i then i - 1 else i) /\
     -1 <= i' - i <= 1).
Proof.
  intros Ht Htargets Hnd Hcur Hin r i n sum mu. subst r.
  pose proof (indexOf_range targets current) as Hrange.
  pose proof (indexOf_elem targets current Hin) as Hpos. fold i n in Hrange, Hpos.
  destruct (Nat.lt_ge_cases (length (stats t)) 3) as [Hlen|Hlen].
  { unfold adjustTextureTarget. rewrite (run_bind_getTrack _ _ _ Ht).
    destruct (Z.of_nat (length (stats t)) <? 3) eqn:Hl; [|apply Z.ltb_ge in Hl; lia].
    unfold completion, state, ret. simpl. split; [done|]. split; [done|]. lia. }
  rewrite (adjustTextureTarget_result p t targets current Ht Htargets Hcur Hlen).
  fold i n. change (mean (stats t)) with mu.
  unfold completion, state. cbn [fst snd].
  split; [done|]. split; [lia|]. intros _.
  assert (Hstay : forall P : Z -> Prop, P i ->
    exists t' current',
      trackData (with_trackData (Some (set_stats [] t)) p) = Some t' /\ stats t' = [] /\
      currentTextureTarget t' !! "baseColor" = Some current' /\ current' ∈ targets /\
      P (indexOf targets current')).
  { intros P HP. exists (set_stats [] t), current. by split_and!. }
  assert (Hmoved : forall (P : Z -> Prop) j, 0 <= j < n -> P j ->
    exists t' current',
      trackData (with_trackData
        (Some (set_stats []
                 (set_currentTextureTarget
                    (assign "baseColor" (nth_Z targets j) (currentTextureTarget t)) t))) p)
      = Some t' /\ stats t' = [] /\
      currentTextureTarget t' !! "baseColor" = Some current' /\ current' ∈ targets /\
      P (indexOf targets current')).
  { intros P j Hj HP. destruct (nth_Z_is_Some targets j Hj) as (c & Hc & Hcin).
    rewrite Hc. eexists _, c. split_and!; [done|done| |done|].
    - cbn [currentTextureTarget set_stats set_currentTextureTarget assign].
      apply lookup_insert_eq.
    - by rewrite (nth_Z_indexOf _ _ _ Hnd Hc). }
  set (P := fun i' : Z =>
    ((0 <= mu)%Q /\ (mu <= 3 # 10)%Q -> i' = if i <? n - 1 then i + 1 else i) /\
    ((3 # 10 < mu)%Q /\ (mu <= 6 # 10)%Q -> i' = i) /\
    ((mu < 0)%Q \/ (6 # 10 < mu)%Q -> i' = if 0 <? i then i - 1 else i) /\
    -1 <= i' - i <= 1).
  assert (Hleaf : forall j : Z,
    -1 <= j - i <= 1 ->
    ((0 <= mu)%Q /\ (mu <= 3 # 10)%Q -> j = if i <? n - 1 then i + 1 else i) ->
    ((3 # 10 < mu)%Q /\ (mu <= 6 # 10)%Q -> j = i) ->
    ((mu < 0)%Q \/ (6 # 10 < mu)%Q -> j = if 0 <? i then i - 1 else i) ->
    P j).
  { intros j H1 H2 H3 H4. unfold P. split_and!; [done|done|done|lia|lia]. }
  destruct (Qle_bool 0 mu && Qle_bool mu (3 # 10)) eqn:G1.
  - apply andb_true_iff in G1 as [G0%Qle_bool_iff G3%Qle_bool_iff].
    destruct (Z.ltb_spec i (n - 1)) as [Hi|Hi].
    + apply (Hmoved P); [lia|]. apply Hleaf; [lia| | |].
      * intros _. destruct (Z.ltb_spec i (n - 1)); lia.
      * intros [? ?]. exfalso. lra.
      * intros [?|?]; exfalso; lra.
    + apply (Hstay P). apply Hleaf; [lia| | |].
      * intros _. destruct (Z.ltb_spec i (n - 1)); lia.
      * done.
      * intros [?|?]; exfalso; lra.
  - assert ((mu < 0)%Q \/ (3 # 10 < mu)%Q) as G1'.
    { apply andb_false_iff in G1 as [G|G]; apply Qle_bool_false in G; auto. }
    destruct (Qle_bool (3 # 10) mu && Qle_bool mu (6 # 10)) eqn:G2.
    + apply andb_true_iff in G2 as [G3%Qle_bool_iff G6%Qle_bool_iff].
      apply (Hstay P). apply Hleaf; [lia| | |].
      * intros [? ?]. exfalso. destruct G1'; lra.
      * done.
      * intros [?|?]; exfalso; lra.
    + assert ((mu < 0)%Q \/ (6 # 10 < mu)%Q) as G2'.
      { apply andb_false_iff in G2 as [G|G]; apply Qle_bool_false in G;
          destruct G1'; auto; exfalso; lra. }
      destruct (Z.ltb_spec 0 i) as [Hi|Hi].
      * apply (Hmoved P); [lia|]. apply Hleaf; [lia| | |].
        -- intros [? ?]. exfalso. destruct G2'; lra.
        -- intros [? ?]. exfalso. destruct G2'; lra.
        -- intros _. destruct (Z.ltb_spec 0 i); lia.
      * apply (Hstay P). apply Hleaf; [lia| | |].
        -- intros [? ?]. exfalso. destruct G2'; lra.
        -- done.
        -- intros _. destruct (Z.ltb_spec 0 i); lia.
Qed.

(** ** Stores *)

Section JsMapFacts.
Context {K V : Type} `{EqDecision K}.
Implicit Types (m : list (K * V)) (k : K).

Lemma get_delete_eq m k : JsMap.get k (JsMap.delete k m) = None.
Proof.
  induction m as [|[k' v] m IH]; [done|]. simpl.
  destruct (decide (k = k')) as [->|Hne]; [done|]. simpl. by rewrite decide_False.
Qed.

Lemma get_delete_ne m k k' : k <> k' -> JsMap.get k (JsMap.delete k' m) = JsMap.get k m.
Proof.
  intros Hne. induction m as [|[k0 v] m IH]; [done|]. simpl.
  destruct (decide (k' = k0)) as [->|Hne'].
  - by rewrite decide_False.
  - simpl. by rewrite IH.
Qed.

Lemma get_set_eq m k v : JsMap.get k (JsMap.set k v m) = Some v.
Proof.
  induction m as [|[k' v'] m IH]; simpl.
  - by rewrite decide_True.
  - destruct (decide (k = k')) as [->|Hne]; simpl.
    + by rewrite decide_True.
    + by rewrite decide_False.
Qed.

Lemma get_set_ne m k k' v : k <> k' -> JsMap.get k (JsMap.set k' v m) = JsMap.get k m.
Proof.
  intros Hne. induction m as [|[k0 v0] m IH]; simpl.
  - by rewrite decide_False.
  - destruct (decide (k' = k0)) as [->|Hne']; simpl.
    + by rewrite !decide_False.
    + by rewrite IH.
Qed.

End JsMapFacts.

(** ** Presentation tick: the fallback search *)

Lemma fallbackSearch_found m time store l1 x l2 tex :
  (forall y, y ∈ l1 -> is_Some (calculateTextureFrame m "baseColor" y time)) ->
  (forall y, y ∈ l1 -> defaultTexture m time store y = None) ->
  defaultTexture m time store x = Some tex ->
  fallbackSearch m time store (l1 ++ x :: l2) = Normal (Some tex).
Proof.
  intros Hdef Hnone Hx. induction l1 as [|y l1 IH]; simpl.
  - unfold defaultTexture in Hx.
    destruct (calculateTextureFrame m "baseColor" x time) as [f|]; [|done].
    simpl in Hx. by rewrite Hx.
  - destruct (Hdef y) as [f Hf]; [by left|].
    pose proof (Hnone y (ltac:(by left))) as Hy. unfold defaultTexture in Hy.
    rewrite Hf in Hy |- *. simpl in Hy. rewrite Hy.
    apply IH; intros z Hz; [apply Hdef|apply Hnone]; by right.
Qed.

Lemma fallbackSearch_none m time store l :
  (forall y, y ∈ l -> is_Some (calculateTextureFrame m "baseColor" y time)) ->
  (forall y, y ∈ l -> defaultTexture m time store y = None) ->
  fallbackSearch m time store l = Normal None.
Proof.
  intros Hdef Hnone. induction l as [|y l IH]; simpl; [done|].
  destruct (Hdef y) as [f Hf]; [by left|].
  pose proof (Hnone y (ltac:(by left))) as Hy. unfold defaultTexture in Hy.
  rewrite Hf in Hy |- *. simpl in Hy. rewrite Hy.
  apply IH; intros z Hz; [apply Hdef|apply Hnone]; by right.
Qed.

(** Evicting the frame before the one of the active texture stream does not
    change what the fallback search sees. *)
Lemma defaultTexture_evicted m time store store' tag target td y :
  streamData m (TextureStream "baseColor" target) = Some td ->
  (forall k, k <> ("baseColor", tag, target, Math_round (time * inject_Z (frameRate td)) - 1) ->
     JsMap.get k store' = JsMap.get k store) ->
  defaultTexture m time store' y = defaultTexture m time store y.
Proof.
  intros Htd Hget. unfold defaultTexture.
  destruct (calculateTextureFrame m "baseColor" y time) as [f|] eqn:Hf; [|done]. simpl.
  apply Hget. intros [= <- -> Hfr].
  unfold calculateTextureFrame in Hf. simpl in Htd.
  destruct (texture m !! "baseColor") as [targets|]; [|done]. simpl in *.
  rewrite Htd in Hf. simpl in Hf. injection Hf as <-. lia.
Qed.

Lemma run_removePlayedGeometryBuffer key s :
  exists evs s',
    removePlayedGeometryBuffer key s = (Normal tt, s', evs) /\
    Forall is_eviction evs /\
    trackData s' = trackData s /\ timeData s' = timeData s /\
    textureMap s' = textureMap s /\
    JsMap.get key (meshMap s') = None /\
    (forall k, k <> key -> JsMap.get k (meshMap s') = JsMap.get k (meshMap s)).
Proof.
  unfold removePlayedGeometryBuffer. rewrite run_bind_get.
  destruct (JsMap.get key (meshMap s)) as [b|] eqn:Hb.
  - js_run. unfold modify. simpl. eexists _, _. split; [done|].
    repeat split; simpl.
    + by repeat constructor.
    + apply get_delete_eq.
    + intros k Hk. by apply get_delete_ne.
  - exists [], s. by repeat split.
Qed.

Lemma run_removePlayedTextureBuffer key s :
  exists evs s',
    removePlayedTextureBuffer key s = (Normal tt, s', evs) /\
    Forall is_eviction evs /\
    trackData s' = trackData s /\ timeData s' = timeData s /\
    meshMap s' = meshMap s /\
    JsMap.get key (textureMap s') = None /\
    (forall k, k <> key -> JsMap.get k (textureMap s') = JsMap.get k (textureMap s)).
Proof.
  unfold removePlayedTextureBuffer. rewrite run_bind_get.
  destruct (JsMap.get key (textureMap s)) as [b|] eqn:Hb.
  - js_run. unfold modify. simpl. eexists _, _. split; [done|].
    repeat split; simpl.
    + by repeat constructor.
    + apply get_delete_eq.
    + intros k Hk. by apply get_delete_ne.
  - exists [], s. by repeat split.
Qed.

(** The clock update of [processFrame]. *)
Lemma run_processFrame_clock {B} (f : unit -> Js Player B) p t tm now :
  trackData p = Some t -> timeData p = Some tm ->
  bind (if hasAudio t then modifyTime (set_currentTime (media_currentTime (audio p)))
        else bind getTime (fun tm =>
               modifyTime (set_currentTime
                 (inject_Z (now - startTime tm - totalPausedDuration tm) / 1000)%Q))) f p
  = f tt (with_timeData (Some (set_currentTime (presentationTime p t tm now) tm)) p).
Proof.
  intros Ht Htm. unfold presentationTime. destruct (hasAudio t).
  - by erewrite run_bind_modifyTime.
  - rewrite run_bind_assoc. erewrite run_bind_getTime by done.
    by erewrite run_bind_modifyTime.
Qed.

(** C6. On a presentation tick that plays (not paused, not ended, playhead
    before the last frame) with the geometry frame of the playhead in the
    store and no texture stored for the active (type, tag, target) at the
    current texture frame, [processFrame] shows that geometry and searches
    the 'baseColor' targets in list order under the tag ['default'], each at
    the frame number computed from its own frame rate: the first texture
    found is shown; the failure material is applied only when no target has
    one.  Before that the tick makes eviction calls only. *)
Theorem processFrame_fallback (p : Player) (t : TrackData) (tm : TimeData) (now : Z)
  (g target : string) (gd td : TargetData) (mesh : BufferGeometry)
  (targets : list string) :
  let time := presentationTime p t tm now in
  let gFrame := Math_round (time * inject_Z (frameRate gd)) in
  let tFrame := Math_round (time * inject_Z (frameRate td)) in
  let tag := currentTextureTag t !! "baseColor" in
  trackData p = Some t -> timeData p = Some tm ->
  paused p = false -> hasAudio t && media_ended (audio p) = false ->
  currentGeometryTarget t = Some g -> geometry (manifest t) !! g = Some gd ->
  currentTextureTarget t !! "baseColor" = Some target ->
  streamData (manifest t) (TextureStream "baseColor" target) = Some td ->
  gFrame < frameCount gd - 1 ->
  JsMap.get (g, gFrame) (meshMap p) = Some mesh ->
  JsMap.get ("baseColor", tag, target, tFrame) (textureMap p) = None ->
  textureTargets t !! "baseColor" = Some targets ->
  (forall y, y ∈ targets -> is_Some (calculateTextureFrame (manifest t) "baseColor" y time)) ->
  exists evicted,
    Forall is_eviction evicted /\
    (forall l1 x l2 texture,
       targets = l1 ++ x :: l2 ->
       (forall y, y ∈ l1 -> defaultTexture (manifest t) time (textureMap p) y = None) ->
       defaultTexture (manifest t) time (textureMap p) x = Some texture ->
       processFrame now p
       = (Normal tt, state (processFrame now p),
          evicted ++ [EUpdateGeometry mesh; EUpdateTexture texture; EOnFrameShow gFrame])) /\
    ((forall y, y ∈ targets -> defaultTexture (manifest t) time (textureMap p) y = None) ->
     processFrame now p
     = (Normal tt, state (processFrame now p),
        evicted ++ [EUpdateGeometry mesh; EFailMaterial; EOnFrameShow gFrame])).
Proof.
  intros time gFrame tFrame tag Ht Htm Hpaused Hended Hg Hgd Htarget Htd Hlast
    Hgeo Htex Htargets Hdef.
  unfold processFrame. rewrite run_bind_get, Hpaused. cbv beta iota.
  rewrite (run_bind_getTrack _ _ _ Ht), Hended. cbv beta iota.
  rewrite (run_processFrame_clock _ p t tm now Ht Htm). fold time.
  set (p1 := with_timeData _ p).
  assert (Ht1 : trackData p1 = Some t) by done.
  assert (Htm1 : timeData p1 = Some (set_currentTime time tm)) by done.
  rewrite (run_bind_pure _ _ _ _ (run_currentGeometryFrame _ _ _ _ _ Ht1 Htm1 Hg Hgd)).
  rewrite (run_bind_pure _ _ _ _ (run_currentTextureFrame _ _ _ _ _ _ Ht1 Htm1 Htarget Htd)).
  simpl currentTime. fold gFrame tFrame.
  rewrite Htarget, run_bind_deref_Some, Hg, run_bind_deref_Some. fold tag.
  destruct (run_removePlayedGeometryBuffer (g, gFrame - 1) p1)
    as (ev1 & p2 & Hrun1 & Hev1 & Ht2 & Htm2 & Htex2 & _ & Hmesh2).
  destruct (run_removePlayedTextureBuffer ("baseColor", tag, target, tFrame - 1) p2)
    as (ev2 & p3 & Hrun2 & Hev2 & Ht3 & Htm3 & Hmesh3 & _ & Htex3).
  rewrite (bind_normal _ _ _ _ _ _ Hrun1), (bind_normal _ _ _ _ _ _ Hrun2).
  rewrite Ht1 in Ht2. rewrite Ht2 in Ht3. rewrite Htm1 in Htm2. rewrite Htm2 in Htm3.
  rewrite (run_bind_pure _ _ _ _ (run_GeometryFrameCount _ _ _ _ Ht3 Hg Hgd)).
  replace (frameCount gd - 1 <=? gFrame) with false by (symmetry; apply Z.leb_gt; lia).
  rewrite run_bind_get.
  assert (Hgeo3 : JsMap.get (g, gFrame) (meshMap p3) = Some mesh).
  { rewrite Hmesh3, Hmesh2; [done|]. intros [= H]. lia. }
  assert (Htex3' : JsMap.get ("baseColor", tag, target, tFrame) (textureMap p3) = None).
  { rewrite Htex3, Htex2; [done|]. intros [= H]. lia. }
  rewrite Hgeo3, Htex3'. rewrite run_bind_emit, Htargets, run_bind_deref_Some.
  rewrite (run_bind_getTime _ _ _ Htm3). simpl currentTime.
  assert (Hsame : forall y,
    defaultTexture (manifest t) time (textureMap p3) y
    = defaultTexture (manifest t) time (textureMap p) y).
  { intros y. apply (defaultTexture_evicted _ _ _ _ tag target td y Htd).
    intros k Hk. by rewrite Htex3, Htex2. }
  exists (ev1 ++ ev2). split; [by apply Forall_app|]. split.
  - intros l1 x l2 texture -> Hnone Hx.
    rewrite (fallbackSearch_found (manifest t) time (textureMap p3) l1 x l2 texture).
    + rewrite run_bind_complete_Normal. unfold completion, state, trace, emit, bind. simpl.
      by rewrite <- app_assoc.
    + intros y Hy. apply Hdef. apply elem_of_app. by left.
    + intros y Hy. rewrite Hsame. by apply Hnone.
    + by rewrite Hsame.
  - intros Hnone.
    rewrite (fallbackSearch_none (manifest t) time (textureMap p3) targets).
    + rewrite run_bind_complete_Normal. unfold completion, state, trace, emit, bind. simpl.
      by rewrite <- app_assoc.
    + done.
    + intros y Hy. rewrite Hsame. by apply Hnone.
Qed.
(** ** Playback clock *)

Lemma state_run {S A} (c : Completion A) (s : S) (e : list Event) : state (c, s, e) = s.
Proof. done. Qed.

#[global] Instance time_kept_TraceRel : TraceRel time_kept.
Proof.
  split.
  - by intros s.
  - unfold time_kept. intros s e1 s1 e2 s2 H1 H2. congruence.
Qed.

Ltac time_side :=
  unfold time_kept; simpl;
  repeat match goal with H : timeData _ = Some _ |- _ => rewrite H; clear H end;
  reflexivity.

Lemma time_kept_dispose b : keeps anywhere time_kept (dispose b).
Proof. unfold dispose. keeps_steps time_side. Qed.

(** What [processFrame] does after its clock update keeps the time. *)
Lemma processFrame_time now p t tm :
  trackData p = Some t -> timeData p = Some tm ->
  paused p = false -> hasAudio t && media_ended (audio p) = false ->
  currentTime <$> timeData (state (processFrame now p))
  = Some (presentationTime p t tm now).
Proof.
  intros Ht Htm Hpaused Hended.
  unfold processFrame. rewrite run_bind_get, Hpaused. cbv beta iota.
  rewrite (run_bind_getTrack _ _ _ Ht), Hended. cbv beta iota.
  rewrite (run_processFrame_clock _ p t tm now Ht Htm).
  set (p1 := with_timeData _ p).
  assert (H1 : currentTime <$> timeData p1 = Some (presentationTime p t tm now)) by done.
  rewrite <- H1. clearbody p1.
  match goal with |- _ <$> timeData (state (?m p1)) = _ =>
    assert (Hk : keeps anywhere time_kept m); [|exact (Hk p1 I)]
  end.
  keeps_steps time_side.
Qed.

Lemma run_startVideo_clock now p t tm :
  trackData p = Some t -> hasAudio t = false -> timeData p = Some tm ->
  startVideo now p
  = (Normal tt,
     with_timeData (Some (set_isClockPaused false (set_startTime now tm))) p, []).
Proof.
  intros Ht Ha Htm. unfold startVideo.
  rewrite (run_bind_getTrack _ _ _ Ht), Ha.
  erewrite run_bind_modifyTime by done. by erewrite run_modifyTime.
Qed.

Lemma run_pause_clock now p t tm :
  trackData p = Some t -> hasAudio t = false -> timeData p = Some tm ->
  pause now p
  = (Normal tt,
     with_timeData (Some (set_pausedTime now (set_isClockPaused true tm))) p, []).
Proof.
  intros Ht Ha Htm. unfold pause.
  rewrite (run_bind_getTrack _ _ _ Ht), Ha.
  erewrite run_bind_modifyTime by done. by erewrite run_modifyTime.
Qed.

Lemma run_play_clock now p t tm :
  trackData p = Some t -> hasAudio t = false -> timeData p = Some tm ->
  isClockPaused tm = true ->
  play now p
  = (Normal tt,
     with_timeData
       (Some (set_isClockPaused false
                (set_totalPausedDuration (totalPausedDuration tm + (now - pausedTime tm)) tm)))
       p, []).
Proof.
  intros Ht Ha Htm Hp. unfold play.
  rewrite (run_bind_getTrack _ _ _ Ht), Ha.
  rewrite (run_bind_getTime _ _ _ Htm), Hp.
  erewrite run_bind_modifyTime by done. by erewrite run_modifyTime.
Qed.

Lemma run_play_running now p t tm :
  trackData p = Some t -> hasAudio t = false -> timeData p = Some tm ->
  isClockPaused tm = false ->
  play now p = (Normal tt, p, []).
Proof.
  intros Ht Ha Htm Hp. unfold play.
  by rewrite (run_bind_getTrack _ _ _ Ht), Ha, (run_bind_getTime _ _ _ Htm), Hp.
Qed.


(** ** Paused getter *)

(** Teardown keeps the session: [dispose] empties the stores only. *)
Lemma dispose_keeps_session b p :
  trackData (state (dispose b p)) = trackData p /\
  timeData (state (dispose b p)) = timeData p.
Proof.
  assert (TraceRel (fun (s : Player) (_ : list Event) s' =>
            trackData s' = trackData s /\ timeData s' = timeData s)) as HR.
  { split; [done|]. intros s e1 s1 e2 s2 [] []. split; congruence. }
  assert (keeps anywhere (fun (s : Player) (_ : list Event) s' =>
            trackData s' = trackData s /\ timeData s' = timeData s) (dispose b)) as Hk.
  { unfold dispose. keeps_steps ltac:(by split). }
  exact (Hk p I).
Qed.

Lemma dispose_keeps_audio b p : audio (state (dispose b p)) = audio p.
Proof.
  assert (TraceRel (fun (s : Player) (_ : list Event) s' => audio s' = audio s)) as HR.
  { split; [done|]. intros s e1 s1 e2 s2 H1 H2. congruence. }
  assert (keeps anywhere (fun (s : Player) (_ : list Event) s' => audio s' = audio s)
            (dispose b)) as Hk.
  { unfold dispose. keeps_steps ltac:(done). }
  exact (Hk p I).
Qed.

(** C10. The [paused] getter answers [true] whenever the track session or
    the time state is missing, whatever the rest of the player holds, as on
    a new player; with both present it answers the [paused] attribute of the
    media element in audio mode and the clock-paused flag otherwise.
    Teardown does not end the session: after [dispose] the getter answers
    what it answered before. *)
Theorem paused_getter (p : Player) :
  (trackData p = None \/ timeData p = None -> paused p = true) /\
  (forall t tm, trackData p = Some t -> timeData p = Some tm ->
     paused p = if hasAudio t then media_paused (audio p) else isClockPaused tm) /\
  (forall disposeLoaders, paused (state (dispose disposeLoaders p)) = paused p) /\
  paused newPlayer = true.
Proof.
  split_and!.
  - unfold paused. intros [-> | ->]; [done|]. by destruct (trackData p).
  - intros t tm Ht Htm. unfold paused. by rewrite Ht, Htm.
  - intros b. unfold paused.
    destruct (dispose_keeps_session b p) as [-> ->]. by rewrite dispose_keeps_audio.
  - done.
Qed.

(** C10 as it is written fails after teardown: [dispose] on the running
    session of the eviction scenario empties the stores and leaves the
    session, and the getter still answers [false]. *)
Lemma paused_after_dispose :
  paused demoStale = false /\
  meshMap (state (dispose true demoStale)) = [] /\
  paused (state (dispose true demoStale)) = false.
Proof. split_and!; by vm_compute. Qed.

(** ** Buffering report *)

(** A presentation tick of a paused player reports the progress 0 and does
    nothing else. *)
Lemma processFrame_paused now p :
  paused p = true -> processFrame now p = (Normal tt, p, [EOnMeshBuffering 0]).
Proof. intros H. unfold processFrame. by rewrite run_bind_get, H. Qed.

(** C9, the multi-target player at the failing input: 60 of the 120 frames
    of the buffer are decoded and the player is paused awaiting the rest;
    the tick reports 0, not 60 / (30 * 4). *)
Theorem buffering_report_is_zero :
  paused demoBuffering = true /\
  JsMap.size (meshMap demoBuffering) = 60 /\
  trace (processFrame 1100 demoBuffering) = [EOnMeshBuffering 0] /\
  ~ (0 == inject_Z 60 / inject_Z (30 * 4))%Q.
Proof.
  split; [by vm_compute|]. split; [by vm_compute|]. split.
  - rewrite processFrame_paused; [done|by vm_compute].
  - by vm_compute.
Qed.

Lemma segment_run_geometryTargetData p h gd :
  SegmentPlayer.header p = Some h ->
  SegmentPlayer.h_geometry h !! SegmentPlayer.geometryTarget p = Some gd ->
  SegmentPlayer.geometryTargetData p = (Normal gd, p, []).
Proof.
  intros Hh Hgd. unfold SegmentPlayer.geometryTargetData.
  by rewrite run_bind_get, Hh, run_bind_deref_Some, Hgd.
Qed.

(** The segment player reports the fraction of the buffer that is decoded. *)
Lemma segment_processFrame_paused now p h gd :
  SegmentPlayer.header p = Some h ->
  SegmentPlayer.h_geometry h !! SegmentPlayer.geometryTarget p = Some gd ->
  SegmentPlayer.AudioURL p && media_ended (SegmentPlayer.audio p) = false ->
  SegmentPlayer.paused p = true ->
  SegmentPlayer.processFrame now p
  = (Normal tt, p,
     [EOnMeshBuffering
        (inject_Z (JsMap.size (SegmentPlayer.meshMap p))
         / inject_Z (frameRate gd * SegmentPlayer.bufferDuration p))%Q]).
Proof.
  intros Hh Hgd Hended Hpaused. unfold SegmentPlayer.processFrame.
  rewrite run_bind_get, Hh.
  rewrite (run_bind_pure _ _ _ _ (segment_run_geometryTargetData _ _ _ Hh Hgd)).
  by rewrite Hended, Hpaused.
Qed.

Lemma segment_buffering_report :
  trace (SegmentPlayer.processFrame 1100 demoSegmentBuffering)
  = [EOnMeshBuffering (inject_Z 60 / inject_Z (30 * 4))%Q].
Proof.
  by rewrite (segment_processFrame_paused 1100 demoSegmentBuffering demoHeader
                {| frameRate := 30; frameCount := 300 |}).
Qed.

(** ** Eviction *)

(** [removePlayedGeometryBuffer] removes the entry of its key and no other;
    the buffer is disposed before the key is deleted. *)
Lemma removePlayedGeometryBuffer_exact key p :
  removePlayedGeometryBuffer key p
  = (Normal tt, with_meshMap (JsMap.delete key (meshMap p)) p,
     match JsMap.get key (meshMap p) with
     | Some buffer => [EDisposeGeometry buffer; EMeshMapDelete key]
     | None => []
     end) \/
  JsMap.get key (meshMap p) = None /\ removePlayedGeometryBuffer key p = (Normal tt, p, []).
Proof.
  unfold removePlayedGeometryBuffer. rewrite run_bind_get.
  destruct (JsMap.get key (meshMap p)) as [b|] eqn:Hb; [left|by right].
  by js_run.
Qed.

(** C7, the multi-target player at the failing input: the store holds
    geometry frames 5, 8 and 9 of the active target and the playhead is at
    frame 10; the tick disposes and deletes frame 9 only, frames 5 and 8 stay
    in the store. *)
Theorem eviction_leaves_older_frames :
  (exists tm, timeData (state (processFrame 1533 demoStale)) = Some tm /\
     Math_round (currentTime tm * inject_Z 30) = 10) /\
  trace (processFrame 1533 demoStale)
  = [EDisposeGeometry (Geometry 9); EMeshMapDelete ("g", 9)] /\
  meshMap (state (processFrame 1533 demoStale))
  = [(("g", 5), Geometry 5); (("g", 8), Geometry 8)].
Proof.
  split; [|split]; [|by vm_compute..].
  eexists. split; [by vm_compute|]. by vm_compute.
Qed.

Section EvictBelow.
Context {V : Type} (disposed : V -> Event) (deleted : Z -> Event) (threshold : Z).

(** [removePlayedBuffer] on one store: what stays, and the calls made. *)
Lemma evictBelow_kept (entries : list (Z * V)) :
  (SegmentPlayer.evictBelow disposed deleted threshold entries).1
  = filter (fun kv => threshold <= kv.1) entries.
Proof.
  induction entries as [|[k v] entries IH]; [done|]. simpl.
  destruct (SegmentPlayer.evictBelow _ _ _ entries) as [kept calls]. simpl in IH.
  destruct (k <? threshold) eqn:Hk.
  - apply Z.ltb_lt in Hk. rewrite filter_cons_False by (simpl; lia). done.
  - apply Z.ltb_ge in Hk. rewrite filter_cons_True by done. simpl. by rewrite IH.
Qed.

Lemma evictBelow_calls (entries : list (Z * V)) :
  (SegmentPlayer.evictBelow disposed deleted threshold entries).2
  = mjoin ((fun kv => [disposed kv.2; deleted kv.1])
             <$> filter (fun kv => kv.1 < threshold) entries).
Proof.
  induction entries as [|[k v] entries IH]; [done|]. simpl.
  destruct (SegmentPlayer.evictBelow _ _ _ entries) as [kept calls]. simpl in IH.
  destruct (k <? threshold) eqn:Hk.
  - apply Z.ltb_lt in Hk. rewrite filter_cons_True by done. simpl. by rewrite IH.
  - apply Z.ltb_ge in Hk. rewrite filter_cons_False by (simpl; lia). done.
Qed.

End EvictBelow.

(** The segment player evicts by threshold: every entry below the threshold
    goes, disposed and then deleted, and every other entry stays. *)
Lemma segment_removePlayedBuffer frameNo segmentNo p :
  let r := SegmentPlayer.removePlayedBuffer frameNo segmentNo p in
  completion r = Normal tt /\
  SegmentPlayer.meshMap (state r)
  = filter (fun kv => frameNo <= kv.1) (SegmentPlayer.meshMap p) /\
  SegmentPlayer.textureMap (state r)
  = filter (fun kv => segmentNo <= kv.1) (SegmentPlayer.textureMap p) /\
  trace r
  = mjoin ((fun kv => [EDisposeGeometry kv.2; ESegmentMeshDelete kv.1])
             <$> filter (fun kv => kv.1 < frameNo) (SegmentPlayer.meshMap p))
    ++ mjoin ((fun kv => [EDisposeTexture kv.2; ESegmentTextureDelete kv.1])
                <$> filter (fun kv => kv.1 < segmentNo) (SegmentPlayer.textureMap p)).
Proof.
  cbv zeta. unfold SegmentPlayer.removePlayedBuffer. rewrite run_bind_get.
  rewrite <- (evictBelow_kept EDisposeGeometry ESegmentMeshDelete),
          <- (evictBelow_kept EDisposeTexture ESegmentTextureDelete),
          <- (evictBelow_calls EDisposeGeometry ESegmentMeshDelete),
          <- (evictBelow_calls EDisposeTexture ESegmentTextureDelete).
  destruct (SegmentPlayer.evictBelow _ _ frameNo _) as [meshes calls1].
  rewrite (bind_normal _ _ _ _ _ _ (forEach_emit calls1 p)).
  rewrite run_bind_modify, run_bind_get. simpl.
  destruct (SegmentPlayer.evictBelow _ _ segmentNo _) as [textures calls2].
  rewrite (bind_normal _ _ _ _ _ _ (forEach_emit calls2 _)).
  unfold completion, state, trace, modify. simpl. by rewrite app_nil_r.
Qed.

Lemma segment_eviction_by_threshold :
  SegmentPlayer.meshMap (state (SegmentPlayer.update 1533 demoSegmentStale))
  = [(5, Geometry 5); (12, Geometry 12); (20, Geometry 20)] /\
  SegmentPlayer.textureMap (state (SegmentPlayer.update 1533 demoSegmentStale))
  = [(2, Tex 2); (4, Tex 4)].
Proof. by vm_compute. Qed.
(** ** The scenarios of the specification *)

Lemma demoTiers_NoDup : NoDup ["low"; "high"].
Proof. apply (bool_decide_unpack _). by vm_compute. Qed.

Lemma adjustTextureTarget_one_step_witness :
  (exists t' current',
     trackData (state (adjustTextureTarget (demoControl "low" demoComfort))) = Some t' /\
     stats t' = [] /\ currentTextureTarget t' !! "baseColor" = Some current' /\
     indexOf ["low"; "high"] current' = 1) /\
  (exists t' current',
     trackData (state (adjustTextureTarget (demoControl "high" demoAtEdge))) = Some t' /\
     stats t' = [] /\ currentTextureTarget t' !! "baseColor" = Some current' /\
     indexOf ["low"; "high"] current' = 1) /\
  (exists t' current',
     trackData (state (adjustTextureTarget (demoControl "high" demoStruggle))) = Some t' /\
     stats t' = [] /\ currentTextureTarget t' !! "baseColor" = Some current' /\
     indexOf ["low"; "high"] current' = 0) /\
  (exists t' current',
     trackData (state (adjustTextureTarget (demoControl "high" demoSetBack))) = Some t' /\
     stats t' = [] /\ currentTextureTarget t' !! "baseColor" = Some current' /\
     indexOf ["low"; "high"] current' = 0).
Proof.
  split_and!.
  - destruct (adjustTextureTarget_one_step (demoControl "low" demoComfort)
                (demoWindow "low" demoComfort) ["low"; "high"] "low"
                eq_refl eq_refl demoTiers_NoDup eq_refl) as (_ & _ & H); [by left|].
    destruct H as (t' & c' & Ht' & Hs' & Hc' & _ & Hup & _); [simpl; lia|].
    exists t', c'. split_and!; [exact Ht'|exact Hs'|exact Hc'|].
    apply Hup. split; by vm_compute.
  - destruct (adjustTextureTarget_one_step (demoControl "high" demoAtEdge)
                (demoWindow "high" demoAtEdge) ["low"; "high"] "high"
                eq_refl eq_refl demoTiers_NoDup eq_refl) as (_ & _ & H); [by right; left|].
    destruct H as (t' & c' & Ht' & Hs' & Hc' & _ & _ & Hhold & _); [simpl; lia|].
    exists t', c'. split_and!; [exact Ht'|exact Hs'|exact Hc'|].
    apply Hhold. split; by vm_compute.
  - destruct (adjustTextureTarget_one_step (demoControl "high" demoStruggle)
                (demoWindow "high" demoStruggle) ["low"; "high"] "high"
                eq_refl eq_refl demoTiers_NoDup eq_refl) as (_ & _ & H); [by right; left|].
    destruct H as (t' & c' & Ht' & Hs' & Hc' & _ & _ & _ & Hdown & _); [simpl; lia|].
    exists t', c'. split_and!; [exact Ht'|exact Hs'|exact Hc'|].
    apply Hdown. right. by vm_compute.
  - destruct (adjustTextureTarget_one_step (demoControl "high" demoSetBack)
                (demoWindow "high" demoSetBack) ["low"; "high"] "high"
                eq_refl eq_refl demoTiers_NoDup eq_refl) as (_ & _ & H); [by right; left|].
    destruct H as (t' & c' & Ht' & Hs' & Hc' & _ & _ & _ & Hdown & _); [simpl; lia|].
    exists t', c'. split_and!; [exact Ht'|exact Hs'|exact Hc'|].
    apply Hdown. left. by vm_compute.
Defined.

(** C5 as it is written fails on a window of negative mean: the high tier,
    the last of the list, is active and the three samples are -0.1, so the
    mean is at most 0.3 and the index should stay; the guard [0 <= mean]
    fails and the controller goes down to the low tier. *)
Lemma negative_mean_demotes :
  (fold_left Qplus demoSetBack 0 / inject_Z (Z.of_nat (length demoSetBack)) <= 3 # 10)%Q /\
  stats (demoWindow "high" demoSetBack) = demoSetBack /\
  textureTargets (demoWindow "high" demoSetBack) !! "baseColor" = Some ["low"; "high"] /\
  currentTextureTarget (demoWindow "high" demoSetBack) !! "baseColor" = Some "high" /\
  (trackData (state (adjustTextureTarget (demoControl "high" demoSetBack)))
     ≫= fun t' => currentTextureTarget t' !! "baseColor") = Some "low".
Proof. split_and!; by vm_compute. Qed.

(** The ABR scenario of the specification: three samples of 0.1 promote low
    to high, then three samples of 0.8 demote high to low. *)
Lemma abr_scenario :
  (trackData (state (adjustTextureTarget demoAhead))
     ≫= fun t => currentTextureTarget t !! "baseColor") = Some "high" /\
  (trackData (state (adjustTextureTarget demoBehind))
     ≫= fun t => currentTextureTarget t !! "baseColor") = Some "low".
Proof. by vm_compute. Qed.

Lemma processFrame_fallback_witness :
  exists evicted,
    Forall is_eviction evicted /\
    processFrame 2867 demoFallback
    = (Normal tt, state (processFrame 2867 demoFallback),
       evicted ++ [EUpdateGeometry (Geometry 50); EUpdateTexture (Tex 25); EOnFrameShow 50]).
Proof.
  assert (exists t, trackData demoFallback = Some t) as [t Ht]
    by (eexists; vm_compute; reflexivity).
  assert (exists tm, timeData demoFallback = Some tm) as [tm Htm]
    by (eexists; vm_compute; reflexivity).
  destruct (processFrame_fallback demoFallback t tm 2867 "g" "high"
              {| frameRate := 30; frameCount := 300 |}
              {| frameRate := 30; frameCount := 300 |}
              (Geometry 50) ["low"; "high"] Ht Htm)
    as (evicted & Hev & Hfound & _);
    vm_compute in Ht; injection Ht as <-; vm_compute in Htm; injection Htm as <-.
  - by vm_compute.
  - by vm_compute.
  - by vm_compute.
  - by vm_compute.
  - by vm_compute.
  - by vm_compute.
  - by vm_compute.
  - by vm_compute.
  - by vm_compute.
  - by vm_compute.
  - intros y Hy. apply elem_of_cons in Hy as [->|Hy]; [vm_compute; eauto|].
    apply elem_of_cons in Hy as [->|Hy]; [vm_compute; eauto|]. by apply elem_of_nil in Hy.
  - exists evicted. split; [done|].
    apply (Hfound [] "low" ["high"] (Tex 25)); [done| |by vm_compute].
    intros y Hy. by apply elem_of_nil in Hy.
Defined.


(** ** The clock seen by the scheduler *)

Lemma clock_le_refl p : clock_le p p.
Proof.
  unfold clock_le. destruct (timeData p); constructor. apply Qle_refl.
Qed.

(** A presentation tick is a step of a session whose time does not go back,
    as long as the clock source itself does not go back. *)
Lemma processFrame_advance now p t tm :
  trackData p = Some t -> timeData p = Some tm ->
  (currentTime tm <= presentationTime p t tm now)%Q ->
  advance p (state (processFrame now p)).
Proof.
  intros Ht Htm Hle. split; [apply (env_processFrame now p I)|].
  unfold clock_le. rewrite Htm. simpl.
  destruct (paused p) eqn:Hp.
  { rewrite (processFrame_paused _ _ Hp), state_run, Htm. constructor. apply Qle_refl. }
  destruct (hasAudio t && media_ended (audio p)) eqn:He.
  - unfold processFrame. rewrite run_bind_get, Hp. cbv beta iota.
    rewrite (run_bind_getTrack _ _ _ Ht), He. cbv beta iota.
    rewrite run_bind_emit, state_run.
    match goal with |- context [state (bind ?m ?f p)] =>
      assert (Hk : keeps anywhere time_kept (bind m f))
    end.
    { keeps_steps time_side. }
    rewrite (Hk p I), Htm. constructor. apply Qle_refl.
  - rewrite (processFrame_time now p t tm Ht Htm Hp He). by constructor.
Qed.

(** ** The samples of the quality controller *)

#[global] Instance samples_kept_TraceRel : TraceRel samples_kept.
Proof.
  split; [by intros s H|]. intros s e1 s1 e2 s2 H1 H2 H. by apply H2, H1.
Qed.

Ltac samples_side :=
  unfold samples_kept; simpl;
  let Hkept := fresh "Hkept" in
  let t' := fresh "t'" in
  let E := fresh "E" in
  intros Hkept t' E;
  first
    [ by apply Hkept
    | injection E as <-; simpl; first [ by eapply Hkept | by constructor ] ].

Lemma samples_adjustTextureTarget : keeps anywhere samples_kept adjustTextureTarget.
Proof. unfold adjustTextureTarget. keeps_steps samples_side. Qed.

Lemma samples_startVideo now : keeps anywhere samples_kept (startVideo now).
Proof. unfold startVideo. keeps_steps samples_side. Qed.

Lemma samples_push (x : Q) :
  (0 <= x)%Q ->
  keeps anywhere samples_kept
    (bind (modifyTrack (fun t => set_stats (stats t ++ [x]) t)) (fun _ => adjustTextureTarget)).
Proof.
  intros Hx. apply keeps_bind; [apply _|apply anywhere_stable| |].
  - apply keeps_modifyTrack; [apply _|]. intros s t Ht H t' Ht'.
    simpl in Ht'. injection Ht' as <-. simpl.
    apply Forall_app. split; [by eapply H|]. by repeat constructor.
  - intros _. apply samples_adjustTextureTarget.
Qed.

(** The window only ever holds ratios that are not negative, as long as the
    wall clock does not go back while the requests of a pass settle. *)
Lemma fetchBuffers_then_samples k endTime callbackNow :
  k_startTime k <= endTime ->
  keeps anywhere samples_kept (fetchBuffers_then k endTime callbackNow).
Proof.
  intros Hle. unfold fetchBuffers_then.
  apply keeps_bind; [apply _|apply anywhere_stable|apply keeps_getTrack; apply _|].
  intros t. apply keeps_bind; [apply _|apply anywhere_stable| |].
  - destruct (lastRequestedGeometryFrame t !! k_gTarget k) as [last|];
      [|apply keeps_ret; apply _].
    destruct (k_oldLastGeometryFrame k) as [old|]; [|apply keeps_ret; apply _].
    cbv zeta. destruct (k_gFramesPerSecond k =? 0) eqn:Hfps.
    + destruct (0 <? last - old); [|apply keeps_ret; apply _].
      apply samples_push. apply Qle_refl.
    + destruct (negb (Qle_bool _ 0)) eqn:Hplay; [|apply keeps_ret; apply _].
      apply samples_push.
      apply negb_true_iff in Hplay.
      assert (Hpos : (0 < inject_Z (last - old) / inject_Z (k_gFramesPerSecond k))%Q).
      { apply Qnot_le_lt. intros Hq. apply Qle_bool_iff in Hq. congruence. }
      apply Qle_shift_div_l; [exact Hpos|]. rewrite Qmult_0_l.
      apply Qle_shift_div_l; [by vm_compute|]. rewrite Qmult_0_l.
      change 0%Q with (inject_Z 0). rewrite <- Zle_Qle. lia.
  - intros _. destruct (k_callback k); [apply samples_startVideo|apply keeps_ret; apply _].
Qed.

(** ** The leaky bucket of the segment player *)

Section KeepsAnywhere.
Context {S : Type} (I : S -> Prop) (R : S -> list Event -> S -> Prop) `{!TraceRel R}.

Lemma keeps_any_get : keeps I R get.
Proof. intros s _. apply rel_refl. Qed.

Lemma keeps_any_deref {A} (o : option A) : keeps I R (deref o).
Proof. intros s _. destruct o; apply rel_refl. Qed.

Lemma keeps_any_emit e : (forall s, I s -> R s [e] s) -> keeps I R (emit e).
Proof. intros H s Hs. by apply H. Qed.

Lemma keeps_any_modify (g : S -> S) : (forall s, I s -> R s [] (g s)) -> keeps I R (modify g).
Proof. intros H s Hs. by apply H. Qed.

End KeepsAnywhere.

#[global] Instance segment_gap_kept_TraceRel currentFrame size :
  TraceRel (segment_gap_kept currentFrame size).
Proof.
  split; [by intros s|].
  intros s e1 s1 e2 s2 (H1 & H2 & H3 & H4 & H5) (H6 & H7 & H8 & H9 & H10).
  repeat split; [congruence..|]. intros H. by apply H10, H5.
Qed.

Ltac segment_steps I R side :=
  repeat match goal with
    | |- keeps _ _ (ret _) => apply (keeps_ret I R)
    | |- keeps _ _ get => apply (keeps_any_get I R)
    | |- keeps _ _ (deref _) => apply (keeps_any_deref I R)
    | |- keeps _ _ (emit _) => apply (keeps_any_emit I R); intros ? ?; side
    | |- keeps _ _ (modify _) => apply (keeps_any_modify I R); intros ? ?; side
    | |- keeps _ _ (forEach _ _) => apply (keeps_forEach I R); [side|intros ? ?]
    | |- keeps _ _ (bind _ _) => apply (keeps_bind I R); [side| |intros ?]
    | |- keeps _ _ (if ?b then _ else _) => destruct b eqn:?
    | |- keeps _ _ (match ?x with _ => _ end) => destruct x eqn:?
    | |- keeps _ _ (let _ := _ in _) => cbv zeta
    end.

Lemma segment_gap_stable currentFrame size B :
  stable (fun s => SegmentPlayer.bufferDuration s = B) (segment_gap_kept currentFrame size).
Proof. intros s e s' Hs (H & _). congruence. Qed.

Lemma segment_requestGeometry_gap currentFrame size B i :
  0 <= size -> i + 1 <= B ->
  keeps (fun s => SegmentPlayer.bufferDuration s = B) (segment_gap_kept currentFrame size)
    (SegmentPlayer.requestGeometry currentFrame size i).
Proof.
  intros Hsize Hi.
  unfold SegmentPlayer.requestGeometry, SegmentPlayer.GeometryFrameCount,
    SegmentPlayer.geometryTargetData.
  segment_steps (fun s => SegmentPlayer.bufferDuration s = B)
    (segment_gap_kept currentFrame size)
    ltac:(first [apply segment_gap_stable | by (repeat split) | idtac]).
  repeat split. simpl. intros _. rewrite H. nia.
Qed.

Lemma segment_requestTexture_gap currentFrame size B currentTextureSegment textureBufferSize i :
  keeps (fun s => SegmentPlayer.bufferDuration s = B) (segment_gap_kept currentFrame size)
    (SegmentPlayer.requestTexture currentTextureSegment textureBufferSize i).
Proof.
  unfold SegmentPlayer.requestTexture, SegmentPlayer.TextureSegmentCount,
    SegmentPlayer.textureTargetData.
  segment_steps (fun s => SegmentPlayer.bufferDuration s = B)
    (segment_gap_kept currentFrame size)
    ltac:(first [apply segment_gap_stable | by (repeat split) | idtac]).
Qed.

(** One pass of the scheduler of the segment player keeps the geometry mark
    within [bufferDuration] seconds of frames of the playhead frame of the
    pass, however the pass completes. *)
Lemma segment_leaky_bucket p h gd :
  SegmentPlayer.header p = Some h ->
  SegmentPlayer.h_geometry h !! SegmentPlayer.geometryTarget p = Some gd ->
  0 <= frameRate gd ->
  SegmentPlayer.lastRequestedGeometryFrame p
    - SegmentPlayer.getCurrentFrame (frameRate gd) (SegmentPlayer.currentTime p)
    <= SegmentPlayer.bufferDuration p * frameRate gd ->
  SegmentPlayer.lastRequestedGeometryFrame (state (SegmentPlayer.fetchBuffers p))
    - SegmentPlayer.getCurrentFrame (frameRate gd)
        (SegmentPlayer.currentTime (state (SegmentPlayer.fetchBuffers p)))
    <= SegmentPlayer.bufferDuration (state (SegmentPlayer.fetchBuffers p)) * frameRate gd.
Proof.
  intros Hh Hgd Hrate Hgap.
  set (currentFrame :=
         SegmentPlayer.getCurrentFrame (frameRate gd) (SegmentPlayer.currentTime p)) in *.
  unfold SegmentPlayer.fetchBuffers. rewrite run_bind_get.
  rewrite (run_bind_pure _ _ _ _ (segment_run_geometryTargetData _ _ _ Hh Hgd)).
  cbv zeta. fold currentFrame.
  match goal with |- context [state (?m p)] =>
    assert (Hk : keeps (fun s => SegmentPlayer.bufferDuration s = SegmentPlayer.bufferDuration p)
                   (segment_gap_kept currentFrame (frameRate gd)) m)
  end.
  { unfold SegmentPlayer.BatchSize, SegmentPlayer.textureTargetData, forRange.
    segment_steps (fun s => SegmentPlayer.bufferDuration s = SegmentPlayer.bufferDuration p)
      (segment_gap_kept currentFrame (frameRate gd))
      ltac:(first [apply segment_gap_stable | by (repeat split) | idtac]).
    all: first
      [ apply segment_requestTexture_gap
      | apply segment_requestGeometry_gap; [done|];
        match goal with H : _ ∈ seqZ _ _ |- _ => apply elem_of_seqZ in H; lia end ]. }
  destruct (Hk p eq_refl) as (HB & Ht & _ & _ & Hkept).
  rewrite Ht. exact (Hkept Hgap).
Qed.

(** ** The wall clock started by [play()] *)

(** A new session has [startTime = -1], [pausedTime = 0] and the clock
    paused.  When [play()] rather than [startVideo] starts the clock at
    1200 ms, the start timestamp stays as it is and the time since 0 counts
    as a pause; a pause from 2200 ms to 4200 ms read at 6200 ms then gives
    3.001 s. *)
Lemma wall_clock_started_by_play :
  exists tm,
    timeData
      (state (processFrame 6200
         (state (play 4200 (state (pause 2200 (state (play 1200 (state demoFirst)))))))))
    = Some tm /\
    startTime tm = -1 /\ totalPausedDuration tm = 1200 + 2000 /\
    (currentTime tm == 3001 # 1000)%Q.
Proof. eexists. split; [by vm_compute|]. by vm_compute. Qed.

(** ** The clock set back by an early [play()] *)

(** C3 as it is written fails when the presentation time goes back.  In the
    demo session [play()] is called at 1100 ms, before the first pass has
    settled; the tick at 1150 ms reads 0.051 s; [startVideo] at 1200 ms
    resets the start timestamp and the tick at 1400 ms reads -0.9 s.  At
    the end of the pass at 3000 ms the geometry mark is 120 and the
    playhead frame -27: a gap of 147 frames, over the 120 of the bucket. *)
Lemma early_play_breaks_leaky_bucket :
  session between demoFresh
    (requests (trace demoFirst) ++ requests (trace demoBackPass)) (state demoBackPass) /\
  fresh demoFresh /\ rates_nonneg demoFresh /\
  exists tm,
    timeData (state demoBackPass) = Some tm /\
    (currentTime tm == -9 # 10)%Q /\
    mark (state demoBackPass) (GeometryStream "g") = Some 120 /\
    bufferDuration (state demoBackPass) * 30
      < 120 - Math_round (currentTime tm * inject_Z 30).
Proof.
  split.
  { unfold demoBackPass. apply session_pass.
    apply session_env with demoRestarted; [|apply (env_processFrame 1400 _ I)].
    apply session_env with demoEarlyTick; [|apply (env_startVideo 1200 _ I)].
    apply session_env with demoEarlyPlay; [|apply (env_processFrame 1150 _ I)].
    apply session_env with (state demoFirst); [|apply (env_play 1100 _ I)].
    apply (session_pass between demoFresh [] demoFresh 1000 true), session_nil. }
  split; [apply demoFresh_fresh|]. split; [apply demoFresh_rates|].
  eexists. split; [by vm_compute|]. split_and!; by vm_compute.
Qed.


(** * Further properties of the players *)

(** ** Teardown *)

Lemma forEach_app {S A} (l1 l2 : list A) (f : A -> Js S unit) s :
  completion (forEach l1 f s) = Normal tt ->
  forEach (l1 ++ l2) f s
  = (completion (forEach l2 f (state (forEach l1 f s))),
     state (forEach l2 f (state (forEach l1 f s))),
     trace (forEach l1 f s) ++ trace (forEach l2 f (state (forEach l1 f s)))).
Proof.
  revert s. induction l1 as [|x l1 IH]; intros s H; simpl.
  - by rewrite run_eta.
  - simpl in H. apply bind_inv_normal in H as ([] & H1 & H2 & H3 & H4).
    rewrite H3, H4.
    rewrite (bind_normal _ _ s tt (state (f x s)) (trace (f x s))).
    2:{ by rewrite <- H1, run_eta. }
    rewrite (IH _ H2). unfold completion, state, trace. simpl. by rewrite app_assoc.
Qed.

Lemma run_bind_seq {S A B} (m : Js S A) (f : A -> Js S B) s a s1 e1 c s2 e2 :
  m s = (Normal a, s1, e1) -> f a s1 = (c, s2, e2) -> bind m f s = (c, s2, e1 ++ e2).
Proof. intros H1 H2. by rewrite (bind_normal _ _ _ _ _ _ H1), H2. Qed.

Lemma forEach_delete_mesh (l : list (MeshKey * BufferGeometry)) p :
  exists store,
    forEach l (fun '(key, buffer) =>
      bind (emit (EMeshMapDelete key)) (fun _ =>
      bind (modify (fun p => with_meshMap (JsMap.delete key (meshMap p)) p)) (fun _ =>
      emit (EDisposeGeometry buffer)))) p
    = (Normal tt, with_meshMap store p,
       l ≫= fun kb => [EMeshMapDelete kb.1; EDisposeGeometry kb.2]).
Proof.
  revert p. induction l as [|[key buffer] l IH]; intros p.
  - exists (meshMap p). by destruct p.
  - destruct (IH (with_meshMap (JsMap.delete key (meshMap p)) p)) as (store & H).
    exists store. simpl. rewrite run_bind_assoc, run_bind_emit, run_bind_assoc, run_bind_modify.
    rewrite run_bind_emit. rewrite H. done.
Qed.

Lemma forEach_delete_texture (l : list (TextureKey * Texture)) p :
  exists store,
    forEach l (fun '(key, buffer) =>
      bind (emit (ETextureMapDelete key)) (fun _ =>
      bind (modify (fun p => with_textureMap (JsMap.delete key (textureMap p)) p)) (fun _ =>
      emit (EDisposeTexture buffer)))) p
    = (Normal tt, with_textureMap store p,
       l ≫= fun kb => [ETextureMapDelete kb.1; EDisposeTexture kb.2]).
Proof.
  revert p. induction l as [|[key buffer] l IH]; intros p.
  - exists (textureMap p). by destruct p.
  - destruct (IH (with_textureMap (JsMap.delete key (textureMap p)) p)) as (store & H).
    exists store. simpl. rewrite run_bind_assoc, run_bind_emit, run_bind_assoc, run_bind_modify.
    rewrite run_bind_emit. rewrite H. done.
Qed.

(** X1. [dispose(disposeLoaders)] of the multi-target player deletes and
    releases every entry of the geometry store and then every entry of the
    texture store, each in insertion order and each entry deleted before its
    buffer is released; both stores end empty, nothing else of the player
    changes, and the loaders are disposed last and only when asked. *)
Theorem dispose_releases_every_entry (disposeLoaders : bool) (p : Player) :
  dispose disposeLoaders p
  = (Normal tt, with_textureMap [] (with_meshMap [] p),
     (meshMap p ≫= fun kb => [EMeshMapDelete kb.1; EDisposeGeometry kb.2]) ++
     (textureMap p ≫= fun kb => [ETextureMapDelete kb.1; EDisposeTexture kb.2]) ++
     (if disposeLoaders then [EDisposeLoaders] else [])).
Proof.
  unfold dispose. rewrite run_bind_get.
  destruct (forEach_delete_mesh (meshMap p) p) as (store & H1).
  destruct (forEach_delete_texture (textureMap p) (with_meshMap [] (with_meshMap store p)))
    as (store' & H2).
  eapply run_bind_seq; [exact H1|]. rewrite run_bind_modify, run_bind_get.
  eapply run_bind_seq; [exact H2|]. rewrite run_bind_modify.
  by destruct disposeLoaders.
Qed.

Lemma forEach_emit_found {S A V} (l : list A) (find : A -> option V) (e : V -> Event) (s : S) :
  forEach l (fun i => match find i with Some buffer => emit (e buffer) | None => ret tt end) s
  = (Normal tt, s, omap (fun i => e <$> find i) l).
Proof.
  induction l as [|i l IH]; [done|]. simpl.
  destruct (find i) as [b|]; simpl.
  - by rewrite run_bind_emit, IH.
  - by rewrite run_bind_ret, IH.
Qed.

(** X2. [dispose] of the segment player looks the buffers up by the indices
    [0 .. size - 1], not by the keys of the store: a geometry buffer is
    released exactly when it is stored under a key below the size of the
    geometry store (likewise for textures), so a buffer stored under a larger
    frame number is dropped without being released; both stores end empty
    and nothing else of the player changes. *)
Theorem segment_dispose_by_index (p : SegmentPlayer.Player) :
  SegmentPlayer.dispose p
  = (Normal tt, SegmentPlayer.with_stores [] [] p,
     omap (fun i => EDisposeGeometry <$> JsMap.get i (SegmentPlayer.meshMap p))
       (seqZ 0 (JsMap.size (SegmentPlayer.meshMap p))) ++
     omap (fun i => EDisposeTexture <$> JsMap.get i (SegmentPlayer.textureMap p))
       (seqZ 0 (JsMap.size (SegmentPlayer.textureMap p)))) /\
  (forall buffer,
     EDisposeGeometry buffer ∈ trace (SegmentPlayer.dispose p) <->
     exists i, 0 <= i < JsMap.size (SegmentPlayer.meshMap p) /\
       JsMap.get i (SegmentPlayer.meshMap p) = Some buffer).
Proof.
  assert (Hrun : SegmentPlayer.dispose p
    = (Normal tt, SegmentPlayer.with_stores [] [] p,
       omap (fun i => EDisposeGeometry <$> JsMap.get i (SegmentPlayer.meshMap p))
         (seqZ 0 (JsMap.size (SegmentPlayer.meshMap p))) ++
       omap (fun i => EDisposeTexture <$> JsMap.get i (SegmentPlayer.textureMap p))
         (seqZ 0 (JsMap.size (SegmentPlayer.textureMap p))))).
  { unfold SegmentPlayer.dispose. rewrite run_bind_get.
    eapply run_bind_seq; [apply forEach_emit_found|].
    rewrite <- (app_nil_r (omap (fun i => EDisposeTexture <$> _) _)).
    eapply run_bind_seq; [apply forEach_emit_found|]. done. }
  split; [exact Hrun|]. intros buffer. rewrite Hrun. unfold trace. simpl.
  rewrite elem_of_app. split.
  - intros [H|H]; apply list_elem_of_omap in H as (i & Hi & Hb).
    + destruct (JsMap.get i (SegmentPlayer.meshMap p)) as [b|] eqn:Hget; [|done].
      injection Hb as ->. exists i. split; [|done]. apply elem_of_seqZ in Hi. lia.
    + by destruct (JsMap.get i (SegmentPlayer.textureMap p)).
  - intros (i & Hi & Hget). left. apply list_elem_of_omap. exists i.
    split; [apply elem_of_seqZ; lia|]. by rewrite Hget.
Qed.

(** ** End of a track *)

Section JsMapMore.
Context {K V : Type} `{EqDecision K}.

Lemma delete_absent (k : K) (m : list (K * V)) :
  JsMap.get k m = None -> JsMap.delete k m = m.
Proof.
  induction m as [|[k' v] m IH]; [done|]. simpl.
  destruct (decide (k = k')); [done|]. intros H. by rewrite IH.
Qed.

Lemma get_elem_of (k : K) (v : V) (m : list (K * V)) :
  JsMap.get k m = Some v -> (k, v) ∈ m.
Proof.
  induction m as [|[k' v'] m IH]; [done|]. simpl.
  destruct (decide (k = k')) as [->|]; [intros [= ->]; by left|].
  intros H. right. by apply IH.
Qed.

End JsMapMore.

Lemma with_meshMap_same p : with_meshMap (meshMap p) p = p.
Proof. by destruct p. Qed.

Lemma with_textureMap_same p : with_textureMap (textureMap p) p = p.
Proof. by destruct p. Qed.

Lemma run_removePlayedGeometryBuffer_calls key p :
  removePlayedGeometryBuffer key p
  = (Normal tt, with_meshMap (JsMap.delete key (meshMap p)) p,
     evictGeometryCalls key (meshMap p)).
Proof.
  unfold removePlayedGeometryBuffer, evictGeometryCalls. rewrite run_bind_get.
  destruct (JsMap.get key (meshMap p)) as [b|] eqn:Hb.
  - by js_run.
  - by rewrite (delete_absent _ _ Hb), with_meshMap_same.
Qed.

Lemma run_removePlayedTextureBuffer_calls key p :
  removePlayedTextureBuffer key p
  = (Normal tt, with_textureMap (JsMap.delete key (textureMap p)) p,
     evictTextureCalls key (textureMap p)).
Proof.
  unfold removePlayedTextureBuffer, evictTextureCalls. rewrite run_bind_get.
  destruct (JsMap.get key (textureMap p)) as [b|] eqn:Hb.
  - by js_run.
  - by rewrite (delete_absent _ _ Hb), with_textureMap_same.
Qed.

Lemma run_dispose b p :
  dispose b p
  = (Normal tt, with_textureMap [] (with_meshMap [] p),
     releaseGeometryCalls (meshMap p) ++ releaseTextureCalls (textureMap p) ++
     (if b then [EDisposeLoaders] else [])).
Proof.
  unfold dispose. rewrite run_bind_get.
  destruct (forEach_delete_mesh (meshMap p) p) as (store & H1).
  destruct (forEach_delete_texture (textureMap p) (with_meshMap [] (with_meshMap store p)))
    as (store' & H2).
  eapply run_bind_seq; [exact H1|]. rewrite run_bind_modify, run_bind_get.
  eapply run_bind_seq; [exact H2|]. rewrite run_bind_modify.
  by destruct b.
Qed.

(** The tick up to the end-of-track test, on a player that plays. *)
Lemma run_processFrame_end now p t tm g gd target td :
  let time := presentationTime p t tm now in
  let gFrame := Math_round (time * inject_Z (frameRate gd)) in
  let tFrame := Math_round (time * inject_Z (frameRate td)) in
  let tag := currentTextureTag t !! "baseColor" in
  let keyG := (g, gFrame - 1) in
  let keyT := ("baseColor", tag, target, tFrame - 1) in
  trackData p = Some t -> timeData p = Some tm ->
  paused p = false -> hasAudio t && media_ended (audio p) = false ->
  currentGeometryTarget t = Some g -> geometry (manifest t) !! g = Some gd ->
  currentTextureTarget t !! "baseColor" = Some target ->
  streamData (manifest t) (TextureStream "baseColor" target) = Some td ->
  frameCount gd - 1 <= gFrame ->
  processFrame now p
  = (Normal tt,
     with_timeData (Some (set_isClockPaused true (set_currentTime time tm)))
       (with_textureMap [] (with_meshMap [] p)),
     evictGeometryCalls keyG (meshMap p) ++ evictTextureCalls keyT (textureMap p) ++
     [EClearInterval] ++
     releaseGeometryCalls (JsMap.delete keyG (meshMap p)) ++
     releaseTextureCalls (JsMap.delete keyT (textureMap p)) ++
     [EOnTrackEnd]).
Proof.
  intros time gFrame tFrame tag keyG keyT Ht Htm Hpaused Hended Hg Hgd Htarget Htd Hlast.
  unfold processFrame. rewrite run_bind_get, Hpaused. cbv beta iota.
  rewrite (run_bind_getTrack _ _ _ Ht), Hended. cbv beta iota.
  rewrite (run_processFrame_clock _ p t tm now Ht Htm). fold time.
  set (p1 := with_timeData _ p).
  assert (Ht1 : trackData p1 = Some t) by done.
  assert (Htm1 : timeData p1 = Some (set_currentTime time tm)) by done.
  rewrite (run_bind_pure _ _ _ _ (run_currentGeometryFrame _ _ _ _ _ Ht1 Htm1 Hg Hgd)).
  rewrite (run_bind_pure _ _ _ _ (run_currentTextureFrame _ _ _ _ _ _ Ht1 Htm1 Htarget Htd)).
  simpl currentTime. fold gFrame tFrame.
  rewrite Htarget, run_bind_deref_Some, Hg, run_bind_deref_Some. fold tag keyG keyT.
  eapply run_bind_seq; [exact (run_removePlayedGeometryBuffer_calls keyG p1)|].
  eapply run_bind_seq; [exact (run_removePlayedTextureBuffer_calls keyT _)|].
  set (p3 := with_textureMap _ _).
  assert (Ht3 : trackData p3 = Some t) by done.
  assert (Htm3 : timeData p3 = Some (set_currentTime time tm)) by done.
  rewrite (run_bind_pure _ _ _ _ (run_GeometryFrameCount _ _ _ _ Ht3 Hg Hgd)).
  replace (frameCount gd - 1 <=? gFrame) with true by (symmetry; apply Z.leb_le; lia).
  rewrite run_bind_emit.
  rewrite (bind_normal _ _ _ _ _ _ (run_dispose false p3)).
  erewrite run_bind_modifyTime by done.
  unfold emit, completion, state, trace. simpl.
  by rewrite app_nil_r, <- !app_assoc.
Qed.

(** X3. A tick of a playing multi-target player whose playhead has reached
    the last frame ([frameCount - 1]) or lies beyond it ends the track
    without showing a frame: after the eviction of the previous frame the
    interval is cleared, every entry left in the two stores is deleted and
    released, the clock is flagged paused and [onTrackEnd] is called; both
    stores end empty.  So the last frame of a track is never presented,
    whether it is decoded or not. *)
Theorem processFrame_end_of_track (now : Z) (p : Player) (t : TrackData) (tm : TimeData)
  (g target : string) (gd td : TargetData) :
  let time := presentationTime p t tm now in
  let gFrame := Math_round (time * inject_Z (frameRate gd)) in
  let tFrame := Math_round (time * inject_Z (frameRate td)) in
  let tag := currentTextureTag t !! "baseColor" in
  let keyG := (g, gFrame - 1) in
  let keyT := ("baseColor", tag, target, tFrame - 1) in
  trackData p = Some t -> timeData p = Some tm ->
  paused p = false -> hasAudio t && media_ended (audio p) = false ->
  currentGeometryTarget t = Some g -> geometry (manifest t) !! g = Some gd ->
  currentTextureTarget t !! "baseColor" = Some target ->
  streamData (manifest t) (TextureStream "baseColor" target) = Some td ->
  frameCount gd - 1 <= gFrame ->
  processFrame now p
  = (Normal tt,
     with_timeData (Some (set_isClockPaused true (set_currentTime time tm)))
       (with_textureMap [] (with_meshMap [] p)),
     evictGeometryCalls keyG (meshMap p) ++ evictTextureCalls keyT (textureMap p) ++
     [EClearInterval] ++
     releaseGeometryCalls (JsMap.delete keyG (meshMap p)) ++
     releaseTextureCalls (JsMap.delete keyT (textureMap p)) ++
     [EOnTrackEnd]).
Proof. apply run_processFrame_end. Qed.


(** X4. Wall-clock mode: once a tick has ended the track, the player is
    paused, and every further tick reports the buffering progress 0 and does
    nothing else, whatever the time. *)
Theorem ended_track_reports_buffering (now now' : Z) (p : Player) (t : TrackData)
  (tm : TimeData) (g target : string) (gd td : TargetData) :
  let time := presentationTime p t tm now in
  trackData p = Some t -> timeData p = Some tm ->
  paused p = false -> hasAudio t = false ->
  currentGeometryTarget t = Some g -> geometry (manifest t) !! g = Some gd ->
  currentTextureTarget t !! "baseColor" = Some target ->
  streamData (manifest t) (TextureStream "baseColor" target) = Some td ->
  frameCount gd - 1 <= Math_round (time * inject_Z (frameRate gd)) ->
  paused (state (processFrame now p)) = true /\
  processFrame now' (state (processFrame now p))
  = (Normal tt, state (processFrame now p), [EOnMeshBuffering 0]).
Proof.
  intros time Ht Htm Hpaused Ha Hg Hgd Htarget Htd Hlast.
  assert (Hp : paused (state (processFrame now p)) = true).
  { rewrite (run_processFrame_end now p t tm g gd target td Ht Htm Hpaused); try done.
    - unfold paused, state. simpl. by rewrite Ht, Ha.
    - by rewrite Ha. }
  split; [exact Hp|]. by apply processFrame_paused.
Qed.


(** X5. Audio mode: the end of the track by frame count does not stop the
    media element, so the player is not paused afterwards; as long as the
    media element keeps playing at or past the last frame, every further
    tick clears the interval and calls [onTrackEnd] again. *)
Theorem audio_end_of_track_repeats (now now' : Z) (p : Player) (t : TrackData)
  (tm : TimeData) (g target : string) (gd td : TargetData) :
  trackData p = Some t -> timeData p = Some tm ->
  hasAudio t = true ->
  media_paused (audio p) = false -> media_ended (audio p) = false ->
  currentGeometryTarget t = Some g -> geometry (manifest t) !! g = Some gd ->
  currentTextureTarget t !! "baseColor" = Some target ->
  streamData (manifest t) (TextureStream "baseColor" target) = Some td ->
  frameCount gd - 1 <= Math_round (media_currentTime (audio p) * inject_Z (frameRate gd)) ->
  EOnTrackEnd ∈ trace (processFrame now p) /\
  paused (state (processFrame now p)) = false /\
  processFrame now' (state (processFrame now p))
  = (Normal tt, state (processFrame now p), [EClearInterval; EOnTrackEnd]).
Proof.
  intros Ht Htm Ha Hp He Hg Hgd Htarget Htd Hlast.
  assert (Hpaused : paused p = false) by (unfold paused; by rewrite Ht, Htm, Ha).
  assert (Hended : hasAudio t && media_ended (audio p) = false) by by rewrite Ha, He.
  assert (Htime : presentationTime p t tm now = media_currentTime (audio p)).
  { unfold presentationTime. by rewrite Ha. }
  pose proof (run_processFrame_end now p t tm g gd target td Ht Htm Hpaused Hended
                Hg Hgd Htarget Htd) as Hrun.
  cbv zeta in Hrun. rewrite Htime in Hrun. specialize (Hrun Hlast).
  rewrite Hrun. unfold state, trace. simpl.
  split; [|split].
  - repeat (first [rewrite elem_of_app | rewrite elem_of_cons]). tauto.
  - unfold paused. simpl. by rewrite Ht, Ha.
  - set (p' := with_timeData _ _).
    set (tm' := set_isClockPaused true (set_currentTime (media_currentTime (audio p)) tm)).
    assert (Hpaused' : paused p' = false) by (unfold paused; simpl; by rewrite Ht, Ha).
    pose proof (run_processFrame_end now' p' t tm' g gd target td Ht eq_refl Hpaused' Hended
                  Hg Hgd Htarget Htd) as Hrun'.
    cbv zeta in Hrun'. unfold presentationTime in Hrun'. rewrite Ha in Hrun'.
    by rewrite (Hrun' Hlast).
Qed.


(** ** What a tick presents *)

Lemma evictGeometryCalls_eviction key store : Forall is_eviction (evictGeometryCalls key store).
Proof. unfold evictGeometryCalls. destruct (JsMap.get key store); by repeat constructor. Qed.

Lemma evictTextureCalls_eviction key store : Forall is_eviction (evictTextureCalls key store).
Proof. unfold evictTextureCalls. destruct (JsMap.get key store); by repeat constructor. Qed.

Lemma releaseGeometryCalls_eviction store : Forall is_eviction (releaseGeometryCalls store).
Proof.
  unfold releaseGeometryCalls. induction store as [|[k b] store IH]; [constructor|].
  simpl. by repeat constructor.
Qed.

Lemma releaseTextureCalls_eviction store : Forall is_eviction (releaseTextureCalls store).
Proof.
  unfold releaseTextureCalls. induction store as [|[k b] store IH]; [constructor|].
  simpl. by repeat constructor.
Qed.

(** The tick of a playing player whose playhead is before the last frame,
    evaluated: the state after the two evictions and what is shown. *)
Lemma run_processFrame_playing now p t tm g gd target td :
  let time := presentationTime p t tm now in
  let gFrame := Math_round (time * inject_Z (frameRate gd)) in
  let tFrame := Math_round (time * inject_Z (frameRate td)) in
  let tag := currentTextureTag t !! "baseColor" in
  let keyG := (g, gFrame - 1) in
  let keyT := ("baseColor", tag, target, tFrame - 1) in
  let p3 :=
    with_textureMap (JsMap.delete keyT (textureMap p))
      (with_meshMap (JsMap.delete keyG (meshMap p))
         (with_timeData (Some (set_currentTime time tm)) p)) in
  let evicted :=
    (evictGeometryCalls keyG (meshMap p) ++ evictTextureCalls keyT (textureMap p)) in
  trackData p = Some t -> timeData p = Some tm ->
  paused p = false -> hasAudio t && media_ended (audio p) = false ->
  currentGeometryTarget t = Some g -> geometry (manifest t) !! g = Some gd ->
  currentTextureTarget t !! "baseColor" = Some target ->
  streamData (manifest t) (TextureStream "baseColor" target) = Some td ->
  gFrame < frameCount gd - 1 ->
  processFrame now p
  = match JsMap.get (g, gFrame) (meshMap p) with
    | None => (Normal tt, p3, evicted)
    | Some geometry =>
        match JsMap.get ("baseColor", tag, target, tFrame) (textureMap p) with
        | Some texture =>
            (Normal tt, p3,
             evicted ++ [EUpdateGeometry geometry; EUpdateTexture texture; EOnFrameShow gFrame])
        | None =>
            match textureTargets t !! "baseColor" with
            | None => (TypeError, p3, evicted ++ [EUpdateGeometry geometry])
            | Some targets =>
                match fallbackSearch (manifest t) time (textureMap p3) targets with
                | TypeError => (TypeError, p3, evicted ++ [EUpdateGeometry geometry])
                | Normal (Some texture) =>
                    (Normal tt, p3,
                     evicted ++ [EUpdateGeometry geometry; EUpdateTexture texture;
                                 EOnFrameShow gFrame])
                | Normal None =>
                    (Normal tt, p3,
                     evicted ++ [EUpdateGeometry geometry; EFailMaterial;
                                 EOnFrameShow gFrame])
                end
            end
        end
    end.
Proof.
  intros time gFrame tFrame tag keyG keyT p3 evicted
    Ht Htm Hpaused Hended Hg Hgd Htarget Htd Hlast.
  unfold processFrame. rewrite run_bind_get, Hpaused. cbv beta iota.
  rewrite (run_bind_getTrack _ _ _ Ht), Hended. cbv beta iota.
  rewrite (run_processFrame_clock _ p t tm now Ht Htm). fold time.
  set (p1 := with_timeData _ p).
  assert (Ht1 : trackData p1 = Some t) by done.
  assert (Htm1 : timeData p1 = Some (set_currentTime time tm)) by done.
  rewrite (run_bind_pure _ _ _ _ (run_currentGeometryFrame _ _ _ _ _ Ht1 Htm1 Hg Hgd)).
  rewrite (run_bind_pure _ _ _ _ (run_currentTextureFrame _ _ _ _ _ _ Ht1 Htm1 Htarget Htd)).
  simpl currentTime. fold gFrame tFrame.
  rewrite Htarget, run_bind_deref_Some, Hg, run_bind_deref_Some. fold tag keyG keyT.
  assert (Hgeo : JsMap.get (g, gFrame) (meshMap p3) = JsMap.get (g, gFrame) (meshMap p)).
  { unfold p3. simpl. apply get_delete_ne. intros [= H]. lia. }
  assert (Htex : JsMap.get ("baseColor", tag, target, tFrame) (textureMap p3)
                 = JsMap.get ("baseColor", tag, target, tFrame) (textureMap p)).
  { unfold p3. simpl. apply get_delete_ne. intros [= H]. lia. }
  assert (Ht3 : trackData p3 = Some t) by done.
  assert (Htm3 : timeData p3 = Some (set_currentTime time tm)) by done.
  assert (Hcount : (frameCount gd - 1 <=? gFrame) = false) by (apply Z.leb_gt; lia).
  assert (Hstart : forall (k : unit -> Js Player unit) c e,
    k tt p3 = (c, p3, e) ->
    bind (removePlayedGeometryBuffer keyG) (fun _ =>
      bind (removePlayedTextureBuffer keyT) (fun _ => k tt)) p1 = (c, p3, evicted ++ e)).
  { intros k c e H. unfold evicted. rewrite <- app_assoc.
    eapply run_bind_seq; [exact (run_removePlayedGeometryBuffer_calls keyG p1)|].
    eapply run_bind_seq; [exact (run_removePlayedTextureBuffer_calls keyT _)|].
    exact H. }
  destruct (JsMap.get (g, gFrame) (meshMap p)) as [geometry|] eqn:Hgetp.
  2:{ rewrite <- (app_nil_r evicted).
      apply (Hstart (fun _ => bind GeometryFrameCount _)).
      rewrite (run_bind_pure _ _ _ _ (run_GeometryFrameCount _ _ _ _ Ht3 Hg Hgd)).
      by rewrite Hcount, run_bind_get, Hgeo. }
  destruct (JsMap.get ("baseColor", tag, target, tFrame) (textureMap p)) as [texture|] eqn:Htexp.
  { apply (Hstart (fun _ => bind GeometryFrameCount _)).
    rewrite (run_bind_pure _ _ _ _ (run_GeometryFrameCount _ _ _ _ Ht3 Hg Hgd)).
    by rewrite Hcount, run_bind_get, Hgeo, Htex. }
  destruct (textureTargets t !! "baseColor") as [targets|] eqn:Htargets.
  2:{ apply (Hstart (fun _ => bind GeometryFrameCount _)).
      rewrite (run_bind_pure _ _ _ _ (run_GeometryFrameCount _ _ _ _ Ht3 Hg Hgd)).
      by rewrite Hcount, run_bind_get, Hgeo, Htex, run_bind_emit. }
  destruct (fallbackSearch (manifest t) time (textureMap p3) targets) as [[texture|]|] eqn:Hfound;
    apply (Hstart (fun _ => bind GeometryFrameCount _));
    rewrite (run_bind_pure _ _ _ _ (run_GeometryFrameCount _ _ _ _ Ht3 Hg Hgd));
    rewrite Hcount, run_bind_get, Hgeo, Htex, run_bind_emit, run_bind_deref_Some;
    rewrite (run_bind_getTime _ _ _ Htm3); simpl currentTime; by rewrite Hfound.
Qed.

Lemma not_eviction_elem (e : Event) (l : list Event) :
  e ∈ l -> Forall is_eviction l -> is_eviction e = false -> False.
Proof.
  intros Hin Hl He. rewrite Forall_forall in Hl. specialize (Hl e Hin).
  rewrite He in Hl. done.
Qed.

Ltac split_calls :=
  repeat match goal with
    | H : _ ∈ _ ++ _ |- _ => apply elem_of_app in H as [H|H]
    | H : _ ∈ _ :: _ |- _ => apply elem_of_cons in H as [H|H]
    | H : _ ∈ [] |- _ => by apply elem_of_nil in H
    | H : EOnFrameShow _ = EOnFrameShow _ |- _ => by injection H
    | H : EOnFrameShow _ = _ |- _ => discriminate H
    | H : _ ∈ evictGeometryCalls _ _ |- _ =>
        by destruct (not_eviction_elem _ _ H (evictGeometryCalls_eviction _ _) eq_refl)
    | H : _ ∈ evictTextureCalls _ _ |- _ =>
        by destruct (not_eviction_elem _ _ H (evictTextureCalls_eviction _ _) eq_refl)
    | H : _ ∈ releaseGeometryCalls _ |- _ =>
        by destruct (not_eviction_elem _ _ H (releaseGeometryCalls_eviction _) eq_refl)
    | H : _ ∈ releaseTextureCalls _ |- _ =>
        by destruct (not_eviction_elem _ _ H (releaseTextureCalls_eviction _) eq_refl)
    end.

(** X6. Whatever the state of the multi-target player, a tick calls
    [onFrameShow(f)] only for the frame [f] of the playhead of a playing
    session, only before the last frame, and only when the geometry of that
    frame is in the store; that geometry is applied to the mesh in the same
    tick. *)
Theorem processFrame_shows_stored_frame (now : Z) (p : Player) (f : Z) :
  EOnFrameShow f ∈ trace (processFrame now p) ->
  exists t tm g gd buffer,
    trackData p = Some t /\ timeData p = Some tm /\ paused p = false /\
    currentGeometryTarget t = Some g /\ geometry (manifest t) !! g = Some gd /\
    f = Math_round (presentationTime p t tm now * inject_Z (frameRate gd)) /\
    f < frameCount gd - 1 /\
    JsMap.get (g, f) (meshMap p) = Some buffer /\
    EUpdateGeometry buffer ∈ trace (processFrame now p).
Proof.
  intros Hshow.
  destruct (paused p) eqn:Hpaused.
  { rewrite (processFrame_paused _ _ Hpaused) in Hshow.
    apply list_elem_of_singleton in Hshow. done. }
  assert (exists t tm, trackData p = Some t /\ timeData p = Some tm) as (t & tm & Ht & Htm).
  { unfold paused in Hpaused. destruct (trackData p) as [t|]; [|done].
    destruct (timeData p) as [tm|]; [|done]. by exists t, tm. }
  destruct (hasAudio t && media_ended (audio p)) eqn:Hended.
  { exfalso. revert Hshow. unfold processFrame.
    rewrite run_bind_get, Hpaused. cbv beta iota.
    rewrite (run_bind_getTrack _ _ _ Ht), Hended. cbv beta iota.
    rewrite run_bind_emit, (bind_normal _ _ _ _ _ _ (run_dispose false p)).
    unfold emit, trace. simpl. intros H. split_calls. }
  set (time := presentationTime p t tm now).
  set (p1 := with_timeData (Some (set_currentTime time tm)) p).
  assert (Ht1 : trackData p1 = Some t) by done.
  assert (Htm1 : timeData p1 = Some (set_currentTime time tm)) by done.
  pose proof Hshow as Hs. unfold processFrame in Hs.
  rewrite run_bind_get, Hpaused in Hs. cbv beta iota in Hs.
  rewrite (run_bind_getTrack _ _ _ Ht), Hended in Hs. cbv beta iota in Hs.
  rewrite (run_processFrame_clock _ p t tm now Ht Htm) in Hs. fold time p1 in Hs.
  destruct (reads_currentGeometryFrame p1) as ([v|] & Hc & HP).
  2:{ rewrite (run_bind_pure_throw _ _ _ Hc) in Hs. by apply elem_of_nil in Hs. }
  destruct (HP v eq_refl) as (t' & tm' & g & gd & Ht' & Htm' & Hg & Hgd & Hv).
  rewrite Ht1 in Ht'. injection Ht' as <-. rewrite Htm1 in Htm'. injection Htm' as <-.
  simpl in Hv. clear HP.
  rewrite (run_bind_pure _ _ _ _ Hc) in Hs.
  destruct (reads_currentTextureFrame p1 "baseColor" t _ Ht1 Htm1) as ([v2|] & Hc2 & HP2).
  2:{ rewrite (run_bind_pure_throw _ _ _ Hc2) in Hs. by apply elem_of_nil in Hs. }
  destruct (HP2 v2 eq_refl) as (target & td & Htarget & Htd & Hv2). clear HP2 Hs Hc Hc2.
  fold time in Hv. subst v.
  set (gFrame := Math_round (time * inject_Z (frameRate gd))) in *.
  destruct (decide (frameCount gd - 1 <= gFrame)) as [Hlast|Hlast].
  { exfalso. revert Hshow.
    rewrite (run_processFrame_end now p t tm g gd target td Ht Htm Hpaused Hended Hg Hgd
               Htarget Htd Hlast).
    unfold trace. simpl. intros H.
    split_calls. }
  assert (Hlt : gFrame < frameCount gd - 1) by lia. clear Hlast.
  pose proof (run_processFrame_playing now p t tm g gd target td Ht Htm Hpaused Hended Hg Hgd
                Htarget Htd Hlt) as Hrun.
  cbv zeta in Hrun. fold time gFrame in Hrun.
  exists t, tm, g, gd.
  destruct (JsMap.get (g, gFrame) (meshMap p)) as [geometry|] eqn:Hget.
  2:{ exfalso. rewrite Hrun in Hshow. unfold trace in Hshow. simpl in Hshow.
      split_calls. }
  exists geometry.
  assert (Hf : f = gFrame /\ EUpdateGeometry geometry ∈ trace (processFrame now p)).
  { rewrite Hrun in Hshow |- *. clear Hrun.
    repeat match goal with
    | H : context [match ?x with _ => _ end] |- _ => destruct x
    end; unfold trace in *; simpl in *;
    (split;
     [ split_calls
     | repeat (first [rewrite elem_of_app | rewrite elem_of_cons]); tauto ]). }
  destruct Hf as [-> Hupd]. by repeat split.
Qed.


(** X7. Geometry has priority: on a tick of a playing session whose geometry
    frame is not in the store, nothing is shown and no callback is called,
    whether the texture is there or not; the tick still moves the clock and
    evicts the buffers of the frame before the playhead. *)
Theorem processFrame_skips_missing_geometry (now : Z) (p : Player) (t : TrackData)
  (tm : TimeData) (g target : string) (gd td : TargetData) :
  let time := presentationTime p t tm now in
  let gFrame := Math_round (time * inject_Z (frameRate gd)) in
  let tFrame := Math_round (time * inject_Z (frameRate td)) in
  let keyG := (g, gFrame - 1) in
  let keyT := ("baseColor", currentTextureTag t !! "baseColor", target, tFrame - 1) in
  trackData p = Some t -> timeData p = Some tm ->
  paused p = false -> hasAudio t && media_ended (audio p) = false ->
  currentGeometryTarget t = Some g -> geometry (manifest t) !! g = Some gd ->
  currentTextureTarget t !! "baseColor" = Some target ->
  streamData (manifest t) (TextureStream "baseColor" target) = Some td ->
  gFrame < frameCount gd - 1 ->
  JsMap.get (g, gFrame) (meshMap p) = None ->
  processFrame now p
  = (Normal tt,
     with_textureMap (JsMap.delete keyT (textureMap p))
       (with_meshMap (JsMap.delete keyG (meshMap p))
          (with_timeData (Some (set_currentTime time tm)) p)),
     evictGeometryCalls keyG (meshMap p) ++ evictTextureCalls keyT (textureMap p)).
Proof.
  intros time gFrame tFrame keyG keyT Ht Htm Hpaused Hended Hg Hgd Htarget Htd Hlast Hget.
  rewrite (run_processFrame_playing now p t tm g gd target td Ht Htm Hpaused Hended Hg Hgd
             Htarget Htd Hlast).
  fold time gFrame. by rewrite Hget.
Qed.


(** X8. The regular tick: with the geometry and the texture of the playhead
    in the stores, a tick of a playing session first evicts the buffers of
    the frame before the playhead, then applies that geometry and that
    texture and reports the geometry frame; the two buffers shown are still
    in the stores afterwards. *)
Theorem processFrame_shows_frame (now : Z) (p : Player) (t : TrackData)
  (tm : TimeData) (g target : string) (gd td : TargetData)
  (geometry0 : BufferGeometry) (texture0 : Texture) :
  let time := presentationTime p t tm now in
  let gFrame := Math_round (time * inject_Z (frameRate gd)) in
  let tFrame := Math_round (time * inject_Z (frameRate td)) in
  let tag := currentTextureTag t !! "baseColor" in
  let keyG := (g, gFrame - 1) in
  let keyT := ("baseColor", tag, target, tFrame - 1) in
  trackData p = Some t -> timeData p = Some tm ->
  paused p = false -> hasAudio t && media_ended (audio p) = false ->
  currentGeometryTarget t = Some g -> geometry (manifest t) !! g = Some gd ->
  currentTextureTarget t !! "baseColor" = Some target ->
  streamData (manifest t) (TextureStream "baseColor" target) = Some td ->
  gFrame < frameCount gd - 1 ->
  JsMap.get (g, gFrame) (meshMap p) = Some geometry0 ->
  JsMap.get ("baseColor", tag, target, tFrame) (textureMap p) = Some texture0 ->
  processFrame now p
  = (Normal tt,
     with_textureMap (JsMap.delete keyT (textureMap p))
       (with_meshMap (JsMap.delete keyG (meshMap p))
          (with_timeData (Some (set_currentTime time tm)) p)),
     evictGeometryCalls keyG (meshMap p) ++ evictTextureCalls keyT (textureMap p) ++
     [EUpdateGeometry geometry0; EUpdateTexture texture0; EOnFrameShow gFrame]) /\
  JsMap.get (g, gFrame) (meshMap (state (processFrame now p))) = Some geometry0 /\
  JsMap.get ("baseColor", tag, target, tFrame) (textureMap (state (processFrame now p)))
  = Some texture0.
Proof.
  intros time gFrame tFrame tag keyG keyT Ht Htm Hpaused Hended Hg Hgd Htarget Htd Hlast
    Hget Htex.
  rewrite (run_processFrame_playing now p t tm g gd target td Ht Htm Hpaused Hended Hg Hgd
             Htarget Htd Hlast).
  fold time gFrame tFrame tag keyG keyT. rewrite Hget, Htex. unfold state. simpl.
  split; [by rewrite <- app_assoc|]. split.
  - rewrite get_delete_ne; [done|]. intros [= H]. lia.
  - rewrite get_delete_ne; [done|]. intros [= H]. lia.
Qed.


(** ** The examples of the further properties *)

(** Closed facts about the examples are settled by evaluation. *)
Ltac by_evaluation := first [exact eq_refl | by vm_compute | simpl; lia].

(** The session written out is the one [playTrack] and [startVideo] reach. *)
Lemma demoRunning_reached : demoRunning [] [] = demoStarted.
Proof. vm_compute. reflexivity. Qed.

Lemma processFrame_end_of_track_witness :
  trace (processFrame 11200 demoLeftover)
  = [EClearInterval;
     EMeshMapDelete ("g", 5); EDisposeGeometry (Geometry 5);
     EMeshMapDelete ("g", 8); EDisposeGeometry (Geometry 8);
     EMeshMapDelete ("g", 9); EDisposeGeometry (Geometry 9);
     EOnTrackEnd] /\
  meshMap (state (processFrame 11200 demoLeftover)) = [].
Proof.
  rewrite (processFrame_end_of_track 11200 demoLeftover (demoSession demoManifest false)
             demoClock "g" "low" {| frameRate := 30; frameCount := 300 |}
             {| frameRate := 15; frameCount := 150 |});
    [split; reflexivity | by_evaluation..].
Defined.

Lemma ended_track_reports_buffering_witness :
  paused (state (processFrame 11200 demoLeftover)) = true /\
  processFrame 11300 (state (processFrame 11200 demoLeftover))
  = (Normal tt, state (processFrame 11200 demoLeftover), [EOnMeshBuffering 0]).
Proof.
  apply (ended_track_reports_buffering 11200 11300 demoLeftover
           (demoSession demoManifest false) demoClock "g" "low"
           {| frameRate := 30; frameCount := 300 |}
           {| frameRate := 15; frameCount := 150 |}); by_evaluation.
Defined.

Lemma audio_end_of_track_repeats_witness :
  EOnTrackEnd ∈ trace (processFrame 0 demoAudioPlaying) /\
  paused (state (processFrame 0 demoAudioPlaying)) = false /\
  processFrame 1 (state (processFrame 0 demoAudioPlaying))
  = (Normal tt, state (processFrame 0 demoAudioPlaying), [EClearInterval; EOnTrackEnd]).
Proof.
  apply (audio_end_of_track_repeats 0 1 demoAudioPlaying
           (demoSession demoAudioManifest true) demoAudioClock "g" "low"
           {| frameRate := 30; frameCount := 300 |}
           {| frameRate := 15; frameCount := 150 |}); by_evaluation.
Defined.

Lemma demoDecoded_tick :
  trace (processFrame 2867 demoDecoded)
  = [EDisposeGeometry (Geometry 49); EMeshMapDelete ("g", 49);
     EDisposeTexture (Tex 24); ETextureMapDelete ("baseColor", Some "default", "low", 24);
     EUpdateGeometry (Geometry 50); EUpdateTexture (Tex 25); EOnFrameShow 50].
Proof. reflexivity. Qed.

Lemma processFrame_shows_stored_frame_witness :
  exists buffer,
    JsMap.get ("g", 50) (meshMap demoDecoded) = Some buffer /\
    EUpdateGeometry buffer ∈ trace (processFrame 2867 demoDecoded).
Proof.
  destruct (processFrame_shows_stored_frame 2867 demoDecoded 50)
    as (t & tm & g & gd & buffer & Ht & Htm & _ & Hg & Hgd & _ & _ & Hget & Hupd).
  - rewrite demoDecoded_tick. repeat (first [by left | right]).
  - exists buffer. split; [|exact Hupd].
    injection Ht as <-. by injection Hg as <-.
Defined.

Lemma processFrame_skips_missing_geometry_witness :
  trace (processFrame 2900 demoDecoded)
  = [EDisposeGeometry (Geometry 50); EMeshMapDelete ("g", 50);
     EDisposeTexture (Tex 25); ETextureMapDelete ("baseColor", Some "default", "low", 25)].
Proof.
  rewrite (processFrame_skips_missing_geometry 2900 demoDecoded
             (demoSession demoManifest false) demoClock "g" "low"
             {| frameRate := 30; frameCount := 300 |}
             {| frameRate := 15; frameCount := 150 |}); by_evaluation.
Defined.

Lemma processFrame_shows_frame_witness :
  trace (processFrame 2867 demoDecoded)
  = [EDisposeGeometry (Geometry 49); EMeshMapDelete ("g", 49);
     EDisposeTexture (Tex 24); ETextureMapDelete ("baseColor", Some "default", "low", 24);
     EUpdateGeometry (Geometry 50); EUpdateTexture (Tex 25); EOnFrameShow 50].
Proof.
  destruct (processFrame_shows_frame 2867 demoDecoded (demoSession demoManifest false) demoClock
              "g" "low" {| frameRate := 30; frameCount := 300 |}
              {| frameRate := 15; frameCount := 150 |} (Geometry 50) (Tex 25))
    as (Hrun & _); [by_evaluation..|].
  rewrite Hrun. reflexivity.
Defined.

(** ** Completion of a scheduling pass *)

(** The controller touches the track data only, calls nothing, and leaves
    the window empty whenever it decides. *)
Lemma run_adjustTextureTarget p t :
  trackData p = Some t ->
  trace (adjustTextureTarget p) = [] /\
  timeData (state (adjustTextureTarget p)) = timeData p /\
  audio (state (adjustTextureTarget p)) = audio p /\
  ((length (stats t) < 3)%nat -> adjustTextureTarget p = (Normal tt, p, [])) /\
  ((3 <= length (stats t))%nat -> completion (adjustTextureTarget p) = Normal tt ->
   exists t', trackData (state (adjustTextureTarget p)) = Some t' /\ stats t' = [] /\
     hasAudio t' = hasAudio t /\
     lastRequestedGeometryFrame t' = lastRequestedGeometryFrame t) /\
  (forall t', trackData (state (adjustTextureTarget p)) = Some t' ->
     hasAudio t' = hasAudio t /\
     lastRequestedGeometryFrame t' = lastRequestedGeometryFrame t).
Proof.
  intros Ht. unfold adjustTextureTarget. rewrite (run_bind_getTrack _ _ _ Ht).
  destruct (Z.of_nat (length (stats t)) <? 3) eqn:Hlen.
  { apply Z.ltb_lt in Hlen. unfold ret, state, trace, completion. simpl.
    split_and!; try done; try lia. intros t' Ht'. split; congruence. }
  apply Z.ltb_ge in Hlen. cbv zeta.
  assert (Hmove : forall c : option string,
    let r := bind (modifyTrack (fun t0 =>
                     set_currentTextureTarget
                       (assign "baseColor" c (currentTextureTarget t0)) t0))
               (fun _ => modifyTrack (set_stats [])) p in
    r = (Normal tt,
         with_trackData
           (Some (set_stats []
                    (set_currentTextureTarget
                       (assign "baseColor" c (currentTextureTarget t)) t))) p, [])).
  { intros c. cbv zeta. erewrite run_bind_modifyTrack by eassumption.
    by erewrite run_modifyTrack. }
  assert (Hstay :
    bind (ret tt) (fun _ => modifyTrack (set_stats [])) p
    = (Normal tt, with_trackData (Some (set_stats [] t)) p, [])).
  { rewrite run_bind_ret. by erewrite run_modifyTrack. }
  assert (Hthrow :
    textureTargets t !! "baseColor" = None ->
    forall k : list string -> Js Player unit,
    bind (bind (deref (textureTargets t !! "baseColor")) k)
      (fun _ => modifyTrack (set_stats [])) p = (TypeError, p, [])).
  { intros -> k. done. }
  assert (Hleaf : forall r t1,
    r = (Normal tt, with_trackData (Some t1) p, []) -> stats t1 = [] ->
    hasAudio t1 = hasAudio t ->
    lastRequestedGeometryFrame t1 = lastRequestedGeometryFrame t ->
    trace r = [] /\ timeData (state r) = timeData p /\ audio (state r) = audio p /\
    ((length (stats t) < 3)%nat -> r = (Normal tt, p, [])) /\
    ((3 <= length (stats t))%nat -> completion r = Normal tt ->
     exists t', trackData (state r) = Some t' /\ stats t' = [] /\
       hasAudio t' = hasAudio t /\
       lastRequestedGeometryFrame t' = lastRequestedGeometryFrame t) /\
    (forall t', trackData (state r) = Some t' ->
       hasAudio t' = hasAudio t /\
       lastRequestedGeometryFrame t' = lastRequestedGeometryFrame t)).
  { intros r t1 -> Hs Ha Hm. unfold state, trace, completion. simpl.
    split_and!; try done; try lia.
    - intros _ _. by exists t1.
    - by intros t' [= <-]. }
  assert (Hfail : forall r,
    r = (TypeError, p, []) ->
    trace r = [] /\ timeData (state r) = timeData p /\ audio (state r) = audio p /\
    ((length (stats t) < 3)%nat -> r = (Normal tt, p, [])) /\
    ((3 <= length (stats t))%nat -> completion r = Normal tt ->
     exists t', trackData (state r) = Some t' /\ stats t' = [] /\
       hasAudio t' = hasAudio t /\
       lastRequestedGeometryFrame t' = lastRequestedGeometryFrame t) /\
    (forall t', trackData (state r) = Some t' ->
       hasAudio t' = hasAudio t /\
       lastRequestedGeometryFrame t' = lastRequestedGeometryFrame t)).
  { intros r ->. unfold state, trace, completion. simpl.
    split_and!; try done; try lia. intros t' Ht'. split; congruence. }
  destruct (Qle_bool 0 (mean (stats t)) && Qle_bool (mean (stats t)) (3 # 10)).
  - destruct (textureTargets t !! "baseColor") as [targets|] eqn:Htargets.
    2:{ by apply Hfail, Hthrow. }
    rewrite run_bind_assoc, run_bind_deref_Some.
    destruct (_ <? _).
    + by eapply Hleaf; [apply Hmove|..].
    + by eapply Hleaf; [apply Hstay|..].
  - destruct (Qle_bool (3 # 10) (mean (stats t)) && Qle_bool (mean (stats t)) (6 # 10)).
    + by eapply Hleaf; [apply Hstay|..].
    + destruct (textureTargets t !! "baseColor") as [targets|] eqn:Htargets.
      2:{ by apply Hfail, Hthrow. }
      rewrite run_bind_assoc, run_bind_deref_Some.
      destruct (_ <? _).
      * by eapply Hleaf; [apply Hmove|..].
      * by eapply Hleaf; [apply Hstay|..].
Qed.

Lemma run_push_sample x p t :
  trackData p = Some t ->
  let r := bind (modifyTrack (fun t => set_stats (stats t ++ [x]) t))
             (fun _ => adjustTextureTarget) p in
  trace r = [] /\ timeData (state r) = timeData p /\ audio (state r) = audio p /\
  ((length (stats t) < 3)%nat -> completion r = Normal tt ->
   exists t', trackData (state r) = Some t' /\ (length (stats t') < 3)%nat) /\
  ((length (stats t) < 2)%nat ->
   r = (Normal tt, with_trackData (Some (set_stats (stats t ++ [x]) t)) p, [])) /\
  (forall t', trackData (state r) = Some t' ->
     hasAudio t' = hasAudio t /\
     lastRequestedGeometryFrame t' = lastRequestedGeometryFrame t).
Proof.
  intros Ht. cbv zeta. erewrite run_bind_modifyTrack by eassumption.
  set (t1 := set_stats (stats t ++ [x]) t).
  set (p1 := with_trackData (Some t1) p).
  destruct (run_adjustTextureTarget p1 t1 eq_refl) as (Htr & Htm & Ha & Hfew & Hmany & Hkept).
  assert (Hl1 : length (stats t1) = S (length (stats t))).
  { unfold t1. simpl. rewrite length_app. simpl. lia. }
  split_and!; try done.
  2:{ intros Hl. apply Hfew. lia. }
  intros Hlen Hc.
  destruct (decide (length (stats t1) < 3)%nat) as [Hlt|Hge].
  - rewrite (Hfew Hlt). by exists t1.
  - destruct Hmany as (t' & Ht' & Hs' & _); [lia|done|].
    exists t'. split; [done|]. rewrite Hs'. simpl. lia.
Qed.

#[global] Instance track_kept_TraceRel :
  TraceRel (fun (s : Player) (_ : list Event) s' => trackData s' = trackData s).
Proof. split; [done|]. intros s e1 s1 e2 s2 H1 H2. congruence. Qed.

Lemma with_trackData_same p : with_trackData (trackData p) p = p.
Proof. by destruct p. Qed.

Lemma startVideo_track now :
  keeps anywhere (fun (s : Player) (_ : list Event) s' => trackData s' = trackData s)
    (startVideo now).
Proof. unfold startVideo. keeps_steps ltac:(by simpl). Qed.

(** X9. The statistics window of the quality controller never grows to
    three samples: when the completion of a scheduling pass runs through on
    a window of fewer than three samples, the window holds fewer than three
    samples afterwards (the third sample triggers a decision, which empties
    the window); and when the geometry mark read at completion still equals
    the mark the pass saved at its start, the completion adds no sample.
    The mark is read when the requests have settled: what counts is whether
    any pass has moved it since, not what this pass requested. *)
Theorem fetchBuffers_then_window (k : FetchContinuation) (endTime callbackNow : Z)
  (p : Player) (t : TrackData) :
  trackData p = Some t -> (length (stats t) < 3)%nat ->
  completion (fetchBuffers_then k endTime callbackNow p) = Normal tt ->
  exists t',
    trackData (state (fetchBuffers_then k endTime callbackNow p)) = Some t' /\
    (length (stats t') < 3)%nat /\
    (lastRequestedGeometryFrame t !! k_gTarget k = k_oldLastGeometryFrame k ->
     stats t' = stats t).
Proof.
  intros Ht Hlen. unfold fetchBuffers_then. rewrite (run_bind_getTrack _ _ _ Ht).
  intros Hc. apply bind_inv_normal in Hc as ([] & Hc1 & Hc2 & Hst & _). rewrite Hst.
  match type of Hc1 with completion ?x = _ => set (r := x) in * end.
  assert (Hr : exists t1, trackData (state r) = Some t1 /\ (length (stats t1) < 3)%nat /\
            (lastRequestedGeometryFrame t !! k_gTarget k = k_oldLastGeometryFrame k ->
             stats t1 = stats t)).
  { subst r. destruct (lastRequestedGeometryFrame t !! k_gTarget k) as [last|];
      [|by exists t].
    destruct (k_oldLastGeometryFrame k) as [old|]; [|by exists t].
    cbv zeta in *. destruct (k_gFramesPerSecond k =? 0).
    - destruct (0 <? last - old) eqn:Hgain; [|by exists t].
      apply Z.ltb_lt in Hgain.
      destruct (run_push_sample 0%Q p t Ht) as (_ & _ & _ & Hok & _ & _).
      destruct (Hok Hlen Hc1) as (t1 & Ht1 & Hl1). exists t1. split_and!; try done.
      intros [= ->]. lia.
    - destruct (negb (Qle_bool _ 0)) eqn:Hplay; [|by exists t].
      match goal with |- context [stats _ ++ [?x]] =>
        destruct (run_push_sample x p t Ht) as (_ & _ & _ & Hok & _ & _)
      end.
      destruct (Hok Hlen Hc1) as (t1 & Ht1 & Hl1). exists t1. split_and!; try done.
      intros [= ->]. exfalso. rewrite Z.sub_diag in Hplay.
      apply negb_true_iff in Hplay. revert Hplay.
      replace (Qle_bool (inject_Z 0 / inject_Z (k_gFramesPerSecond k)) 0) with true; [done|].
      symmetry. apply Qle_bool_iff. unfold Qdiv. rewrite Qmult_0_l. apply Qle_refl. }
  destruct Hr as (t1 & Ht1 & Hl1 & Hsame). exists t1. split; [|done].
  destruct (k_callback k); [|done].
  by rewrite (startVideo_track callbackNow (state r) I).
Qed.

Lemma fetchBuffers_then_window_witness :
  exists t',
    trackData (state (fetchBuffers_then demoContinuation 1200 1200 demoWaiting)) = Some t' /\
    (length (stats t') < 3)%nat.
Proof.
  destruct (fetchBuffers_then_window demoContinuation 1200 1200 demoWaiting
              (demoSession demoManifest false)) as (t' & Ht' & Hl & _);
    [by_evaluation..|].
  by exists t'.
Defined.

(** X10. The samples of the window are ratios of a fetch time to a positive
    play time: when [Date.now()] has not gone back between the start of a
    pass and its completion, a window of non-negative samples stays one. *)
Theorem fetchBuffers_then_samples_nonneg (k : FetchContinuation) (endTime callbackNow : Z)
  (p : Player) :
  k_startTime k <= endTime ->
  (forall t, trackData p = Some t -> Forall (Qle 0) (stats t)) ->
  forall t',
    trackData (state (fetchBuffers_then k endTime callbackNow p)) = Some t' ->
    Forall (Qle 0) (stats t').
Proof. intros Hle. exact (fetchBuffers_then_samples k endTime callbackNow Hle p I). Qed.

Lemma fetchBuffers_then_samples_nonneg_witness :
  exists t',
    trackData (state (fetchBuffers_then demoContinuation 1200 1200 demoWaiting)) = Some t' /\
    stats t' = [(200 # 1000) / (121 # 30)]%Q /\
    Forall (Qle 0) (stats t').
Proof.
  eexists. split; [reflexivity|]. split; [reflexivity|].
  apply (fetchBuffers_then_samples_nonneg demoContinuation 1200 1200 demoWaiting).
  - by_evaluation.
  - intros t [= <-]. constructor.
  - reflexivity.
Defined.

(** X11. What the completion of a scheduling pass does to the clock: the
    completion of a pass without callback leaves the clock and the media
    element as they are; the completion of the first pass (callback
    [startVideo]) on a session without audio whose window holds fewer than
    two samples runs through without a call, sets the start timestamp to
    [Date.now()] and clears the paused flag, so the player is no longer
    paused. *)
Theorem first_pass_starts_playback (k : FetchContinuation) (endTime callbackNow : Z)
  (p : Player) (t : TrackData) (tm : TimeData) :
  trackData p = Some t -> timeData p = Some tm ->
  let r := fetchBuffers_then k endTime callbackNow p in
  (k_callback k = false -> timeData (state r) = timeData p /\ audio (state r) = audio p) /\
  (k_callback k = true -> hasAudio t = false -> (length (stats t) < 2)%nat ->
   completion r = Normal tt /\ trace r = [] /\
   timeData (state r) = Some (set_isClockPaused false (set_startTime callbackNow tm)) /\
   paused (state r) = false).
Proof.
  intros Ht Htm. cbv zeta. unfold fetchBuffers_then. rewrite (run_bind_getTrack _ _ _ Ht).
  match goal with |- context [bind ?m _ p] => set (sample := m) end.
  assert (Hsame : p = with_trackData (Some t) p) by by rewrite <- Ht, with_trackData_same.
  assert (Hs : trace (sample p) = [] /\ timeData (state (sample p)) = timeData p /\
               audio (state (sample p)) = audio p /\
               ((length (stats t) < 2)%nat ->
                exists t1, sample p = (Normal tt, with_trackData (Some t1) p, []) /\
                  hasAudio t1 = hasAudio t)).
  { subst sample. destruct (lastRequestedGeometryFrame t !! k_gTarget k) as [last|].
    2:{ split_and!; try done. intros _. exists t. split; [|done]. unfold ret. by rewrite <- Hsame. }
    destruct (k_oldLastGeometryFrame k) as [old|].
    2:{ split_and!; try done. intros _. exists t. split; [|done]. unfold ret. by rewrite <- Hsame. }
    cbv zeta. destruct (k_gFramesPerSecond k =? 0).
    - destruct (0 <? last - old).
      2:{ split_and!; try done. intros _. exists t. split; [|done]. unfold ret. by rewrite <- Hsame. }
      destruct (run_push_sample 0%Q p t Ht) as (H1 & H2 & H3 & _ & H4 & _).
      split_and!; try done. intros Hl. eexists. split; [by apply H4|done].
    - destruct (negb (Qle_bool _ 0)).
      2:{ split_and!; try done. intros _. exists t. split; [|done]. unfold ret. by rewrite <- Hsame. }
      match goal with |- context [stats _ ++ [?x]] =>
        destruct (run_push_sample x p t Ht) as (H1 & H2 & H3 & _ & H4 & _)
      end.
      split_and!; try done. intros Hl. eexists. split; [by apply H4|done]. }
  destruct Hs as (Htr & Htime & Haudio & Hfew).
  split.
  - intros ->. unfold bind, state. destruct (sample p) as [[[[]|] s1] e1]; simpl in *; done.
  - intros -> Ha Hl. destruct (Hfew Hl) as (t1 & Hrun & Ha1).
    rewrite (bind_normal _ _ _ _ _ _ Hrun).
    rewrite (run_startVideo_clock callbackNow (with_trackData (Some t1) p) t1 tm eq_refl);
      [|congruence|done].
    unfold completion, state, trace. simpl. split_and!; try done.
    unfold paused. simpl. by rewrite Ha1, Ha.
Qed.

Lemma first_pass_starts_playback_witness :
  paused demoWaiting = true /\
  paused (state (fetchBuffers_then demoContinuation 1200 1200 demoWaiting)) = false.
Proof.
  split; [reflexivity|].
  destruct (first_pass_starts_playback demoContinuation 1200 1200 demoWaiting
              (demoSession demoManifest false)
              {| currentTime := 0; startTime := -1; pausedTime := 0;
                 totalPausedDuration := 0; isClockPaused := true |} eq_refl eq_refl)
    as (_ & H).
  apply H; by_evaluation.
Defined.

(** ** A new track session *)

Lemma collect_deref_lookup {S V} (g : string -> option V) (l : list string)
  (acc : gmap string V) (s : S) :
  (exists m, collect l (fun x => deref (g x)) acc s = (Normal m, s, []) /\
     (forall x, x ∈ l -> is_Some (g x)) /\
     forall x, m !! x = if decide (x ∈ l) then g x else acc !! x) \/
  (collect l (fun x => deref (g x)) acc s = (TypeError, s, []) /\
   exists x, x ∈ l /\ g x = None).
Proof.
  revert acc. induction l as [|y l IH]; intros acc; simpl.
  - left. exists acc. split; [done|]. split; [by intros x H; apply elem_of_nil in H|].
    intros x.
    destruct (decide (x ∈ [])) as [H|_]; [by apply elem_of_nil in H|done].
  - destruct (g y) as [v|] eqn:Hy.
    + rewrite run_bind_deref_Some.
      destruct (IH (<[y := v]> acc)) as [(m & Hm & Hsome & Hl)|(Hm & x & Hx & Hg)].
      * left. exists m. split; [done|]. split.
        { intros x Hx. apply elem_of_cons in Hx as [->|Hx]; [by rewrite Hy|by apply Hsome]. }
        intros x. rewrite Hl.
        destruct (decide (x ∈ l)) as [Hin|Hin].
        -- rewrite decide_True; [done|]. by right.
        -- destruct (decide (x = y)) as [->|Hne].
           ++ rewrite lookup_insert_eq, decide_True; [done|]. by left.
           ++ rewrite lookup_insert_ne by done. rewrite decide_False; [done|].
              intros H. apply elem_of_cons in H as [?|?]; done.
      * right. split; [done|]. exists x. split; [by right|done].
    + right. split; [done|]. exists y. split; [by left|done].
Qed.

Lemma foldl_assign_lookup (f : string -> option string) (l : list string)
  (acc : gmap string string) (x : string) :
  foldl (fun acc ty => assign ty (f ty) acc) acc l !! x
  = if decide (x ∈ l) then f x else acc !! x.
Proof.
  revert acc. induction l as [|y l IH]; intros acc; simpl.
  - destruct (decide (x ∈ [])) as [H|_]; [by apply elem_of_nil in H|done].
  - rewrite IH. destruct (decide (x ∈ l)) as [Hin|Hin].
    + rewrite decide_True; [done|]. by right.
    + destruct (decide (x = y)) as [->|Hne].
      * rewrite decide_True by by left. unfold assign.
        destruct (f y); [by rewrite lookup_insert_eq|by rewrite lookup_delete_eq].
      * rewrite decide_False.
        2:{ intros H. apply elem_of_cons in H as [?|?]; done. }
        unfold assign. destruct (f y);
          [by rewrite lookup_insert_ne|by rewrite lookup_delete_ne].
Qed.

Lemma foldl_insert_lookup {V} (f : string -> V) (l : list string)
  (acc : gmap string V) (x : string) :
  foldl (fun acc y => <[y := f y]> acc) acc l !! x
  = if decide (x ∈ l) then Some (f x) else acc !! x.
Proof.
  revert acc. induction l as [|y l IH]; intros acc; simpl.
  - destruct (decide (x ∈ [])) as [H|_]; [by apply elem_of_nil in H|done].
  - rewrite IH. destruct (decide (x ∈ l)) as [Hin|Hin].
    + rewrite decide_True; [done|]. by right.
    + destruct (decide (x = y)) as [->|Hne].
      * rewrite decide_True by by left. by rewrite lookup_insert_eq.
      * rewrite decide_False.
        2:{ intros H. apply elem_of_cons in H as [?|?]; done. }
        by rewrite lookup_insert_ne.
Qed.

(** The session [playTrack] sets up, when it gets that far. *)
Lemma run_playTrack_init m gts tys sup au bd iv p :
  (exists inputs,
     (forall ty, ty ∈ tys -> is_Some (input_texture m !! ty)) /\
     (forall ty, inputs !! ty = if decide (ty ∈ tys) then input_texture m !! ty else None) /\
     playTrack_init m gts tys sup au bd iv p
     = (Normal tt,
        with_durations bd iv
          (with_timeData
             (Some {| currentTime := 0; startTime := -1; pausedTime := 0;
                      totalPausedDuration := 0; isClockPaused := true |})
             (with_trackData
                (Some {| manifest := m;
                         hasAudio :=
                           match audio_path m with
                           | Some path => negb (String.length path =? 0)%nat
                           | None => false
                           end && au;
                         lastRequestedGeometryFrame :=
                           foldl (fun acc target => <[target := -1]> acc) ∅ gts;
                         lastRequestedTextureFrame :=
                           (fun targets =>
                              foldl (fun acc target => <[target := -1]> acc) ∅ targets)
                           <$> foldl (fun acc ty => <[ty := sup ty]> acc) ∅ tys;
                         geometryTargets := gts;
                         currentGeometryTarget := head gts;
                         textureTypes := tys;
                         textureTargets := foldl (fun acc ty => <[ty := sup ty]> acc) ∅ tys;
                         textureTags := tagsOf <$> inputs;
                         currentTextureTarget :=
                           foldl (fun acc ty => assign ty (head (sup ty)) acc) ∅ tys;
                         currentTextureTag := omap (fun tags => head tags) (tagsOf <$> inputs);
                         stats := [] |}) p)), [])) \/
  (playTrack_init m gts tys sup au bd iv p = (TypeError, p, []) /\
   exists ty, ty ∈ tys /\ input_texture m !! ty = None).
Proof.
  unfold playTrack_init.
  destruct (collect_deref_lookup (fun ty => input_texture m !! ty) tys ∅ p)
    as [(inputs & Hc & Hsome & Hl)|(Hc & Hx)].
  - left. exists inputs. split; [done|]. split.
    + intros ty. rewrite Hl. by destruct (decide (ty ∈ tys)).
    + by rewrite (run_bind_pure _ _ _ _ Hc).
  - right. split; [|done]. by rewrite (run_bind_pure_throw _ _ _ Hc).
Qed.

(** X12. The tags of a new session: for every texture type of the track,
    [playTrack] lists the tags of the inputs of that type, or the single tag
    ['default'] when no input carries a tag, and makes the first of them the
    current tag; so a texture type always has a current tag. *)
Theorem playTrack_init_tags (m : V2Schema) (gts tys : list string)
  (sup : string -> list string) (au : bool) (bd iv : Z) (p : Player) (ty : string) :
  completion (playTrack_init m gts tys sup au bd iv p) = Normal tt -> ty ∈ tys ->
  exists t inputs,
    trackData (state (playTrack_init m gts tys sup au bd iv p)) = Some t /\
    input_texture m !! ty = Some inputs /\
    textureTags t !! ty = Some (tagsOf inputs) /\
    currentTextureTag t !! ty
    = Some (match omap id inputs with [] => "default" | tag :: _ => tag end).
Proof.
  intros Hc Hty.
  destruct (run_playTrack_init m gts tys sup au bd iv p)
    as [(inputs & Hsome & Hl & Hrun)|(Hrun & _)].
  2:{ by rewrite Hrun in Hc. }
  rewrite Hrun. unfold state. simpl. eexists.
  specialize (Hl ty). rewrite decide_True in Hl by done.
  destruct (Hsome ty Hty) as [l Hin]. rewrite Hin in Hl.
  exists l. split; [done|]. split; [done|]. simpl.
  split.
  - by rewrite lookup_fmap, Hl.
  - rewrite lookup_omap, lookup_fmap, Hl. simpl. unfold tagsOf.
    destruct (omap id l); simpl; done.
Qed.

Lemma playTrack_init_tags_witness :
  exists t,
    trackData (state (playTrack_init demoManifest ["g"] ["baseColor"] demoTargets false 4 2
                        newPlayer)) = Some t /\
    currentTextureTag t !! "baseColor" = Some "default".
Proof.
  destruct (playTrack_init_tags demoManifest ["g"] ["baseColor"] demoTargets false 4 2
              newPlayer "baseColor") as (t & inputs & Ht & Hin & _ & Hcur).
  - by_evaluation.
  - by left.
  - exists t. split; [done|]. rewrite Hcur. injection Hin as <-. done.
Defined.

(** X13. The high-water marks of a new session: every geometry target and
    every supported target of every texture type of the track starts at
    [-1], and no other mark exists; the statistics window is empty and the
    clock stands at 0, paused, with the start timestamp [-1]. *)
Theorem playTrack_init_marks (m : V2Schema) (gts tys : list string)
  (sup : string -> list string) (au : bool) (bd iv : Z) (p : Player) :
  completion (playTrack_init m gts tys sup au bd iv p) = Normal tt ->
  exists t,
    trackData (state (playTrack_init m gts tys sup au bd iv p)) = Some t /\
    (forall g, lastRequestedGeometryFrame t !! g
               = if decide (g ∈ gts) then Some (-1) else None) /\
    (forall ty target,
       lastRequestedTextureFrame t !! ty ≫= (fun marks => marks !! target)
       = if decide (ty ∈ tys /\ target ∈ sup ty) then Some (-1) else None) /\
    stats t = [] /\
    timeData (state (playTrack_init m gts tys sup au bd iv p))
    = Some {| currentTime := 0; startTime := -1; pausedTime := 0;
              totalPausedDuration := 0; isClockPaused := true |}.
Proof.
  intros Hc.
  destruct (run_playTrack_init m gts tys sup au bd iv p)
    as [(inputs & Hsome & Hl & Hrun)|(Hrun & _)].
  2:{ by rewrite Hrun in Hc. }
  rewrite Hrun. unfold state. simpl. eexists. split; [done|]. simpl.
  split_and!; try done.
  - intros g. rewrite (foldl_insert_lookup (fun _ => -1)). by rewrite lookup_empty.
  - intros ty target. rewrite lookup_fmap, (foldl_insert_lookup sup), lookup_empty.
    destruct (decide (ty ∈ tys)) as [Hty|Hty]; simpl.
    + rewrite (foldl_insert_lookup (fun _ => -1)), lookup_empty.
      destruct (decide (target ∈ sup ty)) as [Ht|Ht].
      * by rewrite decide_True.
      * rewrite decide_False; [done|]. by intros [_ ?].
    + rewrite decide_False; [done|]. by intros [? _].
Qed.

Lemma playTrack_init_marks_witness :
  exists t,
    trackData (state (playTrack_init demoManifest ["g"] ["baseColor"] demoTargets false 4 2
                        newPlayer)) = Some t /\
    lastRequestedGeometryFrame t !! "g" = Some (-1) /\
    lastRequestedGeometryFrame t !! "h" = None.
Proof.
  destruct (playTrack_init_marks demoManifest ["g"] ["baseColor"] demoTargets false 4 2
              newPlayer) as (t & Ht & Hg & _).
  - by_evaluation.
  - exists t. split; [done|]. by rewrite !Hg.
Defined.

Lemma collect_throws {S V} (f : string -> Js S V) (l : list string) (acc : gmap string V)
  (s : S) (x : string) :
  (forall y, exists c, f y s = (c, s, [])) -> x ∈ l -> f x s = (TypeError, s, []) ->
  collect l f acc s = (TypeError, s, []).
Proof.
  intros Hpure Hx Hthrow. revert acc. induction l as [|y l IH]; intros acc.
  - by apply elem_of_nil in Hx.
  - simpl. destruct (Hpure y) as ([v|] & Hy).
    + rewrite (run_bind_pure _ _ _ _ Hy).
      apply elem_of_cons in Hx as [->|Hx]; [congruence|]. by apply IH.
    + by rewrite (run_bind_pure_throw _ _ _ Hy).
Qed.

(** The first pass throws before its loop when a texture type of the track
    has no current target. *)
Lemma fetchBuffers_no_target now callback p t ty :
  trackData p = Some t -> ty ∈ textureTypes t -> currentTextureTarget t !! ty = None ->
  fetchBuffers now callback p = (TypeError, p, []).
Proof.
  intros Ht Hty Hnone. unfold fetchBuffers. rewrite (run_bind_getTrack _ _ _ Ht).
  destruct (currentGeometryTarget t) as [g|]; [|done]. rewrite run_bind_deref_Some.
  cbv zeta.
  destruct (reads_currentGeometryFrame p) as ([v|] & Hv & _).
  2:{ by rewrite (run_bind_pure_throw _ _ _ Hv). }
  rewrite (run_bind_pure _ _ _ _ Hv).
  destruct (frameRate <$> geometry (manifest t) !! g) as [fps|]; [|done].
  rewrite run_bind_deref_Some.
  apply run_bind_pure_throw. apply (collect_throws _ _ _ _ ty); [|done|].
  - intros y. destruct (timeData p) as [tm|] eqn:Htm.
    + destruct (reads_currentTextureFrame p y t tm Ht Htm) as (c & Hc & _). by exists c.
    + exists TypeError. unfold currentTextureFrame.
      by rewrite (run_bind_getTrack _ _ _ Ht), run_bind_getTime_None.
  - unfold currentTextureFrame. rewrite (run_bind_getTrack _ _ _ Ht).
    destruct (timeData p) as [tm|] eqn:Htm.
    + by rewrite (run_bind_getTime _ _ _ Htm), Hnone.
    + by rewrite run_bind_getTime_None.
Qed.

(** X14. A texture type without a supported target makes [playTrack] throw:
    the session is set up with no current target for that type, and the
    first scheduling pass fails with a [TypeError] on reading the frame rate
    of that target, before any decode request is issued. *)
Theorem playTrack_unsupported_texture_type (m : V2Schema) (gts tys : list string)
  (sup : string -> list string) (au : bool) (bd iv now : Z) (p : Player) (ty : string) :
  ty ∈ tys -> sup ty = [] ->
  completion (playTrack m gts tys sup au bd iv now p) = TypeError /\
  trace (playTrack m gts tys sup au bd iv now p) = [].
Proof.
  intros Hty Hsup. unfold playTrack.
  destruct (run_playTrack_init m gts tys sup au bd iv p)
    as [(inputs & Hsome & Hl & Hrun)|(Hrun & _)].
  2:{ by rewrite (bind_throw _ _ _ _ _ Hrun). }
  rewrite (bind_normal _ _ _ _ _ _ Hrun).
  erewrite (fetchBuffers_no_target now true _ _ ty); [done|done|done|].
  simpl. rewrite foldl_assign_lookup, decide_True by done. by rewrite Hsup.
Qed.

Lemma playTrack_unsupported_texture_type_witness :
  completion (playTrack demoManifest ["g"] ["baseColor"] (fun _ => []) false 4 2 1000
                newPlayer) = TypeError /\
  trace (playTrack demoManifest ["g"] ["baseColor"] (fun _ => []) false 4 2 1000
           newPlayer) = [].
Proof.
  apply (playTrack_unsupported_texture_type demoManifest ["g"] ["baseColor"] (fun _ => [])
           false 4 2 1000 newPlayer "baseColor"); [by left|done].
Defined.

(** X15. The state [playTrack] leaves on a session without audio is paused,
    whatever its first scheduling pass requested: a tick on it only reports
    the buffering progress 0 and leaves it as it is. *)
Theorem playTrack_leaves_paused (m : V2Schema) (gts tys : list string)
  (sup : string -> list string) (au : bool) (bd iv now now' : Z) (p : Player) :
  completion (playTrack_init m gts tys sup au bd iv p) = Normal tt ->
  audio_path m = None \/ au = false ->
  let p' := state (playTrack m gts tys sup au bd iv now p) in
  paused p' = true /\ processFrame now' p' = (Normal tt, p', [EOnMeshBuffering 0]).
Proof.
  intros Hc Hau. cbv zeta.
  assert (Hp : paused (state (playTrack m gts tys sup au bd iv now p)) = true).
  { unfold playTrack.
    destruct (run_playTrack_init m gts tys sup au bd iv p)
      as [(inputs & Hsome & Hl & Hrun)|(Hrun & _)].
    2:{ by rewrite Hrun in Hc. }
    rewrite (bind_normal _ _ _ _ _ _ Hrun). unfold state at 1. simpl.
    match goal with |- paused (state (fetchBuffers now true ?q)) = true => set (p1 := q) end.
    destruct (fetchBuffers_pass now true p1) as [Hscrub _ _ _ _].
    destruct (scrub_fields _ _ Hscrub) as (_ & Htm & _ & _ & _ & Htrack).
    unfold paused. rewrite Htm.
    destruct (trackData (state (fetchBuffers now true p1))) as [t'|] eqn:Ht'; [|done].
    assert (Ha : hasAudio t' = false).
    { pose proof (f_equal (fmap (M:=option) hasAudio) Htrack) as H. simpl in H.
      injection H as ->. destruct Hau as [->| ->]; [done|]. apply andb_false_r. }
    by rewrite Ha. }
  split; [done|]. by apply processFrame_paused.
Qed.

Lemma playTrack_leaves_paused_witness :
  paused (state demoStart) = true /\
  processFrame 1100 (state demoStart) = (Normal tt, state demoStart, [EOnMeshBuffering 0]).
Proof.
  apply (playTrack_leaves_paused demoManifest ["g"] ["baseColor"] demoTargets false 4 2
           1000 1100 newPlayer); [by_evaluation|by left].
Defined.

(** ** More on the playback clock *)

(** X16. [pause()] is not guarded: on a wall-clock session a second
    [pause()] while paused overwrites the pause timestamp, so the [play()]
    that follows counts the pause from the second call only; the time
    between the two [pause()] calls is played back as if the clock had been
    running. *)
Theorem pause_twice_shortens_pause (p : Player) (t : TrackData) (tm : TimeData)
  (T1 T2 T3 T4 : Z) :
  trackData p = Some t -> hasAudio t = false -> timeData p = Some tm ->
  let resumed := state (play T3 (state (pause T2 (state (pause T1 p))))) in
  timeData resumed
  = Some (set_isClockPaused false
            (set_totalPausedDuration (totalPausedDuration tm + (T3 - T2))
               (set_pausedTime T2 (set_isClockPaused true tm)))) /\
  currentTime <$> timeData (state (processFrame T4 resumed))
  = Some (inject_Z (T4 - startTime tm - (totalPausedDuration tm + (T3 - T2))) / 1000)%Q.
Proof.
  intros Ht Ha Htm resumed.
  assert (Hr : resumed
    = with_timeData
        (Some (set_isClockPaused false
                 (set_totalPausedDuration (totalPausedDuration tm + (T3 - T2))
                    (set_pausedTime T2 (set_isClockPaused true tm))))) p).
  { subst resumed.
    rewrite (run_pause_clock T1 p t tm Ht Ha Htm), state_run.
    match goal with |- context [pause T2 ?q] =>
      rewrite (run_pause_clock T2 q t _ Ht Ha eq_refl), state_run
    end.
    match goal with |- context [play T3 ?q] =>
      rewrite (run_play_clock T3 q t _ Ht Ha eq_refl eq_refl), state_run
    end.
    done. }
  split; [by rewrite Hr|].
  rewrite (processFrame_time T4 resumed t
             (set_isClockPaused false
                (set_totalPausedDuration (totalPausedDuration tm + (T3 - T2))
                   (set_pausedTime T2 (set_isClockPaused true tm))))).
  - unfold presentationTime. by rewrite Ha.
  - by rewrite Hr.
  - by rewrite Hr.
  - rewrite Hr. unfold paused. simpl. by rewrite Ht, Ha.
  - by rewrite Ha.
Qed.

Lemma pause_twice_shortens_pause_witness :
  currentTime <$>
    timeData (state (processFrame 6200
      (state (play 4200 (state (pause 3200 (state (pause 2200 (demoRunning [] [])))))))))
  = Some (inject_Z 4000 / 1000)%Q.
Proof.
  destruct (pause_twice_shortens_pause (demoRunning [] []) (demoSession demoManifest false)
              demoClock 2200 3200 4200 6200 eq_refl eq_refl eq_refl) as (_ & H).
  exact H.
Defined.

(** X17. A tick reads the wall clock only on a playing session without
    audio: when the player is paused, or the session has audio, the tick
    does the same whatever [Date.now()] gives. *)
Theorem processFrame_ignores_wall_clock (now now' : Z) (p : Player) :
  paused p = true \/ (exists t, trackData p = Some t /\ hasAudio t = true) ->
  processFrame now p = processFrame now' p.
Proof.
  intros H. destruct (paused p) eqn:Hpaused.
  { by rewrite !processFrame_paused. }
  destruct H as [?|(t & Ht & Ha)]; [done|].
  unfold processFrame. rewrite !run_bind_get, Hpaused. cbv beta iota.
  rewrite !(run_bind_getTrack _ _ _ Ht), Ha. done.
Qed.

Lemma processFrame_ignores_wall_clock_witness :
  processFrame 0 demoAudioPlaying = processFrame 5000 demoAudioPlaying.
Proof.
  apply processFrame_ignores_wall_clock. right. by eexists.
Defined.

(** ** The segment player: tick and eviction window *)

Lemma segment_run_textureTargetData p h td :
  SegmentPlayer.header p = Some h ->
  SegmentPlayer.h_texture h !! SegmentPlayer.textureTarget p = Some td ->
  SegmentPlayer.textureTargetData p = (Normal td, p, []).
Proof.
  intros Hh Htd. unfold SegmentPlayer.textureTargetData.
  by rewrite run_bind_get, Hh, run_bind_deref_Some, Htd.
Qed.

Lemma segment_run_BatchSize p h td :
  SegmentPlayer.header p = Some h ->
  SegmentPlayer.h_texture h !! SegmentPlayer.textureTarget p = Some td ->
  SegmentPlayer.truthy (SegmentPlayer.textureTarget p) = true ->
  SegmentPlayer.BatchSize p = (Normal (SegmentPlayer.sequenceSize td), p, []).
Proof.
  intros Hh Htd Htruthy. unfold SegmentPlayer.BatchSize.
  rewrite run_bind_get, Hh, Htruthy.
  by rewrite (run_bind_pure _ _ _ _ (segment_run_textureTargetData _ _ _ Hh Htd)).
Qed.

Lemma segment_run_GeometryFrameCount p h gd :
  SegmentPlayer.header p = Some h ->
  SegmentPlayer.h_geometry h !! SegmentPlayer.geometryTarget p = Some gd ->
  SegmentPlayer.truthy (SegmentPlayer.geometryTarget p) = true ->
  SegmentPlayer.GeometryFrameCount p = (Normal (frameCount gd), p, []).
Proof.
  intros Hh Hgd Htruthy. unfold SegmentPlayer.GeometryFrameCount.
  rewrite run_bind_get, Hh, Htruthy.
  by rewrite (run_bind_pure _ _ _ _ (segment_run_geometryTargetData _ _ _ Hh Hgd)).
Qed.

Lemma segment_run_dispose p :
  SegmentPlayer.dispose p
  = (Normal tt, SegmentPlayer.with_stores [] [] p,
     omap (fun i => EDisposeGeometry <$> JsMap.get i (SegmentPlayer.meshMap p))
       (seqZ 0 (JsMap.size (SegmentPlayer.meshMap p))) ++
     omap (fun i => EDisposeTexture <$> JsMap.get i (SegmentPlayer.textureMap p))
       (seqZ 0 (JsMap.size (SegmentPlayer.textureMap p)))).
Proof.
  unfold SegmentPlayer.dispose. rewrite run_bind_get.
  eapply run_bind_seq; [apply forEach_emit_found|].
  rewrite <- (app_nil_r (omap (fun i => EDisposeTexture <$> _) _)).
  eapply run_bind_seq; [apply forEach_emit_found|]. done.
Qed.

(** The tick of a playing segment player, evaluated. *)
Lemma run_segment_processFrame now p h gd td :
  let time := segmentTime p now in
  let p1 := segmentTicked p now in
  let frame := SegmentPlayer.getCurrentFrame (frameRate gd) time in
  let tFrame := SegmentPlayer.getCurrentFrame (SegmentPlayer.t_frameRate td) time in
  let segment := tFrame / SegmentPlayer.sequenceSize td in
  SegmentPlayer.header p = Some h ->
  SegmentPlayer.h_geometry h !! SegmentPlayer.geometryTarget p = Some gd ->
  SegmentPlayer.h_texture h !! SegmentPlayer.textureTarget p = Some td ->
  SegmentPlayer.truthy (SegmentPlayer.geometryTarget p) = true ->
  SegmentPlayer.truthy (SegmentPlayer.textureTarget p) = true ->
  SegmentPlayer.AudioURL p && media_ended (SegmentPlayer.audio p) = false ->
  SegmentPlayer.paused p = false ->
  SegmentPlayer.processFrame now p
  = if frameCount gd <=? frame then
      (Normal tt, SegmentPlayer.with_stores [] [] p1,
       [EClearInterval] ++ segmentReleaseCalls p ++ [EOnTrackEnd])
    else
      match JsMap.get frame (SegmentPlayer.meshMap p) with
      | None => (Normal tt, p1, [])
      | Some geometry =>
          match JsMap.get segment (SegmentPlayer.textureMap p) with
          | None =>
              (Normal tt, p1,
               [EUpdateGeometry geometry; EFailMaterial; EOnFrameShow frame])
          | Some _ =>
              (Normal tt, p1,
               [EOnFrameShow frame;
                EShowSegment segment (Z.rem tFrame (SegmentPlayer.sequenceSize td));
                EUpdateGeometry geometry])
          end
      end.
Proof.
  intros time p1 frame tFrame segment Hh Hgd Htd Hg Ht Hended Hpaused.
  unfold SegmentPlayer.processFrame. rewrite run_bind_get, Hh.
  rewrite (run_bind_pure _ _ _ _ (segment_run_geometryTargetData _ _ _ Hh Hgd)).
  rewrite Hended, Hpaused.
  assert (Hclock :
    forall k : unit -> Js SegmentPlayer.Player unit,
    bind (if SegmentPlayer.AudioURL p then
            modify (fun p =>
              SegmentPlayer.with_clock (SegmentPlayer.startTime p)
                (SegmentPlayer.pausedTime p) (SegmentPlayer.totalPausedDuration p)
                (SegmentPlayer.isClockPaused p)
                (media_currentTime (SegmentPlayer.audio p)) p)
          else
            modify (fun p0 =>
              SegmentPlayer.with_clock (SegmentPlayer.startTime p0)
                (SegmentPlayer.pausedTime p0) (SegmentPlayer.totalPausedDuration p0)
                (SegmentPlayer.isClockPaused p0)
                (inject_Z (now - SegmentPlayer.startTime p
                           - SegmentPlayer.totalPausedDuration p) / 1000)%Q p0)) k p
    = k tt p1).
  { intros k. unfold p1, segmentTicked, segmentTime.
    destruct (SegmentPlayer.AudioURL p); by rewrite run_bind_modify. }
  cbv zeta. rewrite Hclock, run_bind_get.
  assert (Hh1 : SegmentPlayer.header p1 = Some h) by done.
  rewrite (run_bind_pure _ _ _ _ (segment_run_textureTargetData p1 h td Hh1 Htd)).
  rewrite (run_bind_pure _ _ _ _ (segment_run_BatchSize p1 h td Hh1 Htd Ht)).
  rewrite (run_bind_pure _ _ _ _ (segment_run_GeometryFrameCount p1 h gd Hh1 Hgd Hg)).
  change (SegmentPlayer.currentTime p1) with time. fold frame tFrame segment.
  destruct (frameCount gd <=? frame).
  - rewrite run_bind_emit, (bind_normal _ _ _ _ _ _ (segment_run_dispose p1)).
    unfold emit, completion, state, trace. simpl. done.
  - change (SegmentPlayer.meshMap p1) with (SegmentPlayer.meshMap p).
    change (SegmentPlayer.textureMap p1) with (SegmentPlayer.textureMap p).
    destruct (JsMap.get frame (SegmentPlayer.meshMap p)) as [geometry|]; [|done].
    destruct (JsMap.get segment (SegmentPlayer.textureMap p)); done.
Qed.

Lemma get_filter_key {V} (P : Z -> Prop) `{!forall k, Decision (P k)}
  (m : list (Z * V)) (k : Z) :
  JsMap.get k (filter (fun kv => P kv.1) m) = if decide (P k) then JsMap.get k m else None.
Proof.
  induction m as [|[k' v] m IH]; simpl.
  - by destruct (decide (P k)).
  - destruct (decide (P k')) as [Hk'|Hk'].
    + rewrite filter_cons_True by done. simpl.
      destruct (decide (k = k')) as [->|Hne]; [|done].
      by destruct (decide (P k')).
    + rewrite filter_cons_False by done. rewrite IH.
      destruct (decide (k = k')) as [->|Hne]; [|done].
      by destruct (decide (P k')).
Qed.

(** A tick of the segment player completes and keeps the header and the
    targets. *)
Lemma segment_processFrame_completes now p h gd td :
  SegmentPlayer.header p = Some h ->
  SegmentPlayer.h_geometry h !! SegmentPlayer.geometryTarget p = Some gd ->
  SegmentPlayer.h_texture h !! SegmentPlayer.textureTarget p = Some td ->
  SegmentPlayer.truthy (SegmentPlayer.geometryTarget p) = true ->
  SegmentPlayer.truthy (SegmentPlayer.textureTarget p) = true ->
  completion (SegmentPlayer.processFrame now p) = Normal tt /\
  SegmentPlayer.header (state (SegmentPlayer.processFrame now p)) = Some h /\
  SegmentPlayer.geometryTarget (state (SegmentPlayer.processFrame now p))
  = SegmentPlayer.geometryTarget p /\
  SegmentPlayer.textureTarget (state (SegmentPlayer.processFrame now p))
  = SegmentPlayer.textureTarget p.
Proof.
  intros Hh Hgd Htd Hg Ht.
  destruct (SegmentPlayer.AudioURL p && media_ended (SegmentPlayer.audio p)) eqn:Hended.
  { unfold SegmentPlayer.processFrame. rewrite run_bind_get, Hh.
    rewrite (run_bind_pure _ _ _ _ (segment_run_geometryTargetData _ _ _ Hh Hgd)).
    rewrite Hended, run_bind_emit, (bind_normal _ _ _ _ _ _ (segment_run_dispose p)).
    done. }
  destruct (SegmentPlayer.paused p) eqn:Hpaused.
  { by rewrite (segment_processFrame_paused now p h gd Hh Hgd Hended Hpaused). }
  rewrite (run_segment_processFrame now p h gd td Hh Hgd Htd Hg Ht Hended Hpaused).
  destruct (_ <=? _); [done|].
  destruct (JsMap.get _ _); [|done]. by destruct (JsMap.get _ _).
Qed.

(** X18. The eviction window of the segment player: after [update()], a
    geometry frame is in the store exactly when the tick left it there and
    its number is at least the playhead frame less 5, and a texture segment
    exactly when the tick left it there and its number is at least the
    playhead segment less 1; so the frame shown by the tick and its texture
    segment are never evicted by the same [update()]. *)
Theorem segment_update_window (now : Z) (p : SegmentPlayer.Player)
  (h : SegmentPlayer.V2FileHeader) (gd : TargetData) (td : SegmentPlayer.KTX2TextureTarget) :
  SegmentPlayer.header p = Some h ->
  SegmentPlayer.h_geometry h !! SegmentPlayer.geometryTarget p = Some gd ->
  SegmentPlayer.h_texture h !! SegmentPlayer.textureTarget p = Some td ->
  SegmentPlayer.truthy (SegmentPlayer.geometryTarget p) = true ->
  SegmentPlayer.truthy (SegmentPlayer.textureTarget p) = true ->
  SegmentPlayer.sequenceSize td <> 0 ->
  let ticked := state (SegmentPlayer.processFrame now p) in
  let updated := state (SegmentPlayer.update now p) in
  let frame :=
    SegmentPlayer.getCurrentFrame (frameRate gd) (SegmentPlayer.currentTime ticked) in
  let segment :=
    SegmentPlayer.getCurrentFrame (SegmentPlayer.t_frameRate td)
      (SegmentPlayer.currentTime ticked) / SegmentPlayer.sequenceSize td in
  completion (SegmentPlayer.update now p) = Normal tt /\
  (forall k, JsMap.get k (SegmentPlayer.meshMap updated)
             = if decide (frame - 5 <= k) then JsMap.get k (SegmentPlayer.meshMap ticked)
               else None) /\
  (forall k, JsMap.get k (SegmentPlayer.textureMap updated)
             = if decide (segment - 1 <= k)
               then JsMap.get k (SegmentPlayer.textureMap ticked) else None).
Proof.
  intros Hh Hgd Htd Hg Ht _ ticked updated frame segment.
  destruct (segment_processFrame_completes now p h gd td Hh Hgd Htd Hg Ht)
    as (Hc & Hh1 & Hg1 & Ht1).
  fold ticked in Hh1, Hg1, Ht1.
  assert (Hrun : SegmentPlayer.processFrame now p
                 = (Normal tt, ticked, trace (SegmentPlayer.processFrame now p))).
  { unfold ticked. by rewrite <- Hc, run_eta. }
  rewrite <- Hg1 in Hgd, Hg. rewrite <- Ht1 in Htd, Ht.
  destruct (segment_removePlayedBuffer (frame - 5) (segment - 1) ticked)
    as (Hc2 & Hm2 & Ht2 & _).
  assert (Hupd : SegmentPlayer.update now p
    = (completion (SegmentPlayer.removePlayedBuffer (frame - 5) (segment - 1) ticked),
       state (SegmentPlayer.removePlayedBuffer (frame - 5) (segment - 1) ticked),
       trace (SegmentPlayer.processFrame now p)
       ++ trace (SegmentPlayer.removePlayedBuffer (frame - 5) (segment - 1) ticked))).
  { unfold SegmentPlayer.update. rewrite run_bind_get, Hh.
    rewrite (bind_normal _ _ _ _ _ _ Hrun). rewrite run_bind_get.
    rewrite (run_bind_pure _ _ _ _ (segment_run_geometryTargetData _ _ _ Hh1 Hgd)).
    rewrite (run_bind_pure _ _ _ _ (segment_run_textureTargetData _ _ _ Hh1 Htd)).
    rewrite (run_bind_pure _ _ _ _ (segment_run_BatchSize _ _ _ Hh1 Htd Ht)).
    done. }
  cbv zeta in Hc2, Hm2, Ht2.
  assert (Hst : updated
            = state (SegmentPlayer.removePlayedBuffer (frame - 5) (segment - 1) ticked)).
  { subst updated. by rewrite Hupd. }
  split; [by rewrite Hupd|]. rewrite Hst. split.
  - intros k. rewrite Hm2. apply (get_filter_key (fun k => frame - 5 <= k)).
  - intros k. rewrite Ht2. apply (get_filter_key (fun k => segment - 1 <= k)).
Qed.

Lemma segment_update_window_witness :
  JsMap.get 5 (SegmentPlayer.meshMap (state (SegmentPlayer.update 1533 demoSegmentStale)))
  = Some (Geometry 5) /\
  JsMap.get 3 (SegmentPlayer.meshMap (state (SegmentPlayer.update 1533 demoSegmentStale)))
  = None.
Proof.
  destruct (segment_update_window 1533 demoSegmentStale demoHeader
              {| frameRate := 30; frameCount := 300 |}
              {| SegmentPlayer.t_frameRate := 30; SegmentPlayer.sequenceSize := 5;
                 SegmentPlayer.sequenceCount := 60 |})
    as (_ & Hm & _); [by_evaluation..|].
  rewrite !Hm. split; reflexivity.
Defined.

(** X19. The regular tick of the segment player: with the geometry of the
    playhead frame and the texture segment of the playhead in the stores, a
    tick of a playing session before the end of the track (the last frame
    included) reports the frame, shows the segment at the layer of the
    playhead and applies the geometry; for a playhead at or after 0 the
    segment and the layer are the quotient and the remainder of the texture
    frame by the batch size. *)
Theorem segment_processFrame_shows_layer (now : Z) (p : SegmentPlayer.Player)
  (h : SegmentPlayer.V2FileHeader) (gd : TargetData) (td : SegmentPlayer.KTX2TextureTarget)
  (geometry0 : BufferGeometry) (texture0 : Texture) :
  let time := segmentTime p now in
  let frame := SegmentPlayer.getCurrentFrame (frameRate gd) time in
  let tFrame := SegmentPlayer.getCurrentFrame (SegmentPlayer.t_frameRate td) time in
  let batch := SegmentPlayer.sequenceSize td in
  SegmentPlayer.header p = Some h ->
  SegmentPlayer.h_geometry h !! SegmentPlayer.geometryTarget p = Some gd ->
  SegmentPlayer.h_texture h !! SegmentPlayer.textureTarget p = Some td ->
  SegmentPlayer.truthy (SegmentPlayer.geometryTarget p) = true ->
  SegmentPlayer.truthy (SegmentPlayer.textureTarget p) = true ->
  SegmentPlayer.AudioURL p && media_ended (SegmentPlayer.audio p) = false ->
  SegmentPlayer.paused p = false ->
  0 < batch -> frame < frameCount gd ->
  JsMap.get frame (SegmentPlayer.meshMap p) = Some geometry0 ->
  JsMap.get (tFrame / batch) (SegmentPlayer.textureMap p) = Some texture0 ->
  SegmentPlayer.processFrame now p
  = (Normal tt, segmentTicked p now,
     [EOnFrameShow frame; EShowSegment (tFrame / batch) (Z.rem tFrame batch);
      EUpdateGeometry geometry0]) /\
  (0 <= tFrame ->
   tFrame = batch * (tFrame / batch) + Z.rem tFrame batch /\ 0 <= Z.rem tFrame batch < batch).
Proof.
  intros time frame tFrame batch Hh Hgd Htd Hg Ht Hended Hpaused Hbatch Hlast Hgeo Htex.
  split.
  - rewrite (run_segment_processFrame now p h gd td Hh Hgd Htd Hg Ht Hended Hpaused).
    fold time frame tFrame batch.
    replace (frameCount gd <=? frame) with false by (symmetry; apply Z.leb_gt; lia).
    by rewrite Hgeo, Htex.
  - intros Hpos. rewrite Z.rem_mod_nonneg by lia. split.
    + apply Z.div_mod. lia.
    + apply Z.mod_pos_bound. lia.
Qed.

Lemma segment_processFrame_shows_layer_witness :
  trace (SegmentPlayer.processFrame 1600 demoSegmentStale)
  = [EOnFrameShow 12; EShowSegment 2 2; EUpdateGeometry (Geometry 12)].
Proof.
  destruct (segment_processFrame_shows_layer 1600 demoSegmentStale demoHeader
              {| frameRate := 30; frameCount := 300 |}
              {| SegmentPlayer.t_frameRate := 30; SegmentPlayer.sequenceSize := 5;
                 SegmentPlayer.sequenceCount := 60 |} (Geometry 12) (Tex 2))
    as (Hrun & _); [by_evaluation..|].
  by rewrite Hrun.
Defined.

(** X20. The segment player has no fallback: with the geometry of the
    playhead frame in the store and its texture segment missing, the tick
    applies the geometry with the failure material and reports the frame. *)
Theorem segment_processFrame_fail_material (now : Z) (p : SegmentPlayer.Player)
  (h : SegmentPlayer.V2FileHeader) (gd : TargetData) (td : SegmentPlayer.KTX2TextureTarget)
  (geometry0 : BufferGeometry) :
  let time := segmentTime p now in
  let frame := SegmentPlayer.getCurrentFrame (frameRate gd) time in
  let tFrame := SegmentPlayer.getCurrentFrame (SegmentPlayer.t_frameRate td) time in
  let batch := SegmentPlayer.sequenceSize td in
  SegmentPlayer.header p = Some h ->
  SegmentPlayer.h_geometry h !! SegmentPlayer.geometryTarget p = Some gd ->
  SegmentPlayer.h_texture h !! SegmentPlayer.textureTarget p = Some td ->
  SegmentPlayer.truthy (SegmentPlayer.geometryTarget p) = true ->
  SegmentPlayer.truthy (SegmentPlayer.textureTarget p) = true ->
  SegmentPlayer.AudioURL p && media_ended (SegmentPlayer.audio p) = false ->
  SegmentPlayer.paused p = false ->
  batch <> 0 -> frame < frameCount gd ->
  JsMap.get frame (SegmentPlayer.meshMap p) = Some geometry0 ->
  JsMap.get (tFrame / batch) (SegmentPlayer.textureMap p) = None ->
  SegmentPlayer.processFrame now p
  = (Normal tt, segmentTicked p now,
     [EUpdateGeometry geometry0; EFailMaterial; EOnFrameShow frame]).
Proof.
  intros time frame tFrame batch Hh Hgd Htd Hg Ht Hended Hpaused _ Hlast Hgeo Htex.
  rewrite (run_segment_processFrame now p h gd td Hh Hgd Htd Hg Ht Hended Hpaused).
  fold time frame tFrame batch.
  replace (frameCount gd <=? frame) with false by (symmetry; apply Z.leb_gt; lia).
  by rewrite Hgeo, Htex.
Qed.

Lemma segment_processFrame_fail_material_witness :
  trace (SegmentPlayer.processFrame 1367 demoSegmentStale)
  = [EUpdateGeometry (Geometry 5); EFailMaterial; EOnFrameShow 5].
Proof.
  rewrite (segment_processFrame_fail_material 1367 demoSegmentStale demoHeader
             {| frameRate := 30; frameCount := 300 |}
             {| SegmentPlayer.t_frameRate := 30; SegmentPlayer.sequenceSize := 5;
                SegmentPlayer.sequenceCount := 60 |} (Geometry 5));
    by_evaluation.
Defined.

(** * URL templates *)

Module TemplateFacts.
Import Stdlib.Strings.Ascii.
Import Template.
#[local] Arguments String.append _ _ : simpl nomatch.
#[local] Arguments String.prefix _ _ : simpl never.

(** *** Strings *)

Lemma str_length_app (a b : string) :
  String.length (a +:+ b) = (String.length a + String.length b)%nat.
Proof. induction a as [|c a IH]; simpl; [done|by rewrite IH]. Qed.

Lemma length_repeat (c : ascii) (k : nat) : String.length (String_repeat c k) = k.
Proof. induction k as [|k IH]; simpl; [done|by rewrite IH]. Qed.

Lemma uint_of_zeros (k : nat) (u : Decimal.uint) :
  DecimalString.NilEmpty.uint_of_string
    (String_repeat "0" k +:+ DecimalString.NilEmpty.string_of_uint u)
  = Some (Nat.iter k Decimal.D0 u).
Proof.
  induction k as [|k IH]; simpl.
  - apply DecimalString.NilEmpty.usu.
  - by rewrite IH.
Qed.

Lemma of_uint_zeros (k : nat) (u : Decimal.uint) :
  Z.of_uint (Nat.iter k Decimal.D0 u) = Z.of_uint u.
Proof. induction k as [|k IH]; simpl; [done|exact IH]. Qed.

Lemma toString_nonneg (n : Z) :
  0 <= n ->
  exists u, u <> Decimal.Nil /\ Z.of_uint u = n /\
    Number_toString n = DecimalString.NilEmpty.string_of_uint u.
Proof.
  intros Hn. unfold Number_toString. destruct n as [|p|p]; [| |lia].
  - exists (Decimal.D0 Decimal.Nil). by split_and!.
  - exists (Pos.to_uint p). split_and!.
    + apply DecimalPos.Unsigned.to_uint_nonnil.
    + unfold Z.of_uint. by rewrite DecimalPos.Unsigned.of_to.
    + simpl. unfold DecimalString.NilZero.string_of_uint.
      pose proof (DecimalPos.Unsigned.to_uint_nonnil p).
      by destruct (Pos.to_uint p).
Qed.

Lemma decimal_toString (n : Z) : decimal (Number_toString n) = Some n.
Proof.
  unfold decimal, Number_toString.
  rewrite DecimalString.NilZero.isi; [simpl; by rewrite DecimalZ.of_to| |];
    destruct n; simpl; try discriminate;
    intros [= H%DecimalPos.Unsigned.to_uint_nonnil]; done.
Qed.

Lemma decimal_zeros (k : nat) (n : Z) :
  0 <= n -> decimal (String_repeat "0" k +:+ Number_toString n) = Some n.
Proof.
  intros Hn. destruct k as [|k]; [apply decimal_toString|].
  destruct (toString_nonneg n Hn) as (u & Hu & Hz & ->).
  unfold decimal.
  change (String_repeat "0" (S k) +:+ ?x) with (String "0" (String_repeat "0" k +:+ x)).
  unfold DecimalString.NilZero.int_of_string.
  change (if Ascii.eqb "0" "-" then _ else ?y) with y.
  unfold DecimalString.NilZero.uint_of_string.
  change (String "0" (String_repeat "0" k +:+ ?x)) with (String_repeat "0" (S k) +:+ x).
  rewrite uint_of_zeros. unfold fmap, option_fmap, option_map, Z.of_int.
  by rewrite of_uint_zeros, Hz.
Qed.

Lemma pad_cases (n width : Z) :
  let len := Z.of_nat (String.length (Number_toString n)) in
  pad n width = String_repeat "0" (Z.to_nat (width - len)) +:+ Number_toString n.
Proof.
  intros len. unfold pad, Array_join. fold len.
  destruct (Z.geb_spec len width) as [H|H].
  - replace (Z.to_nat (width - len)) with O by lia. done.
  - by replace (width - len + 1 - 1) with (width - len) by lia.
Qed.


Lemma str_app_assoc (a b c : string) : (a +:+ b) +:+ c = a +:+ (b +:+ c).
Proof. induction a as [|x a IH]; simpl; [done|by rewrite IH]. Qed.

Lemma str_app_nil_r (a : string) : a +:+ "" = a.
Proof. induction a as [|x a IH]; simpl; [done|by rewrite IH]. Qed.

Lemma str_app_inv_head (a x y : string) : a +:+ x = a +:+ y -> x = y.
Proof. induction a as [|c a IH]; simpl; [done|]. intros [= H]. by apply IH. Qed.

Lemma str_app_inv_tail (x y p : string) : x +:+ p = y +:+ p -> x = y.
Proof.
  revert y. induction x as [|c x IH]; intros [|d y] H; simpl in H.
  - done.
  - apply (f_equal String.length) in H. simpl in H. rewrite str_length_app in H. lia.
  - apply (f_equal String.length) in H. simpl in H. rewrite str_length_app in H. lia.
  - injection H as -> H. by rewrite (IH y H).
Qed.

Lemma has_app (c : ascii) (a b : string) : has c (a +:+ b) = has c a || has c b.
Proof. induction a as [|x a IH]; simpl; [done|]. by rewrite IH, orb_assoc. Qed.

Lemma has_repeat (c d : ascii) (k : nat) : c <> d -> has c (String_repeat d k) = false.
Proof.
  intros Hcd. induction k as [|k IH]; simpl; [done|]. rewrite IH, orb_false_r.
  apply Ascii.eqb_neq. congruence.
Qed.

(** *** [replace] on strings *)

Lemma GetSubstitution_plain (matched before after rep : string) :
  has "$" rep = false -> GetSubstitution matched before after rep = rep.
Proof.
  induction rep as [|c rep IH]; simpl; [done|].
  intros [Hc Hr]%orb_false_elim. rewrite Hc. by rewrite IH.
Qed.

Lemma prefix_nil (s : string) : String.prefix "" s = true.
Proof. by destruct s. Qed.

Lemma prefix_cons (a b : ascii) (s1 s2 : string) :
  String.prefix (String a s1) (String b s2) = Ascii.eqb a b && String.prefix s1 s2.
Proof.
  change (String.prefix (String a s1) (String b s2))
    with (if ascii_dec a b then String.prefix s1 s2 else false).
  destruct (ascii_dec a b) as [->|Hab]; [by rewrite Ascii.eqb_refl|].
  by apply Ascii.eqb_neq in Hab as ->.
Qed.

Lemma prefix_app (a b : string) : String.prefix a (a +:+ b) = true.
Proof.
  induction a as [|c a IH]; simpl; [apply prefix_nil|].
  by rewrite prefix_cons, Ascii.eqb_refl, IH.
Qed.

Lemma substring_all (b : string) : String.substring 0 (String.length b) b = b.
Proof. induction b as [|c b IH]; simpl; [done|by rewrite IH]. Qed.

Lemma substring_drop (a b : string) :
  String.substring (String.length a) (String.length b) (a +:+ b) = b.
Proof. induction a as [|c a IH]; simpl; [apply substring_all|exact IH]. Qed.

Lemma replace_skip (c : ascii) (x pat rep : string) :
  String.prefix pat (String c x) = false -> has "$" rep = false ->
  String_replace (String c x) pat rep = String c (String_replace x pat rep).
Proof.
  intros Hp Hrep. unfold String_replace. cbn [String.index]. rewrite Hp.
  destruct (String.index 0 pat x) as [i|]; [|done].
  rewrite !GetSubstitution_plain by done. done.
Qed.

Lemma replace_here (pat rest rep : string) :
  pat <> EmptyString -> has "$" rep = false ->
  String_replace (pat +:+ rest) pat rep = rep +:+ rest.
Proof.
  intros Hpat Hrep. unfold String_replace.
  assert (String.index 0 pat (pat +:+ rest) = Some O) as ->.
  { destruct pat as [|c pat]; [done|]. simpl. cbn [String.index].
    change (String c (pat +:+ rest)) with (String c pat +:+ rest).
    by rewrite prefix_app. }
  cbn [String.substring Nat.add]. rewrite GetSubstitution_plain by done.
  rewrite str_length_app.
  replace (String.length pat + String.length rest - String.length pat)%nat
    with (String.length rest) by lia.
  rewrite substring_drop. by destruct (pat +:+ rest).
Qed.

Lemma replace_absent (pat rep : string) :
  pat <> EmptyString -> String_replace "" pat rep = "".
Proof. intros Hpat. unfold String_replace. by destruct pat. Qed.

Lemma replace_skip_text (s x name rep : string) :
  has "[" s = false -> has "$" rep = false ->
  String_replace (s +:+ x) (String "[" name) rep
  = s +:+ String_replace x (String "[" name) rep.
Proof.
  intros Hs Hrep. induction s as [|c s IH]; [done|].
  simpl in Hs. apply orb_false_elim in Hs as [Hc Hs].
  simpl. rewrite replace_skip, IH; try done.
  by rewrite prefix_cons, Ascii.eqb_sym, Hc.
Qed.

Lemma prefix_names (name m x : string) :
  has "]" name = false -> has "]" m = false ->
  String.prefix (name +:+ "]") (m +:+ "]" +:+ x) = true -> name = m.
Proof.
  revert m. induction name as [|c name IH]; intros [|d m] Hn Hm;
    simpl in Hn, Hm; simpl.
  - done.
  - apply orb_false_elim in Hm as [Hd _].
    by rewrite prefix_cons, Ascii.eqb_sym, Hd.
  - apply orb_false_elim in Hn as [Hc _].
    by rewrite prefix_cons, Hc.
  - apply orb_false_elim in Hn as [_ Hn]. apply orb_false_elim in Hm as [_ Hm].
    rewrite prefix_cons. intros [Hcd H]%andb_prop.
    apply Ascii.eqb_eq in Hcd as ->. by rewrite (IH m Hn Hm H).
Qed.

(** *** [replace] on templates *)

Lemma replace_render (name value : string) (t : list Piece) :
  well_formed t = true ->
  has "]" name = false -> has "$" value = false ->
  String_replace (render t) (key name) value = render (fill name value t).
Proof.
  intros Ht Hn Hv. induction t as [|[s|m] t IH]; simpl in Ht.
  - done.
  - apply andb_prop in Ht as [Hs Ht]. apply negb_true_iff in Hs.
    cbn [render fill render_piece]. unfold key in *. simpl in *.
    rewrite replace_skip_text by done. by rewrite IH.
  - apply andb_prop in Ht as [Hm Ht]. apply andb_prop in Hm as [Hm1 Hm2].
    apply negb_true_iff in Hm1, Hm2.
    cbn [render fill render_piece]. destruct (String.eqb_spec m name) as [->|Hne].
    + cbn [render render_piece]. by rewrite replace_here.
    + unfold key in *. simpl in *. rewrite replace_skip; [|..|done].
      * rewrite replace_skip_text; [|by rewrite has_app, Hm1|done].
        by rewrite IH.
      * rewrite prefix_cons. simpl.
        apply not_true_is_false. rewrite str_app_assoc. intros H%prefix_names; done.
Qed.

Lemma fill_well_formed (name value : string) (t : list Piece) :
  well_formed t = true -> has "[" value = false ->
  well_formed (fill name value t) = true.
Proof.
  intros Ht Hv. induction t as [|[s|m] t IH]; simpl in *; [done|..].
  - apply andb_prop in Ht as [Hs Ht]. by rewrite Hs, IH.
  - apply andb_prop in Ht as [Hm Ht]. destruct (String.eqb m name); simpl.
    + by rewrite Hv, Ht.
    + by rewrite Hm, IH.
Qed.

Lemma has_digits (c : ascii) (u : Decimal.uint) :
  (c <? "0")%char = true ->
  has c (DecimalString.NilEmpty.string_of_uint u) = false.
Proof.
  intros Hc. induction u; cbn [has DecimalString.NilEmpty.string_of_uint]; [done|..];
    rewrite IHu, orb_false_r; apply Ascii.eqb_neq; intros <-; by vm_compute in Hc.
Qed.

Lemma has_toString (c : ascii) (n : Z) :
  (c <? "0")%char = true -> c <> "-"%char -> has c (Number_toString n) = false.
Proof.
  intros Hc Hc'. unfold Number_toString.
  assert (forall u, has c (DecimalString.NilZero.string_of_uint u) = false) as Hu.
  { intros u. unfold DecimalString.NilZero.string_of_uint.
    destruct u; try by apply (has_digits c (_ u)).
    cbn [has]. rewrite orb_false_r. apply Ascii.eqb_neq. intros <-. by vm_compute in Hc. }
  destruct (Z.to_int n); cbn [has DecimalString.NilZero.string_of_int]; [apply Hu|].
  rewrite Hu, orb_false_r. apply Ascii.eqb_neq. congruence.
Qed.

Lemma has_pad (c : ascii) (n width : Z) :
  (c <? "0")%char = true -> c <> "-"%char -> has c (pad n width) = false.
Proof.
  intros Hc Hc'. rewrite pad_cases, has_app, has_toString, has_repeat; try done.
  intros ->. done.
Qed.

Lemma expand_cons (k : string) (v : option string) (INPUTS : list (string * option string))
  (p : string) :
  expand ((k, v) :: INPUTS) p = expand INPUTS (String_replace p k (ToString v)).
Proof. done. Qed.

Lemma fill_absent (name value : string) (t : list Piece) :
  name ∉ holes t -> fill name value t = t.
Proof.
  induction t as [|[s|m] t IH]; cbn [fill holes omap]; intros Hin; [done|..].
  - by rewrite IH.
  - change (name ∉ m :: holes t) in Hin. apply not_elem_of_cons in Hin as [Hne Hin].
    destruct (String.eqb_spec m name) as [->|_]; [done|]. by rewrite IH.
Qed.

Lemma fill_holes_other (name value m : string) (t : list Piece) :
  name <> m -> m ∈ holes (fill name value t) <-> m ∈ holes t.
Proof.
  intros Hne. induction t as [|[s|x] t IH]; cbn [fill]; [done|exact IH|].
  destruct (String.eqb_spec x name) as [->|_].
  - change (m ∈ holes t <-> m ∈ name :: holes t). rewrite elem_of_cons. split; [by right|by intros [?|?]].
  - change (m ∈ x :: holes (fill name value t) <-> m ∈ x :: holes t).
    rewrite !elem_of_cons, IH. done.
Qed.

Lemma fill_split (name : string) (t : list Piece) :
  name ∈ holes t ->
  exists pre post, forall value, render (fill name value t) = pre +:+ value +:+ post.
Proof.
  induction t as [|[s|m] t IH]; cbn [fill]; intros Hin.
  - by apply elem_of_nil in Hin.
  - destruct (IH Hin) as (pre & post & H). exists (s +:+ pre), post. intros v.
    cbn [render render_piece]. by rewrite H, str_app_assoc.
  - destruct (String.eqb_spec m name) as [->|Hne].
    + exists "", (render t). done.
    + change (name ∈ m :: holes t) in Hin. apply elem_of_cons in Hin as [->|Hin]; [done|].
      destruct (IH Hin) as (pre & post & H). exists (key m +:+ pre), post. intros v.
      cbn [render render_piece]. fold (key m). by rewrite H, str_app_assoc.
Qed.

Lemma hashes_not_name (k : Z) (name : string) :
  has "#" name = false -> name <> "" -> name <> hashes k.
Proof.
  unfold hashes. intros Hn Hne ->. destruct (Z.to_nat k) as [|k']; [done|]. done.
Qed.

Lemma has_hashes (c : ascii) (k : Z) : c <> "#"%char -> has c (hashes k) = false.
Proof. apply has_repeat. Qed.

(** The URL methods on a template: the three, or five, replacements as
    fills. *)
Lemma getGeometryURL_render (FORMATS_TO_EXT : string -> option string)
  (out : Output) (target format : string) (t : list Piece) (n : Z) :
  targets out !! target = Some format ->
  path out = render t ->
  well_formed t = true ->
  plain target = true ->
  plain (ToString (FORMATS_TO_EXT format)) = true ->
  getGeometryURL FORMATS_TO_EXT out target n
  = Normal (render
      (fill (hashes (countHashChar (path out))) (pad n (countHashChar (path out)))
        (fill "ext" (ToString (FORMATS_TO_EXT format))
          (fill "target" target t)))).
Proof.
  intros Hformat Hpath Ht [Ht1 Ht2]%andb_prop [He1 He2]%andb_prop.
  apply negb_true_iff in Ht1, Ht2, He1, He2.
  unfold getGeometryURL. rewrite Hformat. cbn zeta. f_equal.
  rewrite !expand_cons. change (ToString (Some ?x)) with x. rewrite Hpath.
  change (expand [] ?x) with x.
  rewrite (replace_render "target"); [|done..].
  rewrite (replace_render "ext"); [|by apply fill_well_formed|done..].
  change (hashKey ?k) with (key (hashes k)).
  rewrite (replace_render (hashes _)); [done|..].
  - by repeat apply fill_well_formed.
  - by apply has_hashes.
  - by apply has_pad.
Qed.

Lemma getTextureURL_render (FORMATS_TO_EXT : string -> option string)
  (out : Output) (target format : string) (t : list Piece) (n : Z) :
  targets out !! target = Some format ->
  path out = render t ->
  well_formed t = true ->
  plain target = true ->
  plain (ToString (FORMATS_TO_EXT format)) = true ->
  getTextureURL FORMATS_TO_EXT out target n
  = Normal (render
      (fill (hashes (countHashChar (path out))) (pad n (countHashChar (path out)))
        (fill "ext" (ToString (FORMATS_TO_EXT format))
          (fill "tag" textureTag
            (fill "type" textureType
              (fill "target" target t)))))).
Proof.
  intros Hformat Hpath Ht [Ht1 Ht2]%andb_prop [He1 He2]%andb_prop.
  apply negb_true_iff in Ht1, Ht2, He1, He2.
  unfold getTextureURL. rewrite Hformat. cbn zeta. f_equal.
  rewrite !expand_cons. change (ToString (Some ?x)) with x. rewrite Hpath.
  change (expand [] ?x) with x.
  rewrite (replace_render "target"); [|done..].
  rewrite (replace_render "type"); [|by apply fill_well_formed|done..].
  rewrite (replace_render "tag"); [|by repeat apply fill_well_formed|done..].
  rewrite (replace_render "ext"); [|by repeat apply fill_well_formed|done..].
  change (hashKey ?k) with (key (hashes k)).
  rewrite (replace_render (hashes _)); [done|..].
  - by repeat apply fill_well_formed.
  - by apply has_hashes.
  - by apply has_pad.
Qed.

End TemplateFacts.

(** X21. [pad] keeps the number and never cuts it: for a frame number
    [n >= 0], reading [pad(n, width)] as a decimal numeral gives [n] back,
    and its length is the larger of [width] and the number of digits of
    [n]. *)
Theorem pad_keeps_the_number (n width : Z) :
  0 <= n < 10 ^ 21 ->
  Template.decimal (Template.pad n width) = Some n /\
  Z.of_nat (String.length (Template.pad n width))
  = Z.max width (Z.of_nat (String.length (Template.Number_toString n))).
Proof.
  intros Hn. rewrite TemplateFacts.pad_cases. split.
  - apply TemplateFacts.decimal_zeros. lia.
  - rewrite TemplateFacts.str_length_app, TemplateFacts.length_repeat. lia.
Qed.

Lemma pad_keeps_the_number_witness :
  Template.decimal (Template.pad 7 4) = Some 7 /\
  Z.of_nat (String.length (Template.pad 7 4))
  = Z.max 4 (Z.of_nat (String.length (Template.Number_toString 7))).
Proof. apply pad_keeps_the_number. lia. Defined.

(** X22. URL expansion on a path made of literal text and bracketed
    placeholders: [getGeometryURL] fills the first [[target]], then the
    first [[ext]], then the first placeholder made of as many hashes as the
    whole path has, with the padded frame number; [getTextureURL] fills
    [[target]], [[type]], [[tag]], [[ext]] and the hashes in the same way.
    Later occurrences and other placeholders stay as they are written.  The
    target name and the extension must hold no opening bracket and no
    dollar. *)
Theorem url_fills_first_placeholders (FORMATS_TO_EXT : string -> option string)
  (out : Template.Output) (target format : string) (t : list Template.Piece) (n : Z) :
  Template.targets out !! target = Some format ->
  Template.path out = Template.render t ->
  Template.well_formed t = true ->
  Template.plain target = true ->
  Template.plain (Template.ToString (FORMATS_TO_EXT format)) = true ->
  let padWidth := Template.countHashChar (Template.path out) in
  let ext := Template.ToString (FORMATS_TO_EXT format) in
  let number := Template.fill (Template.hashes padWidth) (Template.pad n padWidth) in
  Template.getGeometryURL FORMATS_TO_EXT out target n
  = Normal (Template.render
      (number (Template.fill "ext" ext (Template.fill "target" target t)))) /\
  Template.getTextureURL FORMATS_TO_EXT out target n
  = Normal (Template.render
      (number (Template.fill "ext" ext (Template.fill "tag" "default"
        (Template.fill "type" "baseColor" (Template.fill "target" target t)))))).
Proof.
  intros Hformat Hpath Ht Htarget Hext. split.
  - by apply TemplateFacts.getGeometryURL_render.
  - by apply TemplateFacts.getTextureURL_render.
Qed.

Lemma url_fills_first_placeholders_witness :
  Template.getGeometryURL Template.demoExt Template.demoOutput "high" 7
  = Normal (Template.render
      (Template.fill (Template.hashes 4) (Template.pad 7 4)
        (Template.fill "ext" "drc" (Template.fill "target" "high" Template.demoTemplate)))) /\
  Template.getTextureURL Template.demoExt Template.demoOutput "high" 7
  = Normal (Template.render
      (Template.fill (Template.hashes 4) (Template.pad 7 4)
        (Template.fill "ext" "drc" (Template.fill "tag" "default"
          (Template.fill "type" "baseColor"
            (Template.fill "target" "high" Template.demoTemplate)))))).
Proof.
  exact (url_fills_first_placeholders Template.demoExt Template.demoOutput "high" "draco"
           Template.demoTemplate 7 eq_refl eq_refl eq_refl eq_refl eq_refl).
Defined.

(** X23. Two different frame numbers get different geometry URLs exactly
    when the path has a placeholder made of as many hashes as the whole path
    has; with a hash anywhere else, or hashes split over two placeholders,
    every frame gets the same URL. *)
Theorem frames_get_distinct_urls (FORMATS_TO_EXT : string -> option string)
  (out : Template.Output) (target format : string) (t : list Template.Piece) (a b : Z) :
  Template.targets out !! target = Some format ->
  Template.path out = Template.render t ->
  Template.well_formed t = true ->
  Template.plain target = true ->
  Template.plain (Template.ToString (FORMATS_TO_EXT format)) = true ->
  0 <= a < 10 ^ 21 -> 0 <= b < 10 ^ 21 -> a <> b ->
  Template.getGeometryURL FORMATS_TO_EXT out target a
  <> Template.getGeometryURL FORMATS_TO_EXT out target b
  <-> Template.hashes (Template.countHashChar (Template.path out)) ∈ Template.holes t.
Proof.
  intros Hformat Hpath Ht Htarget Hext Ha Hb Hab.
  rewrite !(TemplateFacts.getGeometryURL_render _ _ _ _ _ _ Hformat Hpath Ht Htarget Hext).
  set (k := Template.countHashChar (Template.path out)).
  set (T := Template.fill "ext" _ _).
  assert (Template.hashes k ∈ Template.holes T <-> Template.hashes k ∈ Template.holes t)
    as HT.
  { unfold T. rewrite !TemplateFacts.fill_holes_other; [done|..];
      by apply TemplateFacts.hashes_not_name. }
  split.
  - intros Hne. apply HT. destruct (decide (Template.hashes k ∈ Template.holes T)) as [|Hno];
      [done|]. exfalso. apply Hne. by rewrite !TemplateFacts.fill_absent.
  - intros Hin%HT. destruct (TemplateFacts.fill_split _ _ Hin) as (pre & post & Hsplit).
    rewrite !Hsplit. intros [= H%TemplateFacts.str_app_inv_head%TemplateFacts.str_app_inv_tail].
    apply Hab. apply (f_equal Template.decimal) in H.
    rewrite !TemplateFacts.pad_cases, !TemplateFacts.decimal_zeros in H by lia.
    congruence.
Qed.

Lemma frames_get_distinct_urls_witness :
  Template.getGeometryURL Template.demoExt Template.demoOutput "high" 7
  <> Template.getGeometryURL Template.demoExt Template.demoOutput "high" 12
  <-> Template.hashes (Template.countHashChar (Template.path Template.demoOutput))
      ∈ Template.holes Template.demoTemplate.
Proof.
  apply (frames_get_distinct_urls Template.demoExt Template.demoOutput "high" "draco"
           Template.demoTemplate 7 12 eq_refl eq_refl eq_refl eq_refl eq_refl); lia.
Defined.

(** * Target selection of the reduce-based player *)

Module V2Facts.
Import V2Player.

Lemma geometry_fold (m : V2Schema) (first : string) (rest : list string) :
  (forall k, k ∈ first :: rest -> is_Some (geometry m !! k)) ->
  exists pre g post tg,
    first :: rest = pre ++ g :: post /\
    currentGeometryTarget m (first :: rest) = Normal g /\
    geometry m !! g = Some tg /\
    (forall k tk, k ∈ pre -> geometry m !! k = Some tk -> frameRate tg <= frameRate tk) /\
    (forall k tk, k ∈ post -> geometry m !! k = Some tk -> frameRate tg < frameRate tk).
Proof.
  unfold currentGeometryTarget, Array_reduce.
  induction rest as [|c rest IH] using rev_ind; intros Hkeys.
  - destruct (Hkeys first) as [tg Hg]; [by left|].
    exists [], first, [], tg. split_and!; try done.
    + intros k tk Hk. by apply elem_of_nil in Hk.
    + intros k tk Hk. by apply elem_of_nil in Hk.
  - destruct IH as (pre & g & post & tg & Hsplit & Hrun & Hg & Hpre & Hpost).
    { intros k Hk. apply Hkeys. rewrite app_comm_cons, elem_of_app. by left. }
    destruct (Hkeys c) as [tc Hc].
    { rewrite app_comm_cons, elem_of_app, list_elem_of_singleton. by right. }
    rewrite foldl_snoc, Hrun. unfold lowerFrameRate. rewrite Hg, Hc. cbn zeta.
    destruct (Z.ltb_spec (frameRate tg) (frameRate tc)) as [Hlt|Hge].
    + exists pre, g, (post ++ [c]), tg. split_and!; try done.
      * by rewrite app_comm_cons, Hsplit, <- app_assoc.
      * intros k tk [Hk|Hk%list_elem_of_singleton]%elem_of_app Htk; [by eapply Hpost|].
        subst k. rewrite Hc in Htk. by injection Htk as <-.
    + exists (pre ++ g :: post), c, [], tc. split_and!; try done.
      * by rewrite app_comm_cons, Hsplit.
      * intros k tk [Hk|[->|Hk]%elem_of_cons]%elem_of_app Htk.
        -- specialize (Hpre k tk Hk Htk). lia.
        -- rewrite Hg in Htk. injection Htk as <-. lia.
        -- specialize (Hpost k tk Hk Htk). lia.
      * intros k tk Hk. by apply elem_of_nil in Hk.
Qed.

End V2Facts.

(** X24. The geometry target chosen by the reduce-based [playTrack] has the
    lowest frame rate of all targets, and among targets of that frame rate
    it is the last in the order of the manifest; a manifest without a
    geometry target makes [playTrack] throw a [TypeError]. *)
Theorem geometry_target_has_lowest_frame_rate (m : V2Schema) (geometryTargets : list string) :
  (forall k, k ∈ geometryTargets -> is_Some (geometry m !! k)) ->
  match geometryTargets with
  | [] => V2Player.currentGeometryTarget m geometryTargets = TypeError
  | _ =>
      exists pre g post tg,
        geometryTargets = pre ++ g :: post /\
        V2Player.currentGeometryTarget m geometryTargets = Normal g /\
        geometry m !! g = Some tg /\
        (forall k tk, k ∈ pre -> geometry m !! k = Some tk -> frameRate tg <= frameRate tk) /\
        (forall k tk, k ∈ post -> geometry m !! k = Some tk -> frameRate tg < frameRate tk)
  end.
Proof.
  intros Hkeys. destruct geometryTargets as [|first rest]; [done|].
  by apply V2Facts.geometry_fold.
Qed.
Module V2TextureFacts.
Import V2Player.

Section selection.
Variable sup : string -> bool.
Variable prio : string -> option Z.
Variable targets : gmap string TextureTargetData.

Lemma preferredTarget_wins (p c : string) (tp tc : TextureTargetData) :
  targets !! p = Some tp -> targets !! c = Some tc ->
  is_Some (prio (format tp)) -> is_Some (prio (format tc)) ->
  preferredTarget sup prio targets (Some p) (Some c)
  = Normal (Some (if wins sup prio tc tp then c else p)).
Proof.
  intros Hp Hc [pp Hpp] [pc Hpc]. unfold preferredTarget, wins.
  change (ToPropertyKey (Some p)) with p. change (ToPropertyKey (Some c)) with c.
  rewrite Hp, Hc, Hpp, Hpc. cbn zeta.
  change (default 0 (Some pp)) with pp. change (default 0 (Some pc)) with pc.
  destruct (sup (format tp)), (sup (format tc)); cbn [negb andb orb]; try done.
  assert (match resolution tp with
          | Some (prevWidth, prevHeight) =>
              match resolution tp with
              | Some (currWidth, currHeight) =>
                  if prevWidth * prevHeight <? currWidth * currHeight then Some (Some p)
                  else if currWidth * currHeight <? prevWidth * prevHeight then Some (Some c)
                  else None
              | None => None
              end
          | None => None
          end = None) as ->.
  { destruct (resolution tp) as [[w h]|]; [|done]. by rewrite Z.ltb_irrefl. }
  rewrite Z.gtb_ltb, (Z.gtb_ltb pc pp), Z.geb_leb.
  destruct (Z.ltb_spec (textureFrameRate tp) (textureFrameRate tc)),
    (Z.ltb_spec (textureFrameRate tc) (textureFrameRate tp)),
    (Z.eqb_spec (textureFrameRate tc) (textureFrameRate tp)),
    (Z.leb_spec pc pp), (Z.ltb_spec pp pc); cbn [andb orb]; try done; lia.
Qed.

Lemma wins_irrefl (t : TextureTargetData) : wins sup prio t t = false.
Proof.
  unfold wins. cbn zeta. rewrite !Z.ltb_irrefl.
  destruct (sup (format t)); cbn [negb andb orb]; [|done]. apply andb_false_r.
Qed.

Lemma wins_trans (a b c : TextureTargetData) :
  wins sup prio a b = true -> wins sup prio b c = true -> wins sup prio a c = true.
Proof.
  unfold wins. cbn zeta.
  destruct (sup (format a)), (sup (format b)), (sup (format c)); cbn [negb andb orb];
    try done.
  rewrite !orb_true_iff, !andb_true_iff, !Z.ltb_lt, !Z.eqb_eq. lia.
Qed.

Lemma texture_fold (first : string) (rest : list string) :
  (forall k, k ∈ first :: rest ->
     exists tk, targets !! k = Some tk /\ is_Some (prio (format tk))) ->
  exists g tg,
    currentTextureTarget sup prio targets (first :: rest) = Normal (Some g) /\
    g ∈ first :: rest /\
    targets !! g = Some tg /\
    forall k tk, k ∈ first :: rest -> targets !! k = Some tk -> wins sup prio tk tg = false.
Proof.
  assert (forall rest, currentTextureTarget sup prio targets (first :: rest)
          = foldl (fun acc curr => match acc with
                                   | Normal prev => preferredTarget sup prio targets prev curr
                                   | TypeError => TypeError
                                   end) (Normal (Some first)) (Some <$> rest)) as Hcons by done.
  induction rest as [|c rest IH] using rev_ind; intros Hkeys; rewrite Hcons.
  - destruct (Hkeys first) as (tg & Hg & _); [by left|].
    exists first, tg. split_and!; try done; [by left|].
    intros k tk ->%list_elem_of_singleton Htk. rewrite Hg in Htk. injection Htk as <-.
    apply wins_irrefl.
  - destruct IH as (g & tg & Hrun & Hin & Hg & Hbest).
    { intros k Hk. apply Hkeys. rewrite app_comm_cons, elem_of_app. by left. }
    destruct (Hkeys c) as (tc & Hc & Hpc).
    { rewrite app_comm_cons, elem_of_app, list_elem_of_singleton. by right. }
    destruct (Hkeys g) as (tg' & Hg' & Hpg).
    { rewrite app_comm_cons, elem_of_app. by left. }
    rewrite Hg in Hg'. injection Hg' as <-.
    rewrite Hcons in Hrun.
    rewrite fmap_app. change (Some <$> [c]) with [Some c].
    rewrite foldl_snoc, Hrun, (preferredTarget_wins g c tg tc) by done.
    destruct (wins sup prio tc tg) eqn:Hw.
    + exists c, tc. split_and!; try done.
      * rewrite app_comm_cons, elem_of_app, list_elem_of_singleton. by right.
      * intros k tk Hk Htk. rewrite app_comm_cons, elem_of_app, list_elem_of_singleton in Hk.
        destruct Hk as [Hk| ->].
        -- destruct (wins sup prio tk tc) eqn:Hkc; [|done].
           rewrite <- (Hbest k tk Hk Htk). symmetry. by eapply wins_trans.
        -- rewrite Hc in Htk. injection Htk as <-. apply wins_irrefl.
    + exists g, tg. split_and!; try done.
      * rewrite app_comm_cons, elem_of_app. by left.
      * intros k tk Hk Htk. rewrite app_comm_cons, elem_of_app, list_elem_of_singleton in Hk.
        destruct Hk as [Hk| ->]; [by eapply Hbest|].
        rewrite Hc in Htk. by injection Htk as <-.
Qed.

Lemma preferredTarget_resolution (f : TextureTargetData -> option (Z * Z))
  (prev curr : option string) :
  preferredTarget sup prio (with_resolutions f targets) prev curr
  = preferredTarget sup prio targets prev curr.
Proof.
  unfold preferredTarget, with_resolutions. rewrite !lookup_fmap.
  destruct (targets !! ToPropertyKey prev) as [tp|]; [|done].
  destruct (targets !! ToPropertyKey curr) as [tc|]; [|done].
  cbn [fmap option_fmap option_map format resolution textureFrameRate]. cbn zeta.
  destruct (f tp) as [[w h]|], (resolution tp) as [[w' h']|]; by rewrite ?Z.ltb_irrefl.
Qed.

End selection.
End V2TextureFacts.

(** X25. The texture target chosen by the reduce-based [playTrack], when
    every target's format has a priority: it is one of the targets, and if
    any target has a format the renderer supports then the chosen one is
    supported too and no supported target has a lower frame rate. *)
Theorem texture_target_prefers_supported (isTextureFormatSupported : string -> bool)
  (TEXTURE_FORMAT_PRIORITY : string -> option Z)
  (targets : gmap string V2Player.TextureTargetData) (textureTargets : list string) :
  textureTargets <> [] ->
  (forall k, k ∈ textureTargets ->
     exists tk, targets !! k = Some tk /\
       is_Some (TEXTURE_FORMAT_PRIORITY (V2Player.format tk))) ->
  exists g tg,
    V2Player.currentTextureTarget isTextureFormatSupported TEXTURE_FORMAT_PRIORITY
      targets textureTargets = Normal (Some g) /\
    g ∈ textureTargets /\
    targets !! g = Some tg /\
    forall k tk, k ∈ textureTargets -> targets !! k = Some tk ->
      isTextureFormatSupported (V2Player.format tk) = true ->
      isTextureFormatSupported (V2Player.format tg) = true /\
      V2Player.textureFrameRate tg <= V2Player.textureFrameRate tk.
Proof.
  intros Hne Hkeys. destruct textureTargets as [|first rest]; [done|].
  destruct (V2TextureFacts.texture_fold isTextureFormatSupported TEXTURE_FORMAT_PRIORITY
              targets first rest Hkeys) as (g & tg & Hrun & Hin & Hg & Hbest).
  exists g, tg. split_and!; try done.
  intros k tk Hk Htk Hsup. specialize (Hbest k tk Hk Htk).
  unfold V2Player.wins in Hbest. cbn zeta in Hbest. rewrite Hsup in Hbest.
  destruct (isTextureFormatSupported (V2Player.format tg)); [|done].
  split; [done|]. cbn [negb andb orb] in Hbest.
  apply orb_false_elim in Hbest as [Hlt _]. by apply Z.ltb_ge in Hlt.
Qed.

(** X26. The resolutions of the texture targets have no influence on the
    target the reduce-based [playTrack] chooses: the callback reads the
    resolution of [prev] for both sides, so the comparison of pixel counts
    never decides. *)
Theorem texture_target_ignores_resolution (isTextureFormatSupported : string -> bool)
  (TEXTURE_FORMAT_PRIORITY : string -> option Z)
  (targets : gmap string V2Player.TextureTargetData) (textureTargets : list string)
  (f : V2Player.TextureTargetData -> option (Z * Z)) :
  V2Player.currentTextureTarget isTextureFormatSupported TEXTURE_FORMAT_PRIORITY
    (V2Player.with_resolutions f targets) textureTargets
  = V2Player.currentTextureTarget isTextureFormatSupported TEXTURE_FORMAT_PRIORITY
      targets textureTargets.
Proof.
  unfold V2Player.currentTextureTarget, V2Player.Array_reduce.
  destruct (Some <$> textureTargets) as [|first rest]; [done|].
  generalize (Normal first). induction rest as [|c rest IH]; intros acc; [done|].
  cbn [foldl]. rewrite IH. f_equal. destruct acc as [prev|]; [|done].
  apply V2TextureFacts.preferredTarget_resolution.
Qed.
Lemma geometry_target_has_lowest_frame_rate_witness :
  exists pre g post tg,
    V2Player.demoGeometryTargets = pre ++ g :: post /\
    V2Player.currentGeometryTarget V2Player.demoGeometryManifest V2Player.demoGeometryTargets
    = Normal g /\
    geometry V2Player.demoGeometryManifest !! g = Some tg /\
    (forall k tk, k ∈ pre -> geometry V2Player.demoGeometryManifest !! k = Some tk ->
       frameRate tg <= frameRate tk) /\
    (forall k tk, k ∈ post -> geometry V2Player.demoGeometryManifest !! k = Some tk ->
       frameRate tg < frameRate tk).
Proof.
  apply (geometry_target_has_lowest_frame_rate V2Player.demoGeometryManifest
           V2Player.demoGeometryTargets).
  intros k Hk. unfold V2Player.demoGeometryTargets in Hk.
  repeat (apply elem_of_cons in Hk as [->|Hk]); [by eexists..|].
  by apply elem_of_nil in Hk.
Defined.

Lemma texture_target_prefers_supported_witness :
  exists g tg,
    V2Player.currentTextureTarget V2Player.demoSupported V2Player.demoPriority
      V2Player.demoTextureData V2Player.demoTextureTargets = Normal (Some g) /\
    g ∈ V2Player.demoTextureTargets /\
    V2Player.demoTextureData !! g = Some tg /\
    forall k tk, k ∈ V2Player.demoTextureTargets -> V2Player.demoTextureData !! k = Some tk ->
      V2Player.demoSupported (V2Player.format tk) = true ->
      V2Player.demoSupported (V2Player.format tg) = true /\
      V2Player.textureFrameRate tg <= V2Player.textureFrameRate tk.
Proof.
  apply texture_target_prefers_supported; [done|].
  intros k Hk. unfold V2Player.demoTextureTargets in Hk.
  repeat (apply elem_of_cons in Hk as [->|Hk]);
    [eexists; split; [reflexivity|by eexists]..|].
  by apply elem_of_nil in Hk.
Defined.
(** * Target order of the multi-target player *)

Module SortFacts.
Import PlayerTargets.

Lemma ordered_nil {A} (before : A -> A -> Prop) : ordered before [].
Proof. intros i j a b _ H. by rewrite lookup_nil in H. Qed.

Lemma ordered_cons {A} (before : A -> A -> Prop) (x : A) (l : list A) :
  ordered before (x :: l) <-> Forall (before x) l /\ ordered before l.
Proof.
  split.
  - intros H. split.
    + apply Forall_lookup. intros i b Hb. apply (H O (S i) x b); [lia|done|done].
    + intros i j a b Hij Ha Hb. apply (H (S i) (S j) a b); [lia|done|done].
  - intros [Hx Hl] i j a b Hij Ha Hb. destruct j as [|j]; [lia|].
    destruct i as [|i].
    + injection Ha as <-. rewrite Forall_lookup in Hx. by eapply Hx.
    + apply (Hl i j a b); [lia|done|done].
Qed.

Section sort.

Context {A : Type}.
Variable comparefn : A -> A -> Completion (option Q).
Variable P : A -> Prop.
Variable before : A -> A -> Prop.

Hypothesis compare_before : forall x y, P x -> P y ->
  exists v, comparefn x y = Normal (Some v) /\ ((v <= 0)%Q <-> before x y).
Hypothesis before_total : forall x y, P x -> P y -> before x y \/ before y x.
Hypothesis before_trans : forall x y z, P x -> P y -> P z ->
  before x y -> before y z -> before x z.

Lemma insert_ordered (x : A) (s : list A) :
  P x -> Forall P s -> ordered before s ->
  exists s', insert comparefn x s = Normal s' /\ s' ≡ₚ x :: s /\ ordered before s'.
Proof.
  intros Hx. induction s as [|y s IH]; intros Hs Hord.
  - exists [x]. split_and!; [done|done|].
    apply ordered_cons. split; [done|apply ordered_nil].
  - apply Forall_cons in Hs as [Hy Hs]. apply ordered_cons in Hord as [Hys Hord].
    cbn [insert]. unfold SortCompare.
    destruct (compare_before x y Hx Hy) as (v & -> & Hv).
    destruct (Qle_bool v 0) eqn:Hle.
    + apply Qle_bool_iff, Hv in Hle. exists (x :: y :: s). split_and!; [done|done|].
      apply ordered_cons. split; [|by apply ordered_cons].
      apply Forall_cons. split; [done|].
      rewrite Forall_forall in Hys, Hs |- *. intros z Hz.
      apply (before_trans x y z); auto.
    + assert (before y x) as Hyx.
      { destruct (before_total x y Hx Hy) as [Hxy|]; [|done].
        apply Hv, Qle_bool_iff in Hxy. congruence. }
      destruct (IH Hs Hord) as (s' & -> & Hperm & Hord').
      exists (y :: s'). split_and!; [done|by rewrite Hperm, Permutation_swap|].
      apply ordered_cons. split; [|done].
      rewrite Hperm. by apply Forall_cons.
Qed.

Lemma sort_ordered (l : list A) :
  Forall P l ->
  exists s, Array_sort comparefn l = Normal s /\ s ≡ₚ l /\ ordered before s.
Proof.
  induction l as [|x l IH]; intros Hl.
  - exists []. split_and!; [done|done|apply ordered_nil].
  - apply Forall_cons in Hl as [Hx Hl]. destruct (IH Hl) as (s & Hs & Hperm & Hord).
    cbn [Array_sort]. rewrite Hs.
    destruct (insert_ordered x s Hx) as (s' & -> & Hperm' & Hord'); [by rewrite Hperm|done|].
    exists s'. split_and!; [done|by rewrite Hperm', Hperm|done].
Qed.

End sort.
End SortFacts.
Module TargetOrderFacts.
Import PlayerTargets.

Lemma inject_Z_nonpos (z : Z) : (inject_Z z <= 0)%Q <-> z <= 0.
Proof. change 0%Q with (inject_Z 0). by rewrite <- Zle_Qle. Qed.

Section texture.
Variable sup : string -> bool.
Variable prio : string -> option Z.
Variable targets : gmap string V2Player.TextureTargetData.

Lemma supportedOf_filter (allTargets : list string) :
  Forall (textureKnown prio targets) allTargets ->
  supportedOf sup targets allTargets = Normal (List.filter (supportedKey sup targets) allTargets).
Proof.
  induction allTargets as [|k l IH]; intros Hall; [done|].
  apply Forall_cons in Hall as [(tk & Hk & _) Hall].
  cbn [supportedOf List.filter]. unfold supportedKey at 1. rewrite Hk, (IH Hall). done.
Qed.

Lemma textureKeyBefore_data (x y : string) (tx ty : V2Player.TextureTargetData) :
  targets !! x = Some tx -> targets !! y = Some ty ->
  textureKeyBefore prio targets x y <-> textureBefore prio tx ty.
Proof.
  intros Hx Hy. unfold textureKeyBefore. split.
  - intros (a & b & Ha & Hb & H). rewrite Hx in Ha. rewrite Hy in Hb.
    injection Ha as <-. by injection Hb as <-.
  - intros H. by exists tx, ty.
Qed.

Lemma compareTexture_before (x y : string) :
  textureKnown prio targets x -> textureKnown prio targets y ->
  exists v, compareTexture prio targets x y = Normal (Some v) /\
    ((v <= 0)%Q <-> textureKeyBefore prio targets x y).
Proof.
  intros (tx & Hx & [[wx hx] Hrx] & [px Hpx]) (ty & Hy & [[wy hy] Hry] & [py Hpy]).
  setoid_rewrite (textureKeyBefore_data x y tx ty Hx Hy).
  unfold compareTexture, textureBefore, pixelPerSecond.
  rewrite Hx, Hy, Hrx, Hry, Hpx, Hpy. cbn zeta.
  destruct (bool_decide_reflect (Some px <> Some py)) as [Hne|Heq].
  - eexists. split; [done|]. cbn [minus]. rewrite inject_Z_nonpos.
    assert (px <> py) by congruence. lia.
  - eexists. split; [done|]. rewrite inject_Z_nonpos.
    assert (px = py) by (destruct (decide (px = py)); [done|]; exfalso; apply Heq; congruence).
    lia.
Qed.

Lemma textureBefore_total (x y : string) :
  textureKnown prio targets x -> textureKnown prio targets y ->
  textureKeyBefore prio targets x y \/ textureKeyBefore prio targets y x.
Proof.
  intros (tx & Hx & _ & [px Hpx]) (ty & Hy & _ & [py Hpy]).
  rewrite (textureKeyBefore_data x y tx ty Hx Hy), (textureKeyBefore_data y x ty tx Hy Hx).
  unfold textureBefore. rewrite Hpx, Hpy. lia.
Qed.

Lemma textureBefore_trans (x y z : string) :
  textureKnown prio targets x -> textureKnown prio targets y -> textureKnown prio targets z ->
  textureKeyBefore prio targets x y -> textureKeyBefore prio targets y z ->
  textureKeyBefore prio targets x z.
Proof.
  intros (tx & Hx & _ & [px Hpx]) (ty & Hy & _ & [py Hpy]) (tz & Hz & _ & [pz Hpz]).
  rewrite (textureKeyBefore_data x y tx ty Hx Hy), (textureKeyBefore_data y z ty tz Hy Hz),
    (textureKeyBefore_data x z tx tz Hx Hz).
  unfold textureBefore. rewrite Hpx, Hpy, Hpz. lia.
Qed.

End texture.
End TargetOrderFacts.

(** X27. The texture targets of a type after [playTrack]'s filter and sort,
    when every target of the manifest has a resolution and a format with a
    priority: they are the targets with a supported format, each once, in
    the order of falling format priority and, within a priority, of rising
    pixel rate (width x height x frame rate).  The first is the target the
    session starts with, and [adjustTextureTarget] steps along this list. *)
Theorem texture_targets_sorted (isTextureFormatSupported : string -> bool)
  (TEXTURE_FORMAT_PRIORITY : string -> option Z)
  (targets : gmap string V2Player.TextureTargetData) (allTargets : list string) :
  Forall (PlayerTargets.textureKnown TEXTURE_FORMAT_PRIORITY targets) allTargets ->
  exists sorted,
    PlayerTargets.supportedTargets isTextureFormatSupported TEXTURE_FORMAT_PRIORITY
      targets allTargets = Normal sorted /\
    sorted ≡ₚ List.filter (PlayerTargets.supportedKey isTextureFormatSupported targets)
                allTargets /\
    PlayerTargets.ordered (PlayerTargets.textureKeyBefore TEXTURE_FORMAT_PRIORITY targets)
      sorted.
Proof.
  intros Hall. unfold PlayerTargets.supportedTargets.
  rewrite (TargetOrderFacts.supportedOf_filter _ TEXTURE_FORMAT_PRIORITY) by done.
  apply (SortFacts.sort_ordered _ (PlayerTargets.textureKnown TEXTURE_FORMAT_PRIORITY targets)).
  - apply TargetOrderFacts.compareTexture_before.
  - apply TargetOrderFacts.textureBefore_total.
  - apply TargetOrderFacts.textureBefore_trans.
  - rewrite Forall_forall in Hall |- *. intros k Hk. apply Hall.
    apply list_elem_of_In. apply list_elem_of_In, filter_In in Hk. by destruct Hk.
Qed.

Lemma texture_targets_sorted_witness :
  exists sorted,
    PlayerTargets.supportedTargets V2Player.demoSupported V2Player.demoPriority
      V2Player.demoTextureData V2Player.demoTextureTargets = Normal sorted /\
    sorted ≡ₚ List.filter (PlayerTargets.supportedKey V2Player.demoSupported
                             V2Player.demoTextureData) V2Player.demoTextureTargets /\
    PlayerTargets.ordered
      (PlayerTargets.textureKeyBefore V2Player.demoPriority V2Player.demoTextureData) sorted.
Proof.
  apply texture_targets_sorted.
  repeat apply Forall_cons_2; [..|apply Forall_nil_2];
    (eexists; split_and!; [reflexivity|by eexists|by eexists]).
Defined.
Module GeometryOrderFacts.
Import PlayerTargets.

Section geometry.
Variable prio : string -> option Z.
Variable targets : gmap string GeometryTargetData.

Hypothesis prio_inj : forall f f' p, prio f = Some p -> prio f' = Some p -> f = f'.

Lemma geometryKeyBefore_data (x y : string) (tx ty : GeometryTargetData) :
  targets !! x = Some tx -> targets !! y = Some ty ->
  geometryKeyBefore prio targets x y <-> geometryBefore prio tx ty.
Proof.
  intros Hx Hy. unfold geometryKeyBefore. split.
  - intros (a & b & Ha & Hb & H). rewrite Hx in Ha. rewrite Hy in Hb.
    injection Ha as <-. by injection Hb as <-.
  - intros H. by exists tx, ty.
Qed.

Lemma compareGeometry_before (x y : string) :
  geometryKnown prio targets x -> geometryKnown prio targets y ->
  exists v, compareGeometry prio targets x y = Normal (Some v) /\
    ((v <= 0)%Q <-> geometryKeyBefore prio targets x y).
Proof.
  intros (tx & Hx & [sx Hsx] & [px Hpx]) (ty & Hy & [sy Hsy] & [py Hpy]).
  setoid_rewrite (geometryKeyBefore_data x y tx ty Hx Hy).
  unfold compareGeometry, geometryBefore, ratio.
  rewrite Hx, Hy, Hsx, Hsy, Hpx, Hpy. cbn zeta.
  destruct (bool_decide_reflect (Some px <> Some py)) as [Hne|Heq].
  - eexists. split; [done|]. cbn [minus]. rewrite TargetOrderFacts.inject_Z_nonpos.
    assert (px <> py) by congruence. lia.
  - assert (px = py) by (destruct (decide (px = py)); [done|]; exfalso; apply Heq; congruence).
    destruct (bool_decide (format tx = "glb") && bool_decide (format ty = "glb")).
    + destruct (Qeq_bool (default 1%Q sx) (default 1%Q sy)) eqn:Hr; cbn [negb].
      * apply Qeq_bool_iff in Hr. eexists. split; [done|].
        rewrite TargetOrderFacts.inject_Z_nonpos. split.
        -- intros Hle. right. split; [done|]. right. split; [done|lia].
        -- intros [Hlt|[_ [Hlt|[_ Hle]]]]; [lia|lra|lia].
      * apply Qeq_bool_neq in Hr. eexists. split; [done|]. split.
        -- intros Hle. right. split; [done|]. left. lra.
        -- intros [Hlt|[_ [Hlt|[Heq' _]]]]; [lia|lra|done].
    + eexists. split; [done|]. rewrite TargetOrderFacts.inject_Z_nonpos. lia.
Qed.

Lemma geometryBefore_total (x y : string) :
  geometryKnown prio targets x -> geometryKnown prio targets y ->
  geometryKeyBefore prio targets x y \/ geometryKeyBefore prio targets y x.
Proof.
  intros (tx & Hx & _ & [px Hpx]) (ty & Hy & _ & [py Hpy]).
  rewrite (geometryKeyBefore_data x y tx ty Hx Hy), (geometryKeyBefore_data y x ty tx Hy Hx).
  unfold geometryBefore. rewrite Hpx, Hpy.
  destruct (Z.lt_trichotomy px py) as [Hlt|[->|Hgt]]; [right; by left| |left; by left].
  rewrite (andb_comm (bool_decide (format ty = "glb"))).
  destruct (bool_decide (format tx = "glb") && bool_decide (format ty = "glb")).
  - destruct (Q_dec (ratio tx) (ratio ty)) as [[Hlt|Hgt]|Heq].
    + right. right. split; [done|by left].
    + left. right. split; [done|by left].
    + destruct (Z.le_ge_cases (frameRate tx) (frameRate ty)).
      * left. right. split; [done|]. right. done.
      * right. right. split; [done|]. right. split; [by symmetry|done].
  - destruct (Z.le_ge_cases (frameRate tx) (frameRate ty)); [left|right]; right; done.
Qed.

Lemma geometryBefore_trans (x y z : string) :
  geometryKnown prio targets x -> geometryKnown prio targets y -> geometryKnown prio targets z ->
  geometryKeyBefore prio targets x y -> geometryKeyBefore prio targets y z ->
  geometryKeyBefore prio targets x z.
Proof.
  intros (tx & Hx & _ & [px Hpx]) (ty & Hy & _ & [py Hpy]) (tz & Hz & _ & [pz Hpz]).
  rewrite (geometryKeyBefore_data x y tx ty Hx Hy), (geometryKeyBefore_data y z ty tz Hy Hz),
    (geometryKeyBefore_data x z tx tz Hx Hz).
  unfold geometryBefore. rewrite Hpx, Hpy, Hpz.
  intros [Hxy|[-> Hxy]] [Hyz|[-> Hyz]]; [left; lia|by left|by left|].
  right. split; [done|].
  rewrite (prio_inj _ _ _ Hpx Hpy) in *. rewrite (prio_inj _ _ _ Hpy Hpz) in *.
  destruct (bool_decide (format tz = "glb")); cbn [andb] in *; [|lia].
  destruct Hxy as [Hxy|[Hxy Hxy']], Hyz as [Hyz|[Hyz Hyz']].
  - left. lra.
  - left. lra.
  - left. lra.
  - right. split; [lra|lia].
Qed.

End geometry.
End GeometryOrderFacts.

(** X28. The geometry targets after [playTrack]'s sort, when different
    formats have different priorities and every target has its settings and
    a format with a priority: the same targets, in the order of falling
    format priority; within ['glb'] of falling simplification ratio (1 when
    it is not given) and then rising frame rate; within another format of
    rising frame rate.  The first is the geometry target of the session. *)
Theorem geometry_targets_sorted (GEOMETRY_FORMAT_PRIORITY : string -> option Z)
  (targets : gmap string PlayerTargets.GeometryTargetData) (geometryTargets : list string) :
  (forall f f' p, GEOMETRY_FORMAT_PRIORITY f = Some p ->
     GEOMETRY_FORMAT_PRIORITY f' = Some p -> f = f') ->
  Forall (PlayerTargets.geometryKnown GEOMETRY_FORMAT_PRIORITY targets) geometryTargets ->
  exists sorted,
    PlayerTargets.sortedGeometryTargets GEOMETRY_FORMAT_PRIORITY targets geometryTargets
    = Normal sorted /\
    sorted ≡ₚ geometryTargets /\
    PlayerTargets.ordered (PlayerTargets.geometryKeyBefore GEOMETRY_FORMAT_PRIORITY targets)
      sorted.
Proof.
  intros Hinj Hall. unfold PlayerTargets.sortedGeometryTargets.
  apply (SortFacts.sort_ordered _
           (PlayerTargets.geometryKnown GEOMETRY_FORMAT_PRIORITY targets)).
  - apply GeometryOrderFacts.compareGeometry_before.
  - apply GeometryOrderFacts.geometryBefore_total.
  - by apply GeometryOrderFacts.geometryBefore_trans.
  - done.
Qed.

Lemma geometry_targets_sorted_witness :
  exists sorted,
    PlayerTargets.sortedGeometryTargets PlayerTargets.demoGeometryPriority
      PlayerTargets.demoGeometryData PlayerTargets.demoGeometryTargets = Normal sorted /\
    sorted ≡ₚ PlayerTargets.demoGeometryTargets /\
    PlayerTargets.ordered
      (PlayerTargets.geometryKeyBefore PlayerTargets.demoGeometryPriority
         PlayerTargets.demoGeometryData) sorted.
Proof.
  apply geometry_targets_sorted.
  - intros f f' p. unfold PlayerTargets.demoGeometryPriority.
    repeat case_decide; congruence.
  - repeat apply Forall_cons_2; [..|apply Forall_nil_2];
      (eexists; split_and!; [reflexivity|by eexists|by eexists]).
Defined.
(** * The controller on the sorted target list *)

Lemma nth_Z_indexOf_self (l : list string) (x : string) :
  x ∈ l -> nth_Z l (indexOf l x) = Some x.
Proof.
  intros Hin. pose proof (indexOf_elem l x Hin) as Hpos. unfold nth_Z.
  destruct (indexOf l x <? 0) eqn:E; [apply Z.ltb_lt in E; lia|]. clear E Hpos.
  induction l as [|y l IH]; [by apply elem_of_nil in Hin|].
  cbn [indexOf]. destruct (decide (y = x)) as [->|Hne]; [done|].
  apply elem_of_cons in Hin as [->|Hin]; [done|].
  pose proof (indexOf_elem l x Hin) as Hpos.
  destruct (indexOf l x <? 0) eqn:E; [apply Z.ltb_lt in E; lia|].
  rewrite Z2Nat.inj_add by lia. rewrite Nat.add_1_r. cbn [lookup list_lookup].
  by apply IH.
Qed.

Lemma textureKeyBefore_refl (prio : string -> option Z)
  (data : gmap string V2Player.TextureTargetData) (x : string) :
  PlayerTargets.textureKnown prio data x -> PlayerTargets.textureKeyBefore prio data x x.
Proof.
  intros (tx & Hx & _ & [px Hpx]). exists tx, tx. split_and!; [done|done|].
  unfold PlayerTargets.textureBefore. rewrite Hpx. lia.
Qed.

(** X29. The controller moves along the order of [playTrack]'s sort: with
    the sorted list of supported targets as the ['baseColor'] list of the
    session and a window of at least 3 samples of any sign, a mean from 0 to
    0.3 leaves the session on a target that the current one may stand before
    (a format priority not higher, and within the same priority a pixel rate
    not lower); a mean above 0.6, or below 0, on a target that may stand
    before the current one; and a mean above 0.3 and at most 0.6 on the
    current target.  The mean is the sum of the samples divided by their
    number. *)
Theorem controller_follows_target_order (isTextureFormatSupported : string -> bool)
  (TEXTURE_FORMAT_PRIORITY : string -> option Z)
  (data : gmap string V2Player.TextureTargetData) (allTargets sorted : list string)
  (p : Player) (t : TrackData) (current : string) :
  Forall (PlayerTargets.textureKnown TEXTURE_FORMAT_PRIORITY data) allTargets ->
  PlayerTargets.supportedTargets isTextureFormatSupported TEXTURE_FORMAT_PRIORITY
    data allTargets = Normal sorted ->
  trackData p = Some t ->
  textureTargets t !! "baseColor" = Some sorted ->
  currentTextureTarget t !! "baseColor" = Some current ->
  current ∈ sorted ->
  (3 <= length (stats t))%nat ->
  let mu := (fold_left Qplus (stats t) 0 / inject_Z (Z.of_nat (length (stats t))))%Q in
  exists t' current',
    trackData (state (adjustTextureTarget p)) = Some t' /\
    currentTextureTarget t' !! "baseColor" = Some current' /\
    current' ∈ sorted /\
    ((0 <= mu)%Q /\ (mu <= 3 # 10)%Q ->
       PlayerTargets.textureKeyBefore TEXTURE_FORMAT_PRIORITY data current current') /\
    ((3 # 10 < mu)%Q /\ (mu <= 6 # 10)%Q -> current' = current) /\
    ((mu < 0)%Q \/ (6 # 10 < mu)%Q ->
       PlayerTargets.textureKeyBefore TEXTURE_FORMAT_PRIORITY data current' current).
Proof.
  intros Hall Hsorted Ht Htargets Hcur Hin Hlen mu.
  set (before := PlayerTargets.textureKeyBefore TEXTURE_FORMAT_PRIORITY data).
  assert (Forall (PlayerTargets.textureKnown TEXTURE_FORMAT_PRIORITY data) sorted
          /\ PlayerTargets.ordered before sorted) as [Hknown Hord].
  { unfold PlayerTargets.supportedTargets in Hsorted.
    rewrite (TargetOrderFacts.supportedOf_filter _ TEXTURE_FORMAT_PRIORITY) in Hsorted by done.
    destruct (SortFacts.sort_ordered
                (PlayerTargets.compareTexture TEXTURE_FORMAT_PRIORITY data)
                (PlayerTargets.textureKnown TEXTURE_FORMAT_PRIORITY data) before
                (TargetOrderFacts.compareTexture_before _ _)
                (TargetOrderFacts.textureBefore_total _ _)
                (TargetOrderFacts.textureBefore_trans _ _)
                (List.filter (PlayerTargets.supportedKey isTextureFormatSupported data)
                   allTargets)) as (s & Hs & Hperm & Hord).
    { rewrite Forall_forall in Hall |- *. intros k Hk. apply Hall.
      apply list_elem_of_In. apply list_elem_of_In, filter_In in Hk. by destruct Hk. }
    rewrite Hs in Hsorted. injection Hsorted as ->. split; [|done].
    rewrite Hperm. rewrite Forall_forall in Hall |- *. intros k Hk. apply Hall.
    apply list_elem_of_In. apply list_elem_of_In, filter_In in Hk. by destruct Hk. }
  assert (before current current) as Hrefl.
  { apply textureKeyBefore_refl. rewrite Forall_forall in Hknown. by apply Hknown. }
  pose proof (indexOf_range sorted current) as Hrange.
  pose proof (indexOf_elem sorted current Hin) as Hpos.
  pose proof (nth_Z_indexOf_self sorted current Hin) as Hself.
  rewrite (adjustTextureTarget_result p t sorted current Ht Htargets Hcur Hlen).
  change (mean (stats t)) with mu.
  unfold state. cbn [fst snd].
  set (i := indexOf sorted current) in *.
  assert (forall j c, 0 <= j -> nth_Z sorted j = Some c -> sorted !! Z.to_nat j = Some c)
    as Hnth.
  { intros j c Hj. unfold nth_Z. destruct (j <? 0) eqn:E; [apply Z.ltb_lt in E; lia|done]. }
  assert (Hstay : exists t' current',
    trackData (with_trackData (Some (set_stats [] t)) p) = Some t' /\
    currentTextureTarget t' !! "baseColor" = Some current' /\
    current' ∈ sorted /\ current' = current).
  { exists (set_stats [] t), current. by split_and!. }
  assert (Hmoved : forall c, c ∈ sorted -> exists t' current',
    trackData (with_trackData
      (Some (set_stats []
               (set_currentTextureTarget
                  (assign "baseColor" (Some c) (currentTextureTarget t)) t))) p) = Some t' /\
    currentTextureTarget t' !! "baseColor" = Some current' /\
    current' ∈ sorted /\ current' = c).
  { intros c Hc. eexists _, c. split_and!; [done| |done|done].
    cbn [currentTextureTarget set_stats set_currentTextureTarget assign].
    apply lookup_insert_eq. }
  destruct (Qle_bool 0 mu && Qle_bool mu (3 # 10)) eqn:G1.
  - apply andb_true_iff in G1 as [G0%Qle_bool_iff G3%Qle_bool_iff].
    destruct (Z.ltb_spec i (Z.of_nat (length sorted) - 1)) as [Hi|Hi].
    + destruct (nth_Z_is_Some sorted (i + 1)) as (c & Hc & Hcin); [lia|].
      rewrite Hc. destruct (Hmoved c Hcin) as (t' & c' & Ht' & Hc' & Hin' & ->).
      exists t', c. split_and!; [done|done|done| | |].
      * intros _. apply (Hord (Z.to_nat i) (Z.to_nat (i + 1)) current c);
          [lia|by apply Hnth|apply Hnth; [lia|done]].
      * intros [? ?]. exfalso. lra.
      * intros [?|?]; exfalso; lra.
    + destruct Hstay as (t' & c' & Ht' & Hc' & Hin' & ->).
      exists t', current. split_and!; done.
  - assert ((mu < 0)%Q \/ (3 # 10 < mu)%Q) as G1'.
    { apply andb_false_iff in G1 as [G|G]; apply Qle_bool_false in G; auto. }
    destruct (Qle_bool (3 # 10) mu && Qle_bool mu (6 # 10)) eqn:G2.
    + destruct Hstay as (t' & c' & Ht' & Hc' & Hin' & ->).
      exists t', current. split_and!; done.
    + assert ((mu < 0)%Q \/ (6 # 10 < mu)%Q) as G2'.
      { apply andb_false_iff in G2 as [G|G]; apply Qle_bool_false in G;
          destruct G1'; auto; exfalso; lra. }
      destruct (Z.ltb_spec 0 i) as [Hi|Hi].
      * destruct (nth_Z_is_Some sorted (i - 1)) as (c & Hc & Hcin); [lia|].
        rewrite Hc. destruct (Hmoved c Hcin) as (t' & c' & Ht' & Hc' & Hin' & ->).
        exists t', c. split_and!; [done|done|done| | |].
        -- intros [? ?]. exfalso. destruct G2'; lra.
        -- intros [? ?]. exfalso. destruct G2'; lra.
        -- intros _. apply (Hord (Z.to_nat (i - 1)) (Z.to_nat i) c current);
             [lia|apply Hnth; [lia|done]|by apply Hnth].
      * destruct Hstay as (t' & c' & Ht' & Hc' & Hin' & ->).
        exists t', current. split_and!; done.
Qed.

Lemma demoTextureTargets_known :
  Forall (PlayerTargets.textureKnown V2Player.demoPriority V2Player.demoTextureData)
    V2Player.demoTextureTargets.
Proof.
  repeat apply Forall_cons_2; [..|apply Forall_nil_2];
    (eexists; split_and!; [reflexivity|by eexists|by eexists]).
Qed.

Lemma controller_follows_target_order_witness :
  (exists t' current',
     trackData (state (adjustTextureTarget (demoControl "low" demoComfort))) = Some t' /\
     currentTextureTarget t' !! "baseColor" = Some current' /\
     PlayerTargets.textureKeyBefore V2Player.demoPriority V2Player.demoTextureData
       "low" current') /\
  (exists t' current',
     trackData (state (adjustTextureTarget (demoControl "high" demoSetBack))) = Some t' /\
     currentTextureTarget t' !! "baseColor" = Some current' /\
     PlayerTargets.textureKeyBefore V2Player.demoPriority V2Player.demoTextureData
       current' "high").
Proof.
  split.
  - destruct (controller_follows_target_order V2Player.demoSupported V2Player.demoPriority
                V2Player.demoTextureData V2Player.demoTextureTargets ["low"; "high"]
                (demoControl "low" demoComfort) (demoWindow "low" demoComfort) "low"
                demoTextureTargets_known eq_refl eq_refl eq_refl eq_refl)
      as (t' & c' & Ht' & Hc' & _ & Hup & _); [by left|simpl; lia|].
    exists t', c'. split_and!; [exact Ht'|exact Hc'|]. apply Hup. split; by vm_compute.
  - destruct (controller_follows_target_order V2Player.demoSupported V2Player.demoPriority
                V2Player.demoTextureData V2Player.demoTextureTargets ["low"; "high"]
                (demoControl "high" demoSetBack) (demoWindow "high" demoSetBack) "high"
                demoTextureTargets_known eq_refl eq_refl eq_refl eq_refl)
      as (t' & c' & Ht' & Hc' & _ & _ & _ & Hdown); [by right; left|simpl; lia|].
    exists t', c'. split_and!; [exact Ht'|exact Hc'|]. apply Hdown. left. by vm_compute.
Defined.
